(* ===== verification/_CoqProject ===== *)
-Q . S2P
Prelude.v
Utf8.v
PyNum.v
Effects.v
Wp.v
PyJson.v
Supabase.v
Render.v
Json.v
JsonAgree.v
Probe.v
Pipeline.v
Cli.v
Jobs.v
Invariant.v
Queue.v
