(* ===== verification/Prelude.v ===== *)
(** * A verification development of [scripts/render-manim.py]

    The program (src/scripts/render-manim.py, the only source file) is a
    batch job runner.  One run of [main]:
    - reads its credentials from the environment ([SUPABASE_URL],
      [SUPABASE_SERVICE_KEY]) and parses [--quality] and [--limit];
    - fetches the rows of the [videos] table whose status is
      [generating] and whose script is set (the Job Fetcher,
      [supabase_request], which decodes the reply with [json.loads]);
    - for every row, inside a fresh temporary directory: renders the row's
      Manim script ([render_script]), probes the duration
      ([get_video_duration]) and a thumbnail ([generate_thumbnail]),
      uploads the video and the thumbnail to object storage
      ([supabase_upload], POST then PUT) and writes a terminal status back
      ([supabase_update_video], PATCH);
    - prints a summary of the rendered and failed counts.

    ** How the development models it

    The program talks to three things it does not own: the Supabase REST
    and storage endpoints, the external tools ([manim], [ffprobe],
    [ffmpeg]) and the local file system.  The first two are black boxes:
    an [Effects.Oracle] answers every HTTP request (with a status and the
    bytes of the body) and every process run, as a function of the
    history of the run so far, so every theorem holds for every
    behaviour of the servers and of the tools.  [Queue] then puts a
    concrete database behind the oracle, modelled from the spec, to
    compose the runs of the script with the table they work on.  The
    local file system is modelled concretely (a [gmap] from absolute
    paths to files and directories), because the program itself creates,
    searches, reads and deletes its files.  Every call to the outside
    world and every [print] is appended to a trace, and the theorems
    about the pipeline are statements about that trace and the final
    file system.  Python exceptions are values ([Effects.exn]); an
    exception that the code does not catch ends the run, as it does in
    Python.  The library functions the script calls on data ([json.dumps],
    [json.loads], [bytes.decode], [str.strip], [int()], [float()],
    [argparse]) are modelled as CPython 3.11 computes them, because the
    script's behaviour on unusual replies and arguments is theirs.

    Files (in dependency order, as listed in _CoqProject):
    - [Prelude] (this file): the scope [py_scope], the string helpers the
      code needs ([str_endswith] for glob patterns, [str_split]), lemmas
      on strings and lists, the hint databases [pipe] and [pipe_rw], the
      tactics [str_simpl], [case_if] and [zcmp].
    - [Utf8]: a Python [str] as the UTF-8 bytes of its code points:
      [utf8_encode], the decoding [utf8_decode] into code points,
      [utf8_ok] (the check of [bytes.decode()]: the bytes of a [str]
      without lone surrogates), and the round trip between them.
    - [PyNum]: Python's [str.strip], [int(str)] with its limit of 4300
      digits ([INT_MAX_STR_DIGITS]), [float(str)] (grammar and correctly
      rounded binary64 through [SpecFloat]), [int(float)], the shortest
      round-tripping [float.__repr__] ([float_repr]), with the white
      space each of them accepts; the library lemmas that the fuel of
      [str.strip] is enough ([py_strip_trims]), that [int(str(n)) = n],
      and that [float()] accepts every JSON number.
    - [Effects]: paths and [pathlib]'s [/] ([path_join], which keeps
      [..] components as [pathlib] does), the kernel's reading of a path
      with [..] ([resolve], [walk_error]), the file system as a [gmap]
      and its operations ([path_exists], [write_text], [mkdir_exist_ok],
      [iterdir], [glob_star], [rglob_star], [read_bytes], [rmtree]);
      [tempfile] ([mkdtemp], [with_tempdir]); JSON values, [str()] and
      [repr()]; [bytes.decode()] ([bytes_decode]); HTTP calls and
      replies, process calls and outcomes, events; the [Oracle]; the
      state-and-exception monad [M] over a [World] (file system and
      trace) with [try_except] and [try_finally]; [urlopen] and
      [subprocess_run], whose output in [text=True] mode is decoded as
      [subprocess] does ([proc_output], [translate_newlines]: strict
      UTF-8, then carriage returns and CRLF pairs made line feeds).
    - [Wp]: a weakest-precondition calculus for [M] ([wp], one rule per
      combinator and effect, the tactic [wp_auto]), the measures of a
      trace ([http_calls], [patch_calls], [upload_calls]), the class of
      request-free computations ([quiet], hint database [quiet]) and the
      lemmas on [tempfile] ([mkdtemp_fresh], [with_tempdir_removes]).
    - [PyJson]: [json.loads(resp.read())] (line 51) as CPython 3.11 runs
      it on bytes: [detect_encoding] and the decoding with
      ['surrogatepass'] ([decode_bytes]: UTF-8, UTF-16 and UTF-32 with
      or without a byte order mark), the scanner of [json.scanner] and
      [json.decoder] ([scan_once], [scanstring], [match_number],
      [match_constant]) over code points with its exceptions
      ([JSONDecodeError], [RecursionError] at [JSON_DEPTH] = 993 nested
      containers, the [ValueError] of [int()]), and [loads_text]; the
      lemmas that the scanner's fuel is enough ([loads_fuel_enough]) and
      that deeper nesting raises ([loads_nesting_bound]).
    - [Supabase]: [supabase_request], [supabase_upload] and
      [supabase_update_video] (lines 26-100) in a Section over the
      credentials, with [json.loads] of the reply and the
      [e.read().decode()] of the error handlers; C20, C21.
    - [Render]: [QUALITY_FLAGS] and [render_script] with its search for
      the produced video, [find_output] (lines 30-34, 125-157), and the
      excerpt [str_last] of [manim]'s error output, sliced by code points
      as Python slices a [str] ([str_last_bounds]); C17-C19.
    - [Json]: [json.dumps] with its defaults ([dumps_l], [encode_str],
      [escape_cp]: [ensure_ascii] with surrogate pairs), the bytes of a
      request body ([wire_body], lines 46 and 93), and an RFC 8259 reader
      ([json_read]) standing for the database's reading of them (from
      the spec; like PostgreSQL's [json] input it rejects an unpaired
      surrogate escape); the round trip [json_wire_roundtrip].
    - [JsonAgree]: [json.loads] against the RFC 8259 reader: a
      simulation between the two scanners over their fuels, the
      Python value of a JSON document ([py_value]: objects as dicts,
      floats by their [repr]); that they agree on every UTF-8 text
      within the two limits ([loads_agrees_read]) and
      [json.loads(json.dumps(v)) = v] ([loads_dumps]).
    - [Probe]: [get_video_duration] and [generate_thumbnail]
      (lines 103-122); C22, C23.
    - [Pipeline]: [main] after the argument parsing (lines 166-239)
      split as the code is: the render-failed branch [on_render_failed],
      the rendered branch [on_rendered], the loop body [process_video],
      the loop with its counters [run_videos], the iteration over the
      decoded reply [py_iter]; the per-job contract [terminal]/[job_ok]
      and the contract of a run [run_post]; a concrete deployment
      ([demo_oracle]) for the witnesses; C1-C3, C5-C7, C9, C10, C24-C27.
    - [Cli]: the command line (lines 160-164, 242-243): what CPython
      3.11's [argparse] does with [--quality], [--limit] and [-h]
      ([classify] with [parse_optional], [consume], [take_value],
      [parse_args]), the exits with status 2 and 0, [main_argv] and the
      entry point [script]; the store semantics of the options as a
      reference ([render_opt], [apply_opt]); C13-C16.
    - [Jobs]: the per-job state machine of the spec ([job_step]) over
      the whole table ([db_step]), the meaning of the script's PATCH on
      the table (the row of [id=eq.<id>] takes the [status] the server
      reads from the body's bytes: [db_apply_patch]), the accepted PATCHes
      of a trace ([accepted_patches], [db_of_trace]); C4, the refinement.
    - [Invariant]: invariants of the world as an interface: the class
      [WorldInv OK Procs P] states that every effect the script performs
      keeps [P] under the oracles [OK], a process run only for the calls
      [Procs]; [keeps] is closed under the monad's combinators (hint
      database [inv], tactic [inv_auto]), so the Section [Components]
      proves once, against the class, that every function of the script
      and the whole [script] keep any such invariant.  The instance
      [fs_wf_inv] (the file system is a tree, [fs_wf], decided by
      [fs_wfb]) gives [script_keeps_fs_tree]; the instance [job_inv]
      (every [manim] run happens in the job's directory, which is gone
      at the end) gives C8.
    - [Queue]: the database behind the REST interface, modelled from
      the spec and PostgREST's documented behaviour: the table as a
      [store], the rows the fetch filter selects ([queue]); a server
      ([server_oracle]) that answers a GET of [videos] by evaluating its
      query string ([parse_param], [run_query]: [status=eq.],
      [manim_script=not.is.null], [limit=], [select=]; anything else is
      [400]), so that the filter the script writes is itself checked,
      and accepts every PATCH; the instance [patch_inv] of [WorldInv]
      (every PATCH sent was accepted); one run that returns
      ([completed_run]) and repeated runs ([nsteps]); C11 and C12.

    ** What the theorems show

    - The status contract (C1-C3, C5-C7): every job that completes
      writes exactly one terminal status, to its own row, as its last
      request ([ready] with URLs and duration, or [failed]); a job that
      raises has sent none or that one; the loop's counters are the
      numbers of those outcomes; a failed render uploads nothing and
      writes [failed], then its log at the path the kernel resolves
      (every error of the reply and of the write included); [ready] is
      written only after the storage accepted the video, and a job whose
      video was accepted is never counted failed, whatever the thumbnail
      and the reply to its PATCH.
    - The refinement (C4): the PATCHes the database accepts, read from
      their bytes, move the table by steps of the spec's machine
      [generating -> ready | failed], only on the fetched rows; when all
      are accepted, a loop that completes leaves every fetched row with
      the status of its outcome and counters that count them, and a loop
      that raised after [n] rows leaves those [n] with their outcomes and
      the rest unchanged.  The Section [Refinement] proves it against
      [run_videos_wp], the loop's contract, and [Json]'s round trip.
    - The job directory (C8): every [manim] run of a job happens in a
      directory made for the job under the temporary directory, which
      did not exist before and of which nothing is left afterwards.
    - The entry point (C9, C10, C15): missing credentials exit with
      status 1 before any effect; an empty (falsy) fetch ends after the
      one GET; [argparse] runs first (status 2 for a bad command line, 0
      for the help).
    - The composition with the database (C11, C12): the reply of the
      fetch goes through [json.dumps] on the server and [json.loads] in
      the script ([loads_dumps]), the loop's PATCHes through the
      refinement (C4), and the invariant of [patch_inv] through
      [Invariant]'s generic proof; together, a run that returns takes
      exactly the first [--limit] rows off the queue of waiting jobs
      (C11), and repeated runs that return empty it: liveness of the
      queue (C12).
    - The command line (C13, C14, C16): [parse_args] equals the store
      semantics of the two options (the last setting wins); the quality
      it returns is always a key of [QUALITY_FLAGS]; abbreviations parse
      as the full option.
    - The components (C17-C23): every branch of [render_script], the
      quality fallback, the search that scans the whole directory only
      when [media/videos/scene] is absent, the upload with its PUT retry,
      the PATCH with the [UnicodeDecodeError] of its error handler, the
      duration probe that never raises, the thumbnail that may raise.
    - Behaviours the spec does not expect (C24-C27, see the findings of
      the manifest): an error output of [manim] that is not UTF-8 aborts
      the batch before any request; an [ffmpeg] timeout aborts the job
      before its upload and its PATCH; [thumbnail_url] follows the local
      file, not the upload; a reply nesting more than 993 arrays ends the
      run with [RecursionError] and status 1.
    Each property with hypotheses has a witness lemma that applies it at
    a concrete input.

    ** Bounds and fuel

    [mkdtemp_go] tries at most [TMP_MAX] = 238328 names, the bound of
    CPython's [tempfile] on Linux, and raises [FileExistsError] after it,
    as CPython does.  [lstrip_go] and [rstrip_go] take the length of the
    text as fuel, enough since every step removes at least one byte.
    [to_binary64] sends literals above 10^310 to infinity and below
    10^-330 to zero, where the exact rounding gives the same result.
    [json_read] runs the reader with the length of the text plus one as
    fuel, which bounds the nesting and the number of elements;
    [Json.parse_dumps] shows that it is enough for every text
    [json.dumps] prints (a value of text length [n] reads with any fuel
    above [n]).  [loads_text] gives the scanner [2 * n + 1] calls on a
    text of [n] code points, enough by [loads_fuel_enough] (each value
    and each separator consumes input); the depth bound [JSON_DEPTH] =
    993 is not fuel but CPython's: with the default recursion limit of
    1000, the frames of [main], [supabase_request], [loads], [decode]
    and [raw_decode] leave room for 993 nested [scan_once] calls.
    [INT_MAX_STR_DIGITS] = 4300 is CPython's default limit on the digits
    [int()] converts.  [classify] and [consume] recurse on the argument
    list.  Every other loop of the program is a structural recursion
    over a list (the rows, the directory entries, the components of a
    path).

    ** What is not modelled

    The locale: the output of [text=True] is decoded as UTF-8, the
    encoding of every UTF-8 locale and of the C locale under Python
    3.11's locale coercion; other locale encodings are not modelled, nor
    the [UnicodeEncodeError] that [print] and [write_text] raise on a
    [str] holding a lone surrogate (an id read from PostgreSQL cannot
    hold one).  HTTP redirects, headers of replies and the wire framing,
    which are [urllib]'s; the storage service and the contents of the
    video and thumbnail files (the tools are oracles); the database
    beyond the [videos] rows the script reads and writes ([Queue] models
    those from the spec, not from code of the repository); non-ASCII
    decimal digits, which [int()], [float()] and [argparse]'s
    negative-number pattern also accept; the wrapping of the help text
    for narrow terminals and long program names; the URL-encoding of ids
    (the script sends them as they are, and the server model reads the
    text after [id=eq.]).  Symbolic links: [resolve] walks [..] over
    directories only.  Permissions and owners: no operation raises
    [PermissionError], so the [rmtree] that ends a [TemporaryDirectory]
    block always succeeds and a write fails only for a missing or
    non-directory parent.  Only [write_text] receives a path that may
    hold [..] (the failure log of a row id); the other operations receive
    the job directory, its files and the working directory, which hold
    none, and read their paths as written.  A Python [str] is held as
    its UTF-8 bytes and iterated by code points ([py_iter]); the
    theorems that read text back ([Json], [JsonAgree], [Jobs], [Queue])
    assume it well formed ([utf8_ok]), as every [str] without lone
    surrogates is.  Concurrency: there is none. *)

From stdpp Require Export base gmap strings list pretty.
From Stdlib Require Export ZArith Ascii.

Declare Scope py_scope.
Delimit Scope py_scope with py.

(** ** Strings *)

(** The newline character, for the ["\n"] of the Python literals. *)
Definition NL : string := String (ascii_of_nat 10) EmptyString.

(** [s.endswith(suffix)] *)
Definition str_endswith (suffix s : string) : bool :=
  let n := String.length s in
  let k := String.length suffix in
  bool_decide (k <= n)%nat && String.eqb (String.substring (n - k) k s) suffix.

(** [sep.join(l)], written for "/" and the like. *)
Fixpoint str_join (sep : string) (l : list string) : string :=
  match l with
  | [] => ""
  | [x] => x
  | x :: l' => x +:+ sep +:+ str_join sep l'
  end.

(** [s.split(c)] on one character, as Python splits: [n] separators give
    [n+1] pieces, empty pieces included. *)
Fixpoint str_split_go (c : Ascii.ascii) (s : string) (cur : string) : list string :=
  match s with
  | EmptyString => [String.rev cur]
  | String a s' =>
      if Ascii.eqb a c then String.rev cur :: str_split_go c s' ""
      else str_split_go c s' (String a cur)
  end.
Definition str_split (c : Ascii.ascii) (s : string) : list string :=
  str_split_go c s "".

(** [String.append] is [simpl never] under stdpp: its two equations. *)
Lemma string_app_nil (b : string) : "" +:+ b = b.
Proof. reflexivity. Qed.
Lemma string_app_cons x (a b : string) : String x a +:+ b = String x (a +:+ b).
Proof. reflexivity. Qed.

Ltac str_simpl := rewrite ?string_app_nil, ?string_app_cons in *.

Lemma string_app_assoc (a b c : string) : (a +:+ b) +:+ c = a +:+ (b +:+ c).
Proof. induction a as [|x a IH]; str_simpl; cbn; [done | by rewrite IH]. Qed.

Lemma string_length_app (a b : string) :
  String.length (a +:+ b) = (String.length a + String.length b)%nat.
Proof. induction a as [|x a IH]; str_simpl; cbn; [done | by rewrite IH]. Qed.

Lemma string_substring_app_r (a b : string) :
  String.substring (String.length a) (String.length b) (a +:+ b) = b.
Proof.
  induction a as [|x a IH]; str_simpl; cbn.
  - induction b as [|y b IHb]; cbn; [done | by rewrite IHb].
  - exact IH.
Qed.

(** A string ends with the suffix that was appended to it. *)
Lemma str_endswith_app (s t : string) : str_endswith t (s +:+ t) = true.
Proof.
  unfold str_endswith. rewrite string_length_app.
  rewrite Nat.add_sub. rewrite string_substring_app_r, String.eqb_refl.
  rewrite bool_decide_true by lia. done.
Qed.

(** Appending the same suffix is injective on the left. *)
Lemma string_app_inj_l (s1 s2 t : string) : s1 +:+ t = s2 +:+ t -> s1 = s2.
Proof.
  intros H.
  assert (Hl : String.length s1 = String.length s2).
  { apply (f_equal String.length) in H. rewrite !string_length_app in H. lia. }
  revert s2 H Hl. induction s1 as [|a s1 IH]; intros [|b s2] H Hl;
    str_simpl; cbn in *; try done.
  injection H as -> H. f_equal. apply IH; [done | lia].
Qed.

(** Prepending the same prefix is injective. *)
Lemma string_app_inv_head (s t1 t2 : string) : s +:+ t1 = s +:+ t2 -> t1 = t2.
Proof. induction s as [|a s IH]; str_simpl; [done | intros [= H]; auto]. Qed.

(** Two strings that end in different suffixes of the same length differ. *)
Lemma string_app_suffix_ne (s1 s2 t1 t2 : string) :
  String.length t1 = String.length t2 -> t1 <> t2 -> s1 +:+ t1 <> s2 +:+ t2.
Proof.
  intros Hl Hne H.
  assert (Hs : String.length s1 = String.length s2).
  { apply (f_equal String.length) in H. rewrite !string_length_app in H. lia. }
  revert s2 H Hs. induction s1 as [|a s1 IH]; intros [|b s2] H Hs;
    str_simpl; cbn in *; try done.
  injection H as _ H. apply (IH s2); [done | lia].
Qed.

(** ** Lists *)

Lemma removelast_snoc {A} (l : list A) x : removelast (l ++ [x]) = l.
Proof. by rewrite removelast_last. Qed.

(** ** Automation *)

Create HintDb pipe discriminated.
Create Rewrite HintDb pipe_rw.
#[export] Hint Resolve str_endswith_app : pipe.
#[export] Hint Rewrite string_app_assoc string_length_app : pipe_rw.

(** [inv_eq H] splits an equation between pairs or results. *)
Ltac inv_eq H := injection H as; subst.

(** [case_if] destructs the first [if] of the goal, keeping its equation. *)
Ltac case_if :=
  match goal with
  | |- context [if ?b then _ else _] =>
      let E := fresh "E" in destruct b eqn:E
  end.

(** [zcmp] splits every integer comparison of the goal into its two
    cases, then simplifies the boolean connectives. *)
Ltac zcmp :=
  repeat match goal with
  | |- context [(?a <=? ?b)%Z] => destruct (Z.leb_spec a b)
  | |- context [(?a <? ?b)%Z] => destruct (Z.ltb_spec a b)
  end; cbn [andb negb].

(** [zcmp_eq]: the same for the equality tests [=?] on [Z]. *)
Ltac zcmp_eq :=
  repeat match goal with
  | |- context [(?a =? ?b)%Z] => destruct (Z.eqb_spec a b)
  end; cbn [andb orb negb].
