(* ===== verification/Utf8.v ===== *)
(** * Utf8: Python text as UTF-8 bytes

    The development holds a Python [str] as the UTF-8 bytes of its code
    points (a Coq [string]).  This file gives the correspondence: the
    encoding of a code point, the decoding of bytes into the code points
    of the [str] they hold, and [utf8_ok], the bytes of a [str] without
    lone surrogates; with the round trip between them.  [Json] escapes
    the code points of a text and [Render] slices them. *)

From S2P Require Import Prelude.

(** ** Bytes and code points *)

Definition byte (c : ascii) : Z := Z.of_nat (nat_of_ascii c).
Definition chr (z : Z) : ascii := ascii_of_nat (Z.to_nat z).

(** A [str] written by the values of its UTF-8 bytes. *)
Definition bytes (l : list nat) : string := String.string_of_list_ascii (map ascii_of_nat l).

(** The UTF-8 encoding of one code point. *)
Definition utf8_encode_cp (cp : Z) : list ascii :=
  if (cp <? 128)%Z then [chr cp]
  else if (cp <? 2048)%Z then [chr (192 + cp / 64); chr (128 + cp mod 64)]
  else if (cp <? 65536)%Z then
    [chr (224 + cp / 4096); chr (128 + (cp / 64) mod 64); chr (128 + cp mod 64)]
  else [chr (240 + cp / 262144); chr (128 + (cp / 4096) mod 64);
        chr (128 + (cp / 64) mod 64); chr (128 + cp mod 64)].

Definition utf8_encode (cps : list Z) : list ascii := flat_map utf8_encode_cp cps.

(** The code points of the UTF-8 bytes of a [str].  The bytes of a
    Python [str] are always well formed; on other bytes the decoding is
    arbitrary ([utf8_ok] below excludes them). *)
Fixpoint utf8_decode (l : list ascii) : list Z :=
  match l with
  | [] => []
  | c :: r =>
      let b := byte c in
      if (b <? 128)%Z then b :: utf8_decode r
      else if (b <? 224)%Z then
        match r with
        | c1 :: r1 => ((b - 192) * 64 + (byte c1 - 128))%Z :: utf8_decode r1
        | [] => [b]
        end
      else if (b <? 240)%Z then
        match r with
        | c1 :: c2 :: r2 =>
            ((b - 224) * 4096 + (byte c1 - 128) * 64 + (byte c2 - 128))%Z :: utf8_decode r2
        | _ => [b]
        end
      else
        match r with
        | c1 :: c2 :: c3 :: r3 =>
            ((b - 240) * 262144 + (byte c1 - 128) * 4096 + (byte c2 - 128) * 64 +
             (byte c3 - 128))%Z :: utf8_decode r3
        | _ => [b]
        end
  end.

(** A Unicode scalar value: a code point that is not a surrogate. *)
Definition is_scalar (cp : Z) : bool :=
  (0 <=? cp)%Z && (cp <? 1114112)%Z && negb ((55296 <=? cp)%Z && (cp <? 57344)%Z).

(** Well-formed UTF-8: the bytes are the encoding of scalar values. *)
Definition utf8_ok (l : list ascii) : bool :=
  bool_decide (utf8_encode (utf8_decode l) = l) && forallb is_scalar (utf8_decode l).

(** Code points that are all scalar values. *)
Definition scalars (cps : list Z) : Prop := Forall (fun cp => is_scalar cp = true) cps.

(** ** Bytes *)

Lemma byte_chr z : (0 <= z < 256)%Z -> byte (chr z) = z.
Proof.
  intros H. unfold byte, chr. rewrite Ascii.nat_ascii_embedding by lia. lia.
Qed.
Lemma chr_byte c : chr (byte c) = c.
Proof. unfold byte, chr. rewrite Nat2Z.id. apply Ascii.ascii_nat_embedding. Qed.
Lemma byte_bound c : (0 <= byte c < 256)%Z.
Proof. unfold byte. pose proof (Ascii.nat_ascii_bounded c). lia. Qed.
Lemma chr_inj z w : (0 <= z < 256)%Z -> (0 <= w < 256)%Z -> chr z = chr w -> z = w.
Proof. intros Hz Hw E. rewrite <- (byte_chr z), <- (byte_chr w), E by done. done. Qed.
Lemma chr_eqb_ne z w : (0 <= z < 256)%Z -> (0 <= w < 256)%Z -> z <> w ->
  Ascii.eqb (chr z) (chr w) = false.
Proof. intros Hz Hw Hne. apply Ascii.eqb_neq. intros E. by apply chr_inj in E. Qed.
Lemma utf8_ok_spec l :
  utf8_ok l = true -> utf8_encode (utf8_decode l) = l /\ Forall (fun cp => is_scalar cp = true) (utf8_decode l).
Proof.
  unfold utf8_ok. intros [H1 H2]%andb_prop. split; [by apply bool_decide_eq_true in H1|].
  apply Forall_forall. intros x Hx%list_elem_of_In. by eapply forallb_forall in H2.
Qed.

(** ** UTF-8 *)

Lemma utf8_decode_cp cp r :
  is_scalar cp = true -> utf8_decode (utf8_encode_cp cp ++ r) = cp :: utf8_decode r.
Proof.
  unfold is_scalar. intros Hs. apply andb_prop in Hs as [Hs _].
  apply andb_prop in Hs as [H0%Z.leb_le Hmax%Z.ltb_lt].
  unfold utf8_encode_cp.
  destruct (Z.ltb_spec cp 128); [|destruct (Z.ltb_spec cp 2048); [|destruct (Z.ltb_spec cp 65536)]];
    cbn [app utf8_decode]; rewrite !byte_chr by (Z.div_mod_to_equations; lia); zcmp;
    try (exfalso; Z.div_mod_to_equations; lia); f_equal; Z.div_mod_to_equations; lia.
Qed.

Lemma utf8_decode_encode cps :
  Forall (fun cp => is_scalar cp = true) cps -> utf8_decode (utf8_encode cps) = cps.
Proof.
  induction 1 as [|cp cps Hcp _ IH]; [done|]. cbn [utf8_encode flat_map].
  rewrite utf8_decode_cp by done. f_equal. apply IH.
Qed.

Lemma utf8_ok_encode cps :
  Forall (fun cp => is_scalar cp = true) cps -> utf8_ok (utf8_encode cps) = true.
Proof.
  intros H. unfold utf8_ok. rewrite utf8_decode_encode by done.
  rewrite bool_decide_eq_true_2 by done. cbn [andb].
  apply forallb_forall. intros x Hx%list_elem_of_In. by eapply Forall_forall in H.
Qed.

(** Text made of two well-formed texts is well formed. *)
Lemma utf8_ok_app a b : utf8_ok a = true -> utf8_ok b = true -> utf8_ok (a ++ b) = true.
Proof.
  intros [Ha Hsa]%utf8_ok_spec [Hb Hsb]%utf8_ok_spec.
  rewrite <- Ha, <- Hb. unfold utf8_encode. rewrite <- flat_map_app.
  apply utf8_ok_encode, Forall_app; auto.
Qed.


(** ASCII bytes are their own code points. *)
Lemma scalar_bounds cp : is_scalar cp = true -> (0 <= cp < 1114112)%Z.
Proof. unfold is_scalar. intros [[H1%Z.leb_le H2%Z.ltb_lt]%andb_prop _]%andb_prop. lia. Qed.

Lemma enc_cp_ascii cp : (0 <= cp < 128)%Z -> utf8_encode_cp cp = [chr cp].
Proof. intros H. unfold utf8_encode_cp. destruct (Z.ltb_spec cp 128); [done|lia]. Qed.

(** The bytes of a code point past ASCII are all at least 128, the first
    at least 192. *)
Lemma enc_cp_high cp :
  is_scalar cp = true -> (128 <= cp)%Z ->
  exists c r, utf8_encode_cp cp = c :: r /\ (192 <= byte c)%Z /\ Forall (fun b => (128 <= byte b)%Z) r.
Proof.
  intros Hs%scalar_bounds H. unfold utf8_encode_cp.
  destruct (Z.ltb_spec cp 128); [lia|].
  destruct (Z.ltb_spec cp 2048); [|destruct (Z.ltb_spec cp 65536)];
    (eexists _, _; split; [reflexivity|]);
    rewrite !byte_chr by (Z.div_mod_to_equations; lia);
    (split; [Z.div_mod_to_equations; lia|]);
    repeat constructor; rewrite byte_chr by (Z.div_mod_to_equations; lia);
    Z.div_mod_to_equations; lia.
Qed.

Lemma utf8_decode_ascii l :
  Forall (fun c => (byte c < 128)%Z) l -> utf8_decode l = map byte l.
Proof.
  induction 1 as [|c l Hc _ IH]; [done|]. cbn [utf8_decode map].
  destruct (Z.ltb_spec (byte c) 128); [|lia]. by rewrite IH.
Qed.

Lemma utf8_ok_ascii l : Forall (fun c => (byte c < 128)%Z) l -> utf8_ok l = true.
Proof.
  intros H. unfold utf8_ok. rewrite utf8_decode_ascii by done.
  assert (He : utf8_encode (map byte l) = l).
  { induction H as [|c l Hc _ IH]; [done|]. cbn [map utf8_encode flat_map].
    unfold utf8_encode_cp at 1. destruct (Z.ltb_spec (byte c) 128); [|lia].
    rewrite chr_byte. cbn. f_equal. apply IH. }
  rewrite bool_decide_eq_true_2 by done. cbn [andb].
  apply forallb_forall. intros x Hx. apply in_map_iff in Hx as [c [<- Hc]].
  apply list_elem_of_In in Hc. eapply Forall_forall in H; [|done]. pose proof (byte_bound c).
  unfold is_scalar. zcmp; lia.
Qed.
