(* ===== verification/PyNum.v ===== *)
(** * PyNum: [str.strip], [int(str)], [float(str)], [int(float)] and [repr(float)] as CPython computes them

    [get_video_duration] (render-manim.py, line 111) computes
    [int(float(result.stdout.strip()))].  This file models the three
    built-ins on text given as UTF-8 bytes:
    - [py_strip]: removes the code points that [str.isspace] accepts, at
      both ends;
    - [py_float]: the grammar of [float()] (sign, [inf], [infinity],
      [nan] in any case, decimal digits with an optional fraction and
      exponent, single underscores between digits), and the correctly
      rounded conversion to binary64 (round half to even), computed with
      the rounding functions of [Stdlib.Floats.SpecFloat];
    - [py_int_of_float]: truncation toward zero, [None] for the
      [OverflowError] of an infinity and the [ValueError] of a NaN.
    It also holds [int(str)] (the [type=int] of [--limit], line 163, and
    the integers of [json.loads]) with CPython's limit of
    [INT_MAX_STR_DIGITS] = 4300 digits, and [float.__repr__]
    ([float_repr], the shortest digits that read back to the same
    binary64), which [PyJson] uses for the floats [json.loads] returns.
    The lemmas show that the fuel of [str.strip] is enough, that
    [int(str(n)) = n], and that [float()] accepts the text of every JSON
    number.  Non-ASCII decimal digits, which [float()] also accepts, are
    not recognised. *)

From S2P Require Import Prelude Utf8.
From Stdlib Require Import SpecFloat.

(** ** [str.strip()] *)

(** The UTF-8 encodings of the white space [int()] and [float()] skip
    around a number: U+0009-000D, U+0020, U+0085, U+00A0, U+1680,
    U+2000-200A, U+2028, U+2029, U+202F, U+205F, U+3000. *)
Definition py_num_whitespace : list string :=
  map (fun n => bytes [n]) [9; 10; 11; 12; 13; 32] ++
  [bytes [194; 133]; bytes [194; 160]; bytes [225; 154; 128]] ++
  map (fun n => bytes [226; 128; n]) [128; 129; 130; 131; 132; 133; 134; 135; 136; 137; 138] ++
  [bytes [226; 128; 168]; bytes [226; 128; 169]; bytes [226; 128; 175];
   bytes [226; 129; 159]; bytes [227; 128; 128]].

(** The code points of [str.isspace]: the above and the separators
    U+001C-001F, which [str.strip] removes but [int()] and [float()]
    reject. *)
Definition py_whitespace : list string :=
  map (fun n => bytes [n]) [28; 29; 30; 31] ++ py_num_whitespace.

Definition str_drop (k : nat) (s : string) : string :=
  String.substring k (String.length s - k) s.

Definition str_drop_end (k : nat) (s : string) : string :=
  String.substring 0 (String.length s - k) s.

(** Removing the white space [ws] at the start, one code point a step. *)
Fixpoint lstrip_go (ws : list string) (fuel : nat) (s : string) : string :=
  match fuel with
  | O => s
  | S f =>
      match list_find (fun w => String.prefix w s = true) ws with
      | Some (_, w) => lstrip_go ws f (str_drop (String.length w) s)
      | None => s
      end
  end.

Fixpoint rstrip_go (ws : list string) (fuel : nat) (s : string) : string :=
  match fuel with
  | O => s
  | S f =>
      match list_find (fun w => str_endswith w s = true) ws with
      | Some (_, w) => rstrip_go ws f (str_drop_end (String.length w) s)
      | None => s
      end
  end.

(** Every step removes at least one byte, so the length is enough fuel. *)
Definition strip_with (ws : list string) (s : string) : string :=
  let l := lstrip_go ws (String.length s) s in
  rstrip_go ws (String.length l) l.

(** [str.strip()]. *)
Definition py_strip (s : string) : string := strip_with py_whitespace s.

(** The white space [int()] and [float()] skip around their text. *)
Definition num_strip (s : string) : string := strip_with py_num_whitespace s.

(** ** The grammar of [float()] *)

Definition is_digit (c : ascii) : bool :=
  let n := nat_of_ascii c in Nat.leb 48 n && Nat.leb n 57.

Definition digit_val (c : ascii) : Z := Z.of_nat (nat_of_ascii c - 48).

Definition lower (c : ascii) : ascii :=
  let n := nat_of_ascii c in
  if Nat.leb 65 n && Nat.leb n 90 then ascii_of_nat (n + 32) else c.

(** An underscore is allowed only between two digits. *)
Fixpoint underscores_ok_go (prev_digit : bool) (l : list ascii) : bool :=
  match l with
  | [] => true
  | c :: l' =>
      if Ascii.eqb c "_"%char then
        prev_digit && match l' with d :: _ => is_digit d | [] => false end
        && underscores_ok_go false l'
      else underscores_ok_go (is_digit c) l'
  end.

(** A literal [float()] accepts. *)
Inductive float_lit :=
| LNum (neg : bool) (mant : Z) (exp10 : Z)   (* (-1)^neg * mant * 10^exp10 *)
| LInf (neg : bool)
| LNaN.

Fixpoint take_digits (l : list ascii) : list ascii * list ascii :=
  match l with
  | c :: l' => if is_digit c then let '(ds, r) := take_digits l' in (c :: ds, r) else ([], l)
  | [] => ([], [])
  end.

Definition digits_val (ds : list ascii) : Z :=
  foldl (fun acc c => acc * 10 + digit_val c)%Z 0%Z ds.

Definition take_sign (l : list ascii) : bool * list ascii :=
  match l with
  | "-"%char :: l' => (true, l')
  | "+"%char :: l' => (false, l')
  | _ => (false, l)
  end.

(** The exponent part: [e] or [E], a sign, at least one digit, and the
    end of the text. *)
Definition parse_exponent (l : list ascii) : option Z :=
  match l with
  | [] => Some 0%Z
  | c :: l' =>
      if Ascii.eqb (lower c) "e"%char then
        let '(neg, l2) := take_sign l' in
        let '(ds, rest) := take_digits l2 in
        if bool_decide (ds <> []) && bool_decide (rest = [])
        then Some (if neg then - digits_val ds else digits_val ds)%Z
        else None
      else None
  end.

Definition parse_decimal (neg : bool) (l : list ascii) : option float_lit :=
  let '(ip, r1) := take_digits l in
  let '(fp, r2) := match r1 with
                   | "."%char :: r => take_digits r
                   | _ => ([], r1)
                   end in
  let has_point := match r1 with "."%char :: _ => true | _ => false end in
  let r2 := if has_point then r2 else r1 in
  if bool_decide (ip = [] /\ fp = []) then None
  else
    match parse_exponent r2 with
    | Some e => Some (LNum neg (digits_val (ip ++ fp)) (e - Z.of_nat (length fp))%Z)
    | None => None
    end.

Definition parse_float_lit (s : string) : option float_lit :=
  let l := String.list_ascii_of_string (num_strip s) in
  if negb (underscores_ok_go false l) then None
  else
    let l := filter (fun c => negb (Ascii.eqb c "_"%char)) l in
    let '(neg, body) := take_sign l in
    let low := String.string_of_list_ascii (map lower body) in
    if String.eqb low "inf" || String.eqb low "infinity" then Some (LInf neg)
    else if String.eqb low "nan" then Some LNaN
    else parse_decimal neg body.

(** ** Correct rounding to binary64 *)

Definition prec : Z := 53.
Definition emax : Z := 1024.

(** The number of decimal digits of a positive integer. *)
Definition digits10 (m : Z) : Z := Z.of_nat (String.length (pretty m)).

(** [(-1)^neg * m * 10^k] rounded to nearest, ties to even.  A literal
    of at least 10^309 is an infinity and one below 10^-330 a zero, the
    same results the exact computation gives, without computing
    10^k for an enormous [k]. *)
Definition to_binary64 (neg : bool) (m k : Z) : spec_float :=
  if (m =? 0)%Z then S754_zero neg
  else if (digits10 m + k >? 310)%Z then S754_infinity neg
  else if (digits10 m + k <? -330)%Z then S754_zero neg
  else if (0 <=? k)%Z then binary_round prec emax neg (Z.to_pos (m * 10 ^ k)) 0
  else
    let '(q, e, loc) := SFdiv_core_binary prec emax m 0 (10 ^ (- k)) 0 in
    binary_round_aux prec emax neg q e loc.

Definition float_of_lit (lit : float_lit) : spec_float :=
  match lit with
  | LNum neg m k => to_binary64 neg m k
  | LInf neg => S754_infinity neg
  | LNaN => S754_nan
  end.

(** [float(s)]; [None] is the [ValueError] of a text that is not a
    float literal. *)
Definition py_float (s : string) : option spec_float :=
  float_of_lit <$> parse_float_lit s.

(** [int(x)] of a float: truncation toward zero. *)
Definition py_int_of_float (f : spec_float) : option Z :=
  match f with
  | S754_zero _ => Some 0%Z
  | S754_finite s m e =>
      let a := if (0 <=? e)%Z then (Zpos m * 2 ^ e)%Z else (Zpos m / 2 ^ (- e))%Z in
      Some (if s then (- a)%Z else a)
  | S754_infinity _ | S754_nan => None
  end.

(** ** [repr()] of a float

    [float.__repr__] (CPython's [float_repr_style] ["short"]): the
    shortest digit string that [float()] reads back as the same float,
    the one nearest to it among those of that length, ties to an even
    last digit (David Gay's [dtoa] in mode 0), printed in positional
    form when the decimal point [decpt] (the value is [0.D * 10^decpt])
    is in [(-4, 16]], in exponent form otherwise. *)

#[export] Instance spec_float_eq_dec : EqDecision spec_float.
Proof. solve_decision. Defined.

(** A positive finite float [m * 2^e] as the fraction [num / den]. *)
Definition frac_of (m : positive) (e : Z) : Z * Z :=
  (Zpos m * 2 ^ Z.max e 0, 2 ^ Z.max (- e) 0)%Z.

(** [10^e <= num / den]. *)
Definition pow10_le (num den e : Z) : bool :=
  if (0 <=? e)%Z then (den * 10 ^ e <=? num)%Z else (den <=? num * 10 ^ (- e))%Z.

(** [floor (log10 (num / den))]: the estimate from the binary logarithms
    ([log10 2 ~ 0.30103]) is within one of it, and two comparisons settle
    which. *)
Definition dec_exp (num den : Z) : Z :=
  let est := ((Z.log2 num - Z.log2 den) * 30103 / 100000)%Z in
  if pow10_le num den (est + 1) then (est + 1)%Z
  else if pow10_le num den est then est else (est - 1)%Z.

(** [num / den] at the decimal exponent [k]: the quotient and remainder
    of [num / (den * 10^k)], and the divisor. *)
Definition scale_div (num den k : Z) : Z * Z * Z :=
  let '(a, b) := if (0 <=? k)%Z then (num, den * 10 ^ k)%Z else (num * 10 ^ (- k), den)%Z in
  (a / b, a mod b, b)%Z.

(** Of the two [p]-digit decimals around [num / den] (the float [x]),
    the nearest that reads back as [x], if any, ties to even. *)
Definition shortest_at (x : spec_float) (num den e10 p : Z) : option (Z * Z) :=
  let k := (e10 - p + 1)%Z in
  let '(lo, rem, b) := scale_div num den k in
  let back d := bool_decide (to_binary64 false d k = x) in
  let lo_nearer := (2 * rem <? b)%Z || (2 * rem =? b)%Z && Z.even lo in
  match back lo, back (lo + 1)%Z with
  | true, true => Some (if lo_nearer then lo else (lo + 1)%Z, k)
  | true, false => Some (lo, k)
  | false, true => Some ((lo + 1)%Z, k)
  | false, false => None
  end.

(** The lengths [p], [p + 1], ... in turn.  Seventeen digits always read
    back, so the fuel of 17 from [p = 1] is never exhausted; past it the
    nearest 17-digit decimal is taken. *)
Fixpoint shortest_go (x : spec_float) (num den e10 p : Z) (fuel : nat) : Z * Z :=
  match fuel with
  | O =>
      let k := (e10 - 16)%Z in
      let '(lo, rem, b) := scale_div num den k in
      (if (2 * rem <? b)%Z || (2 * rem =? b)%Z && Z.even lo then lo else (lo + 1)%Z, k)
  | S f =>
      match shortest_at x num den e10 p with
      | Some r => r
      | None => shortest_go x num den e10 (p + 1) f
      end
  end.

(** [d * 10^k] without the trailing zeros of [d]. *)
Fixpoint strip_zeros (fuel : nat) (d k : Z) : Z * Z :=
  match fuel with
  | O => (d, k)
  | S f => if (0 <? d)%Z && (d mod 10 =? 0)%Z then strip_zeros f (d / 10) (k + 1) else (d, k)
  end.

Definition zeros (n : nat) : string := String.string_of_list_ascii (repeat "0"%char n).

(** [format_float_short] with the code ['r'] and [Py_DTSF_ADD_DOT_0]:
    the digits [ds] with the point at [decpt]; the exponent has a sign
    and at least two digits. *)
Definition repr_digits (neg : bool) (ds : string) (decpt : Z) : string :=
  let n := String.length ds in
  let sign := if neg then "-" else "" in
  if (decpt <=? -4)%Z || (16 <? decpt)%Z then
    let e := (decpt - 1)%Z in
    sign +:+ String.substring 0 1 ds +:+
    (if Nat.ltb 1 n then "." +:+ String.substring 1 (n - 1) ds else "") +:+
    "e" +:+ (if (e <? 0)%Z then "-" else "+") +:+
    (if (Z.abs e <? 10)%Z then "0" else "") +:+ pretty (Z.abs e)
  else if (decpt <=? 0)%Z then sign +:+ "0." +:+ zeros (Z.to_nat (- decpt)) +:+ ds
  else if (decpt <? Z.of_nat n)%Z then
    sign +:+ String.substring 0 (Z.to_nat decpt) ds +:+ "." +:+
    String.substring (Z.to_nat decpt) (n - Z.to_nat decpt) ds
  else sign +:+ ds +:+ zeros (Z.to_nat decpt - n) +:+ ".0".

(** [repr(x)] of a float. *)
Definition float_repr (x : spec_float) : string :=
  match x with
  | S754_zero neg => if neg then "-0.0" else "0.0"
  | S754_infinity neg => if neg then "-inf" else "inf"
  | S754_nan => "nan"
  | S754_finite neg m e =>
      let '(num, den) := frac_of m e in
      let '(d, k) := shortest_go (S754_finite false m e) num den (dec_exp num den) 1 17 in
      let '(d', k') := strip_zeros 20 d k in
      let ds := pretty d' in
      repr_digits neg ds (k' + Z.of_nat (String.length ds))
  end.

(** ** [int(str)] *)

(** [sys.get_int_max_str_digits()] of CPython 3.11: a conversion
    between [int] and decimal text refuses more digits than this with a
    [ValueError]. *)
Definition INT_MAX_STR_DIGITS : nat := 4300.

(** The integers [str()] prints and [int()] reads under that limit. *)
Definition int_str_ok (n : Z) : bool :=
  (Z.abs n <? 10 ^ Z.of_nat INT_MAX_STR_DIGITS)%Z.

(** [int(s)] in base 10: white space around, an optional sign, decimal
    digits with single underscores between digits, at most
    [INT_MAX_STR_DIGITS] digits (leading zeros count, underscores do
    not); [None] is the [ValueError].  Python's integers are unbounded,
    as [Z] is. *)
Definition py_int_of_str (s : string) : option Z :=
  let '(neg, body) := take_sign (String.list_ascii_of_string (num_strip s)) in
  if bool_decide (body <> []) &&
     forallb (fun c => is_digit c || Ascii.eqb c "_"%char) body &&
     underscores_ok_go false body
  then
    let ds := filter (fun c => negb (Ascii.eqb c "_"%char)) body in
    if Nat.leb (length ds) INT_MAX_STR_DIGITS
    then let n := digits_val ds in Some (if neg then (- n)%Z else n)
    else None
  else None.

(** Every white space of [int()] starts with a byte that is neither a
    digit nor [-], and ends with a byte that is not a digit. *)
Definition num_ws_ends_ok (w : string) : bool :=
  match String.list_ascii_of_string w with
  | c :: _ =>
      negb (is_digit c) && negb (Ascii.eqb c "-"%char) &&
      negb (is_digit (List.last (String.list_ascii_of_string w) "0"%char))
  | [] => false
  end.

(** The fraction and the exponent of a JSON number. *)
Definition json_frac (fpart : list ascii) : Prop :=
  fpart = [] \/ exists fp, fpart = "."%char :: fp /\ fp <> [] /\ Forall (fun c => is_digit c = true) fp.

Definition json_exp (epart : list ascii) : Prop :=
  epart = [] \/ exists e sg ed, epart = e :: sg ++ ed /\ (e = "e"%char \/ e = "E"%char) /\
    (sg = [] \/ sg = ["-"%char] \/ sg = ["+"%char]) /\ ed <> [] /\ Forall (fun c => is_digit c = true) ed.

(** ** [str.strip]: the fuel is enough *)

Lemma substring_length n m s :
  String.length (String.substring n m s) = Nat.min m (String.length s - n).
Proof.
  revert n m. induction s as [|c s IH]; intros [|n] [|m]; simpl; rewrite ?IH;
    first [lia | case_match; lia].
Qed.

Lemma str_drop_length k s : String.length (str_drop k s) = String.length s - k.
Proof. unfold str_drop. rewrite substring_length. lia. Qed.

Lemma str_drop_end_length k s : String.length (str_drop_end k s) = String.length s - k.
Proof. unfold str_drop_end. rewrite substring_length. lia. Qed.

Lemma prefix_empty w : 0 < String.length w -> String.prefix w EmptyString = false.
Proof. destruct w; simpl; [lia | done]. Qed.

Lemma str_endswith_empty w : 0 < String.length w -> str_endswith w EmptyString = false.
Proof. intros Hw. unfold str_endswith. simpl. rewrite bool_decide_false by lia. done. Qed.

Lemma length_zero_empty s : String.length s = 0 -> s = EmptyString.
Proof. by destruct s. Qed.

Lemma prefix_refl s : String.prefix s s = true.
Proof. induction s as [|c s IH]; simpl; [done|]. by destruct (ascii_dec c c). Qed.

Lemma prefix_trans a b c : String.prefix a b = true -> String.prefix b c = true -> String.prefix a c = true.
Proof.
  revert b c. induction a as [|x a IH]; intros [|y b] [|z c]; simpl; try done.
  destruct (ascii_dec x y) as [->|]; [|done]. destruct (ascii_dec y z) as [->|]; [|done].
  destruct (ascii_dec z z); [apply IH | done].
Qed.

Lemma prefix_substring0 m s : String.prefix (String.substring 0 m s) s = true.
Proof.
  revert m. induction s as [|c s IH]; intros [|m]; simpl; try done.
  destruct (ascii_dec c c); [apply IH | done].
Qed.

Section Strip.
Context (ws : list string) (Hws : forall w, w ∈ ws -> 0 < String.length w).

Lemma lstrip_go_enough n s :
  String.length s <= n -> forall w, w ∈ ws -> String.prefix w (lstrip_go ws n s) = false.
Proof.
  revert s. induction n as [|n IH]; intros s Hs w Hw; cbn [lstrip_go].
  - rewrite (length_zero_empty s) by lia. by apply prefix_empty, Hws.
  - destruct (list_find (fun w => String.prefix w s = true) ws) as [[i w']|] eqn:Hf.
    + apply list_find_Some in Hf as (Hi & _ & _).
      apply list_elem_of_lookup_2, Hws in Hi.
      apply IH; [rewrite str_drop_length; lia | done].
    + apply list_find_None in Hf. rewrite Forall_forall in Hf.
      apply not_true_iff_false. by apply Hf.
Qed.

Lemma rstrip_go_enough n s :
  String.length s <= n -> forall w, w ∈ ws -> str_endswith w (rstrip_go ws n s) = false.
Proof.
  revert s. induction n as [|n IH]; intros s Hs w Hw; cbn [rstrip_go].
  - rewrite (length_zero_empty s) by lia. by apply str_endswith_empty, Hws.
  - destruct (list_find (fun w => str_endswith w s = true) ws) as [[i w']|] eqn:Hf.
    + apply list_find_Some in Hf as (Hi & _ & _).
      apply list_elem_of_lookup_2, Hws in Hi.
      apply IH; [rewrite str_drop_end_length; lia | done].
    + apply list_find_None in Hf. rewrite Forall_forall in Hf.
      apply not_true_iff_false. by apply Hf.
Qed.

Lemma rstrip_go_prefix n s : String.prefix (rstrip_go ws n s) s = true.
Proof.
  revert s. induction n as [|n IH]; intros s; cbn [rstrip_go]; [apply prefix_refl|].
  destruct (list_find (fun w => str_endswith w s = true) ws) as [[i w']|];
    [|apply prefix_refl].
  eapply prefix_trans; [apply IH | apply prefix_substring0].
Qed.

(** Stripping leaves no white space of [ws] at either end. *)
Lemma strip_with_trims s w :
  w ∈ ws -> String.prefix w (strip_with ws s) = false /\ str_endswith w (strip_with ws s) = false.
Proof.
  intros Hw. unfold strip_with. split.
  - apply not_true_iff_false. intros H.
    assert (Hl : String.prefix w (lstrip_go ws (String.length s) s) = false)
      by (apply lstrip_go_enough; [lia | done]).
    rewrite (prefix_trans _ _ _ H (rstrip_go_prefix _ _)) in Hl. discriminate.
  - apply rstrip_go_enough; [lia | done].
Qed.

End Strip.

Lemma py_whitespace_nonempty w : w ∈ py_whitespace -> 0 < String.length w.
Proof.
  intros Hw%list_elem_of_In.
  assert (H : forallb (fun w => Nat.ltb 0 (String.length w)) py_whitespace = true)
    by (vm_compute; reflexivity).
  rewrite forallb_forall in H. by apply Nat.ltb_lt, H.
Qed.

(** [str.strip()] removes every whitespace code point at both ends:
    the length of the text is enough fuel for both loops, and what is
    left neither starts nor ends with a code point that [str.isspace]
    accepts. *)
Theorem py_strip_trims s w :
  w ∈ py_whitespace ->
  String.prefix w (py_strip s) = false /\ str_endswith w (py_strip s) = false.
Proof. apply strip_with_trims, py_whitespace_nonempty. Qed.

(** ** Reading back a printed integer: [int(str(n)) == n] *)

Lemma list_ascii_app a b :
  String.list_ascii_of_string (a +:+ b) =
    String.list_ascii_of_string a ++ String.list_ascii_of_string b.
Proof. induction a as [|c a IH]; str_simpl; simpl; [done | by rewrite IH]. Qed.

(** The ten characters [is_digit] accepts. *)
Lemma is_digit_cases c :
  is_digit c = true ->
  c ∈ ["0"; "1"; "2"; "3"; "4"; "5"; "6"; "7"; "8"; "9"]%char.
Proof.
  unfold is_digit. intros [H1 H2]%andb_prop.
  apply Nat.leb_le in H1. apply Nat.leb_le in H2.
  rewrite <- (ascii_nat_embedding c).
  assert (nat_of_ascii c = 48 \/ nat_of_ascii c = 49 \/ nat_of_ascii c = 50 \/
          nat_of_ascii c = 51 \/ nat_of_ascii c = 52 \/ nat_of_ascii c = 53 \/
          nat_of_ascii c = 54 \/ nat_of_ascii c = 55 \/ nat_of_ascii c = 56 \/
          nat_of_ascii c = 57) as H by lia.
  repeat destruct H as [->|H]; [..|rewrite H]; vm_compute; set_solver.
Qed.

Lemma pretty_N_char_digit d :
  (d < 10)%N -> is_digit (pretty_N_char d) = true /\ digit_val (pretty_N_char d) = Z.of_N d.
Proof.
  intros Hd.
  assert (d = 0 \/ d = 1 \/ d = 2 \/ d = 3 \/ d = 4 \/ d = 5 \/ d = 6 \/ d = 7 \/
          d = 8 \/ d = 9)%N as H by lia.
  repeat destruct H as [->|H]; [..|subst]; split; reflexivity.
Qed.

Lemma digits_val_snoc L c : digits_val (L ++ [c]) = (digits_val L * 10 + digit_val c)%Z.
Proof. unfold digits_val. by rewrite foldl_app. Qed.

Lemma pretty_N_go_digits x s :
  exists L, String.list_ascii_of_string (pretty_N_go x s) = L ++ String.list_ascii_of_string s /\
    Forall (fun c => is_digit c = true) L /\ digits_val L = Z.of_N x /\
    ((0 < x)%N -> L <> []).
Proof.
  revert s. induction (N.lt_wf_0 x) as [x _ IH]; intros s.
  destruct (decide (x = 0%N)) as [->|Hx].
  - exists []. rewrite pretty_N_go_0. repeat split; [constructor | lia].
  - rewrite pretty_N_go_step by lia.
    destruct (IH (x `div` 10)%N ltac:(apply N.div_lt; lia)
                (String (pretty_N_char (x `mod` 10)) s)) as (L & HL & Hd & Hv & _).
    destruct (pretty_N_char_digit (x `mod` 10) ltac:(apply N.mod_lt; lia)) as [Hc Hcv].
    exists (L ++ [pretty_N_char (x `mod` 10)]). rewrite HL. simpl. rewrite <- app_assoc.
    split; [done|]. split; [apply Forall_app; auto|]. split.
    + rewrite digits_val_snoc, Hv, Hcv.
      pose proof (N.div_mod x 10 ltac:(lia)) as E.
      set (q := (x `div` 10)%N) in *. set (r := (x `mod` 10)%N) in *. lia.
    + intros _ [_ [=]]%app_eq_nil.
Qed.

(** [str(n)]: an optional minus sign and at least one decimal digit,
    whose value is [|n|]. *)
Lemma digit_eqb c d : is_digit c = true -> is_digit d = false -> Ascii.eqb c d = false.
Proof. intros Hc Hd. destruct (Ascii.eqb_spec c d) as [->|]; [congruence | done]. Qed.

Lemma take_digits_all L : Forall (fun c => is_digit c = true) L -> take_digits L = (L, []).
Proof. induction 1 as [|c L Hc HL IH]; simpl; [done|]. by rewrite Hc, IH. Qed.

(** The first digit [str()] prints of a positive number is not [0]. *)
Lemma pretty_N_go_lead x s :
  (0 < x)%N -> exists c r, String.list_ascii_of_string (pretty_N_go x s) = c :: r /\ c <> "0"%char.
Proof.
  revert s. induction (N.lt_wf_0 x) as [x _ IH]; intros s Hx.
  rewrite pretty_N_go_step by lia.
  destruct (decide (x `div` 10 = 0)%N) as [E|E].
  - rewrite E, pretty_N_go_0. cbn. eexists _, _. split; [reflexivity|]. intros Hc.
    destruct (pretty_N_char_digit (x `mod` 10) ltac:(apply N.mod_lt; lia)) as [_ Hv].
    rewrite Hc in Hv. change (digit_val "0"%char) with 0%Z in Hv.
    pose proof (N.div_mod x 10 ltac:(lia)). lia.
  - apply IH; [apply N.div_lt; lia | by apply N.neq_0_lt_0].
Qed.

(** [str(n)] has no leading zero: its digits are [0] alone or start with
    another digit. *)
Lemma pretty_Z_lead (n : Z) L ds :
  String.list_ascii_of_string (pretty n) = (if (n <? 0)%Z then ["-"%char] else []) ++ L ->
  L = "0"%char :: ds -> ds = [].
Proof.
  intros HL ->. destruct n as [|p|p]; [by injection HL| |].
  - change (pretty (Zpos p)) with (pretty_N_go (Npos p) "") in HL.
    destruct (pretty_N_go_lead (Npos p) "" ltac:(lia)) as (c & r & Hc & Hne).
    rewrite Hc in HL. cbn in HL. by injection HL as -> _.
  - change (pretty (Zneg p)) with ("-" +:+ pretty_N_go (Npos p) "") in HL.
    destruct (pretty_N_go_lead (Npos p) "" ltac:(lia)) as (c & r & Hc & Hne).
    rewrite list_ascii_app, Hc in HL. cbn in HL. by injection HL as -> _.
Qed.

Lemma pretty_Z_digits (n : Z) :
  exists L, String.list_ascii_of_string (pretty n) =
              (if (n <? 0)%Z then ["-"%char] else []) ++ L /\
    Forall (fun c => is_digit c = true) L /\ L <> [] /\ digits_val L = Z.abs n.
Proof.
  destruct n as [|p|p].
  - exists ["0"%char]. repeat split; [repeat constructor | done].
  - change (pretty (Zpos p)) with (pretty_N_go (Npos p) "").
    destruct (pretty_N_go_digits (Npos p) "") as (L & HL & Hd & Hv & Hne).
    exists L. rewrite HL, app_nil_r. repeat split; [done | apply Hne; lia | done].
  - change (pretty (Zneg p)) with ("-" +:+ pretty_N_go (Npos p) "").
    destruct (pretty_N_go_digits (Npos p) "") as (L & HL & Hd & Hv & Hne).
    exists L. rewrite list_ascii_app, HL, app_nil_r. repeat split; [done | apply Hne; lia | done].
Qed.

Lemma substring_full s : String.substring 0 (String.length s) s = s.
Proof. induction s as [|c s IH]; simpl; [done | by rewrite IH]. Qed.

Lemma substring_split m s :
  m <= String.length s ->
  s = String.substring 0 m s +:+ String.substring m (String.length s - m) s.
Proof.
  revert m. induction s as [|c s IH]; intros [|m] Hm; simpl in *; try lia.
  - done.
  - str_simpl. by rewrite substring_full.
  - str_simpl. rewrite <- IH by lia. done.
Qed.

Lemma str_endswith_app_inv w s : str_endswith w s = true -> exists t, s = t +:+ w.
Proof.
  unfold str_endswith. intros [Hle Heq]%andb_prop.
  apply bool_decide_eq_true in Hle. apply String.eqb_eq in Heq.
  exists (String.substring 0 (String.length s - String.length w) s).
  pose proof (substring_split (String.length s - String.length w) s ltac:(lia)) as E.
  replace (String.length s - (String.length s - String.length w)) with (String.length w) in E
    by lia.
  by rewrite Heq in E.
Qed.

Lemma lstrip_go_id ws n s :
  (forall w, w ∈ ws -> String.prefix w s = false) -> lstrip_go ws n s = s.
Proof.
  intros H. destruct n; cbn [lstrip_go]; [done|].
  destruct (list_find (fun w => String.prefix w s = true) ws) as [[i w]|] eqn:Hf; [|done].
  apply list_find_Some in Hf as (Hi & Hp & _). apply list_elem_of_lookup_2 in Hi.
  by rewrite H in Hp.
Qed.

Lemma rstrip_go_id ws n s :
  (forall w, w ∈ ws -> str_endswith w s = false) -> rstrip_go ws n s = s.
Proof.
  intros H. destruct n; cbn [rstrip_go]; [done|].
  destruct (list_find (fun w => str_endswith w s = true) ws) as [[i w]|] eqn:Hf; [|done].
  apply list_find_Some in Hf as (Hi & Hp & _). apply list_elem_of_lookup_2 in Hi.
  by rewrite H in Hp.
Qed.

(** A text with no white space of [ws] at either end is left as it is. *)
Lemma strip_with_id ws s :
  (forall w, w ∈ ws -> String.prefix w s = false /\ str_endswith w s = false) ->
  strip_with ws s = s.
Proof.
  intros H. unfold strip_with. rewrite lstrip_go_id by (intros w Hw; apply H, Hw).
  apply rstrip_go_id. intros w Hw. apply H, Hw.
Qed.

Lemma num_ws_ends w : w ∈ py_num_whitespace -> num_ws_ends_ok w = true.
Proof.
  intros Hw%list_elem_of_In. revert w Hw. apply forallb_forall. by vm_compute.
Qed.

Lemma prefix_first c w s : String.prefix (String c w) s = true -> exists s', s = String c s'.
Proof. destruct s as [|d s]; simpl; [done|]. destruct (ascii_dec c d) as [->|]; eauto. done. Qed.

Lemma last_app_ne {A} (l1 l2 : list A) d : l2 <> [] -> List.last (l1 ++ l2) d = List.last l2 d.
Proof.
  intros Hl2. induction l1 as [|x l1 IH]; simpl; [done|]. rewrite IH.
  destruct (l1 ++ l2) eqn:E; [|done]. by apply app_eq_nil in E as [_ ->].
Qed.

Lemma Forall_last {A} (P : A -> Prop) l d : Forall P l -> l <> [] -> P (List.last l d).
Proof.
  induction 1 as [|x l Hx Hl IH]; [done|]. intros _. simpl.
  destruct l; [done|]. by apply IH.
Qed.

Lemma digit_not_underscore c : is_digit c = true -> Ascii.eqb c "_"%char = false.
Proof. intros H. destruct (Ascii.eqb_spec c "_"%char) as [->|]; [discriminate | done]. Qed.

Lemma underscores_ok_digits b L :
  Forall (fun c => is_digit c = true) L -> underscores_ok_go b L = true.
Proof.
  intros HL. revert b. induction HL as [|c L Hc HL IH]; intros b; simpl; [done|].
  by rewrite digit_not_underscore.
Qed.

Lemma filter_no_underscore L :
  Forall (fun c => is_digit c = true) L ->
  filter (fun c => negb (Ascii.eqb c "_"%char)) L = L.
Proof.
  induction 1 as [|c L Hc HL IH]; [done|].
  rewrite filter_cons, decide_True; [by rewrite IH|]. by rewrite digit_not_underscore.
Qed.

Lemma take_sign_digit c L : is_digit c = true -> take_sign (c :: L) = (false, c :: L).
Proof.
  intros Hc%is_digit_cases. rewrite !elem_of_cons in Hc.
  repeat destruct Hc as [->|Hc]; try reflexivity. by apply elem_of_nil in Hc.
Qed.

(** A text that starts with a digit or [-] and ends with a digit has no
    white space of [int()] or [float()] at its ends. *)
Lemma num_strip_id s :
  (forall c r, String.list_ascii_of_string s = c :: r -> is_digit c = true \/ c = "-"%char) ->
  is_digit (List.last (String.list_ascii_of_string s) "0"%char) = true ->
  num_strip s = s.
Proof.
  intros Hfirst Hlast. apply strip_with_id. intros w Hw. pose proof (num_ws_ends w Hw) as Hok.
  unfold num_ws_ends_ok in Hok.
  destruct (String.list_ascii_of_string w) as [|c wl] eqn:Ew; [done|].
  apply andb_prop in Hok as [[Hc1 Hc2]%andb_prop Hc3].
  split; apply not_true_iff_false; intros H.
  - destruct w as [|c' w']; [done|]. simpl in Ew. injection Ew as <- _.
    apply prefix_first in H as [s' ->].
    destruct (Hfirst c' (String.list_ascii_of_string s') eq_refl) as [Hd | ->].
    + by rewrite Hd in Hc1.
    + by rewrite Ascii.eqb_refl in Hc2.
  - apply str_endswith_app_inv in H as [t ->].
    rewrite list_ascii_app, last_app_ne, Ew in Hlast by (by rewrite Ew).
    by rewrite Hlast in Hc3.
Qed.

Lemma num_strip_digits (neg : bool) L :
  L <> [] -> Forall (fun c => is_digit c = true) L ->
  num_strip (String.string_of_list_ascii ((if neg then ["-"%char] else []) ++ L)) =
  String.string_of_list_ascii ((if neg then ["-"%char] else []) ++ L).
Proof.
  intros Hne Hd. apply num_strip_id; rewrite String.list_ascii_of_string_of_list_ascii.
  - intros c r E. destruct neg; cbn in E.
    + injection E as <- _. by right.
    + destruct L; [done|]. injection E as <- _. left. by apply Forall_cons in Hd as [? _].
  - rewrite last_app_ne by done. by apply Forall_last.
Qed.

(** [str(n)] has no white space of [int()] at its ends. *)
Lemma num_strip_pretty (n : Z) : num_strip (pretty n) = pretty n.
Proof.
  destruct (pretty_Z_digits n) as (L & HL & Hd & Hne & _).
  rewrite <- (String.string_of_list_ascii_of_string (pretty n)), HL. by apply num_strip_digits.
Qed.

Lemma digit_val_nonneg c : (0 <= digit_val c)%Z.
Proof. unfold digit_val. lia. Qed.

Lemma digit_val_pos c : is_digit c = true -> c <> "0"%char -> (1 <= digit_val c)%Z.
Proof.
  unfold is_digit, digit_val. intros [H1 H2]%andb_prop Hc.
  apply Nat.leb_le in H1. destruct (decide (nat_of_ascii c = 48)) as [E|E]; [|lia].
  destruct Hc. rewrite <- (ascii_nat_embedding c), E. reflexivity.
Qed.

(** A numeral without leading zero is at least [10 ^ (digits - 1)]. *)
Lemma digits_val_lower c L :
  is_digit c = true -> c <> "0"%char -> Forall (fun d => is_digit d = true) L ->
  (10 ^ Z.of_nat (length L) <= digits_val (c :: L))%Z.
Proof.
  intros Hc Hc0. induction L as [|d L IH] using rev_ind; intros HL.
  - change (digits_val [c]) with (0 * 10 + digit_val c)%Z. simpl. pose proof (digit_val_pos c Hc Hc0). lia.
  - apply Forall_app in HL as [HL _]. rewrite app_comm_cons, digits_val_snoc, length_app.
    specialize (IH HL). pose proof (digit_val_nonneg d).
    rewrite Nat2Z.inj_add, Z.pow_add_r by lia. simpl. lia.
Qed.

(** A numeral without leading zero below [10 ^ 4300] has at most 4300
    digits. *)
Lemma digits_fit L :
  Forall (fun c => is_digit c = true) L -> (forall r, L = "0"%char :: r -> r = []) ->
  (digits_val L < 10 ^ Z.of_nat INT_MAX_STR_DIGITS)%Z -> Nat.leb (length L) INT_MAX_STR_DIGITS = true.
Proof.
  intros Hd Hz Hv. apply Nat.leb_le. destruct L as [|c r]; [simpl; lia|].
  destruct (decide (c = "0"%char)) as [->|Hc].
  - rewrite (Hz r eq_refl). simpl. unfold INT_MAX_STR_DIGITS. lia.
  - apply Forall_cons in Hd as [Hc1 Hr]. pose proof (digits_val_lower c r Hc1 Hc Hr) as Hlow.
    assert (Hlt : (10 ^ Z.of_nat (length r) < 10 ^ Z.of_nat INT_MAX_STR_DIGITS)%Z) by lia.
    apply Z.pow_lt_mono_r_iff in Hlt; [simpl; lia | lia | lia].
Qed.

(** The digits [str(n)] prints are few enough for [int()] to read them. *)
Lemma pretty_digits_fit (n : Z) L :
  int_str_ok n = true ->
  String.list_ascii_of_string (pretty n) = (if (n <? 0)%Z then ["-"%char] else []) ++ L ->
  Forall (fun c => is_digit c = true) L -> digits_val L = Z.abs n ->
  Nat.leb (length L) INT_MAX_STR_DIGITS = true.
Proof.
  intros Hn HL Hd Hv. unfold int_str_ok in Hn. apply Z.ltb_lt in Hn. apply digits_fit; [done| |lia].
  intros r ->. exact (pretty_Z_lead n _ r HL eq_refl).
Qed.

(** [int()] of an optional [-] and at most 4300 digits. *)
Lemma py_int_of_str_digits (neg : bool) L :
  L <> [] -> Forall (fun c => is_digit c = true) L -> Nat.leb (length L) INT_MAX_STR_DIGITS = true ->
  py_int_of_str (String.string_of_list_ascii ((if neg then ["-"%char] else []) ++ L)) =
  Some (if neg then (- digits_val L)%Z else digits_val L).
Proof.
  intros Hne Hd Hf. unfold py_int_of_str.
  rewrite num_strip_digits, String.list_ascii_of_string_of_list_ascii by done.
  assert (Hb : bool_decide (L <> []) && forallb (fun c => is_digit c || Ascii.eqb c "_"%char) L &&
               underscores_ok_go false L = true).
  { rewrite bool_decide_true, underscores_ok_digits, andb_true_r by done. simpl.
    apply forallb_forall. intros c Hc%list_elem_of_In. rewrite Forall_forall in Hd.
    by rewrite Hd. }
  destruct neg; simpl.
  - by rewrite Hb, filter_no_underscore, Hf.
  - destruct L as [|c L']; [done|]. pose proof (proj1 (Forall_cons _ _ _) Hd) as [Hc _].
    rewrite take_sign_digit by done. by rewrite Hb, filter_no_underscore, Hf.
Qed.

(** [int(str(n)) == n], for every [n] whose text is within the limit. *)
Lemma py_int_of_str_pretty (n : Z) : int_str_ok n = true -> py_int_of_str (pretty n) = Some n.
Proof.
  intros Hn. destruct (pretty_Z_digits n) as (L & HL & Hd & Hne & Hv).
  pose proof (pretty_digits_fit n L Hn HL Hd Hv) as Hf.
  rewrite <- (String.string_of_list_ascii_of_string (pretty n)), HL, py_int_of_str_digits by done.
  f_equal. destruct (Z.ltb_spec n 0); lia.
Qed.

(** ** [float()] of the text of a JSON number *)

Lemma underscores_ok_plain b l :
  Forall (fun c => Ascii.eqb c "_"%char = false) l -> underscores_ok_go b l = true.
Proof.
  intros Hl. revert b. induction Hl as [|c l Hc Hl IH]; intros b; simpl; [done|]. by rewrite Hc.
Qed.

Lemma filter_plain l :
  Forall (fun c => Ascii.eqb c "_"%char = false) l -> filter (fun c => negb (Ascii.eqb c "_"%char)) l = l.
Proof.
  induction 1 as [|c l Hc Hl IH]; [done|]. rewrite filter_cons, decide_True; [by rewrite IH|]. by rewrite Hc.
Qed.

Lemma take_digits_digits_app L r :
  Forall (fun c => is_digit c = true) L -> (forall c r', r = c :: r' -> is_digit c = false) ->
  take_digits (L ++ r) = (L, r).
Proof.
  intros HL Hr. induction HL as [|c L Hc HL IH]; cbn [app take_digits].
  - destruct r as [|c r']; [done|]. cbn [take_digits]. by rewrite (Hr c r' eq_refl).
  - by rewrite Hc, IH.
Qed.

Lemma lower_digit c : is_digit c = true -> lower c = c.
Proof.
  intros Hc%is_digit_cases. rewrite !elem_of_cons in Hc.
  repeat destruct Hc as [->|Hc]; try reflexivity. by apply elem_of_nil in Hc.
Qed.

(** A text that starts with a digit is not one of the names [float()]
    reads. *)
Lemma digit_not_name c r :
  is_digit c = true ->
  String.eqb (String c r) "inf" || String.eqb (String c r) "infinity" = false /\
  String.eqb (String c r) "nan" = false.
Proof.
  intros Hc%is_digit_cases. rewrite !elem_of_cons in Hc.
  repeat destruct Hc as [->|Hc]; try (split; reflexivity). by apply elem_of_nil in Hc.
Qed.

Lemma json_exp_exponent epart : json_exp epart -> parse_exponent epart <> None.
Proof.
  intros [-> | (e & sg & ed & -> & He & Hsg & Hne & Hd)]; [done|].
  assert (Ht : (take_sign (sg ++ ed)).2 = ed).
  { destruct Hsg as [-> | [-> | ->]]; [|done|done]. destruct ed as [|d ed]; [done|].
    rewrite app_nil_l, take_sign_digit; [done|]. by apply Forall_cons in Hd as [? _]. }
  destruct He as [-> | ->]; cbn [parse_exponent lower nat_of_ascii]; cbn;
    destruct (take_sign (sg ++ ed)) as [neg l2]; cbn in Ht; subst l2;
    rewrite (take_digits_all ed Hd), bool_decide_true, bool_decide_true by done; done.
Qed.

Lemma json_exp_head epart : json_exp epart -> forall c r, epart = c :: r -> is_digit c = false /\ c <> "."%char.
Proof. intros [-> | (e & sg & ed & -> & [-> | ->] & _)] c r [= <- _]; done. Qed.

(** [float()] reads the text of every JSON number with a fraction or an
    exponent: an optional [-], digits, an optional fraction and an
    optional exponent. *)
Lemma parse_float_lit_json (neg : bool) ip fpart epart :
  ip <> [] -> Forall (fun c => is_digit c = true) ip -> json_frac fpart -> json_exp epart ->
  parse_float_lit (String.string_of_list_ascii ((if neg then ["-"%char] else []) ++ ip ++ fpart ++ epart))
    <> None.
Proof.
  intros Hne Hip Hf He.
  destruct ip as [|d ip']; [done|]. pose proof (proj1 (Forall_cons _ _ _) Hip) as [Hd _].
  set (body := (d :: ip') ++ fpart ++ epart).
  assert (Hplain : Forall (fun c => Ascii.eqb c "_"%char = false) ((if neg then ["-"%char] else []) ++ body)).
  { assert (Hdig : forall L, Forall (fun c => is_digit c = true) L ->
                   Forall (fun c => Ascii.eqb c "_"%char = false) L)
      by (intros L HL; eapply Forall_impl; [exact HL | apply digit_not_underscore]).
    apply Forall_app; split; [by destruct neg; repeat constructor|].
    apply Forall_app; split; [by apply Hdig|]. apply Forall_app; split.
    - destruct Hf as [-> | (fp & -> & _ & Hfp)]; [done|]. constructor; [done | by apply Hdig].
    - destruct He as [-> | (e & sg & ed & -> & He & Hsg & _ & Hed)]; [done|].
      constructor; [by destruct He as [-> | ->]|]. apply Forall_app; split; [|by apply Hdig].
      by destruct Hsg as [-> | [-> | ->]]; repeat constructor. }
  assert (Hlast : is_digit (List.last body "0"%char) = true).
  { unfold body. destruct He as [-> | (e & sg & ed & -> & _ & _ & Hne' & Hed)].
    - destruct Hf as [-> | (fp & -> & Hfne & Hfp)].
      + rewrite !app_nil_r. by apply Forall_last.
      + rewrite app_nil_r. replace ((d :: ip') ++ "."%char :: fp) with (((d :: ip') ++ ["."%char]) ++ fp)
          by (by rewrite <- app_assoc). rewrite last_app_ne by done. by apply Forall_last.
    - rewrite app_comm_cons, !app_assoc, last_app_ne by done. by apply Forall_last. }
  unfold parse_float_lit. rewrite num_strip_id; rewrite ?String.list_ascii_of_string_of_list_ascii.
  2: { intros c r E. destruct neg; cbn in E; injection E as <- _; [by right | by left]. }
  2: { destruct neg; [|done]. rewrite last_app_ne; [done|]. unfold body. by destruct fpart. }
  rewrite underscores_ok_plain, filter_plain by exact Hplain. cbn [negb].
  replace (take_sign _) with (neg, body) by (destruct neg; [done|]; unfold body; cbn [app]; by rewrite take_sign_digit).
  unfold body. cbn [app map String.string_of_list_ascii]. rewrite lower_digit by done.
  destruct (digit_not_name d (String.string_of_list_ascii (map lower (ip' ++ fpart ++ epart))) Hd)
    as [-> ->].
  unfold parse_decimal. change (d :: ip' ++ fpart ++ epart) with ((d :: ip') ++ fpart ++ epart).
  rewrite take_digits_digits_app by (done || by
    destruct Hf as [-> | (fp & -> & _)]; [apply json_exp_head | intros ?? [= <- _]]).
  destruct Hf as [-> | (fp & -> & Hfne & Hfp)].
  - cbn [app]. pose proof (json_exp_exponent _ He) as Hx. destruct epart as [|c r].
    + cbv beta iota zeta. case_bool_decide as Hb; [by destruct Hb|]. done.
    + destruct (json_exp_head _ He c r eq_refl) as [_ Hc].
      assert (Hm : match c :: r with "."%char :: r' => take_digits r' | _ => ([], c :: r) end = ([], c :: r))
        by (destruct c as [[] [] [] [] [] [] [] []]; done).
      assert (Hp : match c :: r with "."%char :: _ => true | _ => false end = false)
        by (destruct c as [[] [] [] [] [] [] [] []]; done).
      rewrite Hm, Hp. cbv beta iota zeta. case_bool_decide as Hb; [by destruct Hb|].
      destruct (parse_exponent (c :: r)); done.
  - cbn [app]. cbv beta iota zeta. rewrite take_digits_digits_app by (done || apply json_exp_head, He).
    cbv beta iota zeta. case_bool_decide as Hb; [by destruct Hb|].
    destruct (parse_exponent epart) eqn:Ex; [done|]. by apply json_exp_exponent in He.
Qed.
