(* ===== verification/Effects.v ===== *)
(** * Effects: the world [render-manim.py] acts on

    Paths and the local file system with the [pathlib], [open], [shutil]
    and [tempfile] operations the script uses; JSON values; the HTTP and
    process calls with their replies; the [Oracle] that answers them; the
    trace of events; the state-and-exception monad [M] in which every
    function of the script is written.  Python exceptions are the
    constructors of [exn].  The output of a process run with
    [text=True] is decoded as [subprocess] does it ([proc_output]:
    strict UTF-8, then universal newlines; [translate_newlines_spec]
    states what that decoding returns).  [p / s] keeps [..] components
    as [pathlib] does, and [write_text] reads them as the kernel does
    ([resolve]). *)

From S2P Require Import Prelude Utf8.
#[local] Set Warnings "-register-all".

(** ** Paths *)

(** An absolute path, as the list of its components below [/]. *)
Abbreviation path := (list string).

(** [str(p)] of an absolute path. *)
Definition path_str (p : path) : string := "/" +:+ str_join "/" p.

(** The components of [s] appended to [p] as [pathlib] does for [p / s]:
    empty and [.] components vanish; [..] is kept as a component (pathlib
    does not collapse it; the kernel reads it when the path is used, see
    [resolve]). *)
Fixpoint path_push (p : path) (cs : list string) : path :=
  match cs with
  | [] => p
  | c :: cs' =>
      if String.eqb c "" || String.eqb c "." then path_push p cs'
      else path_push (p ++ [c]) cs'
  end.

(** [p / s]; an absolute [s] restarts from the root. *)
Definition path_join (p : path) (s : string) : path :=
  match s with
  | String "/"%char _ => path_push [] (str_split "/"%char s)
  | _ => path_push p (str_split "/"%char s)
  end.

Infix "//" := path_join (at level 40, left associativity) : py_scope.
Local Open Scope py_scope.

(** [p.name]: the last component. *)
Definition path_name (p : path) : string := default "" (last p).

Fixpoint is_prefix (p q : path) : bool :=
  match p, q with
  | [], _ => true
  | a :: p', b :: q' => String.eqb a b && is_prefix p' q'
  | _ :: _, [] => false
  end.

(** [q] is an entry of the directory [p]. *)
Definition is_child (p q : path) : bool :=
  is_prefix p q && Nat.eqb (length q) (S (length p)).

(** [q] lies strictly below [p]. *)
Definition is_below (p q : path) : bool :=
  is_prefix p q && Nat.ltb (length p) (length q).

(** The strict ancestors of [p], from the root down. *)
Fixpoint ancestors (p : path) : list path :=
  match p with
  | [] => []
  | a :: p' => [] :: map (cons a) (ancestors p')
  end.

(** ** The local file system *)

Inductive node := NFile (data : string) | NDir.

#[export] Instance node_eq_dec : EqDecision node.
Proof. solve_decision. Defined.

Abbreviation fsys := (gmap path node).

Definition fs_is_dir (fs : fsys) (p : path) : bool :=
  match fs !! p with Some NDir => true | _ => false end.

Definition fs_is_file (fs : fsys) (p : path) : bool :=
  match fs !! p with Some (NFile _) => true | _ => false end.

(** The entries of the map, in the map's order.  The order in which a
    directory is listed is the operating system's and is unspecified; the
    model lists in this order, and no theorem depends on it. *)
Definition fs_paths (fs : fsys) : list path := (map_to_list fs).*1.

Definition fs_children (fs : fsys) (p : path) : list path :=
  filter (fun q => is_child p q = true) (fs_paths fs).

Definition fs_below (fs : fsys) (p : path) : list path :=
  filter (fun q => is_below p q = true) (fs_paths fs).

(** Well-formedness: the root is a directory and the parent of every
    other entry is a directory. *)
Definition fs_wf (fs : fsys) : Prop :=
  fs !! [] = Some NDir /\
  forall q n, fs !! q = Some n -> q <> [] -> fs !! removelast q = Some NDir.

(** A file or directory made by an external tool: its missing parent
    directories are created (as [os.makedirs] would); nothing is made
    below a file, and a directory is never replaced by a file. *)
Definition fs_can_create (fs : fsys) (p : path) (n : node) : bool :=
  negb (bool_decide (p = [])) &&
  forallb (fun q => negb (fs_is_file fs q)) (ancestors p) &&
  match fs !! p, n with
  | Some NDir, NFile _ => false
  | Some (NFile _), NDir => false
  | _, _ => true
  end.

Definition fs_create (fs : fsys) (pn : path * node) : fsys :=
  let '(p, n) := pn in
  if fs_can_create fs p n
  then <[p := n]> (foldr (fun q m => <[q := NDir]> m) fs (ancestors p))
  else fs.

Definition fs_create_all (fs : fsys) (l : list (path * node)) : fsys :=
  foldl fs_create fs l.

(** [shutil.rmtree(p)]: [p] and everything below it. *)
Definition fs_rmtree (fs : fsys) (p : path) : fsys :=
  filter (fun kv => is_prefix p kv.1 = false) fs.

(** ** JSON values *)

(** A JSON document as [json.loads] returns it. *)
Inductive json :=
| JNull
| JBool (b : bool)
| JInt (z : Z)
| JFloat (repr : string)
| JStr (s : string)
| JArr (l : list json)
| JObj (fields : list (string * json)).

(** The value of [key] among the members of an object; [json.loads]
    builds a dict, so of two members with the same key the last wins. *)
Fixpoint json_field (key : string) (fields : list (string * json)) : option json :=
  match fields with
  | [] => None
  | (k, v) :: rest =>
      match json_field key rest with
      | Some v' => Some v'
      | None => if String.eqb k key then Some v else None
      end
  end.

(** [d[key]] on a decoded value: [None] is the [KeyError] (or the
    [TypeError] of indexing a non-object). *)
Definition json_get (key : string) (v : json) : option json :=
  match v with
  | JObj fields => json_field key fields
  | _ => None
  end.

(** Python truthiness of a decoded JSON value ([if body], [if not videos]). *)
Definition json_truthy (v : json) : bool :=
  match v with
  | JNull => false
  | JBool b => b
  | JInt z => negb (Z.eqb z 0)
  | JFloat r => negb (String.eqb r "0.0" || String.eqb r "-0.0")
  | JStr s => negb (String.eqb s "")
  | JArr l => negb (bool_decide (l = []))
  | JObj f => negb (bool_decide (f = []))
  end.

(** *** [str()] of a decoded value, as an f-string formats it *)

Definition hex_digit (n : nat) : ascii :=
  match String.get n "0123456789abcdef" with
  | Some c => c
  | None => "0"%char
  end.

(** One character of [repr(s)], for the quote [q]. *)
Definition repr_char (q c : ascii) : string :=
  let n := nat_of_ascii c in
  if Ascii.eqb c q || Ascii.eqb c "\"%char then String "\"%char (String c "")
  else if Nat.eqb n 9 then "\t"
  else if Nat.eqb n 10 then "\n"
  else if Nat.eqb n 13 then "\r"
  else if Nat.ltb n 32 || Nat.eqb n 127
  then "\x" +:+ String (hex_digit (n / 16)) (String (hex_digit (n mod 16)) "")
  else String c "".

Definition dquote : ascii := ascii_of_nat 34.

Fixpoint str_has (c : ascii) (s : string) : bool :=
  match s with
  | EmptyString => false
  | String a s' => Ascii.eqb a c || str_has c s'
  end.

Fixpoint str_concat_map (f : ascii -> string) (s : string) : string :=
  match s with
  | EmptyString => ""
  | String a s' => f a +:+ str_concat_map f s'
  end.

(** [repr(s)] of a string: single quotes unless the string holds a single
    quote and no double quote.  Bytes above 127 (UTF-8 text) are taken as
    printable and kept. *)
Definition py_repr_str (s : string) : string :=
  let q := if str_has "'"%char s && negb (str_has dquote s) then dquote else "'"%char in
  String q (str_concat_map (repr_char q) s +:+ String q "").

(** The dict a JSON object becomes: a repeated key keeps the position of
    its first occurrence and takes the value of its last. *)
Fixpoint dict_insert {V} (k : string) (v : V) (d : list (string * V)) : list (string * V) :=
  match d with
  | [] => [(k, v)]
  | (k', v') :: d' => if String.eqb k k' then (k, v) :: d' else (k', v') :: dict_insert k v d'
  end.

Definition dict_of_pairs {V} (l : list (string * V)) : list (string * V) :=
  foldl (fun d kv => dict_insert kv.1 kv.2 d) [] l.

(** [repr(v)] *)
Fixpoint py_repr (v : json) : string :=
  match v with
  | JNull => "None"
  | JBool true => "True"
  | JBool false => "False"
  | JInt z => pretty z
  | JFloat r => r
  | JStr s => py_repr_str s
  | JArr l => "[" +:+ str_join ", " (map py_repr l) +:+ "]"
  | JObj f =>
      "{" +:+ str_join ", "
        (map (fun kv => py_repr_str kv.1 +:+ ": " +:+ kv.2)
           (dict_of_pairs (map (fun kv => (kv.1, py_repr kv.2)) f))) +:+ "}"
  end.

(** [str(v)], i.e. [f"{v}"] *)
Definition py_str (v : json) : string :=
  match v with
  | JStr s => s
  | _ => py_repr v
  end.

(** ** Calls, replies, events *)

(** The body of a request: a JSON value (encoded with [json.dumps]) or
    the raw bytes of a file. *)
Inductive payload := PJson (j : json) | PBytes (b : string).

Record http_call := HttpCall {
  h_method : string;
  h_url : string;
  h_headers : list (string * string);
  h_data : option payload
}.

(** The outcome of [urllib.request.urlopen] after redirects: a final
    status with the bytes of its body, or no connection at all
    ([URLError]). *)
Inductive http_reply :=
| HStatus (code : Z) (raw : string)
| HUnreachable.

(** A process run: its argument list, [timeout=], [cwd=], and whether
    its output is captured as text ([text=True]) or as bytes. *)
Record proc_call := ProcCall {
  p_argv : list string;
  p_timeout : Z;
  p_cwd : option path;
  p_text : bool
}.

Inductive proc_outcome :=
| PExit (returncode : Z) (stdout stderr : string)
| PTimeout
| PNoProgram.

(** What a process run did: its outcome and the files and directories it
    made. *)
Record proc_reply := ProcReply {
  pr_outcome : proc_outcome;
  pr_creates : list (path * node)
}.

Inductive event :=
| EHttp (c : http_call) (r : http_reply)
| EProc (c : proc_call) (r : proc_reply)
| EPrint (to_stderr : bool) (text : string).

(** The servers, the tools and [tempfile]'s random names, as functions of
    the history of the run. *)
Record Oracle := {
  o_http : list event -> http_call -> http_reply;
  o_proc : list event -> proc_call -> proc_reply;
  o_tmpname : list event -> nat -> string
}.

Record World := mkWorld {
  w_fs : fsys;
  w_trace : list event
}.

(** ** Exceptions and the monad *)

Inductive os_error :=
| FileNotFoundError | FileExistsError | IsADirectoryError | NotADirectoryError.

Inductive exn :=
| OSError (kind : os_error) (p : path)
| TimeoutExpired (argv : list string)
| URLError (url : string)
| JSONDecodeError
| UnicodeDecodeError
| RecursionError
| HTTPError (code : Z) (body : string)
| KeyError (key : string)
| TypeError
| ValueError
| SystemExit (code : Z).

Inductive res (A : Type) := Ok (a : A) | Raise (e : exn).
Arguments Ok {A} a.
Arguments Raise {A} e.

Definition M (A : Type) : Type := Oracle -> World -> res A * World.

Definition ret {A} (a : A) : M A := fun _ w => (Ok a, w).

Definition bind {A B} (m : M A) (k : A -> M B) : M B :=
  fun o w =>
    match m o w with
    | (Ok a, w') => k a o w'
    | (Raise e, w') => (Raise e, w')
    end.

Definition raise {A} (e : exn) : M A := fun _ w => (Raise e, w).

Notation "'let*' x ':=' c1 'in' c2" := (bind c1 (fun x => c2))
  (at level 10, x pattern, c1 at level 100, c2 at level 200) : py_scope.

(** [try: m except ...]: the handler returns [None] for the exceptions the
    [except] clauses do not name, which propagate. *)
Definition try_except {A} (m : M A) (h : exn -> option (M A)) : M A :=
  fun o w =>
    match m o w with
    | (Ok a, w') => (Ok a, w')
    | (Raise e, w') =>
        match h e with
        | Some k => k o w'
        | None => (Raise e, w')
        end
    end.

(** [try: m finally: fin]: [fin] runs on every exit of [m]; an exception
    of [fin] replaces the outcome of [m]. *)
Definition try_finally {A} (m : M A) (fin : M unit) : M A :=
  fun o w =>
    let '(r, w1) := m o w in
    match fin o w1 with
    | (Ok _, w2) => (r, w2)
    | (Raise e, w2) => (Raise e, w2)
    end.

(** ** Primitive effects *)

Definition get_fs : M fsys := fun _ w => (Ok (w_fs w), w).

Definition put_fs (fs : fsys) : M unit :=
  fun _ w => (Ok tt, mkWorld fs (w_trace w)).

Definition emit (e : event) : M unit :=
  fun _ w => (Ok tt, mkWorld (w_fs w) (w_trace w ++ [e])).

(** [print(s)] and [print(s, file=sys.stderr)]. *)
Definition print (s : string) : M unit := emit (EPrint false s).
Definition eprint (s : string) : M unit := emit (EPrint true s).

(** [urllib.request.urlopen(req)]: a final status in [200, 300) is
    returned with the bytes of the body ([resp.status], [resp.read()]);
    any other status raises [HTTPError]; no connection raises
    [URLError]. *)
Definition urlopen (c : http_call) : M (Z * string) :=
  fun o w =>
    let r := o_http o (w_trace w) c in
    let w' := mkWorld (w_fs w) (w_trace w ++ [EHttp c r]) in
    match r with
    | HStatus code raw =>
        if (200 <=? code)%Z && (code <? 300)%Z
        then (Ok (code, raw), w')
        else (Raise (HTTPError code raw), w')
    | HUnreachable => (Raise (URLError (h_url c)), w')
    end.

(** [b.decode()]: bytes as text, strictly UTF-8 (no surrogates); other
    bytes raise [UnicodeDecodeError].  The text is held as its bytes. *)
Definition bytes_decode (b : string) : M string :=
  fun _ w =>
    if utf8_ok (String.list_ascii_of_string b) then (Ok b, w) else (Raise UnicodeDecodeError, w).

(** ** Captured output in text mode *)

(** [data.replace("\r\n", "\n")] on the bytes of a text (a carriage
    return and a line feed are single bytes of UTF-8, never parts of a
    longer sequence, so replacing bytes is replacing code points). *)
Fixpoint replace_crlf (l : list ascii) : list ascii :=
  match l with
  | [] => []
  | c :: r =>
      if Ascii.eqb c "013"%char then
        match r with
        | d :: r' => if Ascii.eqb d "010"%char then "010"%char :: replace_crlf r'
                     else c :: replace_crlf r
        | [] => [c]
        end
      else c :: replace_crlf r
  end.

(** [data.replace("\r", "\n")] *)
Definition replace_cr (l : list ascii) : list ascii :=
  map (fun c => if Ascii.eqb c "013"%char then "010"%char else c) l.

(** [Popen._translate_newlines(data, encoding, errors)], the decoding of
    captured output in text mode: [data.decode(encoding, errors)] with
    the locale's encoding, UTF-8, and [errors=None], strict; then the
    universal newlines [.replace("\r\n", "\n").replace("\r", "\n")]
    ([universal_newlines]).  [None] is the [UnicodeDecodeError]. *)
Definition universal_newlines (b : string) : string :=
  String.string_of_list_ascii (replace_cr (replace_crlf (String.list_ascii_of_string b))).

Definition translate_newlines (b : string) : option string :=
  if utf8_ok (String.list_ascii_of_string b) then Some (universal_newlines b) else None.

(** What [communicate()] returns for a process that exited: the bytes as
    they are, or in text mode [stdout] then [stderr] decoded; a decoding
    error raises out of [subprocess.run] after the process ended. *)
Definition proc_output (c : proc_call) (rc : Z) (out err : string) : res (Z * string * string) :=
  if p_text c then
    match translate_newlines out with
    | None => Raise UnicodeDecodeError
    | Some out' =>
        match translate_newlines err with
        | None => Raise UnicodeDecodeError
        | Some err' => Ok (rc, out', err')
        end
    end
  else Ok (rc, out, err).

(** [subprocess.run(argv, capture_output=True, timeout=t, cwd=d)]: a
    missing working directory raises before the process starts; the files
    the process made stay, whatever its outcome. *)
Definition subprocess_run (c : proc_call) : M (Z * string * string) :=
  fun o w =>
    let cwd_missing :=
      match p_cwd c with
      | Some d => negb (fs_is_dir (w_fs w) d)
      | None => false
      end in
    if cwd_missing then (Raise (OSError FileNotFoundError (default [] (p_cwd c))), w)
    else
      let r := o_proc o (w_trace w) c in
      let w' := mkWorld (fs_create_all (w_fs w) (pr_creates r))
                  (w_trace w ++ [EProc c r]) in
      match pr_outcome r with
      | PExit rc out err => (proc_output c rc out err, w')
      | PTimeout => (Raise (TimeoutExpired (p_argv c)), w')
      | PNoProgram => (Raise (OSError FileNotFoundError (take 1 (p_argv c))), w')
      end.

(** ** [pathlib], [open], [shutil], [tempfile] *)

(** [p.exists()] *)
Definition path_exists (p : path) : M bool :=
  fun _ w => (Ok (if w_fs w !! p is Some _ then true else false), w).

(** The error of the kernel's walk down to [d] when [d] is not a
    directory: [ENOTDIR] when [d] or a directory above it is a file,
    [ENOENT] otherwise; [p] is the path the call was given. *)
Definition walk_error (fs : fsys) (d p : path) : exn :=
  if existsb (fs_is_file fs) (ancestors d ++ [d]) then OSError NotADirectoryError p
  else OSError FileNotFoundError p.

(** The error [open] or [mkdir] reports when the parent of [p] is not a
    directory. *)
Definition parent_error (fs : fsys) (p : path) : exn := walk_error fs (removelast p) p.

(** The kernel's reading of a path that may hold [..] components: from
    the root, a [..] steps out of the directory reached so far, which
    must be a directory; any other component is entered (the operation
    checks the last one and its parent).  There are no symbolic links in
    the model. *)
Fixpoint resolve_go (fs : fsys) (p cur : path) (cs : list string) : res path :=
  match cs with
  | [] => Ok cur
  | c :: cs' =>
      if String.eqb c ".." then
        if fs_is_dir fs cur then resolve_go fs p (removelast cur) cs'
        else Raise (walk_error fs cur p)
      else resolve_go fs p (cur ++ [c]) cs'
  end.

Definition resolve (fs : fsys) (p : path) : res path := resolve_go fs p [] p.

(** [p.write_text(s)]: opens [p] for writing, which creates or truncates
    a file in an existing directory. *)
Definition write_text (p : path) (s : string) : M unit :=
  let* fs := get_fs in
  match resolve fs p with
  | Raise e => raise e
  | Ok q =>
      match fs !! q with
      | Some NDir => raise (OSError IsADirectoryError p)
      | _ =>
          if fs_is_dir fs (removelast q) then put_fs (<[q := NFile s]> fs)
          else raise (walk_error fs (removelast q) p)
      end
  end.

(** [p.mkdir(exist_ok=True)] *)
Definition mkdir_exist_ok (p : path) : M unit :=
  let* fs := get_fs in
  match fs !! p with
  | Some NDir => ret tt
  | Some (NFile _) => raise (OSError FileExistsError p)
  | None =>
      if fs_is_dir fs (removelast p) then put_fs (<[p := NDir]> fs)
      else raise (parent_error fs p)
  end.

(** [open(p, "rb").read()] *)
Definition read_bytes (p : path) : M string :=
  let* fs := get_fs in
  match fs !! p with
  | Some (NFile d) => ret d
  | Some NDir => raise (OSError IsADirectoryError p)
  | None => raise (OSError FileNotFoundError p)
  end.

(** [p.iterdir()] *)
Definition iterdir (p : path) : M (list path) :=
  let* fs := get_fs in
  match fs !! p with
  | Some NDir => ret (fs_children fs p)
  | Some (NFile _) => raise (OSError NotADirectoryError p)
  | None => raise (OSError FileNotFoundError p)
  end.

(** [p.glob("*" + suffix)] for a [suffix] without wildcards: the entries
    of [p] whose name ends with [suffix] (on a case-sensitive file system,
    hidden entries included, files and directories alike); nothing when
    [p] is not a directory. *)
Definition glob_star (p : path) (suffix : string) : M (list path) :=
  let* fs := get_fs in
  ret (if fs_is_dir fs p
       then filter (fun q => str_endswith suffix (path_name q) = true) (fs_children fs p)
       else []).

(** [p.rglob("*" + suffix)]: the same search at every depth below [p]. *)
Definition rglob_star (p : path) (suffix : string) : M (list path) :=
  let* fs := get_fs in
  ret (if fs_is_dir fs p
       then filter (fun q => str_endswith suffix (path_name q) = true) (fs_below fs p)
       else []).

(** [shutil.rmtree(p)] *)
Definition rmtree (p : path) : M unit :=
  let* fs := get_fs in put_fs (fs_rmtree fs p).

(** [tempfile.gettempdir()] and [tempfile.TMP_MAX] ([os.TMP_MAX] on
    Linux). *)
Definition TEMPDIR : path := ["tmp"].
Definition TMP_MAX : N := 238328%N.

Definition tmp_name (seq : nat) : M string :=
  fun o w => (Ok (o_tmpname o (w_trace w) seq), w).

(** [tempfile.mkdtemp()]: tries random names until [os.mkdir] does not
    raise [FileExistsError], at most [TMP_MAX] times.  The random names
    are drawn from [a-z0-9_] and are one path component each. *)
Fixpoint mkdtemp_go (fuel seq : nat) : M path :=
  match fuel with
  | O => raise (OSError FileExistsError TEMPDIR)
  | S fuel' =>
      let* name := tmp_name seq in
      let p := TEMPDIR ++ ["tmp" +:+ name] in
      let* fs := get_fs in
      match fs !! p with
      | Some _ => mkdtemp_go fuel' (S seq)
      | None =>
          if fs_is_dir fs TEMPDIR
          then let* _ := put_fs (<[p := NDir]> fs) in ret p
          else raise (parent_error fs p)
      end
  end.

Definition mkdtemp : M path := mkdtemp_go (N.to_nat TMP_MAX) 0.

(** [with tempfile.TemporaryDirectory() as d: body(d)]: the directory is
    removed on every exit of the body, normal or by an exception. *)
Definition with_tempdir {A} (body : path -> M A) : M A :=
  let* d := mkdtemp in
  try_finally (body d) (rmtree d).

(** [v[key]] on a decoded value: [KeyError] for a missing key of an
    object, [TypeError] for a value that is not an object. *)
Definition getitem (v : json) (key : string) : M json :=
  match v with
  | JObj f =>
      match json_field key f with
      | Some x => ret x
      | None => raise (KeyError key)
      end
  | _ => raise TypeError
  end.

(** ** Facts about paths and the file system *)

Lemma is_prefix_app (p q : path) : is_prefix p q = true <-> exists r, q = p ++ r.
Proof.
  revert q. induction p as [|a p IH]; intros [|b q]; simpl.
  - split; eauto.
  - split; eauto.
  - split; [done|]. intros [r Hr]. done.
  - rewrite andb_true_iff, String.eqb_eq, IH. split.
    + intros [-> [r ->]]. eauto.
    + intros [r Hr]. injection Hr as -> ->. eauto.
Qed.

Lemma is_prefix_refl (p : path) : is_prefix p p = true.
Proof. apply is_prefix_app. exists []. by rewrite app_nil_r. Qed.

Lemma is_child_app (p q : path) : is_child p q = true <-> exists c, q = p ++ [c].
Proof.
  unfold is_child. rewrite andb_true_iff, is_prefix_app, Nat.eqb_eq. split.
  - intros [[r ->] Hl]. rewrite length_app in Hl.
    destruct r as [|c [|c' r]]; simpl in Hl; [lia| eauto | lia].
  - intros [c ->]. split; [eauto|]. rewrite length_app. simpl. lia.
Qed.

Lemma is_below_app (p q : path) : is_below p q = true <-> exists r, r <> [] /\ q = p ++ r.
Proof.
  unfold is_below. rewrite andb_true_iff, is_prefix_app, Nat.ltb_lt. split.
  - intros [[r ->] Hl]. rewrite length_app in Hl. exists r. split; [|done].
    intros ->. simpl in Hl. lia.
  - intros [r [Hr ->]]. split; [eauto|]. rewrite length_app.
    destruct r; [done|]. simpl. lia.
Qed.

Lemma fs_paths_lookup (fs : fsys) q : q ∈ fs_paths fs -> is_Some (fs !! q).
Proof.
  unfold fs_paths. intros ([q' v] & -> & Hin)%list_elem_of_fmap.
  apply elem_of_map_to_list in Hin. simpl. eauto.
Qed.

Lemma fs_children_spec (fs : fsys) p q :
  q ∈ fs_children fs p -> is_Some (fs !! q) /\ exists c, q = p ++ [c].
Proof.
  unfold fs_children. intros [Hc Hq]%list_elem_of_filter.
  split; [by apply fs_paths_lookup | by apply is_child_app].
Qed.

Lemma fs_below_spec (fs : fsys) p q :
  q ∈ fs_below fs p -> is_Some (fs !! q) /\ exists r, r <> [] /\ q = p ++ r.
Proof.
  unfold fs_below. intros [Hc Hq]%list_elem_of_filter.
  split; [by apply fs_paths_lookup | by apply is_below_app].
Qed.

(** ** Universal newlines *)

Lemma eqb_high c z : (128 <= byte c)%Z -> (0 <= z < 128)%Z -> Ascii.eqb c (chr z) = false.
Proof. intros Hc Hz. rewrite <- (chr_byte c). apply chr_eqb_ne; [apply byte_bound | lia | lia]. Qed.

Lemma cr_chr : "013"%char = chr 13.
Proof. reflexivity. Qed.

Lemma lf_chr : "010"%char = chr 10.
Proof. reflexivity. Qed.

Lemma replace_cr_app a b : replace_cr (a ++ b) = replace_cr a ++ replace_cr b.
Proof. apply map_app. Qed.

(** Bytes past ASCII are never a carriage return or a line feed. *)
Lemma replace_crlf_high x l :
  Forall (fun c => (128 <= byte c)%Z) x -> replace_crlf (x ++ l) = x ++ replace_crlf l.
Proof.
  induction 1 as [|c x Hc _ IH]; [done|]. cbn [app replace_crlf].
  rewrite cr_chr, eqb_high by lia. by rewrite IH.
Qed.

Lemma replace_cr_high x : Forall (fun c => (128 <= byte c)%Z) x -> replace_cr x = x.
Proof.
  induction 1 as [|c x Hc _ IH]; [done|]. unfold replace_cr in *. cbn [map].
  rewrite cr_chr, eqb_high by lia. by f_equal.
Qed.

(** [.replace("\r", "\n")] on encoded text is the same replacement on
    its code points. *)
Lemma replace_cr_encode cps :
  scalars cps ->
  replace_cr (utf8_encode cps) = utf8_encode (map (fun cp => if (cp =? 13)%Z then 10%Z else cp) cps).
Proof.
  induction 1 as [|cp cps Hcp _ IH]; [done|]. cbn [utf8_encode flat_map map].
  fold (utf8_encode cps). fold (utf8_encode (map (fun cp => if (cp =? 13)%Z then 10%Z else cp) cps)).
  rewrite replace_cr_app, IH. f_equal.
  destruct (Z.ltb_spec cp 128).
  - pose proof (scalar_bounds cp Hcp). rewrite enc_cp_ascii by lia. unfold replace_cr. cbn [map].
    destruct (Z.eqb_spec cp 13) as [->|Hne]; [reflexivity|].
    rewrite cr_chr, (chr_eqb_ne cp 13) by lia. rewrite enc_cp_ascii by lia. done.
  - destruct (Z.eqb_spec cp 13); [lia|].
    destruct (enc_cp_high cp Hcp ltac:(lia)) as (c & r & -> & Hc & Hr).
    apply replace_cr_high. constructor; [lia | exact Hr].
Qed.

Lemma replace_crlf_cr l :
  (forall d l', l = d :: l' -> Ascii.eqb d "010"%char = false) ->
  replace_crlf ("013"%char :: l) = "013"%char :: replace_crlf l.
Proof. intros H. destruct l as [|d l']; [done|]. cbn [replace_crlf]. by rewrite (H d l' eq_refl). Qed.

(** [.replace("\r\n", "\n")] of encoded text is encoded text. *)
Lemma replace_crlf_encode cps :
  scalars cps -> exists cps', scalars cps' /\ replace_crlf (utf8_encode cps) = utf8_encode cps'.
Proof.
  remember (length cps) as n eqn:En. revert cps En.
  induction n as [n IH] using (well_founded_induction lt_wf). intros cps -> Hs.
  unfold scalars in *. destruct Hs as [|cp rest Hcp Hrest]; [by exists []|].
  cbn [utf8_encode flat_map]. fold (utf8_encode rest).
  destruct (IH (length rest) ltac:(cbn; lia) rest eq_refl Hrest) as (R & HR & ER).
  pose proof (scalar_bounds cp Hcp).
  destruct (Z.ltb_spec cp 128).
  2:{ destruct (enc_cp_high cp Hcp ltac:(lia)) as (c & r & Ec & Hc & Hr). rewrite Ec.
      rewrite replace_crlf_high by (constructor; [lia | exact Hr]).
      exists (cp :: R). split; [by constructor|]. rewrite ER. cbn [utf8_encode flat_map]. by rewrite Ec. }
  rewrite enc_cp_ascii by lia. cbn [app].
  destruct (Z.eqb_spec cp 13) as [->|Hne].
  2:{ cbn [replace_crlf]. rewrite cr_chr, (chr_eqb_ne cp 13) by lia.
      exists (cp :: R). split; [by constructor|]. rewrite ER. cbn [utf8_encode flat_map].
      by rewrite enc_cp_ascii by lia. }
  destruct Hrest as [|cp2 rest2 Hcp2 Hrest2].
  { exists [13%Z]. split; [by repeat constructor | reflexivity]. }
  pose proof (scalar_bounds cp2 Hcp2).
  cbn [utf8_encode flat_map] in ER |- *. fold (utf8_encode rest2) in ER |- *.
  destruct (Z.eqb_spec cp2 10) as [->|Hne2].
  - destruct (IH (length rest2) ltac:(cbn; lia) rest2 eq_refl Hrest2) as (R2 & HR2 & ER2).
    exists (10%Z :: R2). split; [by constructor|].
    assert (E10 : utf8_encode_cp 10 = ["010"%char]) by reflexivity.
    change (utf8_encode (10%Z :: R2)) with (utf8_encode_cp 10 ++ utf8_encode R2).
    rewrite E10, <- ER2, <- cr_chr. reflexivity.
  - rewrite <- cr_chr, replace_crlf_cr, ER.
    + exists (13%Z :: R). split; [by constructor | reflexivity].
    + intros d l' E. rewrite lf_chr. destruct (Z.ltb_spec cp2 128).
      * rewrite enc_cp_ascii in E by lia. injection E as <- _. apply chr_eqb_ne; lia.
      * destruct (enc_cp_high cp2 Hcp2 ltac:(lia)) as (c & r & Ec & Hc & _). rewrite Ec in E.
        injection E as <- _. apply eqb_high; lia.
Qed.

Lemma replace_cr_no_cr l : "013"%char ∉ replace_cr l.
Proof.
  induction l as [|c l IH]; [apply not_elem_of_nil|]. unfold replace_cr in *. cbn [map].
  rewrite not_elem_of_cons. split; [|exact IH].
  destruct (Ascii.eqb_spec c "013"%char); [discriminate | done].
Qed.

Lemma replace_no_cr l : "013"%char ∉ l -> replace_crlf l = l /\ replace_cr l = l.
Proof.
  induction l as [|c l IH]; [done|]. intros [Hc Hl]%not_elem_of_cons.
  destruct (IH Hl) as [E1 E2]. unfold replace_cr in *. cbn [replace_crlf map].
  destruct (Ascii.eqb_spec c "013"%char); [done|]. by rewrite E1, E2.
Qed.

Lemma utf8_ok_universal_newlines b :
  utf8_ok (String.list_ascii_of_string b) = true ->
  utf8_ok (String.list_ascii_of_string (universal_newlines b)) = true.
Proof.
  intros [He Hs]%utf8_ok_spec. unfold universal_newlines.
  rewrite String.list_ascii_of_string_of_list_ascii, <- He.
  destruct (replace_crlf_encode _ Hs) as (R & HR & ->).
  rewrite replace_cr_encode by done. apply utf8_ok_encode.
  apply Forall_map. eapply Forall_impl; [exact HR|]. intros cp Hcp. by destruct (cp =? 13)%Z.
Qed.

(** The decoding of captured output in text mode
    ([_translate_newlines]): it fails, with [UnicodeDecodeError], exactly
    on bytes that are not UTF-8; otherwise the text it returns is
    well-formed UTF-8, holds no carriage return, and is the output
    itself when the output holds none. *)
Theorem translate_newlines_spec b t :
  (translate_newlines b = None <-> utf8_ok (String.list_ascii_of_string b) = false) /\
  (translate_newlines b = Some t ->
   utf8_ok (String.list_ascii_of_string t) = true /\
   ("013"%char ∉ String.list_ascii_of_string t) /\
   ("013"%char ∉ String.list_ascii_of_string b -> t = b)).
Proof.
  unfold translate_newlines. destruct (utf8_ok _) eqn:Hok; [|done].
  split; [done|]. intros [= <-]. split_and!.
  - by apply utf8_ok_universal_newlines.
  - unfold universal_newlines. rewrite String.list_ascii_of_string_of_list_ascii. apply replace_cr_no_cr.
  - intros Hb. unfold universal_newlines. destruct (replace_no_cr _ Hb) as [-> ->].
    apply String.string_of_list_ascii_of_string.
Qed.

