(* ===== verification/Wp.v ===== *)
(** * Wp: a weakest-precondition calculus for the monad [M]

    [wp o m Q w]: run in the world [w] against the oracle [o], [m] only
    appends events to the trace, and its result, final world and appended
    events [t] satisfy [Q].  The rules follow the combinators of
    [Effects] ([ret], [bind], [raise], [try_except], [try_finally]) and
    the primitive effects; the components prove their specifications with
    them, and the pipeline composes those specifications. *)

From S2P Require Import Prelude Utf8 Effects.
Local Open Scope py_scope.

Definition post (A : Type) := res A -> World -> list event -> Prop.

Definition wp {A} (o : Oracle) (m : M A) (Q : post A) (w : World) : Prop :=
  let '(r, w') := m o w in
  exists t, w_trace w' = w_trace w ++ t /\ Q r w' t.

Definition http_calls (t : list event) : list http_call :=
  omap (fun e => match e with EHttp c _ => Some c | _ => None end) t.

Definition patch_calls (t : list event) : list http_call :=
  filter (fun c => h_method c = "PATCH") (http_calls t).

Definition upload_calls (t : list event) : list http_call :=
  filter (fun c => h_method c = "POST" \/ h_method c = "PUT") (http_calls t).

(** The PATCH request an event is, if any. *)
Definition patch_of (e : event) : list http_call :=
  match e with
  | EHttp c _ => if decide (h_method c = "PATCH") then [c] else []
  | _ => []
  end.

(** A computation that makes no HTTP request. *)
Definition quiet {A} (m : M A) : Prop :=
  forall o w, wp o m (fun _ _ t => http_calls t = []) w.

(** A machine without network and without external programs, whose
    [tempfile] names are the decimal sequence numbers; and a [/tmp] that
    already holds [tmp0]. *)
Definition null_oracle : Oracle :=
  {| o_http := fun _ _ => HUnreachable;
     o_proc := fun _ _ => ProcReply PNoProgram [];
     o_tmpname := fun _ n => pretty n |}.

Definition tmp_world : World :=
  mkWorld (list_to_map [([], NDir); (["tmp"], NDir); (["tmp"; "tmp0"], NDir)]) [].

Section Rules.
Context (o : Oracle).

Lemma wp_mono {A} (m : M A) (Q Q' : post A) w :
  wp o m Q w -> (forall r w' t, Q r w' t -> Q' r w' t) -> wp o m Q' w.
Proof. unfold wp. destruct (m o w) as [r w']. intros (t & Ht & HQ) HQQ. eauto. Qed.

(** The post-condition may use how the trace grew. *)
Lemma wp_trace {A} (m : M A) (Q : post A) w :
  wp o m Q w -> wp o m (fun r w' t => Q r w' t /\ w_trace w' = w_trace w ++ t) w.
Proof. unfold wp. destruct (m o w) as [r w']. intros (t & Ht & HQ). eauto. Qed.

(** The program is deterministic: two post-conditions it satisfies
    hold together. *)
Lemma wp_and {A} (m : M A) (Q1 Q2 : post A) w :
  wp o m Q1 w -> wp o m Q2 w -> wp o m (fun r w' t => Q1 r w' t /\ Q2 r w' t) w.
Proof.
  unfold wp. destruct (m o w) as [r w']. intros (t1 & H1 & HQ1) (t2 & H2 & HQ2).
  rewrite H1 in H2. apply app_inv_head in H2 as <-. eauto.
Qed.

Lemma wp_ret {A} (a : A) (Q : post A) w : Q (Ok a) w [] -> wp o (ret a) Q w.
Proof. intros H. exists []. by rewrite app_nil_r. Qed.

Lemma wp_raise {A} (e : exn) (Q : post A) w : Q (Raise e) w [] -> wp o (raise e) Q w.
Proof. intros H. exists []. by rewrite app_nil_r. Qed.

Lemma wp_bind {A B} (m : M A) (k : A -> M B) (Q : post B) w :
  wp o m (fun r w1 t1 =>
            match r with
            | Ok a => wp o (k a) (fun r2 w2 t2 => Q r2 w2 (t1 ++ t2)) w1
            | Raise e => Q (Raise e) w1 t1
            end) w ->
  wp o (bind m k) Q w.
Proof.
  unfold wp, bind. destruct (m o w) as [[a|e] w1]; intros (t1 & H1 & H2).
  - destruct (k a o w1) as [r2 w2]. destruct H2 as (t2 & H3 & H4).
    exists (t1 ++ t2). split; [|done]. by rewrite H3, H1, app_assoc.
  - eauto.
Qed.

Lemma wp_try_except {A} (m : M A) (h : exn -> option (M A)) (Q : post A) w :
  wp o m (fun r w1 t1 =>
            match r with
            | Ok a => Q (Ok a) w1 t1
            | Raise e =>
                match h e with
                | Some k => wp o k (fun r2 w2 t2 => Q r2 w2 (t1 ++ t2)) w1
                | None => Q (Raise e) w1 t1
                end
            end) w ->
  wp o (try_except m h) Q w.
Proof.
  unfold wp, try_except. destruct (m o w) as [[a|e] w1]; intros (t1 & H1 & H2); [eauto|].
  destruct (h e) as [k|]; [|eauto].
  destruct (k o w1) as [r2 w2]. destruct H2 as (t2 & H3 & H4).
  exists (t1 ++ t2). split; [|done]. by rewrite H3, H1, app_assoc.
Qed.

Lemma wp_try_finally {A} (m : M A) (fin : M unit) (Q : post A) w :
  wp o m (fun r w1 t1 =>
            wp o fin (fun r2 w2 t2 =>
                        match r2 with
                        | Ok _ => Q r w2 (t1 ++ t2)
                        | Raise e => Q (Raise e) w2 (t1 ++ t2)
                        end) w1) w ->
  wp o (try_finally m fin) Q w.
Proof.
  unfold wp, try_finally. destruct (m o w) as [r w1]; intros (t1 & H1 & H2).
  destruct (fin o w1) as [[u|e] w2]; destruct H2 as (t2 & H3 & H4);
    exists (t1 ++ t2); (split; [by rewrite H3, H1, app_assoc | done]).
Qed.

(** ** Primitive effects *)

Lemma wp_get_fs (Q : post fsys) w : Q (Ok (w_fs w)) w [] -> wp o get_fs Q w.
Proof. intros H. exists []. by rewrite app_nil_r. Qed.

Lemma wp_put_fs fs (Q : post unit) w :
  Q (Ok tt) (mkWorld fs (w_trace w)) [] -> wp o (put_fs fs) Q w.
Proof. intros H. exists []. simpl. by rewrite app_nil_r. Qed.

Lemma wp_emit e (Q : post unit) w :
  Q (Ok tt) (mkWorld (w_fs w) (w_trace w ++ [e])) [e] -> wp o (emit e) Q w.
Proof. intros H. by exists [e]. Qed.

Lemma wp_urlopen c (Q : post (Z * string)) w :
  (let r := o_http o (w_trace w) c in
   let w' := mkWorld (w_fs w) (w_trace w ++ [EHttp c r]) in
   Q (match r with
      | HStatus code raw =>
          if (200 <=? code)%Z && (code <? 300)%Z then Ok (code, raw)
          else Raise (HTTPError code raw)
      | HUnreachable => Raise (URLError (h_url c))
      end) w' [EHttp c r]) ->
  wp o (urlopen c) Q w.
Proof.
  unfold wp, urlopen. destruct (o_http o (w_trace w) c) as [code raw|];
    [destruct (_ && _)|]; intros H; eexists; split; eauto; done.
Qed.

Lemma wp_bytes_decode b (Q : post string) w :
  Q (if utf8_ok (String.list_ascii_of_string b) then Ok b else Raise UnicodeDecodeError) w [] ->
  wp o (bytes_decode b) Q w.
Proof. unfold wp, bytes_decode. intros H. destruct (utf8_ok _); exists []; by rewrite app_nil_r. Qed.

Lemma wp_path_exists p (Q : post bool) w :
  Q (Ok (if w_fs w !! p is Some _ then true else false)) w [] -> wp o (path_exists p) Q w.
Proof. intros H. exists []. by rewrite app_nil_r. Qed.

Lemma wp_tmp_name seq (Q : post string) w :
  Q (Ok (o_tmpname o (w_trace w) seq)) w [] -> wp o (tmp_name seq) Q w.
Proof. intros H. exists []. by rewrite app_nil_r. Qed.

Lemma proc_output_text c rc out err :
  p_text c = true ->
  proc_output c rc out err =
  if utf8_ok (String.list_ascii_of_string out) && utf8_ok (String.list_ascii_of_string err)
  then Ok (rc, universal_newlines out, universal_newlines err) else Raise UnicodeDecodeError.
Proof. intros H. unfold proc_output, translate_newlines. rewrite H. by destruct (utf8_ok _), (utf8_ok _). Qed.

Lemma proc_output_bytes c rc out err : p_text c = false -> proc_output c rc out err = Ok (rc, out, err).
Proof. intros H. unfold proc_output. by rewrite H. Qed.

Lemma wp_subprocess_run c (Q : post (Z * string * string)) w :
  (forall d, p_cwd c = Some d -> fs_is_dir (w_fs w) d = false ->
     Q (Raise (OSError FileNotFoundError d)) w []) ->
  ((match p_cwd c with Some d => fs_is_dir (w_fs w) d = true | None => True end) ->
   let r := o_proc o (w_trace w) c in
   let w' := mkWorld (fs_create_all (w_fs w) (pr_creates r)) (w_trace w ++ [EProc c r]) in
   Q (match pr_outcome r with
      | PExit rc out err => proc_output c rc out err
      | PTimeout => Raise (TimeoutExpired (p_argv c))
      | PNoProgram => Raise (OSError FileNotFoundError (take 1 (p_argv c)))
      end) w' [EProc c r]) ->
  wp o (subprocess_run c) Q w.
Proof.
  intros Hcwd Hrun. unfold wp, subprocess_run.
  destruct (p_cwd c) as [d|] eqn:Ec; [destruct (fs_is_dir (w_fs w) d) eqn:Ed|];
    cbn [negb].
  - specialize (Hrun eq_refl). revert Hrun. cbv zeta.
    destruct (pr_outcome _); intros Hrun; eexists; (split; [reflexivity | exact Hrun]).
  - exists []. rewrite app_nil_r. split; [done|]. by apply Hcwd.
  - specialize (Hrun I). revert Hrun. cbv zeta.
    destruct (pr_outcome _); intros Hrun; eexists; (split; [reflexivity | exact Hrun]).
Qed.

End Rules.

(** [wp_run]: a [wp] goal whose program is a closed computation is
    decided by running it. *)
Lemma wp_unfold {A} o (m : M A) Q w :
  wp o m Q w <-> (exists t, w_trace (snd (m o w)) = w_trace w ++ t /\ Q (fst (m o w)) (snd (m o w)) t).
Proof. unfold wp. destruct (m o w). done. Qed.

(** [wp_step] applies the rule of the head combinator of the program. *)
Ltac wp_step :=
  match goal with
  | |- wp _ (bind _ _) _ _ => apply wp_bind
  | |- wp _ (ret _) _ _ => apply wp_ret
  | |- wp _ (raise _) _ _ => apply wp_raise
  | |- wp _ (try_except _ _) _ _ => apply wp_try_except
  | |- wp _ (try_finally _ _) _ _ => apply wp_try_finally
  | |- wp _ get_fs _ _ => apply wp_get_fs
  | |- wp _ (put_fs _) _ _ => apply wp_put_fs
  | |- wp _ (emit _) _ _ => apply wp_emit
  | |- wp _ (print _) _ _ => apply wp_emit
  | |- wp _ (eprint _) _ _ => apply wp_emit
  | |- wp _ (urlopen _) _ _ => apply wp_urlopen
  | |- wp _ (bytes_decode _) _ _ => apply wp_bytes_decode
  | |- wp _ (path_exists _) _ _ => apply wp_path_exists
  | |- wp _ (tmp_name _) _ _ => apply wp_tmp_name
  | |- wp _ (subprocess_run _) _ _ => apply wp_subprocess_run
  end.

(** [wp_seq H]: the first computation of a [bind] is specified by [H];
    its post-condition becomes a hypothesis of the continuation. *)
Ltac wp_seq H :=
  apply wp_bind; eapply wp_mono; [apply H|];
  let r := fresh "r" in let w := fresh "w" in let t := fresh "t" in
  let Hp := fresh "Hpost" in intros r w t Hp.

(** ** Measures of a trace *)

Lemma http_calls_app t1 t2 : http_calls (t1 ++ t2) = http_calls t1 ++ http_calls t2.
Proof. apply omap_app. Qed.

(** Every request event of a trace is one of its requests. *)
Lemma http_calls_elem c r t : EHttp c r ∈ t -> c ∈ http_calls t.
Proof. intros H. apply list_elem_of_omap. by exists (EHttp c r). Qed.

Lemma patch_calls_app t1 t2 : patch_calls (t1 ++ t2) = patch_calls t1 ++ patch_calls t2.
Proof. unfold patch_calls. by rewrite http_calls_app, filter_app. Qed.

Lemma upload_calls_app t1 t2 : upload_calls (t1 ++ t2) = upload_calls t1 ++ upload_calls t2.
Proof. unfold upload_calls. by rewrite http_calls_app, filter_app. Qed.

Lemma patch_calls_cons e t : patch_calls (e :: t) = patch_of e ++ patch_calls t.
Proof.
  unfold patch_calls, http_calls. destruct e as [c r| |]; simpl; [|done|done].
  rewrite filter_cons. by case_decide.
Qed.

Lemma patch_calls_quiet t : http_calls t = [] -> patch_calls t = [].
Proof. unfold patch_calls. by intros ->. Qed.

Lemma upload_calls_quiet t : http_calls t = [] -> upload_calls t = [].
Proof. unfold upload_calls. by intros ->. Qed.

#[export] Hint Rewrite http_calls_app patch_calls_app upload_calls_app : pipe_rw.
#[export] Hint Resolve patch_calls_quiet upload_calls_quiet : pipe.

(** [wp_auto]: symbolic execution through the combinators, the
    primitive effects and the case analyses of the program text. *)
Ltac case_simple :=
  match goal with
  | |- context [match ?x with _ => _ end] =>
      lazymatch x with
      | match _ with _ => _ end => fail
      | _ => destruct x eqn:?
      end
  end.

Ltac wp_auto :=
  repeat first [ progress (cbv beta match zeta)
               | match goal with H : _ = _ |- _ => discriminate H end
               | wp_step
               | progress (cbn [w_trace w_fs] in * )
               | case_simple
               | intros ].

(** ** File-system operations *)

Lemma fs_is_dir_insert_ne (fs : fsys) p q n :
  p <> q -> fs_is_dir (<[p := n]> fs) q = fs_is_dir fs q.
Proof. intros Hne. unfold fs_is_dir. by rewrite lookup_insert_ne. Qed.

(** A path without [..] components is read as written. *)
Lemma resolve_go_plain fs p cur cs :
  Forall (fun c => c <> "..") cs -> resolve_go fs p cur cs = Ok (cur ++ cs).
Proof.
  revert cur. induction cs as [|c cs IH]; intros cur Hcs; cbn; [by rewrite app_nil_r|].
  apply Forall_cons in Hcs as [Hc Hcs]. rewrite (proj2 (String.eqb_neq _ _) Hc), IH by done.
  by rewrite <- app_assoc.
Qed.

Lemma resolve_plain fs p : Forall (fun c => c <> "..") p -> resolve fs p = Ok p.
Proof. apply resolve_go_plain. Qed.

Lemma wp_write_text o p s (Q : post unit) w :
  Forall (fun c => c <> "..") p ->
  fs_is_dir (w_fs w) (removelast p) = true -> w_fs w !! p <> Some NDir ->
  Q (Ok tt) (mkWorld (<[p := NFile s]> (w_fs w)) (w_trace w)) [] ->
  wp o (write_text p s) Q w.
Proof.
  intros Hd Hpar Hp HQ. unfold write_text. wp_auto.
  all: rewrite resolve_plain in Heqr by done; injection Heqr as <- || discriminate Heqr.
  all: done || congruence.
Qed.

(** ** Operations that make no request *)

Ltac quiet_tac := intros ?o ?w; wp_auto; reflexivity.

Lemma quiet_ret {A} (a : A) : quiet (ret a).
Proof. quiet_tac. Qed.

Lemma quiet_print s : quiet (print s).
Proof. quiet_tac. Qed.

Lemma quiet_eprint s : quiet (eprint s).
Proof. quiet_tac. Qed.

Lemma quiet_path_exists p : quiet (path_exists p).
Proof. quiet_tac. Qed.

Lemma quiet_write_text p s : quiet (write_text p s).
Proof. unfold write_text. quiet_tac. Qed.

Lemma quiet_mkdir_exist_ok p : quiet (mkdir_exist_ok p).
Proof. unfold mkdir_exist_ok. quiet_tac. Qed.

Lemma quiet_read_bytes p : quiet (read_bytes p).
Proof. unfold read_bytes. quiet_tac. Qed.

Lemma quiet_iterdir p : quiet (iterdir p).
Proof. unfold iterdir. quiet_tac. Qed.

Lemma quiet_glob_star p s : quiet (glob_star p s).
Proof. unfold glob_star. quiet_tac. Qed.

Lemma quiet_rglob_star p s : quiet (rglob_star p s).
Proof. unfold rglob_star. quiet_tac. Qed.

Lemma quiet_rmtree p : quiet (rmtree p).
Proof. unfold rmtree. quiet_tac. Qed.

Lemma quiet_subprocess_run c : quiet (subprocess_run c).
Proof. quiet_tac. Qed.

Lemma quiet_getitem v k : quiet (getitem v k).
Proof. unfold getitem. quiet_tac. Qed.

(** A quiet computation, run after a quiet prefix [t1], keeps the whole
    trace quiet. *)
Lemma quiet_after {A} (m : M A) o w t1 :
  quiet m -> http_calls t1 = [] -> wp o m (fun _ _ t2 => http_calls (t1 ++ t2) = []) w.
Proof.
  intros Hq H1. eapply wp_mono; [apply Hq|]. intros r w' t2 H2.
  by rewrite http_calls_app, H1, H2.
Qed.

Lemma quiet_mkdtemp_go fuel seq : quiet (mkdtemp_go fuel seq).
Proof.
  revert seq. induction fuel as [|fuel IH]; intros seq o w; simpl; [by wp_auto|].
  wp_auto; try reflexivity. apply (quiet_after _ _ _ []); [apply IH | reflexivity].
Qed.

Lemma quiet_mkdtemp : quiet mkdtemp.
Proof. apply quiet_mkdtemp_go. Qed.

Lemma quiet_bind {A B} (m : M A) (k : A -> M B) :
  quiet m -> (forall a, quiet (k a)) -> quiet (bind m k).
Proof.
  intros Hm Hk o w. wp_seq Hm. destruct r; [|done]. by apply quiet_after.
Qed.

Lemma quiet_with_tempdir {A} (body : path -> M A) :
  (forall d, quiet (body d)) -> quiet (with_tempdir body).
Proof.
  intros Hb o w. unfold with_tempdir. apply quiet_bind; [apply quiet_mkdtemp|].
  intros d o' w'. apply wp_try_finally. eapply wp_mono; [apply Hb|].
  intros r w1 t1 H1. eapply wp_mono; [apply (quiet_after _ _ _ t1); [apply quiet_rmtree|done]|].
  intros [] ? ?; done.
Qed.

Lemma quiet_raise {A} e : quiet (@raise A e).
Proof. quiet_tac. Qed.

Lemma quiet_try_except {A} (m : M A) h :
  quiet m -> (forall e, match h e with Some k => quiet k | None => True end) ->
  quiet (try_except m h).
Proof.
  intros Hm Hh o w. apply wp_try_except. eapply wp_mono; [apply Hm|].
  intros [a|e] w1 t1 H1; [done|]. specialize (Hh e). destruct (h e); [|done].
  by apply quiet_after.
Qed.

Create HintDb quiet discriminated.
#[export] Hint Resolve quiet_ret quiet_print quiet_eprint quiet_path_exists quiet_write_text
  quiet_mkdir_exist_ok quiet_read_bytes quiet_iterdir quiet_glob_star quiet_rglob_star
  quiet_rmtree quiet_subprocess_run quiet_getitem quiet_mkdtemp quiet_bind
  quiet_with_tempdir quiet_raise quiet_try_except : quiet.

(** [wp_quiet_seq]: a request-free computation in front of a [bind]. *)
Lemma wp_quiet_seq {A B} o (m : M A) (k : A -> M B) Q w :
  quiet m ->
  (forall r w1 t1, http_calls t1 = [] ->
     match r with
     | Ok a => wp o (k a) (fun r2 w2 t2 => Q r2 w2 (t1 ++ t2)) w1
     | Raise e => Q (Raise e) w1 t1
     end) ->
  wp o (bind m k) Q w.
Proof. intros Hq Hk. apply wp_bind. eapply wp_mono; [apply Hq|]. apply Hk. Qed.

(** [patch_simpl]: the PATCH requests of a concatenation of traces, the
    request-free pieces dropped. *)
Ltac patch_simpl :=
  repeat progress (rewrite ?patch_calls_app, ?patch_calls_cons in * );
  repeat match goal with H : http_calls ?t = [] |- _ =>
    rewrite (patch_calls_quiet t H) in *; clear H end;
  repeat match goal with H : patch_calls ?t = [] |- _ => rewrite H in *; clear H end;
  simpl in *.

(** ** [tempfile] *)

(** [mkdtemp] creates a directory that did not exist, inside [/tmp], and
    changes nothing else. *)
Lemma mkdtemp_go_fresh fuel seq o w d :
  fst (mkdtemp_go fuel seq o w) = Ok d ->
  w_fs w !! d = None /\ removelast d = TEMPDIR /\
  w_fs (snd (mkdtemp_go fuel seq o w)) = <[d := NDir]> (w_fs w).
Proof.
  revert seq. induction fuel as [|fuel IH]; intros seq; simpl; [done|].
  unfold bind, tmp_name, get_fs. simpl.
  case_match eqn:Hl.
  - apply IH.
  - case_match; simpl; [|done].
    intros [= <-]. split; [done|]. split; [done | done].
Qed.

(** [tempfile.mkdtemp] returns a path directly inside [/tmp] that did
    not exist before, creates it as a directory and changes nothing else. *)
Lemma mkdtemp_fresh o w d :
  fst (mkdtemp o w) = Ok d ->
  w_fs w !! d = None /\ removelast d = TEMPDIR /\ w_fs (snd (mkdtemp o w)) = <[d := NDir]> (w_fs w).
Proof. apply mkdtemp_go_fresh. Qed.

Lemma mkdtemp_go_trace fuel seq o w : w_trace (snd (mkdtemp_go fuel seq o w)) = w_trace w.
Proof.
  revert seq. induction fuel as [|fuel IH]; intros seq; simpl; [done|].
  unfold bind, tmp_name, get_fs. simpl. case_match; [apply IH|].
  by case_match.
Qed.

(** The rule of [tempfile.mkdtemp]: a fresh directory of [TEMPDIR],
    or an exception, with the trace unchanged. *)
Lemma wp_mkdtemp o (Q : post path) w :
  (forall d, w_fs w !! d = None -> removelast d = TEMPDIR ->
     Q (Ok d) (mkWorld (<[d := NDir]> (w_fs w)) (w_trace w)) []) ->
  (forall e w', w_trace w' = w_trace w -> Q (Raise e) w' []) ->
  wp o mkdtemp Q w.
Proof.
  intros Hok Herr. unfold wp.
  pose proof (mkdtemp_go_trace (N.to_nat TMP_MAX) 0 o w) as Ht.
  pose proof (mkdtemp_fresh o w) as Hf. unfold mkdtemp in *.
  destruct (mkdtemp_go _ _ o w) as [[d|e] w'] eqn:E; cbn in Ht, Hf |- *;
    exists []; rewrite app_nil_r; split; [done | | done | by apply Herr].
  destruct (Hf d eq_refl) as (Hn & Hr & Hfs).
  destruct w' as [fs' t']. cbn in Ht, Hfs. subst. by apply Hok.
Qed.

Lemma fs_rmtree_lookup (fs : fsys) d q :
  is_prefix d q = true -> fs_rmtree fs d !! q = None.
Proof.
  intros Hq. unfold fs_rmtree. rewrite map_lookup_filter_None. right.
  intros n _. simpl. by rewrite Hq.
Qed.

Lemma fs_rmtree_lookup_ne (fs : fsys) d q :
  is_prefix d q = false -> fs_rmtree fs d !! q = fs !! q.
Proof.
  intros Hq. unfold fs_rmtree. rewrite map_lookup_filter.
  destruct (fs !! q); simpl; [|done]. by rewrite option_guard_True.
Qed.

(** [with tempfile.TemporaryDirectory() as d: body(d)] leaves nothing
    at or below [d], whatever the body did and however it ended (normal
    return or exception). *)
Lemma with_tempdir_removes {A} (body : path -> M A) o w d :
  fst (mkdtemp o w) = Ok d ->
  forall q, is_prefix d q = true -> w_fs (snd (with_tempdir body o w)) !! q = None.
Proof.
  intros Hd q Hq. unfold with_tempdir, bind. destruct (mkdtemp o w) as [r1 w1]. simpl in Hd. subst r1.
  unfold try_finally. destruct (body d o w1) as [r2 w2].
  unfold rmtree, bind, get_fs, put_fs. simpl. by apply fs_rmtree_lookup.
Qed.

Lemma wp_rmtree o d (Q : post unit) w :
  Q (Ok tt) (mkWorld (fs_rmtree (w_fs w) d) (w_trace w)) [] -> wp o (rmtree d) Q w.
Proof. intros H. unfold rmtree. by wp_auto. Qed.

(** The rule of the [with] block: the body runs in the new directory,
    which is removed afterwards, on every outcome of the body. *)
Lemma wp_with_tempdir {A} o (body : path -> M A) (Q : post A) w :
  (forall r w1 t1, http_calls t1 = [] ->
     match r with
     | Ok d => wp o (body d) (fun r2 w2 t2 =>
                 Q r2 (mkWorld (fs_rmtree (w_fs w2) d) (w_trace w2)) (t1 ++ t2)) w1
     | Raise e => Q (Raise e) w1 t1
     end) ->
  wp o (with_tempdir body) Q w.
Proof.
  intros H. unfold with_tempdir. apply wp_quiet_seq; [apply quiet_mkdtemp|].
  intros [d|e] w1 t1 H1; [|exact (H (Raise e) w1 t1 H1)]. apply wp_try_finally.
  eapply wp_mono; [apply (H (Ok d) w1 t1 H1)|]. intros r2 w2 t2 HQ.
  apply wp_rmtree. by rewrite app_nil_r.
Qed.

(** [v[key]]: the value, or [KeyError]/[TypeError]. *)
Lemma wp_getitem o v key (Q : post json) w :
  (forall x, json_get key v = Some x -> Q (Ok x) w []) ->
  (forall e, json_get key v = None -> Q (Raise e) w []) ->
  wp o (getitem v key) Q w.
Proof.
  intros Hs Hn. unfold getitem.
  destruct v; try (apply wp_raise; by apply Hn). simpl in *.
  destruct (json_field key fields) eqn:E; [apply wp_ret | apply wp_raise]; eauto.
Qed.

(** [p.mkdir(exist_ok=True)] in an existing directory, where [p] is not
    a file, succeeds and emits nothing. *)
Lemma wp_mkdir_exist_ok o p (Q : post unit) w :
  fs_is_dir (w_fs w) (removelast p) = true -> fs_is_file (w_fs w) p = false ->
  (forall fs', Q (Ok tt) (mkWorld fs' (w_trace w)) []) ->
  wp o (mkdir_exist_ok p) Q w.
Proof.
  intros Hpar Hnf HQ. unfold mkdir_exist_ok, fs_is_file in *. wp_auto; try done.
  destruct w. apply HQ.
Qed.

Lemma mkdir_exist_ok_silent o p w : wp o (mkdir_exist_ok p) (fun _ _ t => t = []) w.
Proof. unfold mkdir_exist_ok. wp_auto; reflexivity. Qed.

