(* ===== verification/PyJson.v ===== *)
(** * PyJson: [json.loads] of a reply (render-manim.py, line 51)

    [supabase_request] returns [json.loads(resp.read())].  CPython 3.11's
    [json.loads] of bytes picks the encoding from the first bytes
    ([json.detect_encoding]), decodes them with ['surrogatepass'], skips
    the white space around one value and scans it with the C scanner of
    [_json] ([scan_once_unicode], [scanstring_unicode],
    [_match_number_unicode]): white space is [ \t\n\r]; the constants
    [NaN], [Infinity] and [-Infinity] are floats; a [\uXXXX] escape of a
    lone surrogate gives that code point; an object is a dict (the last
    value of a repeated key, at the place of the first); an integer
    literal is read by [int()] (at most 4300 digits, else [ValueError])
    and a literal with a fraction or an exponent by [float()].  The text
    is scanned as the code points the bytes decode to; a decoded string
    is held as the UTF-8 bytes of its code points, as every [str] of the
    development is. *)

From S2P Require Import Prelude Utf8 PyNum Effects.
From Stdlib Require Import SpecFloat.

(** ** The bytes to code points: [detect_encoding] and [decode] *)

Inductive encoding :=
| Utf8Enc | Utf8Sig | Utf16 | Utf16BE | Utf16LE | Utf32 | Utf32BE | Utf32LE.

#[export] Instance encoding_eq_dec : EqDecision encoding.
Proof. solve_decision. Defined.

(** [json.detect_encoding(b)], on the values of the bytes. *)
Definition detect_encoding (b : list Z) : encoding :=
  let starts p := bool_decide (take (length p) b = p) in
  if starts [0; 0; 254; 255]%Z || starts [255; 254; 0; 0]%Z then Utf32
  else if starts [254; 255]%Z || starts [255; 254]%Z then Utf16
  else if starts [239; 187; 191]%Z then Utf8Sig
  else
    match b with
    | b0 :: b1 :: b2 :: b3 :: _ =>
        if (b0 =? 0)%Z then (if (b1 =? 0)%Z then Utf32BE else Utf16BE)
        else if (b1 =? 0)%Z then
          (if negb (b2 =? 0)%Z || negb (b3 =? 0)%Z then Utf16LE else Utf32LE)
        else Utf8Enc
    | [b0; b1] =>
        if (b0 =? 0)%Z then Utf16BE else if (b1 =? 0)%Z then Utf16LE else Utf8Enc
    | _ => Utf8Enc
    end.

(** A code point of Unicode's range, surrogates included. *)
Definition in_range (cp : Z) : bool := (0 <=? cp)%Z && (cp <? 1114112)%Z.

(** [b.decode('utf-8', 'surrogatepass')]: the bytes must be the UTF-8
    encoding of code points of the range, encoded surrogates allowed. *)
Definition utf8_decode_pass (l : list ascii) : option (list Z) :=
  let cps := utf8_decode l in
  if bool_decide (utf8_encode cps = l) && forallb in_range cps then Some cps else None.

(** The 16-bit units of UTF-16 bytes; an odd byte is truncated data. *)
Fixpoint units16 (be : bool) (l : list Z) : option (list Z) :=
  match l with
  | [] => Some []
  | a :: b :: r => cons (if be then a * 256 + b else b * 256 + a)%Z <$> units16 be r
  | [_] => None
  end.

Definition is_high (u : Z) : bool := (55296 <=? u)%Z && (u <? 56320)%Z.
Definition is_low (u : Z) : bool := (56320 <=? u)%Z && (u <? 57344)%Z.

(** The code point of a surrogate pair. *)
Definition join_pair (hi lo : Z) : Z := (65536 + (hi - 55296) * 1024 + (lo - 56320))%Z.

(** A high surrogate followed by a low one is a pair; another surrogate
    passes alone (['surrogatepass']). *)
Fixpoint join_surrogates (us : list Z) : list Z :=
  match us with
  | [] => []
  | u1 :: r1 =>
      match r1 with
      | u2 :: r2 =>
          if is_high u1 && is_low u2 then join_pair u1 u2 :: join_surrogates r2
          else u1 :: join_surrogates r1
      | [] => [u1]
      end
  end.

(** The code points of UTF-32 bytes: whole units of four bytes, each in
    the range. *)
Fixpoint units32 (be : bool) (l : list Z) : option (list Z) :=
  match l with
  | [] => Some []
  | a :: b :: c :: d :: r =>
      let u := if be then (((a * 256 + b) * 256 + c) * 256 + d)%Z
               else (((d * 256 + c) * 256 + b) * 256 + a)%Z in
      if in_range u then cons u <$> units32 be r else None
  | _ => None
  end.

(** [b.decode(enc, 'surrogatepass')]; [None] is the [UnicodeDecodeError].
    ['utf-8-sig'], ['utf-16'] and ['utf-32'] drop the byte order mark the
    detection saw and read its byte order. *)
Definition decode_bytes (enc : encoding) (l : list ascii) : option (list Z) :=
  let b := map byte l in
  match enc with
  | Utf8Enc => utf8_decode_pass l
  | Utf8Sig => utf8_decode_pass (drop 3 l)
  | Utf16 => join_surrogates <$> units16 (bool_decide (take 2 b = [254; 255]%Z)) (drop 2 b)
  | Utf16BE => join_surrogates <$> units16 true b
  | Utf16LE => join_surrogates <$> units16 false b
  | Utf32 => units32 (bool_decide (take 4 b = [0; 0; 254; 255]%Z)) (drop 4 b)
  | Utf32BE => units32 true b
  | Utf32LE => units32 false b
  end.

(** ** The scanner *)

(** The outcome of a scan: a value and the code points after it, an
    exception, or the fuel exhausted ([loads_fuel_enough] shows that
    the fuel [loads_text] gives is never exhausted). *)
Inductive scan (A : Type) :=
| Scanned (a : A) (rest : list Z)
| ScanRaise (e : exn)
| ScanOut.
Arguments Scanned {A} a rest.
Arguments ScanRaise {A} e.
Arguments ScanOut {A}.

Definition scan_map {A B} (f : A -> B) (m : scan A) : scan B :=
  match m with
  | Scanned a r => Scanned (f a) r
  | ScanRaise e => ScanRaise e
  | ScanOut => ScanOut
  end.

Definition scan_cont {A B} (m : scan A) (k : A -> list Z -> scan B) : scan B :=
  match m with
  | Scanned a r => k a r
  | ScanRaise e => ScanRaise e
  | ScanOut => ScanOut
  end.

(** [IS_WHITESPACE]. *)
Definition is_ws_cp (c : Z) : bool := (c =? 32)%Z || (c =? 9)%Z || (c =? 10)%Z || (c =? 13)%Z.

Fixpoint skip_ws_cp (l : list Z) : list Z :=
  match l with
  | c :: r => if is_ws_cp c then skip_ws_cp r else l
  | [] => []
  end.

Definition hex_cp (c : Z) : option Z :=
  if (48 <=? c)%Z && (c <=? 57)%Z then Some (c - 48)%Z
  else if (97 <=? c)%Z && (c <=? 102)%Z then Some (c - 87)%Z
  else if (65 <=? c)%Z && (c <=? 70)%Z then Some (c - 55)%Z
  else None.

Definition hex4_cp (a b c d : Z) : option Z :=
  match hex_cp a, hex_cp b, hex_cp c, hex_cp d with
  | Some x, Some y, Some z, Some w => Some (x * 4096 + y * 256 + z * 16 + w)%Z
  | _, _, _, _ => None
  end.

(** The character of a two-character escape. *)
Definition short_escape_cp (e : Z) : option Z :=
  if (e =? 34)%Z then Some 34%Z
  else if (e =? 92)%Z then Some 92%Z
  else if (e =? 47)%Z then Some 47%Z
  else if (e =? 98)%Z then Some 8%Z
  else if (e =? 102)%Z then Some 12%Z
  else if (e =? 110)%Z then Some 10%Z
  else if (e =? 114)%Z then Some 13%Z
  else if (e =? 116)%Z then Some 9%Z
  else None.

(** [scanstring_unicode] with [strict] after the opening quote: the code
    points of the string and the text after the closing quote.  A control
    character, an unknown escape or a bad [\uXXXX] is a
    [JSONDecodeError]; a high surrogate escape followed by a low one
    (and at least one more character) is a pair, any other surrogate
    escape stands alone. *)
Fixpoint scanstring (l : list Z) : scan (list Z) :=
  match l with
  | [] => ScanRaise JSONDecodeError
  | c :: r =>
      if (c =? 34)%Z then Scanned [] r
      else if (c =? 92)%Z then
        match r with
        | [] => ScanRaise JSONDecodeError
        | e :: r1 =>
            if (e =? 117)%Z then
              match r1 with
              | a :: b :: c1 :: d :: r2 =>
                  match hex4_cp a b c1 d with
                  | None => ScanRaise JSONDecodeError
                  | Some u =>
                      match r2 with
                      | bs :: uu :: a2 :: b2 :: c2 :: d2 :: r3 =>
                          if is_high u && negb (bool_decide (r3 = [])) && (bs =? 92)%Z && (uu =? 117)%Z
                          then
                            match hex4_cp a2 b2 c2 d2 with
                            | None => ScanRaise JSONDecodeError
                            | Some u2 =>
                                if is_low u2 then scan_map (cons (join_pair u u2)) (scanstring r3)
                                else scan_map (cons u) (scanstring r2)
                            end
                          else scan_map (cons u) (scanstring r2)
                      | _ => scan_map (cons u) (scanstring r2)
                      end
                  end
              | _ => ScanRaise JSONDecodeError
              end
            else
              match short_escape_cp e with
              | Some ch => scan_map (cons ch) (scanstring r1)
              | None => ScanRaise JSONDecodeError
              end
        end
      else if (c <=? 31)%Z then ScanRaise JSONDecodeError
      else scan_map (cons c) (scanstring r)
  end.

Definition is_digit_cp (c : Z) : bool := (48 <=? c)%Z && (c <=? 57)%Z.

Fixpoint take_digits_cp (l : list Z) : list Z * list Z :=
  match l with
  | c :: r => if is_digit_cp c then let '(ds, r') := take_digits_cp r in (c :: ds, r') else ([], l)
  | [] => ([], [])
  end.

(** A [str] of code points, held as its UTF-8 bytes. *)
Definition cps_text (cps : list Z) : string := String.string_of_list_ascii (utf8_encode cps).

(** The integer part of a number: [0] alone, or a digit [1-9] and the
    digits after it; the code points after it. *)
Definition scan_int_cp (l : list Z) : option (list Z) :=
  match l with
  | c :: r =>
      if (49 <=? c)%Z && (c <=? 57)%Z then Some (take_digits_cp r).2
      else if (c =? 48)%Z then Some r else None
  | [] => None
  end.

(** The fraction: read when a point is followed by a digit. *)
Definition scan_frac_cp (l : list Z) : bool * list Z :=
  match l with
  | p :: d :: r => if (p =? 46)%Z && is_digit_cp d then (true, (take_digits_cp r).2) else (false, l)
  | _ => (false, l)
  end.

(** The exponent: [e] or [E] with something after it, a sign when
    something follows the sign, and digits; without digits the exponent
    is left unread. *)
Definition scan_exp_cp (l : list Z) : bool * list Z :=
  match l with
  | e :: r =>
      if ((e =? 101)%Z || (e =? 69)%Z) && negb (bool_decide (r = [])) then
        let r' := match r with
                  | s :: t => if ((s =? 45)%Z || (s =? 43)%Z) && negb (bool_decide (t = [])) then t else r
                  | [] => r
                  end in
        let '(ds, r'') := take_digits_cp r' in
        if bool_decide (ds = []) then (false, l) else (true, r'')
      else (false, l)
  | [] => (false, l)
  end.

(** [_match_number_unicode]: an optional [-], the integer part, the
    fraction and the exponent.  Without fraction and exponent the text
    goes to [int()], with one to [float()]. *)
Definition match_number (l : list Z) : scan json :=
  let l1 := match l with c :: r => if (c =? 45)%Z then r else l | [] => l end in
  match scan_int_cp l1 with
  | None => ScanRaise JSONDecodeError
  | Some r1 =>
      let '(frac, r2) := scan_frac_cp r1 in
      let '(expo, r3) := scan_exp_cp r2 in
      let text := cps_text (take (length l - length r3) l) in
      if frac || expo then
        match py_float text with
        | Some f => Scanned (JFloat (float_repr f)) r3
        | None => ScanRaise ValueError
        end
      else
        match py_int_of_str text with
        | Some z => Scanned (JInt z) r3
        | None => ScanRaise ValueError
        end
  end.

(** The code points of an ASCII literal. *)
Definition lit (s : string) : list Z := map byte (String.list_ascii_of_string s).

(** [l] after the prefix [p]. *)
Fixpoint strip_cps (p l : list Z) : option (list Z) :=
  match p, l with
  | [], _ => Some l
  | c :: p', d :: l' => if (c =? d)%Z then strip_cps p' l' else None
  | _ :: _, [] => None
  end.

(** The named constants the scanner knows, in its order. *)
Definition constants : list (list Z * json) :=
  [(lit "null", JNull); (lit "true", JBool true); (lit "false", JBool false);
   (lit "NaN", JFloat "nan"); (lit "Infinity", JFloat "inf"); (lit "-Infinity", JFloat "-inf")].

Fixpoint match_constant (cs : list (list Z * json)) (l : list Z) : option (json * list Z) :=
  match cs with
  | [] => None
  | (p, v) :: cs' =>
      match strip_cps p l with
      | Some r => Some (v, r)
      | None => match_constant cs' l
      end
  end.

(** [scan_once_unicode] with the arrays and objects it parses.  [depth]
    is what is left of the recursion budget: a container opened when
    none is left raises [RecursionError]; [fuel] bounds the number of
    calls. *)
Fixpoint scan_once (fuel depth : nat) (l : list Z) : scan json :=
  match fuel with
  | O => ScanOut
  | S n =>
      match l with
      | [] => ScanRaise JSONDecodeError
      | c :: r =>
          if (c =? 34)%Z then scan_map (fun s => JStr (cps_text s)) (scanstring r)
          else if (c =? 91)%Z then
            match depth with
            | O => ScanRaise RecursionError
            | S d =>
                match skip_ws_cp r with
                | c' :: r' =>
                    if (c' =? 93)%Z then Scanned (JArr []) r'
                    else scan_map JArr (array_elems n d (c' :: r'))
                | [] => scan_map JArr (array_elems n d [])
                end
            end
          else if (c =? 123)%Z then
            match depth with
            | O => ScanRaise RecursionError
            | S d =>
                match skip_ws_cp r with
                | c' :: r' =>
                    if (c' =? 125)%Z then Scanned (JObj []) r'
                    else scan_map (fun kvs => JObj (dict_of_pairs kvs)) (object_members n d (c' :: r'))
                | [] => ScanRaise JSONDecodeError
                end
            end
          else
            match match_constant constants l with
            | Some (v, r') => Scanned v r'
            | None => match_number l
            end
      end
  end
with array_elems (fuel depth : nat) (l : list Z) : scan (list json) :=
  match fuel with
  | O => ScanOut
  | S n =>
      scan_cont (scan_once n depth l) (fun v r =>
        match skip_ws_cp r with
        | c :: r' =>
            if (c =? 93)%Z then Scanned [v] r'
            else if (c =? 44)%Z then scan_map (cons v) (array_elems n depth (skip_ws_cp r'))
            else ScanRaise JSONDecodeError
        | [] => ScanRaise JSONDecodeError
        end)
  end
with object_members (fuel depth : nat) (l : list Z) : scan (list (string * json)) :=
  match fuel with
  | O => ScanOut
  | S n =>
      match l with
      | c :: r =>
          if (c =? 34)%Z then
            scan_cont (scanstring r) (fun k r1 =>
              match skip_ws_cp r1 with
              | c1 :: r2 =>
                  if (c1 =? 58)%Z then
                    scan_cont (scan_once n depth (skip_ws_cp r2)) (fun v r3 =>
                      match skip_ws_cp r3 with
                      | c2 :: r4 =>
                          if (c2 =? 125)%Z then Scanned [(cps_text k, v)] r4
                          else if (c2 =? 44)%Z then
                            scan_map (cons (cps_text k, v)) (object_members n depth (skip_ws_cp r4))
                          else ScanRaise JSONDecodeError
                      | [] => ScanRaise JSONDecodeError
                      end)
                  else ScanRaise JSONDecodeError
              | [] => ScanRaise JSONDecodeError
              end)
          else ScanRaise JSONDecodeError
      | [] => ScanRaise JSONDecodeError
      end
  end.

(** The recursion budget of the scanner at the call in
    [supabase_request]: six Python frames deep ([<module>], [main],
    [supabase_request], [loads], [decode], [raw_decode]), CPython 3.11.2
    with the default recursion limit of 1000 opens 993 nested
    containers and raises [RecursionError] at the 994th. *)
Definition JSON_DEPTH : nat := 993.

(** [JSONDecoder.decode] of a [str]: white space, one value, white
    space, and nothing else ("Extra data"). *)
Definition loads_text (cps : list Z) : exn + json :=
  match scan_once (S (2 * length cps)) JSON_DEPTH (skip_ws_cp cps) with
  | Scanned v r => if bool_decide (skip_ws_cp r = []) then inr v else inl JSONDecodeError
  | ScanRaise e => inl e
  | ScanOut => inl JSONDecodeError
  end.

(** [json.loads(raw)] of the bytes of a reply. *)
Definition json_loads (raw : string) : exn + json :=
  let l := String.list_ascii_of_string raw in
  match decode_bytes (detect_encoding (map byte l)) l with
  | Some cps => loads_text cps
  | None => inl UnicodeDecodeError
  end.

(** [n + 1] arrays nested in each other, the innermost empty, and the
    text that writes them. *)
Fixpoint nested (n : nat) : json :=
  match n with
  | O => JArr []
  | S k => JArr [nested k]
  end.

Definition brackets (n : nat) : string :=
  String.string_of_list_ascii (repeat "["%char n ++ repeat "]"%char n).

(** ** The exceptions of [json.loads] *)

(** What [json.loads] raises: [JSONDecodeError], [UnicodeDecodeError],
    [RecursionError] or the [ValueError] of [int()]. *)
Definition loads_exn (e : exn) : Prop :=
  e = JSONDecodeError \/ e = UnicodeDecodeError \/ e = RecursionError \/ e = ValueError.

Definition scan_exn_ok {A} (m : scan A) : Prop := forall e, m = ScanRaise e -> loads_exn e.

Lemma scan_map_exn {A B} (f : A -> B) m : scan_exn_ok m -> scan_exn_ok (scan_map f m).
Proof. intros H e. destruct m; cbn; [done| |done]. intros [= <-]. by apply H. Qed.

Lemma scan_cont_exn {A B} (m : scan A) (k : A -> list Z -> scan B) :
  scan_exn_ok m -> (forall a r, scan_exn_ok (k a r)) -> scan_exn_ok (scan_cont m k).
Proof. intros H Hk e. destruct m; cbn; [apply Hk| |done]. intros [= <-]. by apply H. Qed.

(** The leaves of a scan: a value, or one of the exceptions above. *)
Ltac scan_exn_leaf :=
  let H := fresh in
  first [ intros ? H; discriminate H
        | intros ? [= H]; subst; unfold loads_exn; tauto ].

Ltac scan_exn_step IH :=
  repeat first [ scan_exn_leaf
               | apply scan_map_exn
               | apply scan_cont_exn; [|intros ??]
               | apply IH; cbn [length] in *; lia
               | case_match ].

Lemma scanstring_exn_lt n l : length l < n -> scan_exn_ok (scanstring l).
Proof.
  revert l. induction n as [|n IH]; intros l Hl; [cbn in Hl; lia|].
  destruct l as [|c r]; cbn [scanstring]; [scan_exn_leaf|]. cbn [length] in Hl.
  scan_exn_step IH.
Qed.

Lemma scanstring_exn l : scan_exn_ok (scanstring l).
Proof. apply (scanstring_exn_lt (S (length l))). lia. Qed.

Lemma match_number_exn l : scan_exn_ok (match_number l).
Proof.
  unfold match_number. destruct (scan_int_cp _); [|scan_exn_leaf].
  destruct (scan_frac_cp _), (scan_exp_cp _), (_ || _);
    [destruct (py_float _) | destruct (py_int_of_str _)]; scan_exn_leaf.
Qed.

Lemma scan_once_exn n :
  (forall d l, scan_exn_ok (scan_once n d l)) /\
  (forall d l, scan_exn_ok (array_elems n d l)) /\
  (forall d l, scan_exn_ok (object_members n d l)).
Proof.
  induction n as [|n (IH1 & IH2 & IH3)]; [split_and!; intros; scan_exn_leaf|].
  split_and!; intros d l; cbn [scan_once array_elems object_members];
    repeat first [ scan_exn_leaf | apply scan_map_exn | apply scan_cont_exn; [|intros ??]
                 | apply IH1 | apply IH2 | apply IH3 | apply scanstring_exn
                 | apply match_number_exn | case_match ].
Qed.

(** [json.loads] raises nothing but [loads_exn]: in particular never an
    [HTTPError], which the [except] of [supabase_request] would catch. *)
Lemma json_loads_exn raw e : json_loads raw = inl e -> loads_exn e.
Proof.
  unfold json_loads, loads_text.
  destruct (decode_bytes _ _); [|intros [= <-]; unfold loads_exn; tauto].
  destruct (scan_once _ _ _) eqn:Es; [case_match| |]; intros [= <-];
    [unfold loads_exn; tauto | by apply (proj1 (scan_once_exn _) _ _ _ Es) | unfold loads_exn; tauto].
Qed.

Lemma json_loads_not_http raw code b : json_loads raw <> inl (HTTPError code b).
Proof. intros H%json_loads_exn. unfold loads_exn in H. destruct H as [?|[?|[?|?]]]; discriminate. Qed.

(** ** What a scan leaves: a strict suffix of its input *)

(** A scan that succeeds leaves a strict suffix of [l]. *)
Definition scan_suffix {A} (l : list Z) (m : scan A) : Prop :=
  forall a r, m = Scanned a r -> r `suffix_of` l /\ length r < length l.

Lemma suffix_length_le (r l : list Z) : r `suffix_of` l -> length r <= length l.
Proof. intros [k ->]. rewrite length_app. lia. Qed.

Lemma skip_ws_cp_suffix l : skip_ws_cp l `suffix_of` l.
Proof.
  induction l as [|c l IH]; cbn; [done|].
  destruct (is_ws_cp c); [by apply suffix_cons_r | done].
Qed.

Lemma take_digits_cp_suffix l : (take_digits_cp l).2 `suffix_of` l.
Proof.
  induction l as [|c l IH]; cbn; [done|].
  destruct (is_digit_cp c); [|done]. destruct (take_digits_cp l). by apply suffix_cons_r.
Qed.

Lemma strict_suffix_cons (r l : list Z) c : r `suffix_of` l -> r `suffix_of` c :: l /\ length r < length (c :: l).
Proof. intros Hs. split; [by apply suffix_cons_r|]. apply suffix_length_le in Hs. cbn. lia. Qed.

Lemma scan_suffix_map {A B} (f : A -> B) l m : scan_suffix l m -> scan_suffix l (scan_map f m).
Proof. intros H a r. destruct m; cbn; try done. intros [= _ <-]. by eapply H. Qed.

Lemma scan_suffix_weaken {A} (l l' : list Z) (m : scan A) :
  l `suffix_of` l' -> scan_suffix l m -> scan_suffix l' m.
Proof.
  intros Hs H a r Hm. destruct (H a r Hm) as [H1 H2].
  split; [by trans l|]. apply suffix_length_le in Hs. lia.
Qed.

Lemma scan_suffix_cont {A B} l (m : scan A) (k : A -> list Z -> scan B) :
  scan_suffix l m -> (forall a r, m = Scanned a r -> scan_suffix r (k a r)) ->
  scan_suffix l (scan_cont m k).
Proof.
  intros Hm Hk b r' E. destruct m as [a r| |]; cbn in E; try done.
  destruct (Hm a r eq_refl) as [Hs Hl]. destruct (Hk a r eq_refl b r' E) as [Hs' Hl'].
  split; [by trans r | lia].
Qed.

Ltac suffix_of_tail := repeat first [done | apply suffix_cons_r].

Lemma scanstring_suffix_lt n l : length l < n -> scan_suffix l (scanstring l).
Proof.
  revert l. induction n as [|n IH]; intros l Hl; [cbn in Hl; lia|].
  destruct l as [|c r]; cbn [scanstring]; [by intros ?? [=]|]. cbn [length] in Hl.
  repeat first [ by intros ?? [=]
               | intros ?? [= _ <-]; apply strict_suffix_cons; done
               | apply scan_suffix_map; eapply scan_suffix_weaken;
                 [|apply IH; cbn [length] in *; lia]; suffix_of_tail
               | case_match ].
Qed.

Lemma scanstring_suffix l : scan_suffix l (scanstring l).
Proof. apply (scanstring_suffix_lt (S (length l))). lia. Qed.

Lemma scan_int_cp_suffix l r : scan_int_cp l = Some r -> r `suffix_of` l /\ length r < length l.
Proof.
  destruct l as [|c l]; cbn; [done|]. intros H. apply strict_suffix_cons.
  destruct (_ && _); [injection H as <-; apply take_digits_cp_suffix|].
  destruct (c =? 48)%Z; [by injection H as <-|done].
Qed.

Lemma scan_frac_cp_suffix l b r : scan_frac_cp l = (b, r) -> r `suffix_of` l.
Proof.
  unfold scan_frac_cp. destruct l as [|p [|d l]]; try by intros [= _ <-].
  destruct (_ && _); intros [= _ <-]; [|done].
  do 2 apply suffix_cons_r. apply take_digits_cp_suffix.
Qed.

Lemma scan_exp_cp_suffix l b r : scan_exp_cp l = (b, r) -> r `suffix_of` l.
Proof.
  unfold scan_exp_cp. destruct l as [|e l]; [by intros [= _ <-]|].
  destruct (_ && _); [|by intros [= _ <-]].
  set (r' := match l with s :: t => _ | [] => l end).
  assert (Hr' : r' `suffix_of` l).
  { subst r'. destruct l as [|s t]; [done|]. destruct (_ && _); [by apply suffix_cons_r|done]. }
  pose proof (take_digits_cp_suffix r') as Hd. destruct (take_digits_cp r') as [ds r''].
  destruct (bool_decide _); intros [= _ <-]; [done|].
  apply suffix_cons_r. by trans r'.
Qed.

Lemma match_number_suffix l : scan_suffix l (match_number l).
Proof.
  unfold match_number.
  set (l1 := match l with c :: r => _ | [] => l end).
  assert (H1 : l1 `suffix_of` l).
  { subst l1. destruct l as [|c r]; [done|]. destruct (c =? 45)%Z; [by apply suffix_cons_r|done]. }
  destruct (scan_int_cp l1) as [r1|] eqn:E1; [|by intros ?? [=]].
  destruct (scan_int_cp_suffix _ _ E1) as [Hs1 Hl1].
  destruct (scan_frac_cp r1) as [frac r2] eqn:E2. apply scan_frac_cp_suffix in E2.
  destruct (scan_exp_cp r2) as [expo r3] eqn:E3. apply scan_exp_cp_suffix in E3.
  assert (Hs : r3 `suffix_of` l) by (by trans r2; [|trans r1; [|trans l1]]).
  assert (Hl : length r3 < length l).
  { apply suffix_length_le in E3, E2, H1. lia. }
  destruct (_ || _); [destruct (py_float _) | destruct (py_int_of_str _)];
    intros ?? [=]; subst; done.
Qed.

Lemma strip_cps_suffix p l r : strip_cps p l = Some r -> r `suffix_of` l /\ length r + length p = length l.
Proof.
  revert l. induction p as [|c p IH]; intros [|d l]; cbn; try done.
  - intros [= <-]. split; [done | cbn; lia].
  - intros [= <-]. split; [done | cbn; lia].
  - destruct (c =? d)%Z; [|done]. intros H. destruct (IH l H) as [Hs Hl].
    split; [by apply suffix_cons_r | lia].
Qed.

Lemma match_constant_suffix cs l v r :
  Forall (fun pv => pv.1 <> []) cs -> match_constant cs l = Some (v, r) ->
  r `suffix_of` l /\ length r < length l.
Proof.
  induction 1 as [|[p v'] cs Hp _ IH]; cbn; [done|].
  destruct (strip_cps p l) as [r'|] eqn:E; [|done].
  intros [= _ <-]. destruct (strip_cps_suffix _ _ _ E) as [Hs Hl]. cbn in Hp.
  split; [done|]. destruct p; [done|]. cbn in Hl. lia.
Qed.

Lemma constants_nonempty : Forall (fun pv => pv.1 <> []) constants.
Proof. repeat constructor; discriminate. Qed.

Lemma skip_ws_cp_cons (r : list Z) c r' :
  skip_ws_cp r = c :: r' -> r' `suffix_of` r /\ length r' < length r.
Proof.
  intros E. pose proof (skip_ws_cp_suffix r) as H. rewrite E in H.
  split; [by eapply suffix_cons_l|]. apply suffix_length_le in H. cbn in H. lia.
Qed.

Lemma scan_suffix_scanned {A} (a : A) r L :
  r `suffix_of` L -> length r < length L -> scan_suffix L (Scanned a r).
Proof. by intros ?? ?? [= _ <-]. Qed.

Lemma scan_suffix_raise {A} e L : scan_suffix L (@ScanRaise A e).
Proof. by intros ?? [=]. Qed.

Lemma scan_suffix_out {A} L : scan_suffix L (@ScanOut A).
Proof. by intros ?? [=]. Qed.

#[local] Hint Resolve scan_suffix_raise scan_suffix_out : core.

Lemma scan_once_suffix n :
  (forall d l, scan_suffix l (scan_once n d l)) /\
  (forall d l, scan_suffix l (array_elems n d l)) /\
  (forall d l, scan_suffix l (object_members n d l)).
Proof.
  induction n as [|n (IH1 & IH2 & IH3)]; [split_and!; intros; apply scan_suffix_out|].
  split_and!; intros d l; cbn [scan_once array_elems object_members].
  - destruct l as [|c r]; [done|].
    assert (Hr : r `suffix_of` c :: r) by (by apply suffix_cons_r).
    case_match.
    { apply scan_suffix_map. eapply scan_suffix_weaken; [exact Hr | apply scanstring_suffix]. }
    case_match.
    { destruct d as [|d]; [done|].
      destruct (skip_ws_cp r) as [|c' r'] eqn:Ew.
      - apply scan_suffix_map. eapply scan_suffix_weaken; [|apply IH2]. apply suffix_nil.
      - pose proof (skip_ws_cp_suffix r) as Hw. rewrite Ew in Hw.
        case_match.
        + apply skip_ws_cp_cons in Ew as [Hs Hl]. apply scan_suffix_scanned; [by trans r | cbn; lia].
        + apply scan_suffix_map. eapply scan_suffix_weaken; [|apply IH2]. by trans r. }
    case_match.
    { destruct d as [|d]; [done|].
      destruct (skip_ws_cp r) as [|c' r'] eqn:Ew; [done|].
      pose proof (skip_ws_cp_suffix r) as Hw. rewrite Ew in Hw.
      case_match.
      + apply skip_ws_cp_cons in Ew as [Hs Hl]. apply scan_suffix_scanned; [by trans r | cbn; lia].
      + apply scan_suffix_map. eapply scan_suffix_weaken; [|apply IH3]. by trans r. }
    destruct (match_constant constants (c :: r)) as [[v r']|] eqn:Ec.
    + apply match_constant_suffix in Ec as [Hs Hl]; [|apply constants_nonempty].
      by apply scan_suffix_scanned.
    + apply match_number_suffix.
  - apply scan_suffix_cont; [apply IH1|]. intros v r _.
    destruct (skip_ws_cp r) as [|c r'] eqn:Ew; [done|].
    apply skip_ws_cp_cons in Ew as [Hs Hl].
    case_match; [by apply scan_suffix_scanned|].
    case_match; [|done].
    apply scan_suffix_map. eapply scan_suffix_weaken; [|apply IH2].
    trans r'; [apply skip_ws_cp_suffix | done].
  - destruct l as [|c r]; [done|]. case_match; [|done].
    eapply scan_suffix_cont; [eapply scan_suffix_weaken; [|apply scanstring_suffix]; by apply suffix_cons_r|].
    intros k r1 _. destruct (skip_ws_cp r1) as [|c1 r2] eqn:Ew1; [done|].
    apply skip_ws_cp_cons in Ew1 as [Hs1 Hl1]. case_match; [|done].
    eapply scan_suffix_cont.
    { eapply scan_suffix_weaken; [|apply IH1]. trans r2; [apply skip_ws_cp_suffix | done]. }
    intros v r3 _. destruct (skip_ws_cp r3) as [|c2 r4] eqn:Ew3; [done|].
    apply skip_ws_cp_cons in Ew3 as [Hs3 Hl3].
    case_match; [by apply scan_suffix_scanned|].
    case_match; [|done].
    apply scan_suffix_map. eapply scan_suffix_weaken; [|apply IH3].
    trans r4; [apply skip_ws_cp_suffix | done].
Qed.

(** ** The fuel of [loads_text] is enough *)

Lemma scan_map_not_out {A B} (f : A -> B) m : m <> ScanOut -> scan_map f m <> ScanOut.
Proof. by destruct m. Qed.

Lemma scan_cont_not_out {A B} (m : scan A) (k : A -> list Z -> scan B) :
  m <> ScanOut -> (forall a r, m = Scanned a r -> k a r <> ScanOut) -> scan_cont m k <> ScanOut.
Proof. destruct m as [a r| |]; cbn; [eauto|done|done]. Qed.

Ltac not_out_leaf := first [ discriminate | apply scan_map_not_out ].

Lemma scanstring_not_out_lt n l : length l < n -> scanstring l <> ScanOut.
Proof.
  revert l. induction n as [|n IH]; intros l Hl; [cbn in Hl; lia|].
  destruct l as [|c r]; cbn [scanstring]; [discriminate|]. cbn [length] in Hl.
  repeat first [ discriminate | apply scan_map_not_out | apply IH; cbn [length] in *; lia | case_match ].
Qed.

Lemma scanstring_not_out l : scanstring l <> ScanOut.
Proof. apply (scanstring_not_out_lt (S (length l))). lia. Qed.

Lemma match_number_not_out l : match_number l <> ScanOut.
Proof.
  unfold match_number. destruct (scan_int_cp _); [|discriminate].
  destruct (scan_frac_cp _), (scan_exp_cp _), (_ || _);
    [destruct (py_float _) | destruct (py_int_of_str _)]; discriminate.
Qed.

Lemma scan_fuel_enough n :
  (forall d l, 2 * length l < n -> scan_once n d l <> ScanOut) /\
  (forall d l, 2 * length l + 1 < n -> array_elems n d l <> ScanOut) /\
  (forall d l, 2 * length l + 1 < n -> object_members n d l <> ScanOut).
Proof.
  induction n as [|n (IH1 & IH2 & IH3)]; [split_and!; intros; lia|].
  split_and!; intros d l Hn; cbn [scan_once array_elems object_members].
  - destruct l as [|c r]; [discriminate|]. cbn [length] in Hn.
    case_match; [apply scan_map_not_out, scanstring_not_out|].
    case_match.
    { destruct d as [|d]; [discriminate|].
      pose proof (skip_ws_cp_suffix r) as Hw%suffix_length_le.
      destruct (skip_ws_cp r) as [|c' r'] eqn:Ew.
      - apply scan_map_not_out, IH2. cbn. lia.
      - case_match; [discriminate|]. apply scan_map_not_out, IH2. cbn in *. lia. }
    case_match.
    { destruct d as [|d]; [discriminate|].
      pose proof (skip_ws_cp_suffix r) as Hw%suffix_length_le.
      destruct (skip_ws_cp r) as [|c' r'] eqn:Ew; [discriminate|].
      case_match; [discriminate|]. apply scan_map_not_out, IH3. cbn in *. lia. }
    destruct (match_constant _ _) as [[]|]; [discriminate | apply match_number_not_out].
  - apply scan_cont_not_out; [apply IH1; lia|]. intros v r Hv.
    destruct (proj1 (scan_once_suffix n) d l v r Hv) as [_ Hlr].
    destruct (skip_ws_cp r) as [|c r'] eqn:Ew; [discriminate|].
    apply skip_ws_cp_cons in Ew as [_ Hl'].
    pose proof (skip_ws_cp_suffix r') as Hw%suffix_length_le.
    case_match; [discriminate|]. case_match; [|discriminate].
    apply scan_map_not_out, IH2. lia.
  - destruct l as [|c r]; [discriminate|]. cbn [length] in Hn. case_match; [|discriminate].
    apply scan_cont_not_out; [apply scanstring_not_out|]. intros k r1 Hk.
    destruct (scanstring_suffix r k r1 Hk) as [_ Hl1].
    destruct (skip_ws_cp r1) as [|c1 r2] eqn:Ew1; [discriminate|].
    apply skip_ws_cp_cons in Ew1 as [_ Hl2]. case_match; [|discriminate].
    pose proof (skip_ws_cp_suffix r2) as Hw2%suffix_length_le.
    apply scan_cont_not_out; [apply IH1; lia|]. intros v r3 Hv.
    destruct (proj1 (scan_once_suffix n) d _ v r3 Hv) as [_ Hl3].
    destruct (skip_ws_cp r3) as [|c2 r4] eqn:Ew3; [discriminate|].
    apply skip_ws_cp_cons in Ew3 as [_ Hl4].
    pose proof (skip_ws_cp_suffix r4) as Hw4%suffix_length_le.
    case_match; [discriminate|]. case_match; [|discriminate].
    apply scan_map_not_out, IH3. lia.
Qed.

(** The scanner of [json.loads] ends within the fuel [loads_text]
    gives it: on every text, [2 * length + 1] calls are enough, so
    [json.loads] returns a value or raises one of its exceptions. *)
Theorem loads_fuel_enough cps :
  scan_once (S (2 * length cps)) JSON_DEPTH (skip_ws_cp cps) <> ScanOut.
Proof.
  apply (proj1 (scan_fuel_enough _)).
  pose proof (suffix_length_le _ _ (skip_ws_cp_suffix cps)). lia.
Qed.

(** ** Decoding ASCII and UTF-8 bytes *)

(** Text that starts with neither a byte order mark nor a zero byte, and
    whose second byte is not zero, is read as UTF-8. *)
Lemma detect_encoding_utf8 b0 b1 rest :
  b0 <> 0%Z -> b0 <> 239%Z -> b0 <> 254%Z -> b0 <> 255%Z -> b1 <> 0%Z ->
  detect_encoding (b0 :: b1 :: rest) = Utf8Enc.
Proof.
  intros H0 H1 H2 H3 H4. unfold detect_encoding.
  assert (Hf : forall p, p <> [] -> head p <> Some b0 -> bool_decide (take (length p) (b0 :: b1 :: rest) = p) = false).
  { intros [|x p] Hp Hx; [done|]. apply bool_decide_eq_false_2. intros E. cbn in E.
    injection E as -> _. by apply Hx. }
  rewrite !Hf by (done || (cbn; congruence)). cbn [orb].
  rewrite (proj2 (Z.eqb_neq _ _) H0), (proj2 (Z.eqb_neq _ _) H4).
  by destruct rest as [|b2 [|b3 rest]].
Qed.

(** Well-formed UTF-8 decodes, ['surrogatepass'] or not, to its code
    points. *)
Lemma utf8_decode_pass_ok l : utf8_ok l = true -> utf8_decode_pass l = Some (utf8_decode l).
Proof.
  intros Hok. destruct (utf8_ok_spec l Hok) as [He Hs]. unfold utf8_decode_pass.
  rewrite bool_decide_eq_true_2 by done. cbn [andb].
  replace (forallb in_range _) with true; [done|]. symmetry. apply forallb_forall.
  intros x Hx%list_elem_of_In. eapply Forall_forall in Hs; [|done].
  unfold is_scalar, in_range in *. apply andb_prop in Hs as [Hs _]. done.
Qed.

Lemma repeat_app_cons {A} (x : A) n (l : list A) : repeat x (S n) ++ l = repeat x n ++ x :: l.
Proof. induction n as [|n IH]; [done|]. cbn in *. by rewrite IH. Qed.

Lemma scan_once_open f d r :
  scan_once (S (S f)) (S d) (91%Z :: 91%Z :: r) = scan_map JArr (array_elems (S f) d (91%Z :: r)).
Proof. reflexivity. Qed.

Lemma array_elems_close f d l v rest :
  scan_once f d l = Scanned v (93%Z :: rest) -> array_elems (S f) d l = Scanned [v] rest.
Proof. intros H. cbn [array_elems]. by rewrite H. Qed.

Lemma array_elems_raise f d l e :
  scan_once f d l = ScanRaise e -> array_elems (S f) d l = ScanRaise e.
Proof. intros H. cbn [array_elems]. by rewrite H. Qed.

(** [m + 1] nested arrays, then [rest]: the nested value when the
    recursion budget [d] admits [m + 1] levels, [RecursionError] when
    it does not. *)
Lemma scan_nested m d f rest :
  2 * m < f ->
  scan_once f d (repeat 91%Z (S m) ++ repeat 93%Z (S m) ++ rest) =
    if S m <=? d then Scanned (nested m) rest else ScanRaise RecursionError.
Proof.
  revert d f rest. induction m as [|m IH]; intros d f rest Hf.
  - destruct f as [|f]; [lia|]. destruct d as [|d]; reflexivity.
  - destruct f as [|[|f]]; [lia|lia|]. destruct d as [|d]; [reflexivity|].
    assert (E : repeat 91%Z (S (S m)) ++ repeat 93%Z (S (S m)) ++ rest =
                91%Z :: 91%Z :: (repeat 91%Z m ++ repeat 93%Z (S m) ++ 93%Z :: rest)).
    { cbn [repeat app]. do 2 f_equal. f_equal. rewrite <- repeat_app_cons. done. }
    rewrite E, scan_once_open.
    change (91%Z :: repeat 91%Z m ++ ?x) with (repeat 91%Z (S m) ++ x).
    specialize (IH d f (93%Z :: rest) ltac:(lia)).
    change (S (S m) <=? S d) with (S m <=? d).
    destruct (S m <=? d).
    + by rewrite (array_elems_close _ _ _ _ _ IH).
    + by rewrite (array_elems_raise _ _ _ _ IH).
Qed.

(** [json.loads] at the call in [supabase_request] decodes at most
    [JSON_DEPTH] = 993 nested containers: a reply of [n] nested arrays
    gives the nested lists for [n <= 993] and raises [RecursionError]
    for [n > 993], an exception nothing in [main] catches. *)
Theorem loads_nesting_bound m :
  json_loads (brackets (S m)) = if S m <=? JSON_DEPTH then inr (nested m) else inl RecursionError.
Proof.
  unfold json_loads, brackets. rewrite String.list_ascii_of_string_of_list_ascii.
  set (l := repeat "["%char (S m) ++ repeat "]"%char (S m)).
  assert (Hb : map byte l = repeat 91%Z (S m) ++ repeat 93%Z (S m)).
  { subst l. by rewrite map_app, !map_repeat. }
  assert (Hd : detect_encoding (map byte l) = Utf8Enc).
  { rewrite Hb. destruct m; cbn [repeat app]; apply detect_encoding_utf8; discriminate. }
  assert (Hok : utf8_ok l = true).
  { apply utf8_ok_ascii. subst l. apply Forall_app; split; apply Forall_forall;
      intros c Hc%list_elem_of_In%repeat_spec; subst c; reflexivity. }
  rewrite Hd. cbn [decode_bytes]. rewrite utf8_decode_pass_ok by done.
  rewrite utf8_decode_ascii, Hb.
  2: { subst l. apply Forall_app; split; apply Forall_forall;
         intros c Hc%list_elem_of_In%repeat_spec; subst c; reflexivity. }
  unfold loads_text.
  replace (skip_ws_cp (repeat 91%Z (S m) ++ repeat 93%Z (S m)))
    with (repeat 91%Z (S m) ++ repeat 93%Z (S m) ++ []) by (rewrite app_nil_r; reflexivity).
  rewrite scan_nested by (rewrite !length_app, !repeat_length; cbn [length]; lia).
  by destruct (S m <=? JSON_DEPTH).
Qed.
