(* ===== verification/Supabase.v ===== *)
(** * Supabase: the REST and storage client (render-manim.py, lines 26-100)

    [supabase_request] (GET/PATCH/POST on [/rest/v1/]), [supabase_upload]
    (POST, then PUT on an [HTTPError], on [/storage/v1/object/]) and
    [supabase_update_video] (PATCH of one row), written against the
    credentials the module reads from the environment at import time.
    A 200 or 201 reply is decoded with [PyJson.json_loads], and the
    error handlers print [e.read().decode()] with [Effects.bytes_decode],
    whose [UnicodeDecodeError] escapes the handler. *)

From S2P Require Import Prelude Utf8 PyNum Effects Wp PyJson.
Local Open Scope py_scope.

(** [SUPABASE_URL] and [SUPABASE_KEY] (lines 26-27). *)
Record env := Env {
  SUPABASE_URL : string;
  SUPABASE_KEY : string
}.

Definition load_env (environ : gmap string string) : env :=
  {| SUPABASE_URL := default "" (environ !! "SUPABASE_URL");
     SUPABASE_KEY := default "" (environ !! "SUPABASE_SERVICE_KEY") |}.

Section Client.
Context (E : env).

(** The two credential headers every request carries. *)
Definition auth_headers : list (string * string) :=
  [("apikey", SUPABASE_KEY E); ("Authorization", "Bearer " +:+ SUPABASE_KEY E)].

Definition status_in (st : Z) (codes : list Z) : bool :=
  existsb (Z.eqb st) codes.

(** The request [supabase_request] sends (lines 39-47): [data] is the
    JSON body when the body is truthy. *)
Definition request_call (method path : string) (body : option json) : http_call :=
  HttpCall method (SUPABASE_URL E +:+ "/rest/v1/" +:+ path)
    (auth_headers ++
     [("Content-Type", "application/json");
      ("Prefer", if String.eqb method "PATCH" || String.eqb method "POST"
                 then "return=minimal" else "return=representation")])
    (match body with
     | Some b => if json_truthy b then Some (PJson b) else None
     | None => None
     end).

(** [supabase_request(method, path, body)] (lines 37-55): [json.loads]
    of the body of a 200 or 201 reply ([PyJson.json_loads]; its
    exceptions escape), [None] for another 2xx reply or an [HTTPError],
    whose body is printed as text ([e.read().decode()], which raises on
    bytes that are not UTF-8). *)
Definition supabase_request (method path : string) (body : option json) : M (option json) :=
  try_except
    (let* (st, raw) := urlopen (request_call method path body) in
     if status_in st [200; 201]%Z then
       match json_loads raw with
       | inr j => ret (Some j)
       | inl e => raise e
       end
     else ret None)
    (fun e => match e with
              | HTTPError code b =>
                  Some (let* text := bytes_decode b in
                        let* _ := eprint ("  Supabase error " +:+ pretty code +:+ ": " +:+ text) in
                        ret None)
              | _ => None
              end).

(** The URL of an object of the storage. *)
Definition storage_url (bucket key : string) : string :=
  SUPABASE_URL E +:+ "/storage/v1/object/" +:+ bucket +:+ "/" +:+ key.

(** The request [supabase_upload] sends with [method] (lines 60-68). *)
Definition upload_call (method bucket key content_type data : string) : http_call :=
  HttpCall method (storage_url bucket key)
    (auth_headers ++ [("Content-Type", content_type)]) (Some (PBytes data)).

(** [supabase_upload(bucket, path, file_path, content_type)]
    (lines 58-80): POST the file; on an [HTTPError], PUT it; [True] when
    the request that answered had status 200 or 201. *)
Definition supabase_upload (bucket key : string) (file_path : path)
    (content_type : string) : M bool :=
  let* data := read_bytes file_path in
  try_except
    (let* (st, _) := urlopen (upload_call "POST" bucket key content_type data) in
     ret (status_in st [200; 201]%Z))
    (fun e => match e with
              | HTTPError _ _ =>
                  Some (try_except
                    (let* (st, _) := urlopen (upload_call "PUT" bucket key content_type data) in
                     ret (status_in st [200; 201]%Z))
                    (fun e2 => match e2 with
                               | HTTPError code _ =>
                                   Some (let* _ := eprint ("  Storage upload error: " +:+ pretty code) in
                                         ret false)
                               | _ => None
                               end))
              | _ => None
              end).

(** The REST path of one row of [videos]. *)
Definition video_row_path (video_id : json) : string :=
  "videos?id=eq." +:+ py_str video_id.

(** The request [supabase_update_video] sends (lines 85-94). *)
Definition patch_call (video_id : json) (updates : json) : http_call :=
  HttpCall "PATCH" (SUPABASE_URL E +:+ "/rest/v1/" +:+ video_row_path video_id)
    (auth_headers ++ [("Content-Type", "application/json"); ("Prefer", "return=minimal")])
    (Some (PJson updates)).

(** [supabase_update_video(video_id, updates)] (lines 83-100): PATCH
    the row; [True] for a 200 or 204 reply; on an [HTTPError] the body
    is printed as text ([e.read().decode()]) and the result is
    [False]. *)
Definition supabase_update_video (video_id : json) (updates : json) : M bool :=
  try_except
    (let* (st, _) := urlopen (patch_call video_id updates) in
     ret (status_in st [200; 204]%Z))
    (fun e => match e with
              | HTTPError code b =>
                  Some (let* text := bytes_decode b in
                        let* _ := eprint ("  Update error: " +:+ pretty code +:+ ": " +:+ text) in
                        ret false)
              | _ => None
              end).

Definition is_2xx (code : Z) : bool := (200 <=? code)%Z && (code <? 300)%Z.

(** [/tmp/v.mp4] holding the bytes [mp4]. *)
Definition upload_world : World :=
  mkWorld (<[["tmp"; "v.mp4"] := NFile "mp4"]> (w_fs tmp_world)) [].

(** ** Specifications *)

(** A status outside [200, 300) is none of the success codes the
    client compares with. *)
Lemma status_in_non_2xx code (codes : list Z) :
  Forall (fun c => 200 <= c < 300)%Z codes ->
  ((200 <=? code)%Z && (code <? 300)%Z) = false -> status_in code codes = false.
Proof.
  intros Hc H. unfold status_in. apply not_true_iff_false. intros (c & Hin & ->%Z.eqb_eq)%existsb_exists.
  apply Forall_forall with (x := c) in Hc; [|by apply list_elem_of_In].
  apply andb_false_iff in H as [H|H]; [apply Z.leb_gt in H | apply Z.ltb_ge in H]; lia.
Qed.

Ltac status_tac :=
  match goal with
  | H : (_ && _) = false |- context [status_in ?c ?l] =>
      rewrite (status_in_non_2xx c l); [ | repeat constructor; lia | exact H]
  end.

(** The reply decides the result of [supabase_update_video]. *)
Lemma supabase_update_video_wp vid body o w :
  wp o (supabase_update_video vid body) (fun r w' t =>
    http_calls t = [patch_call vid body] /\ w_fs w' = w_fs w /\
    match o_http o (w_trace w) (patch_call vid body) with
    | HStatus code raw =>
        r = if is_2xx code || utf8_ok (String.list_ascii_of_string raw)
            then Ok (status_in code [200; 204]%Z) else Raise UnicodeDecodeError
    | HUnreachable => r = Raise (URLError (h_url (patch_call vid body)))
    end) w.
Proof.
  unfold supabase_update_video. apply wp_try_except, wp_bind, wp_urlopen. cbv zeta. unfold is_2xx.
  destruct (o_http o (w_trace w) (patch_call vid body)) as [code raw|] eqn:Er;
    wp_auto; (split; [reflexivity | split; [reflexivity|]]); try done.
  status_tac. done.
Qed.

(** C21: [supabase_update_video] sends exactly one request, the PATCH of the
    row, whatever happens; it returns whether the reply was 200 or 204;
    a failed connection escapes as an exception, and so does the
    [UnicodeDecodeError] of printing an error reply whose body is not
    UTF-8. *)
Lemma supabase_update_video_spec vid body o w :
  wp o (supabase_update_video vid body) (fun r w' t =>
    http_calls t = [patch_call vid body] /\ w_fs w' = w_fs w /\
    match o_http o (w_trace w) (patch_call vid body) with
    | HStatus code raw =>
        r = if is_2xx code || utf8_ok (String.list_ascii_of_string raw)
            then Ok (status_in code [200; 204]%Z) else Raise UnicodeDecodeError
    | HUnreachable => r = Raise (URLError (h_url (patch_call vid body)))
    end) w.
Proof. apply supabase_update_video_wp. Qed.

(** Its effect alone: the one PATCH, the files left as they were, and
    no exception but the failed connection. *)
Lemma supabase_update_video_patch vid body o w :
  wp o (supabase_update_video vid body) (fun r w' t =>
    http_calls t = [patch_call vid body] /\ w_fs w' = w_fs w /\
    forall e, r = Raise e -> e = URLError (h_url (patch_call vid body)) \/ e = UnicodeDecodeError) w.
Proof.
  unfold supabase_update_video. apply wp_try_except, wp_bind, wp_urlopen. cbv zeta.
  destruct (o_http o (w_trace w) (patch_call vid body)); wp_auto;
    (split; [done | split; [done | intros ? [=]; auto]]); by intros ? [=].
Qed.

Lemma patch_calls_update t vid body :
  http_calls t = [patch_call vid body] -> patch_calls t = [patch_call vid body].
Proof. unfold patch_calls. by intros ->. Qed.

(** C20: [supabase_upload] of an existing file: a POST; when the POST is
    answered with a status outside [200, 300), a PUT of the same bytes to
    the same URL; the result is whether the last reply was 200 or 201; a
    failed connection escapes as an exception. *)
Lemma supabase_upload_spec bucket key file ct data o w :
  w_fs w !! file = Some (NFile data) ->
  wp o (supabase_upload bucket key file ct) (fun r w' t =>
    w_fs w' = w_fs w /\
    let post := upload_call "POST" bucket key ct data in
    let put := upload_call "PUT" bucket key ct data in
    let r1 := o_http o (w_trace w) post in
    match r1 with
    | HStatus c1 _ =>
        if is_2xx c1 then http_calls t = [post] /\ r = Ok (status_in c1 [200; 201]%Z)
        else http_calls t = [post; put] /\
             match o_http o (w_trace w ++ [EHttp post r1]) put with
             | HStatus c2 _ => r = Ok (status_in c2 [200; 201]%Z)
             | HUnreachable => r = Raise (URLError (h_url put))
             end
    | HUnreachable => http_calls t = [post] /\ r = Raise (URLError (h_url post))
    end) w.
Proof.
  intros Hf. unfold supabase_upload, read_bytes. apply wp_bind, wp_bind, wp_get_fs.
  rewrite Hf. cbv beta match. apply wp_ret. cbv beta match.
  apply wp_try_except, wp_bind, wp_urlopen. cbv zeta. unfold is_2xx.
  destruct (o_http o (w_trace w) (upload_call "POST" bucket key ct data)) as [c1 raw1|] eqn:E1;
    wp_auto; cbn [w_fs w_trace]; (split; [reflexivity|]); try (split; [reflexivity|done]).
  all: split; [reflexivity|]; try done; status_tac; done.
Qed.

(** [supabase_request] sends its one request; the reply decides the
    result: [json.loads] of the body of a 200 or 201 (its exception
    escapes), [None] for any other status, an exception for no
    connection or an error body that is not UTF-8. *)
Lemma supabase_request_spec method path body o w :
  wp o (supabase_request method path body) (fun r w' t =>
    http_calls t = [request_call method path body] /\ w_fs w' = w_fs w /\
    match o_http o (w_trace w) (request_call method path body) with
    | HStatus code raw =>
        if status_in code [200; 201]%Z
        then r = match json_loads raw with inr j => Ok (Some j) | inl e => Raise e end
        else r = if is_2xx code || utf8_ok (String.list_ascii_of_string raw)
                 then Ok None else Raise UnicodeDecodeError
    | HUnreachable => r = Raise (URLError (h_url (request_call method path body)))
    end) w.
Proof.
  unfold supabase_request. apply wp_try_except, wp_bind, wp_urlopen. cbv zeta. unfold is_2xx.
  destruct (o_http o (w_trace w) (request_call method path body)) as [code raw|] eqn:Er;
    wp_auto; (split; [reflexivity | split; [reflexivity|]]); try done.
  all: try (exfalso; eapply json_loads_not_http; eassumption).
  all: rewrite (status_in_non_2xx code) in *; [done | repeat constructor; lia | done].
Qed.

(** [supabase_upload] never PATCHes: its requests are a POST and maybe
    a PUT. *)
Lemma supabase_upload_no_patch bucket key file ct o w :
  wp o (supabase_upload bucket key file ct) (fun _ _ t => patch_calls t = []) w.
Proof. unfold supabase_upload, read_bytes. wp_auto; reflexivity. Qed.

(** An upload changes no file and sends no PATCH, whatever happens. *)
Lemma supabase_upload_fs bucket key file ct o w :
  wp o (supabase_upload bucket key file ct) (fun _ w' t => w_fs w' = w_fs w /\ patch_calls t = []) w.
Proof. unfold supabase_upload, read_bytes. wp_auto; split; reflexivity. Qed.

(** An upload reported as done was answered 200 or 201 at the object's
    URL. *)
Lemma supabase_upload_ok bucket key file ct o w :
  wp o (supabase_upload bucket key file ct) (fun r _ t =>
    r = Ok true -> exists c code raw, EHttp c (HStatus code raw) ∈ t /\
      h_url c = storage_url bucket key /\ status_in code [200; 201]%Z = true) w.
Proof.
  unfold supabase_upload, read_bytes. wp_auto.
  all: match goal with
       | H : Ok (status_in ?c _) = Ok true,
         Hh : o_http _ _ (upload_call ?m _ _ _ _) = HStatus ?c ?r |- _ =>
           exists (upload_call m bucket key ct data), c, r;
           split; [set_solver | split; [reflexivity | by injection H]]
       end.
Qed.

(** A PATCH of the REST API never goes to a storage URL. *)
Lemma patch_url_not_storage vid body bucket key :
  h_url (patch_call vid body) <> storage_url bucket key.
Proof.
  unfold patch_call, storage_url. cbn [h_url].
  intros H%string_app_inv_head. str_simpl. discriminate.
Qed.

(** When [supabase_upload] returns [False], the storage answered no
    request to its URL with 200 or 201. *)
Lemma supabase_upload_not_ok bucket key file ct o w :
  wp o (supabase_upload bucket key file ct) (fun r _ t =>
    r = Ok false -> forall c code raw, EHttp c (HStatus code raw) ∈ t ->
      h_url c = storage_url bucket key -> status_in code [200; 201]%Z = false) w.
Proof.
  unfold supabase_upload, read_bytes. wp_auto.
  all: match goal with H : _ ∈ _ |- _ => apply list_elem_of_In in H; cbn [app In] in H end.
  all: repeat match goal with
       | H : _ \/ _ |- _ => destruct H as [H|H]
       | H : False |- _ => destruct H
       | H : EHttp _ _ = EHttp _ _ |- _ => injection H as <- <- <-
       end.
  all: first [by injection H | cbn; repeat case_bool_decide; destruct (Z.eqb_spec code0 200), (Z.eqb_spec code0 201); subst; cbn in *; try done; lia].
Qed.

End Client.

(** ** A run without a network *)

Lemma supabase_upload_spec_witness :
  let E := Env "https://db.example" "service-key" in
  w_fs upload_world !! ["tmp"; "v.mp4"] = Some (NFile "mp4") /\
  wp null_oracle (supabase_upload E "videos" "v.mp4" ["tmp"; "v.mp4"] "video/mp4") (fun r w' t =>
    http_calls t = [upload_call E "POST" "videos" "v.mp4" "video/mp4" "mp4"] /\
    r = Raise (URLError (h_url (upload_call E "POST" "videos" "v.mp4" "video/mp4" "mp4"))))
    upload_world.
Proof.
  assert (Hf : w_fs upload_world !! ["tmp"; "v.mp4"] = Some (NFile "mp4")) by reflexivity.
  split; [exact Hf|].
  eapply wp_mono; [apply (supabase_upload_spec (Env "https://db.example" "service-key")
                           "videos" "v.mp4" _ "video/mp4" "mp4" null_oracle upload_world Hf)|].
  intros r w' t [_ H]. exact H.
Defined.
