(* ===== verification/Render.v ===== *)
(** * Render: [QUALITY_FLAGS] and [render_script] (render-manim.py, lines 30-34, 125-157)

    The script is written to [scene.py] in the job's working directory,
    [manim] runs on it with a five-minute budget, and the produced video
    is searched for under [media/videos/scene/*/], or anywhere below the
    working directory when that directory does not exist.  On a failed
    run the last 500 code points of [manim]'s error output are printed
    ([str_last], on the code points [Utf8.utf8_decode] reads from the
    bytes). *)

From S2P Require Import Prelude Utf8 Effects Wp.
Local Open Scope py_scope.

(** [QUALITY_FLAGS] (lines 30-34). *)
Definition QUALITY_FLAGS : list (string * string) :=
  [("l", "-ql"); ("m", "-qm"); ("h", "-qh")].

(** [d.get(k, default)] on a dict written as an association list. *)
Fixpoint dict_get {V} (d : list (string * V)) (k : string) (default : V) : V :=
  match d with
  | [] => default
  | (k', v) :: d' => if String.eqb k k' then v else dict_get d' k default
  end.

(** [s[-n:]]: the last [n] characters (code points) of the text, the
    whole text when it is shorter. *)
Definition str_last (n : nat) (s : string) : string :=
  let cps := utf8_decode (String.list_ascii_of_string s) in
  String.string_of_list_ascii (utf8_encode (drop (length cps - n) cps)).

(** [p.write_text(v)] where [v] is a decoded value: [write_text] accepts
    only a [str], anything else raises [TypeError] before the file is
    opened. *)
Definition write_text_value (p : path) (v : json) : M unit :=
  match v with
  | JStr s => write_text p s
  | _ => raise TypeError
  end.

(** [for x in l: ... return r ...] over the results of [f]: the first
    [Some]. *)
Fixpoint first_some {A B} (f : A -> M (option B)) (l : list A) : M (option B) :=
  match l with
  | [] => ret None
  | x :: l' =>
      let* r := f x in
      match r with
      | Some b => ret (Some b)
      | None => first_some f l'
      end
  end.

(** The conventional output directory of [manim] for [scene.py]. *)
Definition media_dir (workdir : path) : path :=
  workdir // "media" // "videos" // "scene".

(** Lines 145-157: the search for the produced video. *)
Definition find_output (workdir : path) : M (option path) :=
  let md := media_dir workdir in
  let* md_exists := path_exists md in
  if negb md_exists then
    let* mp4s := rglob_star workdir ".mp4" in
    ret (head mp4s)
  else
    let* subdirs := iterdir md in
    first_some (fun subdir =>
                  let* mp4s := glob_star subdir ".mp4" in
                  ret (head mp4s)) subdirs.

(** The command line [manim <flag> <workdir>/scene.py ExampleScene]. *)
Definition manim_cmd (quality : string) (workdir : path) : list string :=
  ["manim"; dict_get QUALITY_FLAGS quality "-ql"; path_str (workdir // "scene.py");
   "ExampleScene"].

(** [subprocess.run(cmd, capture_output=True, text=True, timeout=300,
    cwd=workdir)] (lines 134-136): the output is decoded as text. *)
Definition manim_call (quality : string) (workdir : path) : proc_call :=
  ProcCall (manim_cmd quality workdir) 300 (Some workdir) true.

(** [render_script(script, quality, workdir)] (lines 125-157). *)
Definition render_script (script : json) (quality : string) (workdir : path) : M (option path) :=
  let script_path := workdir // "scene.py" in
  let* _ := write_text_value script_path script in
  let* result :=
    try_except
      (let* r := subprocess_run (manim_call quality workdir) in ret (Some r))
      (fun e => match e with
                | TimeoutExpired _ =>
                    Some (let* _ := print "  Render timed out (5 min)" in ret None)
                | _ => None
                end) in
  match result with
  | None => ret None
  | Some (rc, _, err) =>
      if negb (Z.eqb rc 0) then
        let* _ := print ("  Manim error:" +:+ NL +:+ str_last 500 err) in
        ret None
      else find_output workdir
  end.

(** [m] only reads: it leaves the world and the trace as they are, and
    its result satisfies [R] in the world it read. *)
Definition reads {A} (m : M A) (R : World -> res A -> Prop) : Prop :=
  forall o w, wp o m (fun r w' t => w' = w /\ t = [] /\ R w r) w.

(** Where a found video lies: an existing entry, named [*.mp4],
    strictly below [root]. *)
Definition found_below (w : World) (root p : path) : Prop :=
  is_Some (w_fs w !! p) /\ str_endswith ".mp4" (path_name p) = true /\
  exists rest, rest <> [] /\ p = root ++ rest.

(** A working directory where [manim]'s output directory exists but holds
    no video, and a video lies elsewhere below the working directory. *)
Definition media_only_world : World :=
  mkWorld (list_to_map [([], NDir); (["w"], NDir); (["w"; "media"], NDir);
                        (["w"; "media"; "videos"], NDir);
                        (["w"; "media"; "videos"; "scene"], NDir);
                        (["w"; "out.mp4"], NFile "v")]) [].

(** ** Reading the file system *)

Lemma first_some_reads {A B} (f : A -> M (option B)) (l : list A)
    (P : World -> A -> B -> Prop) :
  (forall x, x ∈ l -> reads (f x) (fun w r => forall b, r = Ok (Some b) -> P w x b)) ->
  reads (first_some f l) (fun w r => forall b, r = Ok (Some b) -> exists x, x ∈ l /\ P w x b).
Proof.
  induction l as [|x l IH]; intros Hf o w; simpl; wp_auto.
  - repeat split; congruence.
  - eapply wp_mono; [apply Hf; by left|]. intros r w1 t1 (-> & -> & Hr).
    destruct r as [[b|]|e]; wp_auto.
    + repeat split. intros b' [= <-]. exists x. split; [by left|]. by apply Hr.
    + eapply wp_mono; [apply IH; intros y Hy; apply Hf; by right|].
      intros r w2 t2 (-> & -> & Hr2). repeat split. intros b Hb.
      destruct (Hr2 b Hb) as (y & Hy & HP). exists y. split; [by right|done].
    + repeat split. done.
Qed.

Lemma media_dir_app d : media_dir d = d ++ ["media"; "videos"; "scene"].
Proof. unfold media_dir. cbn. by rewrite <- !app_assoc. Qed.

Lemma head_filter_elem {A} (P : A -> Prop) `{!forall x, Decision (P x)} (l : list A) x :
  head (filter P l) = Some x -> x ∈ l /\ P x.
Proof. intros Hh%head_Some_elem_of. by apply list_elem_of_filter in Hh as [? ?]. Qed.

Ltac reads_intro := split; [reflexivity | split; [reflexivity | ]].

(** The search for the video finds an existing [*.mp4] entry strictly
    below the working directory; when [manim]'s output directory exists,
    the entry is exactly two levels below it ([media/videos/scene/<q>/x.mp4])
    and the rest of the working directory is not searched. *)
Lemma find_output_spec d :
  reads (find_output d) (fun w r => forall p, r = Ok (Some p) ->
    found_below w d p /\
    (is_Some (w_fs w !! media_dir d) -> exists sub name, p = media_dir d ++ [sub; name])).
Proof.
  intros o w. unfold find_output, rglob_star, iterdir. wp_auto.
  all: try (reads_intro; congruence).
  - reads_intro. intros q [= Hp].
    apply head_filter_elem in Hp as [(Hs & r & Hr & ->)%fs_below_spec Hsuf].
    split; [split; [done | split; [done | eauto]] |].
    intros [x Hx]. by rewrite Hx in Heqb.
  - reads_intro. by intros q [=].
  - eapply wp_mono.
    + apply (first_some_reads _ _ (fun w sub p => found_below w sub p /\ exists c, p = sub ++ [c])).
      intros sub Hsub o' w'. unfold glob_star. wp_auto.
      * reads_intro. intros q [= Hp].
        apply head_filter_elem in Hp as [(Hs & c & ->)%fs_children_spec Hsuf].
        split; [split; [done | split; [done | by exists [c]]] | eauto].
      * reads_intro. by intros q [=].
    + intros r w' t (-> & -> & Hr). reads_intro. intros q Hp.
      destruct (Hr q Hp) as (sub & (Hs & c & ->)%fs_children_spec & (Hf & Hsuf & _) & c' & ->).
      rewrite media_dir_app in *. split.
      * split; [done | split; [done |]]. exists (["media"; "videos"; "scene"] ++ [c] ++ [c']).
        split; [done|]. by rewrite <- !app_assoc.
      * intros _. exists c, c'. by rewrite <- !app_assoc.
Qed.

(** ** [render_script] *)

Lemma dict_get_quality_default q :
  q <> "l" -> q <> "m" -> q <> "h" -> dict_get QUALITY_FLAGS q "-ql" = "-ql".
Proof.
  intros Hl Hm Hh. unfold QUALITY_FLAGS. simpl.
  repeat match goal with |- context [String.eqb ?a ?b] => destruct (String.eqb_spec a b) end;
    congruence.
Qed.

(** C18: a quality outside [l], [m], [h] renders exactly as [l] does:
    the two calls of [render_script] are the same computation. *)
Theorem render_quality_fallback script q workdir :
  q <> "l" -> q <> "m" -> q <> "h" ->
  render_script script q workdir = render_script script "l" workdir.
Proof.
  intros Hl Hm Hh. unfold render_script, manim_call, manim_cmd.
  by rewrite dict_get_quality_default.
Qed.



Lemma quiet_find_output d : quiet (find_output d).
Proof.
  intros o w. eapply wp_mono; [apply find_output_spec|]. by intros r w' t (_ & -> & _).
Qed.

Lemma quiet_render_script s q d : quiet (render_script s q d).
Proof.
  unfold render_script, write_text_value.
  apply quiet_bind; [destruct s; auto with quiet|]. intros _.
  apply quiet_bind.
  - apply quiet_try_except; [auto with quiet|]. intros []; auto with quiet.
  - intros [[[rc out] err]|]; [|auto with quiet].
    destruct (negb _); [auto with quiet | apply quiet_find_output].
Qed.

#[export] Hint Resolve quiet_render_script quiet_find_output : quiet.

(** ** Runs on concrete worlds *)

Lemma render_quality_fallback_witness :
  ("x" <> "l" /\ "x" <> "m" /\ "x" <> "h") /\
  render_script (JStr "s") "x" ["tmp"; "tmp0"] = render_script (JStr "s") "l" ["tmp"; "tmp0"].
Proof.
  split; [repeat split; discriminate|].
  apply render_quality_fallback; discriminate.
Defined.


Lemma string_of_list_ascii_app a b :
  String.string_of_list_ascii (a ++ b) = String.string_of_list_ascii a +:+ String.string_of_list_ascii b.
Proof. induction a as [|c a IH]; [done|]. cbn. by rewrite IH. Qed.

(** The excerpt of [manim]'s error output that [render_script]
    prints ([result.stderr[-500:]], line 142) is the end of the output:
    the output is some text followed by the excerpt, and the excerpt has
    [min n (len output)] characters, counted as Python counts them (code
    points, not bytes), and is well-formed text itself. *)
Theorem str_last_bounds n s :
  utf8_ok (String.list_ascii_of_string s) = true ->
  (exists p, s = p +:+ str_last n s) /\
  length (utf8_decode (String.list_ascii_of_string (str_last n s))) =
    Nat.min n (length (utf8_decode (String.list_ascii_of_string s))) /\
  utf8_ok (String.list_ascii_of_string (str_last n s)) = true.
Proof.
  intros Hok. destruct (utf8_ok_spec _ Hok) as [He Hs]. unfold str_last.
  set (cps := utf8_decode (String.list_ascii_of_string s)) in *.
  set (k := length cps - n).
  assert (Hd : Forall (fun cp => is_scalar cp = true) (drop k cps)) by (by apply Forall_drop).
  rewrite String.list_ascii_of_string_of_list_ascii, utf8_decode_encode by done.
  split_and!.
  - exists (String.string_of_list_ascii (utf8_encode (take k cps))).
    rewrite <- string_of_list_ascii_app. unfold utf8_encode. rewrite <- flat_map_app, take_drop.
    fold (utf8_encode cps). rewrite He. by rewrite String.string_of_list_ascii_of_string.
  - rewrite length_drop. subst k. lia.
  - by apply utf8_ok_encode.
Qed.

(** C19: [find_output] (lines 145-157) runs the fallback scan of
    the whole job directory only when [media/videos/scene] is absent:
    when that directory exists the search only reads, and the only
    video it can return lies in a subdirectory of it, so a video
    anywhere else in the job directory is never found. *)
Theorem find_output_media_only d o w :
  is_Some (w_fs w !! media_dir d) ->
  wp o (find_output d) (fun r w' t => w' = w /\ t = [] /\
    forall p, r = Ok (Some p) -> found_below w d p /\ exists sub name, p = media_dir d ++ [sub; name]) w.
Proof.
  intros Hm. eapply wp_mono; [apply find_output_spec|]. intros r w' t (-> & -> & H).
  split_and!; [done | done |]. intros p Hp. destruct (H p Hp) as [Hf Hs]. split; [exact Hf | by apply Hs].
Qed.

Lemma find_output_media_only_witness :
  is_Some (w_fs media_only_world !! media_dir ["w"]) /\
  wp null_oracle (find_output ["w"]) (fun r w' t => w' = media_only_world /\ t = [] /\
    forall p, r = Ok (Some p) -> exists sub name, p = media_dir ["w"] ++ [sub; name]) media_only_world.
Proof.
  assert (Hm : is_Some (w_fs media_only_world !! media_dir ["w"])) by (vm_compute; eauto).
  split; [exact Hm|]. eapply wp_mono; [apply (find_output_media_only _ _ _ Hm)|].
  intros r w' t (-> & -> & H). split_and!; [done | done |]. intros p Hp. apply (H p Hp).
Defined.

