(* ===== verification/Json.v ===== *)
(** * Json: [json.dumps] and the reading of its text by the server

    [supabase_request] and [supabase_update_video] send
    [json.dumps(body).encode()] (render-manim.py, lines 46 and 93).  This
    file models [json.dumps] with its defaults (CPython 3.11:
    [ensure_ascii=True], separators [", "] and [": "], [allow_nan=True])
    on the JSON values of [Effects], where a Python [str] is held as its
    UTF-8 bytes, and the reading of the text by the database (RFC 8259:
    the grammar of values, with [\uXXXX] escapes and surrogate pairs
    decoded back to UTF-8).  The theorem of the file is the round trip:
    the server reads exactly the value the script encoded. *)

From S2P Require Import Prelude Utf8 Effects PyNum.
Local Open Scope py_scope.

(** ** [json.dumps] *)

(** [Py_hexdigits]: lower-case hexadecimal digits. *)
Definition hex_digit (n : Z) : ascii :=
  if (n <? 10)%Z then chr (48 + n) else chr (87 + n).

(** [\uXXXX] for a UTF-16 code unit. *)
Definition u_escape (u : Z) : list ascii :=
  ["\"%char; "u"%char; hex_digit ((u / 4096) mod 16); hex_digit ((u / 256) mod 16);
   hex_digit ((u / 16) mod 16); hex_digit (u mod 16)].

(** [ascii_escape_unichar] of CPython's [_json] module: the two-character
    escapes, printable ASCII as itself, any other code point as [\uXXXX],
    above U+FFFF as a surrogate pair. *)
Definition escape_cp (cp : Z) : list ascii :=
  if (cp =? 34)%Z then ["\"%char; "034"%char]
  else if (cp =? 92)%Z then ["\"%char; "\"%char]
  else if (cp =? 8)%Z then ["\"%char; "b"%char]
  else if (cp =? 12)%Z then ["\"%char; "f"%char]
  else if (cp =? 10)%Z then ["\"%char; "n"%char]
  else if (cp =? 13)%Z then ["\"%char; "r"%char]
  else if (cp =? 9)%Z then ["\"%char; "t"%char]
  else if (32 <=? cp)%Z && (cp <=? 126)%Z then [chr cp]
  else if (cp <? 65536)%Z then u_escape cp
  else u_escape (55296 + (cp - 65536) / 1024) ++ u_escape (56320 + (cp - 65536) mod 1024).

(** [encode_basestring_ascii]: the quoted, escaped text of a [str]. *)
Definition encode_str (s : string) : list ascii :=
  "034"%char :: flat_map escape_cp (utf8_decode (String.list_ascii_of_string s)) ++ ["034"%char].

(** [floatstr] of the encoder: [NaN] and [Infinity] for the special
    values ([allow_nan=True]), [float.__repr__] otherwise. *)
Definition float_text (r : string) : list ascii :=
  String.list_ascii_of_string
    (if String.eqb r "nan" then "NaN"
     else if String.eqb r "inf" then "Infinity"
     else if String.eqb r "-inf" then "-Infinity"
     else r).

(** [sep.join(items)] on character lists. *)
Fixpoint join_l (sep : list ascii) (items : list (list ascii)) : list ascii :=
  match items with
  | [] => []
  | [x] => x
  | x :: l => x ++ sep ++ join_l sep l
  end.

Definition comma : list ascii := [","%char; " "%char].
Definition colon : list ascii := [":"%char; " "%char].

(** [json.dumps(v)], as characters.  An object is a Python dict: of two
    members with the same key the first position and the last value
    stay, as [dict_of_pairs] computes. *)
Fixpoint dumps_l (v : json) : list ascii :=
  match v with
  | JNull => String.list_ascii_of_string "null"
  | JBool true => String.list_ascii_of_string "true"
  | JBool false => String.list_ascii_of_string "false"
  | JInt z => String.list_ascii_of_string (pretty z)
  | JFloat r => float_text r
  | JStr s => encode_str s
  | JArr l => "["%char :: join_l comma (map dumps_l l) ++ ["]"%char]
  | JObj f =>
      "{"%char :: join_l comma
        (map (fun kv => encode_str kv.1 ++ colon ++ kv.2)
           (dict_of_pairs (map (fun kv => (kv.1, dumps_l kv.2)) f))) ++ ["}"%char]
  end.

Definition json_dumps (v : json) : string := String.string_of_list_ascii (dumps_l v).

(** ** The server's reading of a JSON text (RFC 8259) *)

Definition is_json_ws (c : ascii) : bool :=
  Ascii.eqb c " "%char || Ascii.eqb c "009"%char || Ascii.eqb c "010"%char ||
  Ascii.eqb c "013"%char.

Fixpoint skip_ws (l : list ascii) : list ascii :=
  match l with
  | c :: r => if is_json_ws c then skip_ws r else l
  | [] => []
  end.

Definition hex_val (c : ascii) : option Z :=
  let b := byte c in
  if (48 <=? b)%Z && (b <=? 57)%Z then Some (b - 48)%Z
  else if (97 <=? b)%Z && (b <=? 102)%Z then Some (b - 87)%Z
  else if (65 <=? b)%Z && (b <=? 70)%Z then Some (b - 55)%Z
  else None.

Definition hex4 (a b c d : ascii) : option Z :=
  match hex_val a, hex_val b, hex_val c, hex_val d with
  | Some x, Some y, Some z, Some w => Some (x * 4096 + y * 256 + z * 16 + w)%Z
  | _, _, _, _ => None
  end.

(** The character of a two-character escape. *)
Definition short_escape (e : ascii) : option ascii :=
  if Ascii.eqb e "034"%char then Some "034"%char
  else if Ascii.eqb e "\"%char then Some "\"%char
  else if Ascii.eqb e "/"%char then Some "/"%char
  else if Ascii.eqb e "b"%char then Some "008"%char
  else if Ascii.eqb e "f"%char then Some "012"%char
  else if Ascii.eqb e "n"%char then Some "010"%char
  else if Ascii.eqb e "r"%char then Some "013"%char
  else if Ascii.eqb e "t"%char then Some "009"%char
  else None.

Definition prepend (p : list ascii) (x : list ascii * list ascii) : list ascii * list ascii :=
  (p ++ x.1, x.2).

(** The body of a string after its opening quote: the UTF-8 bytes it
    stands for and the text after the closing quote.  A raw control
    character, an unknown escape or a lone surrogate is an error. *)
Fixpoint parse_string (l : list ascii) : option (list ascii * list ascii) :=
  match l with
  | [] => None
  | c :: r =>
      if Ascii.eqb c "034"%char then Some ([], r)
      else if Ascii.eqb c "\"%char then
        match r with
        | [] => None
        | e :: r1 =>
            if Ascii.eqb e "u"%char then
              match r1 with
              | a :: b :: c1 :: d :: r2 =>
                  match hex4 a b c1 d with
                  | None => None
                  | Some u =>
                      if (55296 <=? u)%Z && (u <? 56320)%Z then
                        match r2 with
                        | bs :: uu :: a2 :: b2 :: c2 :: d2 :: r3 =>
                            if Ascii.eqb bs "\"%char && Ascii.eqb uu "u"%char then
                              match hex4 a2 b2 c2 d2 with
                              | Some u2 =>
                                  if (56320 <=? u2)%Z && (u2 <? 57344)%Z then
                                    prepend (utf8_encode_cp
                                               (65536 + (u - 55296) * 1024 + (u2 - 56320)))
                                      <$> parse_string r3
                                  else None
                              | None => None
                              end
                            else None
                        | _ => None
                        end
                      else if (56320 <=? u)%Z && (u <? 57344)%Z then None
                      else prepend (utf8_encode_cp u) <$> parse_string r2
                  end
              | _ => None
              end
            else
              match short_escape e with
              | Some ch => prepend [ch] <$> parse_string r1
              | None => None
              end
        end
      else if (byte c <? 32)%Z then None
      else prepend [c] <$> parse_string r
  end.

(** The optional minus sign of a number. *)
Definition scan_minus (l : list ascii) : bool * list ascii :=
  match l with
  | c :: r => if Ascii.eqb c "-"%char then (true, r) else (false, l)
  | [] => (false, l)
  end.

(** The optional fraction: a point and its digits. *)
Definition scan_frac (l : list ascii) : option (list ascii) * list ascii :=
  match l with
  | c :: r => if Ascii.eqb c "."%char then let '(fp, r') := take_digits r in (Some fp, r')
              else (None, l)
  | [] => (None, l)
  end.

(** The optional exponent: [e] or [E], a sign, its digits. *)
Definition scan_exp (l : list ascii) : option (list ascii) * list ascii :=
  match l with
  | c :: r => if Ascii.eqb (lower c) "e"%char
              then let '(_, r') := take_sign r in let '(ed, r'') := take_digits r' in (Some ed, r'')
              else (None, l)
  | [] => (None, l)
  end.

(** [-? (0 | [1-9][0-9]* ) (. [0-9]+)? ([eE] [+-]? [0-9]+)?]: an integer
    without fraction and exponent, a float (kept as its text) with. *)
Definition parse_number (l : list ascii) : option (json * list ascii) :=
  let '(neg, l1) := scan_minus l in
  let '(ip, r1) := take_digits l1 in
  let '(frac, r2) := scan_frac r1 in
  let '(exp, r3) := scan_exp r2 in
  let int_ok := match ip with
                | [] => false
                | d :: ds => negb (Ascii.eqb d "0"%char) || bool_decide (ds = [])
                end in
  let frac_ok := match frac with Some [] => false | _ => true end in
  let exp_ok := match exp with Some [] => false | _ => true end in
  if int_ok && frac_ok && exp_ok then
    match frac, exp with
    | None, None => Some (JInt (if neg then - digits_val ip else digits_val ip)%Z, r3)
    | _, _ => Some (JFloat (String.string_of_list_ascii (take (length l - length r3) l)), r3)
    end
  else None.

(** [lit] at the start of [l]. *)
Fixpoint strip_lit (lit l : list ascii) : option (list ascii) :=
  match lit, l with
  | [], _ => Some l
  | c :: lit', d :: l' => if Ascii.eqb c d then strip_lit lit' l' else None
  | _ :: _, [] => None
  end.

(** A value, the elements of an array after the first one's start, the
    members of an object; [fuel] bounds the nesting and the number of
    elements. *)
Fixpoint parse_value (fuel : nat) (l : list ascii) : option (json * list ascii) :=
  match fuel with
  | O => None
  | S n =>
      match skip_ws l with
      | [] => None
      | c :: r =>
          if Ascii.eqb c "["%char then
            match skip_ws r with
            | c' :: r' => if Ascii.eqb c' "]"%char then Some (JArr [], r')
                          else (fun x => (JArr x.1, x.2)) <$> parse_elems n r
            | [] => None
            end
          else if Ascii.eqb c "{"%char then
            match skip_ws r with
            | c' :: r' => if Ascii.eqb c' "}"%char then Some (JObj [], r')
                          else (fun x => (JObj x.1, x.2)) <$> parse_members n r
            | [] => None
            end
          else if Ascii.eqb c "034"%char then
            (fun x => (JStr (String.string_of_list_ascii x.1), x.2)) <$> parse_string r
          else match strip_lit (String.list_ascii_of_string "null") (c :: r) with
          | Some r' => Some (JNull, r')
          | None =>
              match strip_lit (String.list_ascii_of_string "true") (c :: r) with
              | Some r' => Some (JBool true, r')
              | None =>
                  match strip_lit (String.list_ascii_of_string "false") (c :: r) with
                  | Some r' => Some (JBool false, r')
                  | None => parse_number (c :: r)
                  end
              end
          end
      end
  end
with parse_elems (fuel : nat) (l : list ascii) : option (list json * list ascii) :=
  match fuel with
  | O => None
  | S n =>
      match parse_value n l with
      | None => None
      | Some (v, r) =>
          match skip_ws r with
          | c :: r' =>
              if Ascii.eqb c ","%char then (fun x => (v :: x.1, x.2)) <$> parse_elems n r'
              else if Ascii.eqb c "]"%char then Some ([v], r')
              else None
          | [] => None
          end
      end
  end
with parse_members (fuel : nat) (l : list ascii) : option (list (string * json) * list ascii) :=
  match fuel with
  | O => None
  | S n =>
      match skip_ws l with
      | c :: r =>
          if Ascii.eqb c "034"%char then
            match parse_string r with
            | None => None
            | Some (k, r1) =>
                match skip_ws r1 with
                | c1 :: r2 =>
                    if Ascii.eqb c1 ":"%char then
                      match parse_value n r2 with
                      | None => None
                      | Some (v, r3) =>
                          let kv := (String.string_of_list_ascii k, v) in
                          match skip_ws r3 with
                          | c2 :: r4 =>
                              if Ascii.eqb c2 ","%char then
                                (fun x => (kv :: x.1, x.2)) <$> parse_members n r4
                              else if Ascii.eqb c2 "}"%char then Some ([kv], r4)
                              else None
                          | [] => None
                          end
                      end
                    else None
                | [] => None
                end
            end
          else None
      | [] => None
      end
  end.

(** The value a whole text stands for: one value with white space
    around it. *)
Definition json_read (s : string) : option json :=
  let l := String.list_ascii_of_string s in
  match parse_value (S (length l)) l with
  | Some (v, r) => if bool_decide (skip_ws r = []) then Some v else None
  | None => None
  end.

(** The bytes of the body of a request: [json.dumps(body).encode()] for a
    JSON body (lines 46 and 93; the text is ASCII, so [.encode()] keeps
    it), the bytes read from the file for an upload (line 62). *)
Definition wire_body (c : http_call) : option string :=
  match h_data c with
  | Some (PJson j) => Some (json_dumps j)
  | Some (PBytes b) => Some b
  | None => None
  end.

(** ** The values the round trip is about *)

(** A float [json.dumps] prints as a JSON number: not [nan] nor an
    infinity, whose [NaN] and [Infinity] are not JSON. *)
Definition float_wire_ok (r : string) : bool :=
  match parse_number (float_text r) with
  | Some (JFloat r', []) => String.eqb r r'
  | _ => false
  end.

(** Every text of the value is well-formed UTF-8 (a Python [str] without
    lone surrogates) and every float is finite. *)
Fixpoint json_wire_ok (v : json) : bool :=
  match v with
  | JStr s => utf8_ok (String.list_ascii_of_string s)
  | JFloat r => float_wire_ok r
  | JArr l => forallb json_wire_ok l
  | JObj f => forallb (fun kv => utf8_ok (String.list_ascii_of_string kv.1) && json_wire_ok kv.2) f
  | _ => true
  end.

(** The value as a Python dict sees it: of two members with the same key
    the first position and the last value stay. *)
Fixpoint json_norm (v : json) : json :=
  match v with
  | JArr l => JArr (map json_norm l)
  | JObj f => JObj (dict_of_pairs (map (fun kv => (kv.1, json_norm kv.2)) f))
  | _ => v
  end.

(** What may follow a value inside the text [json.dumps] prints. *)
Definition stop (l : list ascii) : Prop :=
  match l with
  | [] => True
  | c :: _ => c = ","%char \/ c = "]"%char \/ c = "}"%char
  end.





Lemma hex_val_digit n : (0 <= n < 16)%Z -> hex_val (hex_digit n) = Some n.
Proof.
  intros H. unfold hex_digit, hex_val.
  destruct (Z.ltb_spec n 10); rewrite byte_chr by lia; zcmp; try lia; f_equal; lia.
Qed.

Lemma hex4_u_escape u : (0 <= u < 65536)%Z ->
  hex4 (hex_digit ((u / 4096) mod 16)) (hex_digit ((u / 256) mod 16))
       (hex_digit ((u / 16) mod 16)) (hex_digit (u mod 16)) = Some u.
Proof.
  intros H. unfold hex4. rewrite !hex_val_digit by (apply Z.mod_pos_bound; lia).
  f_equal. Z.div_mod_to_equations. lia.
Qed.


(** ** Reading back one escaped code point *)

Lemma parse_string_plain c r :
  Ascii.eqb c "034"%char = false -> Ascii.eqb c "\"%char = false -> (32 <= byte c)%Z ->
  parse_string (c :: r) = prepend [c] <$> parse_string r.
Proof.
  intros H1 H2 H3. cbn [parse_string]. rewrite H1, H2.
  by destruct (Z.ltb_spec (byte c) 32); [lia|].
Qed.

Lemma parse_string_u a b c d r :
  parse_string ("\"%char :: "u"%char :: a :: b :: c :: d :: r) =
  match hex4 a b c d with
  | None => None
  | Some u =>
      if (55296 <=? u)%Z && (u <? 56320)%Z then
        match r with
        | bs :: uu :: a2 :: b2 :: c2 :: d2 :: r3 =>
            if Ascii.eqb bs "\"%char && Ascii.eqb uu "u"%char then
              match hex4 a2 b2 c2 d2 with
              | Some u2 =>
                  if (56320 <=? u2)%Z && (u2 <? 57344)%Z then
                    prepend (utf8_encode_cp (65536 + (u - 55296) * 1024 + (u2 - 56320)))
                      <$> parse_string r3
                  else None
              | None => None
              end
            else None
        | _ => None
        end
      else if (56320 <=? u)%Z && (u <? 57344)%Z then None
      else prepend (utf8_encode_cp u) <$> parse_string r
  end.
Proof. reflexivity. Qed.

Lemma escape_cp_scalar cp l :
  is_scalar cp = true ->
  parse_string (escape_cp cp ++ l) = prepend (utf8_encode_cp cp) <$> parse_string l.
Proof.
  unfold is_scalar. intros Hs. apply andb_prop in Hs as [Hs Hsur].
  apply andb_prop in Hs as [H0%Z.leb_le Hmax%Z.ltb_lt].
  assert (Hns : ~ (55296 <= cp < 57344)%Z).
  { intros [Ha Hb]. apply Z.leb_le in Ha. apply Z.ltb_lt in Hb. by rewrite Ha, Hb in Hsur. }
  clear Hsur. unfold escape_cp.
  destruct (Z.eqb_spec cp 34) as [->|H34]; [reflexivity|].
  destruct (Z.eqb_spec cp 92) as [->|H92]; [reflexivity|].
  destruct (Z.eqb_spec cp 8) as [->|H8]; [reflexivity|].
  destruct (Z.eqb_spec cp 12) as [->|H12]; [reflexivity|].
  destruct (Z.eqb_spec cp 10) as [->|H10]; [reflexivity|].
  destruct (Z.eqb_spec cp 13) as [->|H13]; [reflexivity|].
  destruct (Z.eqb_spec cp 9) as [->|H9]; [reflexivity|].
  destruct (Z.leb_spec 32 cp) as [Hlo|Hlo], (Z.leb_spec cp 126) as [Hhi|Hhi]; cbn [andb].
  1: { cbn [app]. rewrite parse_string_plain.
    - unfold utf8_encode_cp. by destruct (Z.ltb_spec cp 128); [|lia].
    - change "034"%char with (chr 34). apply chr_eqb_ne; lia.
    - change "\"%char with (chr 92). apply chr_eqb_ne; lia.
    - rewrite byte_chr; lia. }
  all: destruct (Z.ltb_spec cp 65536) as [Hb|Hb]; unfold u_escape; cbn [app];
    rewrite parse_string_u, hex4_u_escape by (Z.div_mod_to_equations; lia).
  all: try (zcmp; first [lia | reflexivity]).
  all: zcmp; try (exfalso; Z.div_mod_to_equations; lia).
  all: rewrite hex4_u_escape by (Z.div_mod_to_equations; lia).
  all: zcmp; try (exfalso; Z.div_mod_to_equations; lia).
  all: do 3 f_equal; Z.div_mod_to_equations; lia.
Qed.

Lemma parse_string_escaped cps l :
  Forall (fun cp => is_scalar cp = true) cps ->
  parse_string (flat_map escape_cp cps ++ "034"%char :: l) = Some (utf8_encode cps, l).
Proof.
  induction 1 as [|cp cps Hcp _ IH]; [reflexivity|].
  cbn [flat_map]. rewrite <- app_assoc, escape_cp_scalar, IH by done. reflexivity.
Qed.


(** The text of a [str] that [json.dumps] prints reads back as the same
    bytes. *)
Lemma parse_encode_str s l :
  utf8_ok (String.list_ascii_of_string s) = true ->
  parse_string (flat_map escape_cp (utf8_decode (String.list_ascii_of_string s)) ++ "034"%char :: l) =
    Some (String.list_ascii_of_string s, l).
Proof.
  intros [Henc Hsc]%utf8_ok_spec. rewrite parse_string_escaped by done. by rewrite Henc.
Qed.

(** ** Reading back a number *)

Lemma stop_cases l : stop l -> l = [] \/ exists c r, l = c :: r /\ c ∈ [","%char; "]"%char; "}"%char].
Proof.
  destruct l as [|c r]; [by left|]. intros H. right. exists c, r. split; [done|].
  rewrite !elem_of_cons, elem_of_nil. cbn in H. tauto.
Qed.

Ltac stop_cases H :=
  apply stop_cases in H as [->|(?c & ?r & -> & H)];
  [|rewrite !elem_of_cons, elem_of_nil in H; repeat destruct H as [->|H]; [..|done]].

Lemma take_digits_app x l :
  stop l -> take_digits (x ++ l) = ((take_digits x).1, (take_digits x).2 ++ l).
Proof.
  intros Hl. induction x as [|c x IH]; cbn [app take_digits].
  - stop_cases Hl; reflexivity.
  - destruct (is_digit c); [|done]. rewrite IH. by destruct (take_digits x).
Qed.

Lemma scan_minus_app x l :
  stop l -> scan_minus (x ++ l) = ((scan_minus x).1, (scan_minus x).2 ++ l).
Proof.
  intros Hl. destruct x as [|c x]; cbn [app scan_minus]; [stop_cases Hl; reflexivity|].
  by destruct (Ascii.eqb c "-"%char).
Qed.

Lemma take_sign_cons c r :
  take_sign (c :: r) = if Ascii.eqb c "-"%char then (true, r)
                       else if Ascii.eqb c "+"%char then (false, r) else (false, c :: r).
Proof. by destruct c as [[] [] [] [] [] [] [] []]. Qed.

Lemma take_sign_app x l :
  stop l -> take_sign (x ++ l) = ((take_sign x).1, (take_sign x).2 ++ l).
Proof.
  intros Hl. destruct x as [|c x]; cbn [app]; [stop_cases Hl; reflexivity|].
  rewrite !take_sign_cons. by destruct (Ascii.eqb c "-"%char), (Ascii.eqb c "+"%char).
Qed.

Lemma scan_frac_app x l :
  stop l -> scan_frac (x ++ l) = ((scan_frac x).1, (scan_frac x).2 ++ l).
Proof.
  intros Hl. destruct x as [|c x]; cbn [app scan_frac]; [stop_cases Hl; reflexivity|].
  destruct (Ascii.eqb c "."%char); [|done]. rewrite take_digits_app by done.
  by destruct (take_digits x).
Qed.

Lemma scan_exp_app x l :
  stop l -> scan_exp (x ++ l) = ((scan_exp x).1, (scan_exp x).2 ++ l).
Proof.
  intros Hl. destruct x as [|c x]; cbn [app scan_exp]; [stop_cases Hl; reflexivity|].
  destruct (Ascii.eqb (lower c) "e"%char); [|done]. rewrite take_sign_app by done.
  destruct (take_sign x) as [sg r']. cbn. rewrite take_digits_app by done.
  by destruct (take_digits r').
Qed.

(** A number followed by what may follow a value reads as the number
    alone. *)
Lemma parse_number_app t l :
  stop l -> parse_number (t ++ l) = (fun x => (x.1, x.2 ++ l)) <$> parse_number t.
Proof.
  intros Hl. unfold parse_number.
  rewrite scan_minus_app by done. destruct (scan_minus t) as [neg l1]. cbn [fst snd].
  rewrite take_digits_app by done. destruct (take_digits l1) as [ip r1]. cbn [fst snd].
  rewrite scan_frac_app by done. destruct (scan_frac r1) as [fr r2]. cbn [fst snd].
  rewrite scan_exp_app by done. destruct (scan_exp r2) as [ex r3]. cbn [fst snd].
  case_match; [|done]. cbn.
  destruct fr, ex; try reflexivity;
    (do 3 f_equal; rewrite !length_app;
     replace (length t + length l - (length r3 + length l)) with (length t - length r3) by lia;
     by rewrite take_app_le by lia).
Qed.

Lemma parse_number_pretty (z : Z) :
  parse_number (String.list_ascii_of_string (pretty z)) = Some (JInt z, []).
Proof.
  destruct (pretty_Z_digits z) as (L & HL & Hd & Hne & Hv). rewrite HL.
  destruct L as [|d ds]; [done|]. pose proof (Forall_inv Hd) as Hd0.
  assert (Hm : scan_minus ((if (z <? 0)%Z then ["-"%char] else []) ++ d :: ds) =
               ((z <? 0)%Z, d :: ds)).
  { destruct (z <? 0)%Z; [reflexivity|]. cbn. by rewrite digit_eqb. }
  unfold parse_number. rewrite Hm, take_digits_all by done. cbn [scan_frac scan_exp].
  assert (Hi : (negb (Ascii.eqb d "0"%char) || bool_decide (ds = [])) = true).
  { destruct (Ascii.eqb_spec d "0"%char) as [->|]; [|done].
    rewrite (pretty_Z_lead z _ ds HL eq_refl). done. }
  cbn [andb]. rewrite Hi. cbn [andb]. rewrite Hv. do 3 f_equal. destruct (Z.ltb_spec z 0); lia.
Qed.

(** ** Reading back a value *)

(** Induction on JSON values, with the hypothesis on every element of an
    array and every member of an object. *)
Lemma json_ind' (P : json -> Prop) :
  P JNull -> (forall b, P (JBool b)) -> (forall z, P (JInt z)) -> (forall r, P (JFloat r)) ->
  (forall s, P (JStr s)) -> (forall l, Forall P l -> P (JArr l)) ->
  (forall f, Forall (fun kv => P kv.2) f -> P (JObj f)) ->
  forall v, P v.
Proof.
  intros HN HB HI HF HS HA HO. fix IH 1.
  intros [|b|z|r|s|l|f]; [exact HN | apply HB | apply HI | apply HF | apply HS | |].
  - apply HA. induction l as [|x l IHl]; constructor; [apply IH | apply IHl].
  - apply HO. induction f as [|[k x] f IHf]; constructor; [apply IH | apply IHf].
Qed.

(** *** Dicts *)

Lemma dict_insert_map {A B} (g : A -> B) k v (d : list (string * A)) :
  dict_insert k (g v) (map (fun kv => (kv.1, g kv.2)) d) =
  map (fun kv => (kv.1, g kv.2)) (dict_insert k v d).
Proof.
  induction d as [|[k' v'] d IH]; [done|]. cbn. destruct (String.eqb k k'); [done|]. by rewrite IH.
Qed.

Lemma dict_of_pairs_map {A B} (g : A -> B) (f : list (string * A)) :
  dict_of_pairs (map (fun kv => (kv.1, g kv.2)) f) = map (fun kv => (kv.1, g kv.2)) (dict_of_pairs f).
Proof.
  unfold dict_of_pairs.
  enough (H : forall d, foldl (fun d kv => dict_insert kv.1 kv.2 d) (map (fun kv => (kv.1, g kv.2)) d)
                          (map (fun kv => (kv.1, g kv.2)) f) =
                        map (fun kv => (kv.1, g kv.2)) (foldl (fun d kv => dict_insert kv.1 kv.2 d) d f))
    by apply (H []).
  induction f as [|[k v] f IH]; intros d; [done|].
  cbn [map foldl fst snd]. by rewrite dict_insert_map, IH.
Qed.

Lemma dict_of_pairs_Forall {A} (Q : string * A -> Prop) (f : list (string * A)) :
  Forall Q f -> Forall Q (dict_of_pairs f).
Proof.
  unfold dict_of_pairs. assert (H0 : Forall Q []) by constructor. revert H0.
  generalize (@nil (string * A)). induction f as [|[k v] f IH]; intros d Hd Hf; [done|].
  apply Forall_cons in Hf as [Hkv Hf]. cbn [foldl fst snd]. apply IH; [|done].
  clear IH Hf. induction Hd as [|[k' v'] d Hq Hd IHd]; cbn; [by constructor|].
  destruct (String.eqb k k'); constructor; auto.
Qed.

Lemma dict_of_pairs_nil {A} (f : list (string * A)) : dict_of_pairs f = [] -> f = [].
Proof.
  unfold dict_of_pairs. destruct f as [|[k v] f]; [done|]. intros H. exfalso. revert H.
  cbn [foldl fst snd].
  assert (Hne : forall (d : list (string * A)) k v, dict_insert k v d <> []).
  { intros d k' v'. destruct d as [|[k2 v2] d]; cbn; [done|]. by destruct (String.eqb k' k2). }
  generalize (dict_insert k v []) (Hne [] k v). clear k v.
  induction f as [|[k2 v2] f IH]; intros d Hd; [done|].
  cbn [foldl fst snd]. apply IH, Hne.
Qed.

(** *** The first character of a printed value *)

Lemma parse_number_head c r x :
  parse_number (c :: r) = Some x -> c = "-"%char \/ is_digit c = true.
Proof.
  intros H. destruct (Ascii.eqb_spec c "-"%char) as [->|Hc]; [by left|]. right.
  destruct (is_digit c) eqn:Hd; [done|]. exfalso. revert H. unfold parse_number.
  cbn [scan_minus]. rewrite (proj2 (Ascii.eqb_neq _ _) Hc). cbn [take_digits]. rewrite Hd.
  cbn. by repeat case_match.
Qed.

Lemma num_head c x :
  c = "-"%char \/ is_digit c = true ->
  is_json_ws c = false /\ Ascii.eqb c "["%char = false /\ Ascii.eqb c "{"%char = false /\
  Ascii.eqb c "034"%char = false /\ Ascii.eqb c "]"%char = false /\
  strip_lit (String.list_ascii_of_string "null") (c :: x) = None /\
  strip_lit (String.list_ascii_of_string "true") (c :: x) = None /\
  strip_lit (String.list_ascii_of_string "false") (c :: x) = None.
Proof.
  intros [->|Hd]; [done|]. apply is_digit_cases in Hd.
  rewrite !elem_of_cons, elem_of_nil in Hd. by repeat destruct Hd as [->|Hd].
Qed.

Lemma skip_ws_app sp l : Forall (fun c => is_json_ws c = true) sp -> skip_ws (sp ++ l) = skip_ws l.
Proof. induction 1 as [|c sp Hc _ IH]; [done|]. cbn. by rewrite Hc. Qed.

Lemma parse_value_ws n sp l :
  Forall (fun c => is_json_ws c = true) sp -> parse_value (S n) (sp ++ l) = parse_value (S n) l.
Proof. intros H. cbn [parse_value]. by rewrite skip_ws_app. Qed.

(** A number [parse_number] reads whole is read as a value. *)
Lemma parse_value_number m t v l :
  parse_number t = Some (v, []) -> stop l -> parse_value (S m) (t ++ l) = Some (v, l).
Proof.
  intros Ht Hl. destruct t as [|c r]; [done|].
  destruct (num_head c (r ++ l) (parse_number_head c r _ Ht)) as (H1 & H2 & H3 & H4 & _ & H6 & H7 & H8).
  cbn [parse_value app skip_ws]. rewrite H1. cbn [app].
  rewrite H2, H3, H4, H6, H7, H8. change (c :: r ++ l) with ((c :: r) ++ l).
  by rewrite parse_number_app, Ht.
Qed.

(** *** Arrays and objects *)

Local Abbreviation reads_back x :=
  (json_wire_ok x = true -> forall n l, stop l -> length (dumps_l x) < n ->
     parse_value n (dumps_l x ++ l) = Some (json_norm x, l)).

Lemma parse_elems_step n l v r :
  parse_value n l = Some (v, r) ->
  parse_elems (S n) l =
    match skip_ws r with
    | c :: r' => if Ascii.eqb c ","%char then (fun x => (v :: x.1, x.2)) <$> parse_elems n r'
                 else if Ascii.eqb c "]"%char then Some ([v], r') else None
    | [] => None
    end.
Proof. intros H. cbn [parse_elems]. by rewrite H. Qed.

Ltac char_simpl := cbn [skip_ws is_json_ws Ascii.eqb Bool.eqb andb orb negb fmap option_fmap option_map fst snd].

Lemma parse_elems_dumps xs :
  xs <> [] -> Forall (fun x => reads_back x) xs -> forallb json_wire_ok xs = true ->
  forall m sp l, Forall (fun c => is_json_ws c = true) sp -> stop l ->
  length (join_l comma (map dumps_l xs)) + 1 < m ->
  parse_elems m (sp ++ join_l comma (map dumps_l xs) ++ "]"%char :: l) = Some (map json_norm xs, l).
Proof.
  induction xs as [|x xs IH]; intros Hne HF Hw m sp l Hsp Hl Hlen; [done|].
  apply Forall_cons in HF as [Hx HF]. cbn [forallb] in Hw. apply andb_prop in Hw as [Hwx Hw].
  destruct m as [|[|m]]; [lia|lia|].
  destruct xs as [|y ys].
  - cbn [map join_l] in *. rewrite (parse_elems_step _ _ (json_norm x) ("]"%char :: l)).
    + by char_simpl.
    + rewrite parse_value_ws, (Hx Hwx) by (cbn; tauto || done || lia). done.
  - change (join_l comma (map dumps_l (x :: y :: ys)))
      with (dumps_l x ++ comma ++ join_l comma (map dumps_l (y :: ys))) in *.
    rewrite !length_app in Hlen. cbn [comma length] in Hlen.
    rewrite <- !app_assoc. cbn [comma app].
    rewrite (parse_elems_step _ _ (json_norm x)
               (","%char :: " "%char :: join_l comma (map dumps_l (y :: ys)) ++ "]"%char :: l)).
    + pose proof (IH ltac:(done) HF Hw (S m) [" "%char] l) as HI. cbn [app] in HI.
      char_simpl. rewrite HI by (repeat constructor || done || lia). reflexivity.
    + rewrite parse_value_ws, (Hx Hwx) by (cbn; tauto || done || lia). done.
Qed.

Lemma parse_members_step n l r k r1 r2 v r3 :
  skip_ws l = "034"%char :: r -> parse_string r = Some (k, r1) ->
  skip_ws r1 = ":"%char :: r2 -> parse_value n r2 = Some (v, r3) ->
  parse_members (S n) l =
    match skip_ws r3 with
    | c :: r4 =>
        if Ascii.eqb c ","%char
        then (fun x => ((String.string_of_list_ascii k, v) :: x.1, x.2)) <$> parse_members n r4
        else if Ascii.eqb c "}"%char then Some ([(String.string_of_list_ascii k, v)], r4)
        else None
    | [] => None
    end.
Proof.
  intros H1 H2 H3 H4. cbn [parse_members]. rewrite H1, Ascii.eqb_refl, H2, H3, Ascii.eqb_refl, H4.
  reflexivity.
Qed.

Lemma float_wire_ok_parse r : float_wire_ok r = true -> parse_number (float_text r) = Some (JFloat r, []).
Proof.
  unfold float_wire_ok. destruct (parse_number (float_text r)) as [[[] [|c t]]|]; try done.
  by intros ->%String.eqb_eq.
Qed.

Lemma num_text_head t v :
  parse_number t = Some (v, []) ->
  exists c r, t = c :: r /\ is_json_ws c = false /\ Ascii.eqb c "]"%char = false /\
    Ascii.eqb c "}"%char = false.
Proof.
  destruct t as [|c r]; [done|]. intros H. exists c, r. split; [done|].
  destruct (num_head c [] (parse_number_head c r _ H)) as (H1 & _ & _ & _ & H5 & _).
  split_and!; [done|done|]. apply parse_number_head in H as [->|Hd]; [done|].
  apply is_digit_cases in Hd. rewrite !elem_of_cons, elem_of_nil in Hd. by repeat destruct Hd as [->|Hd].
Qed.

(** The text of a value starts with a character that is neither white
    space nor a closing bracket. *)
Lemma dumps_head v :
  json_wire_ok v = true ->
  exists c r, dumps_l v = c :: r /\ is_json_ws c = false /\ Ascii.eqb c "]"%char = false /\
    Ascii.eqb c "}"%char = false.
Proof.
  destruct v as [|[]|z|r|s|l|f]; intros Hw; try by (eexists _, _; split; [reflexivity | done]).
  - apply (num_text_head _ (JInt z)), parse_number_pretty.
  - apply (num_text_head _ (JFloat r)), float_wire_ok_parse, Hw.
Qed.

Lemma skip_ws_quote r : skip_ws ("034"%char :: r) = "034"%char :: r.
Proof. reflexivity. Qed.

Lemma parse_members_dumps (D : list (string * json)) :
  D <> [] ->
  Forall (fun kv => reads_back kv.2 /\ json_wire_ok kv.2 = true /\
                    utf8_ok (String.list_ascii_of_string kv.1) = true) D ->
  forall m sp l, Forall (fun c => is_json_ws c = true) sp -> stop l ->
  length (join_l comma (map (fun kv => encode_str kv.1 ++ colon ++ dumps_l kv.2) D)) + 1 < m ->
  parse_members m (sp ++ join_l comma (map (fun kv => encode_str kv.1 ++ colon ++ dumps_l kv.2) D)
                      ++ "}"%char :: l) =
    Some (map (fun kv => (kv.1, json_norm kv.2)) D, l).
Proof.
  induction D as [|[k x] D IH]; intros Hne HF m sp l Hsp Hl Hlen; [done|].
  apply Forall_cons in HF as [(Hx & Hwx & Hk) HF]. cbn [fst snd] in *.
  destruct m as [|[|m]]; [lia|lia|].
  set (rest := match D with
               | [] => "}"%char :: l
               | _ :: _ => ","%char :: " "%char ::
                   join_l comma (map (fun kv => encode_str kv.1 ++ colon ++ dumps_l kv.2) D) ++ "}"%char :: l
               end).
  assert (Htext : sp ++ join_l comma (map (fun kv => encode_str kv.1 ++ colon ++ dumps_l kv.2) ((k, x) :: D))
                    ++ "}"%char :: l =
                  sp ++ "034"%char :: (flat_map escape_cp (utf8_decode (String.list_ascii_of_string k))
                    ++ "034"%char :: (":"%char :: " "%char :: dumps_l x ++ rest))).
  { subst rest. destruct D as [|p D'].
    - cbn [map join_l fst snd]. unfold encode_str, colon.
      repeat progress (rewrite <- ?app_assoc; cbn [app]). reflexivity.
    - change (join_l comma (map (fun kv => encode_str kv.1 ++ colon ++ dumps_l kv.2) ((k, x) :: p :: D')))
        with ((encode_str k ++ colon ++ dumps_l x) ++ comma ++
              join_l comma (map (fun kv => encode_str kv.1 ++ colon ++ dumps_l kv.2) (p :: D'))).
      unfold encode_str at 1. unfold colon, comma at 1.
      repeat progress (rewrite <- ?app_assoc; cbn [app]). reflexivity. }
  assert (Hstop : stop rest) by (subst rest; destruct D; cbn; tauto).
  rewrite Htext, (parse_members_step _ _
                    (flat_map escape_cp (utf8_decode (String.list_ascii_of_string k))
                       ++ "034"%char :: (":"%char :: " "%char :: dumps_l x ++ rest))
                    (String.list_ascii_of_string k)
                    (":"%char :: " "%char :: dumps_l x ++ rest) (" "%char :: dumps_l x ++ rest)
                    (json_norm x) rest).
  - rewrite String.string_of_list_ascii_of_string. subst rest. destruct D as [|kv D'].
    + by char_simpl.
    + char_simpl.
      change (join_l comma (map (fun kv => encode_str kv.1 ++ colon ++ dumps_l kv.2) ((k, x) :: kv :: D')))
        with ((encode_str k ++ colon ++ dumps_l x) ++ comma ++
              join_l comma (map (fun kv => encode_str kv.1 ++ colon ++ dumps_l kv.2) (kv :: D'))) in Hlen.
      rewrite !length_app in Hlen. cbn [comma colon length] in Hlen.
      pose proof (IH ltac:(done) HF (S m) [" "%char] l) as HI. cbn [app] in HI.
      rewrite HI by (repeat constructor || done || lia). reflexivity.
  - by rewrite skip_ws_app, skip_ws_quote.
  - by apply parse_encode_str.
  - reflexivity.
  - change (" "%char :: dumps_l x ++ rest) with ([" "%char] ++ dumps_l x ++ rest).
    rewrite parse_value_ws by (repeat constructor). apply Hx; [done|done|].
    destruct D as [|kv D'].
    + cbn [map join_l fst snd] in Hlen. rewrite !length_app in Hlen. cbn [colon length] in Hlen. lia.
    + change (join_l comma (map (fun kv => encode_str kv.1 ++ colon ++ dumps_l kv.2) ((k, x) :: kv :: D')))
        with ((encode_str k ++ colon ++ dumps_l x) ++ comma ++
              join_l comma (map (fun kv => encode_str kv.1 ++ colon ++ dumps_l kv.2) (kv :: D'))) in Hlen.
      rewrite !length_app in Hlen. cbn [comma colon length] in Hlen. lia.
Qed.

(** Every value [json.dumps] prints, followed by what may follow a
    value, reads back as its dict form, with fuel the length of its
    text. *)
Lemma parse_dumps v : reads_back v.
Proof.
  induction v as [| b | z | r | s | xs IH | f IH] using json_ind'; intros Hw n l Hl Hlen;
    destruct n as [|m]; try (cbn in Hlen; lia).
  - reflexivity.
  - by destruct b.
  - apply parse_value_number; [apply parse_number_pretty | done].
  - apply parse_value_number; [by apply float_wire_ok_parse | done].
  - cbn [dumps_l]. unfold encode_str. cbn [app]. rewrite <- app_assoc. cbn [app].
    cbn [parse_value]. rewrite skip_ws_quote. char_simpl. rewrite parse_encode_str by done.
    cbn. by rewrite String.string_of_list_ascii_of_string.
  - destruct xs as [|x xs']; [reflexivity|]. cbn [json_wire_ok] in Hw.
    destruct (dumps_head x) as (c & t & Hc & Hws & Hb & _); [by apply andb_prop in Hw as []|].
    cbn [dumps_l]. cbn [app parse_value skip_ws]. char_simpl.
    assert (Hj : join_l comma (map dumps_l (x :: xs')) ++ "]"%char :: l =
                 c :: (t ++ match xs' with
                             | [] => []
                             | _ :: _ => comma ++ join_l comma (map dumps_l xs')
                             end ++ "]"%char :: l)).
    { destruct xs'; cbn [map join_l]; rewrite Hc; cbn [app]; by rewrite <- ?app_assoc. }
    rewrite <- app_assoc. cbn [app]. rewrite Hj. cbn [skip_ws]. rewrite Hws, Hb. rewrite <- Hj.
    pose proof (parse_elems_dumps (x :: xs') ltac:(done) IH Hw m [] l) as HE. cbn [app] in HE.
    rewrite HE; [reflexivity | constructor | done |].
    cbn [dumps_l length] in Hlen. rewrite length_app in Hlen. cbn [length] in Hlen. lia.
  - destruct f as [|kv f']; [reflexivity|].
    assert (HF : Forall (fun kv => reads_back kv.2 /\ json_wire_ok kv.2 = true /\
                                   utf8_ok (String.list_ascii_of_string kv.1) = true) (kv :: f')).
    { apply Forall_forall. intros y Hy. pose proof (proj1 (Forall_forall _ _) IH y Hy) as Hr.
      apply list_elem_of_In in Hy. pose proof (proj1 (forallb_forall _ _) Hw y Hy) as Hwy.
      apply andb_prop in Hwy as [Hk Hv]. auto. }
    apply dict_of_pairs_Forall in HF.
    assert (HD : dict_of_pairs (kv :: f') <> []) by (by intros ?%dict_of_pairs_nil).
    set (F := fun kv : string * json => encode_str kv.1 ++ colon ++ dumps_l kv.2) in *.
    assert (Hd : dumps_l (JObj (kv :: f')) = "{"%char :: join_l comma (map F (dict_of_pairs (kv :: f'))) ++ ["}"%char]).
    { cbn [dumps_l]. rewrite dict_of_pairs_map, map_map. reflexivity. }
    assert (Hn : json_norm (JObj (kv :: f')) = JObj (map (fun kv => (kv.1, json_norm kv.2)) (dict_of_pairs (kv :: f')))).
    { cbn [json_norm]. by rewrite dict_of_pairs_map. }
    rewrite Hd in Hlen |- *. rewrite Hn. clear Hd Hn IH Hw.
    revert HF HD Hlen. generalize (dict_of_pairs (kv :: f')). intros D HF HD Hlen.
    destruct D as [|[k x] D']; [done|].
    assert (Hj : join_l comma (map F ((k, x) :: D')) ++ "}"%char :: l =
                 "034"%char :: (flat_map escape_cp (utf8_decode (String.list_ascii_of_string k)) ++
                   "034"%char :: colon ++ dumps_l x ++ match D' with
                                                     | [] => []
                                                     | _ :: _ => comma ++ join_l comma (map F D')
                                                     end ++ "}"%char :: l)).
    { subst F. destruct D'; cbn [map join_l fst snd]; unfold encode_str at 1;
        repeat progress (rewrite <- ?app_assoc; cbn [app]); reflexivity. }
    cbn [app parse_value skip_ws]. char_simpl. rewrite <- app_assoc. cbn [app].
    rewrite Hj. cbn [skip_ws]. char_simpl. rewrite <- Hj.
    pose proof (parse_members_dumps ((k, x) :: D') ltac:(done) HF m [] l) as HM. cbn [app] in HM.
    subst F. rewrite HM; [reflexivity | constructor | done |].
    cbn [length] in Hlen. rewrite length_app in Hlen. cbn [length] in Hlen. lia.
Qed.

(** ** The round trip *)

Lemma read_dumps_text v :
  json_wire_ok v = true -> json_read (json_dumps v) = Some (json_norm v).
Proof.
  intros Hw. unfold json_read, json_dumps. rewrite String.list_ascii_of_string_of_list_ascii.
  pose proof (parse_dumps v Hw (S (length (dumps_l v))) [] I ltac:(lia)) as H.
  rewrite app_nil_r in H. by rewrite H.
Qed.

(** ** [ensure_ascii]: the text is 7-bit *)

Lemma escape_cp_ascii cp : Forall (fun c => (byte c < 128)%Z) (escape_cp cp).
Proof.
  assert (Hh : forall n, (0 <= n < 16)%Z -> (byte (hex_digit n) < 128)%Z).
  { intros n Hn. unfold hex_digit. destruct (Z.ltb_spec n 10); rewrite byte_chr; lia. }
  assert (Hu : forall u, Forall (fun c => (byte c < 128)%Z) (u_escape u)).
  { intros u. unfold u_escape. repeat constructor; try apply Hh; try apply Z.mod_pos_bound; done. }
  unfold escape_cp. repeat case_match; try (repeat constructor; done).
  - constructor; [|constructor]. rewrite byte_chr; zcmp; try discriminate; lia.
  - apply Hu.
  - apply Forall_app; split; apply Hu.
Qed.

Lemma scan_ascii_digits l : Forall (fun c => (byte c < 128)%Z) (take_digits l).1 /\
  l = (take_digits l).1 ++ (take_digits l).2.
Proof.
  induction l as [|c l [IH1 IH2]]; [done|]. cbn [take_digits].
  destruct (is_digit c) eqn:Hd; [|done]. destruct (take_digits l) as [ds r]. cbn in *.
  split; [|by rewrite <- IH2]. constructor; [|done].
  apply is_digit_cases in Hd. rewrite !elem_of_cons, elem_of_nil in Hd. by repeat destruct Hd as [->|Hd].
Qed.

(** A number [parse_number] reads whole is ASCII. *)
Lemma parse_number_ascii t v : parse_number t = Some (v, []) -> Forall (fun c => (byte c < 128)%Z) t.
Proof.
  unfold parse_number. intros H.
  assert (Hm : exists p, t = p ++ (scan_minus t).2 /\ Forall (fun c => (byte c < 128)%Z) p).
  { destruct t as [|c r]; [by exists []|]. cbn. destruct (Ascii.eqb_spec c "-"%char) as [->|].
    - by exists ["-"%char]; split; [|repeat constructor].
    - by exists []. }
  destruct (scan_minus t) as [neg l1]. destruct Hm as (p1 & -> & Hp1). cbn [snd] in *.
  destruct (scan_ascii_digits l1) as [Hd1 E1]. destruct (take_digits l1) as [ip r1]. cbn [fst snd] in *.
  assert (Hf : exists p, r1 = p ++ (scan_frac r1).2 /\ Forall (fun c => (byte c < 128)%Z) p).
  { destruct r1 as [|c r]; [by exists []|]. cbn. destruct (Ascii.eqb_spec c "."%char) as [->|].
    - destruct (scan_ascii_digits r) as [Hd E]. destruct (take_digits r) as [fp r'].
      exists ("."%char :: fp). cbn in *. split; [by rewrite E at 1|]. by constructor.
    - by exists []. }
  destruct (scan_frac r1) as [fr r2]. destruct Hf as (p2 & E2 & Hp2). cbn [snd] in *.
  assert (He : exists p, r2 = p ++ (scan_exp r2).2 /\ Forall (fun c => (byte c < 128)%Z) p).
  { destruct r2 as [|c r]; [by exists []|]. cbn. destruct (Ascii.eqb_spec (lower c) "e"%char) as [Hc|].
    - assert (Hca : (byte c < 128)%Z).
      { unfold lower in Hc. case_match; [|subst; reflexivity].
        unfold byte. apply andb_prop in H0 as [_ H0]. apply Nat.leb_le in H0. lia. }
      assert (Hs : exists q, r = q ++ (take_sign r).2 /\ Forall (fun c => (byte c < 128)%Z) q).
      { destruct r as [|c' r']; [by exists []|]. rewrite take_sign_cons.
        destruct (Ascii.eqb_spec c' "-"%char) as [->|]; [by exists ["-"%char]; split; [|repeat constructor]|].
        destruct (Ascii.eqb_spec c' "+"%char) as [->|]; [by exists ["+"%char]; split; [|repeat constructor]|].
        by exists []. }
      destruct (take_sign r) as [sg r']. destruct Hs as (q & -> & Hq). cbn [snd].
      destruct (scan_ascii_digits r') as [Hd E]. destruct (take_digits r') as [ed r''].
      cbn in *. exists (c :: q ++ ed). split; [by rewrite E at 1; rewrite app_assoc|].
      constructor; [done|]. by apply Forall_app.
    - by exists []. }
  destruct (scan_exp r2) as [ex r3]. destruct He as (p3 & E3 & Hp3). cbn [snd] in *.
  assert (Hr3 : r3 = []).
  { revert H. destruct (_ && _ && _); [|done]. by destruct fr, ex; intros [= _ ->]. }
  subst. rewrite app_nil_r. repeat (apply Forall_app; split); done.
Qed.

Lemma Forall_join_l (P : ascii -> Prop) sep items :
  Forall P sep -> Forall (Forall P) items -> Forall P (join_l sep items).
Proof.
  intros Hs. induction 1 as [|x items Hx Hi IH]; [constructor|].
  destruct items as [|y items]; [done|]. cbn [join_l]. repeat (apply Forall_app; split); done.
Qed.

Lemma Forall_flat_map_l {A} (P : ascii -> Prop) (g : A -> list ascii) l :
  (forall x, Forall P (g x)) -> Forall P (flat_map g l).
Proof. intros H. induction l as [|x l IH]; [constructor|]. cbn. by apply Forall_app. Qed.

Lemma encode_str_ascii s : Forall (fun c => (byte c < 128)%Z) (encode_str s).
Proof.
  unfold encode_str. constructor; [reflexivity|].
  apply Forall_app; split; [apply Forall_flat_map_l, escape_cp_ascii | repeat constructor].
Qed.

(** Every byte [json.dumps] prints is below 128 ([ensure_ascii=True]). *)
Lemma dumps_ascii v : json_wire_ok v = true -> Forall (fun c => (byte c < 128)%Z) (dumps_l v).
Proof.
  induction v as [| [] | z | r | s | xs IH | f IH] using json_ind'; intros Hw;
    try (repeat constructor; done).
  - destruct (pretty_Z_digits z) as (L & HL & Hd & _). cbn [dumps_l]. rewrite HL.
    apply Forall_app. split; [destruct (z <? 0)%Z; repeat constructor|].
    eapply Forall_impl; [exact Hd|]. intros c Hc.
    apply is_digit_cases in Hc. rewrite !elem_of_cons, elem_of_nil in Hc. by repeat destruct Hc as [->|Hc].
  - by apply (parse_number_ascii _ (JFloat r)), float_wire_ok_parse.
  - apply encode_str_ascii.
  - cbn [dumps_l]. constructor; [reflexivity|]. apply Forall_app; split; [|repeat constructor].
    apply Forall_join_l; [repeat constructor|]. cbn [json_wire_ok] in Hw.
    apply Forall_forall. intros d Hd. apply list_elem_of_In, in_map_iff in Hd as (x & <- & Hx).
    apply (proj1 (Forall_forall _ _) IH x); [by apply list_elem_of_In|].
    by eapply forallb_forall in Hw.
  - cbn [dumps_l]. constructor; [reflexivity|]. apply Forall_app; split; [|repeat constructor].
    apply Forall_join_l; [repeat constructor|]. cbn [json_wire_ok] in Hw.
    assert (HF : Forall (fun kv => Forall (fun c => (byte c < 128)%Z) kv.2)
                   (dict_of_pairs (map (fun kv => (kv.1, dumps_l kv.2)) f))).
    { apply dict_of_pairs_Forall. apply Forall_forall. intros kd Hkd.
      apply list_elem_of_In, in_map_iff in Hkd as ([k x] & <- & Hx).
      apply (proj1 (Forall_forall _ _) IH (k, x)); [by apply list_elem_of_In|].
      eapply forallb_forall in Hw; [|exact Hx]. by apply andb_prop in Hw as []. }
    apply Forall_forall. intros d Hd. apply list_elem_of_In, in_map_iff in Hd as ([k d'] & <- & Hkd).
    apply list_elem_of_In in Hkd.
    pose proof (proj1 (Forall_forall _ _) HF _ Hkd) as Hd. cbn [fst snd] in Hd |- *.
    apply Forall_app; split; [apply encode_str_ascii|]. unfold colon. cbn [app].
    by repeat constructor.
Qed.

(** [json.dumps] and the server's reading of the text agree: every
    value whose texts are well-formed UTF-8 and whose floats are finite
    is printed as 7-bit text ([ensure_ascii]) that an RFC 8259 reader
    reads back as the same value, in the form a Python dict gives it
    (of two members with the same key, the first position and the last
    value). *)
Theorem json_wire_roundtrip v :
  json_wire_ok v = true ->
  json_read (json_dumps v) = Some (json_norm v) /\
  Forall (fun c => (byte c < 128)%Z) (String.list_ascii_of_string (json_dumps v)).
Proof.
  intros Hw. split; [by apply read_dumps_text|].
  unfold json_dumps. rewrite String.list_ascii_of_string_of_list_ascii. by apply dumps_ascii.
Qed.

