(* ===== verification/JsonAgree.v ===== *)
(** * JsonAgree: Python's [json.loads] reads standard JSON as the standard does

    [Json] reads a text as RFC 8259 says ([json_read], on the bytes);
    [PyJson] reads it as CPython's [json.loads] does ([json_loads], on
    the code points the bytes decode to).  This file proves that on
    every standard text the two agree: when the text is well-formed
    UTF-8, the standard reading succeeds, its integers have at most 4300
    digits and its containers nest at most [JSON_DEPTH] deep,
    [json.loads] returns the same value as Python holds it ([py_value]:
    objects as dicts, floats by [float()] and their [repr]).  With the
    round trip of [Json] it gives that the script reads back a reply
    written by [json.dumps]. *)

From S2P Require Import Prelude Utf8 PyNum Effects PyJson Json.

(** ** The value Python builds *)

(** The value of the standard reading as [json.loads] builds it: an
    object is a dict (the last value of a key, at the place of the
    first), a float is [float()] of its text, held by its [repr]. *)
Fixpoint py_value (v : json) : json :=
  match v with
  | JFloat r => JFloat (match py_float r with Some f => float_repr f | None => r end)
  | JArr l => JArr (map py_value l)
  | JObj f => JObj (dict_of_pairs (map (fun kv => (kv.1, py_value kv.2)) f))
  | _ => v
  end.

(** How deep the containers of a value nest. *)
Fixpoint json_depth (v : json) : nat :=
  match v with
  | JArr l => S (foldr (fun x m => Nat.max (json_depth x) m) 0 l)
  | JObj f => S (foldr (fun kv m => Nat.max (json_depth kv.2) m) 0 f)
  | _ => 0
  end.

(** Every integer of the value within the limit of [int()]. *)
Fixpoint ints_fit (v : json) : bool :=
  match v with
  | JInt z => int_str_ok z
  | JArr l => forallb ints_fit l
  | JObj f => forallb (fun kv => ints_fit kv.2) f
  | _ => true
  end.

(** ** Bytes and code points *)

(** The code point after an optional exponent sign, as the standard
    reading takes it. *)
Definition take_sign_cp (l : list Z) : list Z :=
  match l with s :: t => if (s =? 45)%Z || (s =? 43)%Z then t else l | [] => l end.

(** The fraction and the exponent of a number as the standard reading
    takes them, on code points. *)
Definition frac_cp (l : list Z) : option (list Z) * list Z :=
  match l with
  | c :: r => if (c =? 46)%Z then (Some (take_digits_cp r).1, (take_digits_cp r).2) else (None, l)
  | [] => (None, [])
  end.

Definition exp_cp (l : list Z) : option (list Z) * list Z :=
  match l with
  | c :: r => if (c =? 101)%Z || (c =? 69)%Z
              then (Some (take_digits_cp (take_sign_cp r)).1, (take_digits_cp (take_sign_cp r)).2)
              else (None, l)
  | [] => (None, [])
  end.

(** The agreement of the standard reading and the scanner, at a fuel of
    the standard reading, for values, array elements and object members. *)
Definition sim_value (n : nat) : Prop :=
  forall X v r d m, scalars X -> parse_value n (utf8_encode X) = Some (v, r) ->
  ints_fit v = true -> json_depth v <= d -> 2 * length (skip_ws_cp X) < m ->
  exists R, scan_once m d (skip_ws_cp X) = Scanned (py_value v) R /\ r = utf8_encode R /\ scalars R.

Definition sim_elems (n : nat) : Prop :=
  forall X vs r d m, scalars X -> parse_elems n (utf8_encode X) = Some (vs, r) ->
  forallb ints_fit vs = true -> Forall (fun v => json_depth v <= d) vs ->
  2 * length (skip_ws_cp X) + 1 < m ->
  exists R, array_elems m d (skip_ws_cp X) = Scanned (map py_value vs) R /\
            r = utf8_encode R /\ scalars R.

Definition sim_members (n : nat) : Prop :=
  forall X f r d m, scalars X -> parse_members n (utf8_encode X) = Some (f, r) ->
  forallb (fun kv => ints_fit kv.2) f = true -> Forall (fun kv => json_depth kv.2 <= d) f ->
  2 * length (skip_ws_cp X) + 1 < m ->
  exists R, object_members m d (skip_ws_cp X) =
              Scanned (map (fun kv => (kv.1, py_value kv.2)) f) R /\ r = utf8_encode R /\ scalars R.

Lemma ascii_eqb_byte c d : Ascii.eqb c d = (byte c =? byte d)%Z.
Proof.
  destruct (Ascii.eqb_spec c d) as [->|H]; [by rewrite Z.eqb_refl|].
  symmetry. apply Z.eqb_neq. intros E. apply H.
  rewrite <- (chr_byte c), <- (chr_byte d), E. reflexivity.
Qed.

Lemma is_json_ws_byte c : is_json_ws c = is_ws_cp (byte c).
Proof. unfold is_json_ws, is_ws_cp. by rewrite !ascii_eqb_byte. Qed.

Lemma is_digit_byte c : is_digit c = is_digit_cp (byte c).
Proof.
  unfold is_digit, is_digit_cp, byte. set (n := nat_of_ascii c).
  destruct (Nat.leb_spec 48 n), (Nat.leb_spec n 57), (Z.leb_spec 48 (Z.of_nat n)),
    (Z.leb_spec (Z.of_nat n) 57); cbn; lia.
Qed.

(** The first byte of encoded text tells an ASCII code point, which is
    that byte, from one past ASCII. *)
Lemma enc_head X c r :
  scalars X -> utf8_encode X = c :: r ->
  ((byte c < 128)%Z /\ X = byte c :: tail X /\ r = utf8_encode (tail X)) \/ (192 <= byte c)%Z.
Proof.
  intros Hs E. destruct X as [|cp X]; [done|]. apply Forall_cons in Hs as [Hcp _].
  cbn [utf8_encode flat_map] in E. fold (utf8_encode X) in E.
  destruct (Z.ltb_spec cp 128).
  - pose proof (scalar_bounds cp Hcp). rewrite enc_cp_ascii in E by lia.
    injection E as <- <-. left. rewrite byte_chr by lia. split; [lia | done].
  - destruct (enc_cp_high cp Hcp ltac:(lia)) as (c' & r' & Hc & Hb & _).
    rewrite Hc in E. injection E as <- _. by right.
Qed.

Lemma skip_ws_enc X : scalars X -> skip_ws (utf8_encode X) = utf8_encode (skip_ws_cp X).
Proof.
  induction 1 as [|cp X Hcp HX IH]; [done|]. cbn [utf8_encode flat_map skip_ws_cp].
  fold (utf8_encode X). pose proof (scalar_bounds cp Hcp).
  destruct (Z.ltb_spec cp 128).
  - rewrite enc_cp_ascii by lia. cbn [app skip_ws]. rewrite is_json_ws_byte, byte_chr by lia.
    destruct (is_ws_cp cp); [done|]. cbn. by rewrite enc_cp_ascii by lia.
  - destruct (enc_cp_high cp Hcp ltac:(lia)) as (c & r & Hc & Hb & _). rewrite Hc. cbn [app skip_ws].
    rewrite is_json_ws_byte.
    assert (Hw : is_ws_cp (byte c) = false) by (unfold is_ws_cp; zcmp_eq; try reflexivity; lia).
    assert (Hw' : is_ws_cp cp = false) by (unfold is_ws_cp; zcmp_eq; try reflexivity; lia).
    rewrite Hw, Hw'. cbn. by rewrite Hc.
Qed.

(** Encoded text that starts with ASCII bytes starts with those code
    points. *)
Lemma enc_ascii_prefix X (p r : list ascii) :
  scalars X -> Forall (fun c => (byte c < 128)%Z) p -> utf8_encode X = p ++ r ->
  exists X', X = map byte p ++ X' /\ r = utf8_encode X' /\ scalars X'.
Proof.
  intros Hs Hp. revert X Hs. induction Hp as [|c p Hc Hp IH]; intros X Hs E.
  - exists X. by split.
  - cbn [app] in E. destruct (enc_head X c _ Hs E) as [(_ & EX & Er)|Hb]; [|lia].
    rewrite EX in Hs. apply Forall_cons in Hs as [_ Hs].
    destruct (IH (tail X) Hs (eq_sym Er)) as (X' & EX' & Er' & Hs'). exists X'.
    rewrite EX, EX'. by split.
Qed.

Lemma hex_val_ascii c x : hex_val c = Some x -> (byte c < 128)%Z.
Proof. unfold hex_val. zcmp; intros; try discriminate; lia. Qed.

Lemma hex4_ascii a b c d u : hex4 a b c d = Some u -> Forall (fun c => (byte c < 128)%Z) [a; b; c; d].
Proof.
  unfold hex4. destruct (hex_val a) eqn:Ea, (hex_val b) eqn:Eb, (hex_val c) eqn:Ec, (hex_val d) eqn:Ed;
    try discriminate. intros _. repeat constructor; eapply hex_val_ascii; eassumption.
Qed.

Lemma hex4_byte a b c d : hex4 a b c d = hex4_cp (byte a) (byte b) (byte c) (byte d).
Proof. reflexivity. Qed.

Lemma short_escape_spec e ch :
  short_escape e = Some ch ->
  (byte e < 128)%Z /\ (byte ch < 128)%Z /\ short_escape_cp (byte e) = Some (byte ch) /\ byte e <> 117%Z.
Proof.
  unfold short_escape.
  repeat match goal with
         | |- context [Ascii.eqb e ?x] => destruct (Ascii.eqb_spec e x) as [->|]
         end; intros H; try discriminate; injection H as <-; vm_compute; repeat split; congruence.
Qed.

Lemma prepend_app p q (x : option (list ascii * list ascii)) :
  prepend p <$> (prepend q <$> x) = prepend (p ++ q) <$> x.
Proof. destruct x as [[a b]|]; cbn; [unfold prepend; cbn; by rewrite app_assoc|done]. Qed.

Lemma ascii_eqb_high c d : (128 <= byte c)%Z -> (byte d < 128)%Z -> Ascii.eqb c d = false.
Proof. intros H1 H2. rewrite ascii_eqb_byte. apply Z.eqb_neq. lia. Qed.

(** Bytes past ASCII are copied into the string as they are. *)
Lemma parse_string_high p l :
  Forall (fun b => (128 <= byte b)%Z) p -> parse_string (p ++ l) = prepend p <$> parse_string l.
Proof.
  induction 1 as [|c p Hc _ IH].
  { cbn [app]. destruct (parse_string l) as [[a b]|]; cbv [fmap option_fmap option_map prepend]; cbn; reflexivity. }
  cbn [app]. rewrite parse_string_plain; [|apply ascii_eqb_high; [done|reflexivity]..|lia].
  rewrite IH, prepend_app. reflexivity.
Qed.

Lemma utf8_encode_app a b : utf8_encode (a ++ b) = utf8_encode a ++ utf8_encode b.
Proof. apply flat_map_app. Qed.

Lemma utf8_encode_nil_inv X : utf8_encode X = [] -> X = [].
Proof.
  destruct X as [|cp X]; [done|]. cbn. unfold utf8_encode_cp.
  by repeat case_match.
Qed.

Lemma parse_string_short e r :
  Ascii.eqb e "u"%char = false ->
  parse_string ("\"%char :: e :: r) =
    match short_escape e with Some ch => prepend [ch] <$> parse_string r | None => None end.
Proof. intros He. cbn [parse_string]. rewrite He. reflexivity. Qed.

Lemma scanstring_plain cp X :
  cp <> 34%Z -> cp <> 92%Z -> (32 <= cp)%Z -> scanstring (cp :: X) = scan_map (cons cp) (scanstring X).
Proof.
  intros H1 H2 H3. cbn [scanstring].
  rewrite (proj2 (Z.eqb_neq _ _) H1), (proj2 (Z.eqb_neq _ _) H2). by zcmp; [lia|].
Qed.

Lemma scanstring_short e X :
  e <> 117%Z ->
  scanstring (92%Z :: e :: X) =
    match short_escape_cp e with Some ch => scan_map (cons ch) (scanstring X) | None => ScanRaise JSONDecodeError end.
Proof. intros He. cbn [scanstring]. by rewrite (proj2 (Z.eqb_neq _ _) He). Qed.

Lemma scanstring_u a b c d X :
  scanstring (92%Z :: 117%Z :: a :: b :: c :: d :: X) =
  match hex4_cp a b c d with
  | None => ScanRaise JSONDecodeError
  | Some u =>
      match X with
      | bs :: uu :: a2 :: b2 :: c2 :: d2 :: X3 =>
          if is_high u && negb (bool_decide (X3 = [])) && (bs =? 92)%Z && (uu =? 117)%Z then
            match hex4_cp a2 b2 c2 d2 with
            | None => ScanRaise JSONDecodeError
            | Some u2 =>
                if is_low u2 then scan_map (cons (join_pair u u2)) (scanstring X3)
                else scan_map (cons u) (scanstring X)
            end
          else scan_map (cons u) (scanstring X)
      | _ => scan_map (cons u) (scanstring X)
      end
  end.
Proof. reflexivity. Qed.

Lemma enc_single_ascii c : (byte c < 128)%Z -> utf8_encode [byte c] = [c].
Proof.
  intros H. cbn. pose proof (byte_bound c). rewrite enc_cp_ascii by lia. by rewrite chr_byte.
Qed.

Lemma fmap_prepend_Some p (x : option (list ascii * list ascii)) bs r :
  prepend p <$> x = Some (bs, r) -> exists bs0, x = Some (bs0, r) /\ bs = p ++ bs0.
Proof. destruct x as [[a b]|]; cbn; [|done]. intros [= <- <-]. by eexists. Qed.

Lemma scanstring_u_lone a b c d X u :
  hex4_cp a b c d = Some u -> is_high u = false ->
  scanstring (92%Z :: 117%Z :: a :: b :: c :: d :: X) = scan_map (cons u) (scanstring X).
Proof.
  intros Hu Hhi. rewrite scanstring_u, Hu.
  destruct X as [|? [|? [|? [|? [|? [|? ?]]]]]]; rewrite ?Hhi; reflexivity.
Qed.

Lemma scanstring_u_pair a b c d a2 b2 c2 d2 X u u2 :
  hex4_cp a b c d = Some u -> is_high u = true -> X <> [] ->
  hex4_cp a2 b2 c2 d2 = Some u2 -> is_low u2 = true ->
  scanstring (92%Z :: 117%Z :: a :: b :: c :: d :: 92%Z :: 117%Z :: a2 :: b2 :: c2 :: d2 :: X) =
    scan_map (cons (join_pair u u2)) (scanstring X).
Proof.
  intros Hu Hhi HX Hu2 Hlo. rewrite scanstring_u, Hu, Hhi, bool_decide_false by done.
  cbn [negb andb Z.eqb Pos.eqb]. by rewrite Hu2, Hlo.
Qed.

Lemma ascii_eqb_chr cp d : (0 <= cp < 256)%Z -> Ascii.eqb (chr cp) d = (cp =? byte d)%Z.
Proof. intros H. by rewrite ascii_eqb_byte, byte_chr. Qed.

Lemma parse_string_ctrl c r : (byte c < 32)%Z -> parse_string (c :: r) = None.
Proof.
  intros H. cbn [parse_string]. rewrite !(ascii_eqb_byte c).
  change (byte "034"%char) with 34%Z. change (byte "\"%char) with 92%Z.
  rewrite (proj2 (Z.eqb_neq (byte c) 34)), (proj2 (Z.eqb_neq (byte c) 92)) by lia.
  by destruct (Z.ltb_spec (byte c) 32); [|lia].
Qed.

(** The standard reading of a string and [scanstring] agree: the bytes
    the one gives encode the code points the other gives. *)
Lemma parse_string_sim_lt n X bs r :
  length X < n -> scalars X -> parse_string (utf8_encode X) = Some (bs, r) ->
  exists s R, scanstring X = Scanned s R /\ utf8_encode s = bs /\ r = utf8_encode R /\ scalars R.
Proof.
  revert X bs r. induction n as [|n IH]; intros X bs r Hn Hs H; [cbn in Hn; lia|].
  destruct X as [|cp X]; [done|].
  pose proof Hs as Hs'. apply Forall_cons in Hs' as [Hcp HX].
  pose proof (scalar_bounds cp Hcp) as Hb. cbn [length] in Hn.
  cbn [utf8_encode flat_map] in H. fold (utf8_encode X) in H.
  destruct (Z.ltb_spec cp 128) as [Ha|Ha].
  2: { destruct (enc_cp_high cp Hcp Ha) as (c & p & Hc & Hc1 & Hp).
       rewrite Hc, (parse_string_high (c :: p)) in H by (constructor; [lia|done]).
       apply fmap_prepend_Some in H as (bs0 & E & ->).
       destruct (IH X bs0 r ltac:(lia) HX E) as (s & R & Hsc & Hbs & Hr & HR).
       exists (cp :: s), R. rewrite scanstring_plain, Hsc by lia. cbn [scan_map].
       split; [done|]. split; [|done]. cbn. by rewrite Hc, <- Hbs. }
  rewrite enc_cp_ascii in H by lia. cbn [app] in H.
  destruct (Z.eq_dec cp 34) as [->|H34].
  { change (chr 34) with "034"%char in H. cbn in H. injection H as <- <-.
    exists [], X. by split_and!. }
  destruct (Z.ltb_spec cp 32) as [Hctl|Hctl].
  { rewrite parse_string_ctrl in H; [done|]. rewrite byte_chr; lia. }
  destruct (Z.eq_dec cp 92) as [->|H92].
  2: { rewrite parse_string_plain in H;
         [|rewrite ascii_eqb_chr by lia; by apply Z.eqb_neq..|rewrite byte_chr; lia].
       apply fmap_prepend_Some in H as (bs0 & E & ->).
       destruct (IH X bs0 r ltac:(lia) HX E) as (s & R & Hsc & Hbs & Hr & HR).
       exists (cp :: s), R. rewrite scanstring_plain, Hsc by lia. cbn [scan_map].
       split; [done|]. split; [|done]. cbn. rewrite enc_cp_ascii by lia. by rewrite <- Hbs. }
  change (chr 92) with "\"%char in H.
  destruct (utf8_encode X) as [|e r1] eqn:EX; [done|].
  destruct (enc_head X e r1 HX EX) as [(He & EX1 & Er1)|He].
  2: { rewrite parse_string_short in H by (apply ascii_eqb_high; [lia|reflexivity]).
       destruct (short_escape e) as [ch|] eqn:Ech; [|done].
       apply short_escape_spec in Ech. lia. }
  set (X1 := tail X) in *. rewrite EX1 in Hn. cbn [length] in Hn.
  destruct (Ascii.eqb e "u"%char) eqn:Eu.
  2: { rewrite parse_string_short in H by done.
       destruct (short_escape e) as [ch|] eqn:Ech; [|done].
       destruct (short_escape_spec e ch Ech) as (Hea & Hch & Hcp' & He117).
       apply fmap_prepend_Some in H as (bs0 & E & ->). rewrite Er1 in E.
       assert (HX1 : scalars X1) by (rewrite EX1 in HX; by apply Forall_cons in HX as [_ ?]).
       destruct (IH X1 bs0 r ltac:(lia) HX1 E) as (s & R & Hsc & Hbs & Hr & HR).
       exists (byte ch :: s), R. rewrite EX1, scanstring_short, Hcp', Hsc by done.
       cbn [scan_map]. split; [done|]. split; [|done].
       change (byte ch :: s) with ([byte ch] ++ s). by rewrite utf8_encode_app, enc_single_ascii, Hbs. }
  apply Ascii.eqb_eq in Eu. subst e. change (byte "u"%char) with 117%Z in EX1.
  assert (HX1 : scalars X1) by (rewrite EX1 in HX; by apply Forall_cons in HX as [_ ?]).
  destruct r1 as [|a [|b [|c1 [|d r2]]]]; try done.
  rewrite parse_string_u in H. destruct (hex4 a b c1 d) as [u|] eqn:Eh; [|done].
  destruct (enc_ascii_prefix X1 [a; b; c1; d] r2 HX1 (hex4_ascii _ _ _ _ _ Eh) (eq_sym Er1))
    as (X2 & EX2 & Er2 & HX2).
  rewrite EX2 in Hn. cbn [length map app] in Hn.
  rewrite hex4_byte in Eh.
  destruct ((55296 <=? u)%Z && (u <? 56320)%Z) eqn:Ehi.
  - destruct r2 as [|bs' [|uu [|a2 [|b2 [|c2 [|d2 r3]]]]]]; try done.
    destruct (Ascii.eqb bs' "\"%char && Ascii.eqb uu "u"%char) eqn:Ebu; [|done].
    apply andb_prop in Ebu as [Eb1%Ascii.eqb_eq Eb2%Ascii.eqb_eq]. subst bs' uu.
    destruct (hex4 a2 b2 c2 d2) as [u2|] eqn:Eh2; [|done].
    destruct ((56320 <=? u2)%Z && (u2 <? 57344)%Z) eqn:Elo; [|done].
    apply fmap_prepend_Some in H as (bs0 & E & ->).
    assert (Hp : Forall (fun c => (byte c < 128)%Z) ["\"%char; "u"%char; a2; b2; c2; d2]).
    { pose proof (hex4_ascii _ _ _ _ _ Eh2) as Hh. repeat constructor; try reflexivity;
        by repeat (apply Forall_cons in Hh as [? Hh]). }
    destruct (enc_ascii_prefix X2 _ r3 HX2 Hp (eq_sym Er2)) as (X3 & EX3 & Er3 & HX3).
    rewrite EX3 in Hn. cbn [length map app] in Hn. rewrite Er3 in E.
    destruct (IH X3 bs0 r ltac:(lia) HX3 E) as (s & R & Hsc & Hbs & Hr & HR).
    assert (HX3ne : X3 <> []) by (intros ->; done).
    rewrite hex4_byte in Eh2.
    exists (join_pair u u2 :: s), R. rewrite EX1, EX2, EX3.
    cbn [map app]. change (byte "\"%char) with 92%Z. change (byte "u"%char) with 117%Z.
    rewrite (scanstring_u_pair _ _ _ _ _ _ _ _ X3 u u2 Eh Ehi HX3ne Eh2 Elo), Hsc.
    cbn [scan_map]. split; [done|]. split; [|done].
    cbn [utf8_encode flat_map]. fold (utf8_encode s). by rewrite Hbs.
  - destruct ((56320 <=? u)%Z && (u <? 57344)%Z); [done|].
    apply fmap_prepend_Some in H as (bs0 & E & ->). rewrite Er2 in E.
    destruct (IH X2 bs0 r ltac:(lia) HX2 E) as (s & R & Hsc & Hbs & Hr & HR).
    exists (u :: s), R. rewrite EX1, EX2. cbn [map app].
    rewrite (scanstring_u_lone _ _ _ _ X2 u Eh Ehi), Hsc.
    cbn [scan_map]. split; [done|]. split; [|done].
    cbn [utf8_encode flat_map]. fold (utf8_encode s). by rewrite Hbs.
Qed.

Lemma parse_string_sim X bs r :
  scalars X -> parse_string (utf8_encode X) = Some (bs, r) ->
  exists s R, scanstring X = Scanned s R /\ utf8_encode s = bs /\ r = utf8_encode R /\ scalars R.
Proof. apply (parse_string_sim_lt (S (length X))). lia. Qed.

(** ** Literals and numbers *)

Lemma strip_lit_enc p W :
  scalars W -> Forall (fun c => (byte c < 128)%Z) p ->
  strip_lit p (utf8_encode W) = utf8_encode <$> strip_cps (map byte p) W.
Proof.
  intros HW Hp. revert W HW. induction Hp as [|c p Hc Hp IH]; intros W HW; [done|].
  destruct W as [|w W]; [done|]. apply Forall_cons in HW as [Hw HW].
  pose proof (scalar_bounds w Hw). cbn [utf8_encode flat_map map strip_cps]. fold (utf8_encode W).
  destruct (Z.ltb_spec w 128).
  - rewrite enc_cp_ascii by lia. cbn [app strip_lit].
    rewrite ascii_eqb_byte, byte_chr by lia. destruct (byte c =? w)%Z; [|done]. by apply IH.
  - destruct (enc_cp_high w Hw ltac:(lia)) as (d & r & Hd & Hd1 & _). rewrite Hd. cbn [app strip_lit].
    rewrite (proj2 (Z.eqb_neq (byte c) w)) by lia.
    rewrite ascii_eqb_byte, (proj2 (Z.eqb_neq _ _)) by lia. done.
Qed.

Lemma lit_ascii s : Forall (fun c => (byte c < 128)%Z) (String.list_ascii_of_string s) ->
  lit s = map byte (String.list_ascii_of_string s).
Proof. done. Qed.

Lemma enc_cons_ascii cp X : (0 <= cp < 128)%Z -> utf8_encode (cp :: X) = chr cp :: utf8_encode X.
Proof. intros H. cbn [utf8_encode flat_map]. by rewrite enc_cp_ascii. Qed.

Lemma scalars_suffix l l' : l `suffix_of` l' -> scalars l' -> scalars l.
Proof. intros [k ->] H. by apply Forall_app in H as [_ ?]. Qed.

Lemma enc_cons_split c X :
  is_scalar c = true ->
  ((0 <= c < 128)%Z /\ utf8_encode (c :: X) = chr c :: utf8_encode X) \/
  ((128 <= c)%Z /\ exists d r, utf8_encode (c :: X) = d :: r ++ utf8_encode X /\ (192 <= byte d)%Z).
Proof.
  intros Hc. pose proof (scalar_bounds c Hc). destruct (Z.ltb_spec c 128).
  - left. split; [lia|]. apply enc_cons_ascii; lia.
  - right. split; [lia|]. destruct (enc_cp_high c Hc ltac:(lia)) as (d & r & Hd & Hb & _).
    exists d, r. cbn [utf8_encode flat_map]. by rewrite Hd.
Qed.

Lemma is_digit_cp_high x : (58 <= x)%Z -> is_digit_cp x = false.
Proof. intros H. unfold is_digit_cp. apply andb_false_intro2, Z.leb_gt. lia. Qed.

Lemma scan_minus_enc X :
  scalars X ->
  scan_minus (utf8_encode X) =
    (match X with c :: _ => (c =? 45)%Z | [] => false end,
     utf8_encode (match X with c :: r => if (c =? 45)%Z then r else X | [] => X end)).
Proof.
  destruct X as [|c X]; [done|]. intros [Hc _]%Forall_cons.
  destruct (enc_cons_split c X Hc) as [[Hlt E] | [Hge (d & r' & E & Hd)]]; rewrite E; cbn [scan_minus app].
  - rewrite ascii_eqb_chr by lia. change (byte "-"%char) with 45%Z.
    destruct (c =? 45)%Z; [done | by rewrite ?E].
  - rewrite ascii_eqb_high, (proj2 (Z.eqb_neq c 45)) by (lia || reflexivity). by rewrite ?E.
Qed.

Lemma take_digits_enc Y :
  scalars Y ->
  take_digits (utf8_encode Y) = (utf8_encode (take_digits_cp Y).1, utf8_encode (take_digits_cp Y).2).
Proof.
  induction 1 as [|c Y Hc HY IH]; [done|].
  destruct (enc_cons_split c Y Hc) as [[Hlt E] | [Hge (d & r' & E & Hd)]]; rewrite E;
    cbn [take_digits take_digits_cp app]; rewrite is_digit_byte.
  - rewrite byte_chr by lia. destruct (is_digit_cp c); [|cbn [fst snd]; by rewrite ?E].
    rewrite IH. destruct (take_digits_cp Y). cbn [fst snd]. by rewrite enc_cons_ascii by lia.
  - rewrite !is_digit_cp_high by lia. cbn [fst snd]. by rewrite ?E.
Qed.

Lemma scan_frac_enc Y :
  scalars Y -> scan_frac (utf8_encode Y) = (utf8_encode <$> (frac_cp Y).1, utf8_encode (frac_cp Y).2).
Proof.
  destruct Y as [|c Y]; [done|]. intros [Hc HY]%Forall_cons.
  unfold frac_cp.
  destruct (enc_cons_split c Y Hc) as [[Hlt E] | [Hge (d & r' & E & Hd)]]; rewrite E; cbn [scan_frac app].
  - rewrite ascii_eqb_chr by lia. change (byte "."%char) with 46%Z.
    destruct (c =? 46)%Z; cbn [fst snd]; [|by rewrite ?E]. by rewrite take_digits_enc.
  - rewrite ascii_eqb_high, (proj2 (Z.eqb_neq c 46)) by (lia || reflexivity). cbn [fst snd]. by rewrite ?E.
Qed.

Lemma take_sign_eqb c l :
  take_sign (c :: l) =
    if Ascii.eqb c "-"%char then (true, l) else if Ascii.eqb c "+"%char then (false, l) else (false, c :: l).
Proof. by destruct c as [[] [] [] [] [] [] [] []]. Qed.

Lemma lower_eqb_e c : Ascii.eqb (lower c) "e"%char = Ascii.eqb c "e"%char || Ascii.eqb c "E"%char.
Proof. by destruct c as [[] [] [] [] [] [] [] []]. Qed.

Lemma take_sign_cp_suffix l : take_sign_cp l `suffix_of` l.
Proof. destruct l as [|s t]; [done|]. cbn. case_match; [by apply suffix_cons_r|done]. Qed.

Lemma take_sign_enc Y : scalars Y -> (take_sign (utf8_encode Y)).2 = utf8_encode (take_sign_cp Y).
Proof.
  destruct Y as [|c Y]; [done|]. intros [Hc _]%Forall_cons. unfold take_sign_cp.
  destruct (enc_cons_split c Y Hc) as [[Hlt E] | [Hge (d & r' & E & Hd)]]; rewrite E, take_sign_eqb.
  - rewrite !ascii_eqb_chr by lia. change (byte "-"%char) with 45%Z. change (byte "+"%char) with 43%Z.
    destruct (c =? 45)%Z, (c =? 43)%Z; cbn; try done; by rewrite ?E.
  - rewrite !ascii_eqb_high, (proj2 (Z.eqb_neq c 45)), (proj2 (Z.eqb_neq c 43)) by (lia || reflexivity).
    cbn. by rewrite ?E.
Qed.

Lemma scan_exp_enc Y :
  scalars Y -> scan_exp (utf8_encode Y) = (utf8_encode <$> (exp_cp Y).1, utf8_encode (exp_cp Y).2).
Proof.
  destruct Y as [|c Y]; [done|]. intros [Hc HY]%Forall_cons. unfold exp_cp.
  destruct (enc_cons_split c Y Hc) as [[Hlt E] | [Hge (d & r' & E & Hd)]]; rewrite E; cbn [scan_exp app];
    rewrite lower_eqb_e.
  - rewrite !ascii_eqb_chr by lia. change (byte "e"%char) with 101%Z. change (byte "E"%char) with 69%Z.
    destruct ((c =? 101) || (c =? 69))%Z; cbn [fst snd]; [|by rewrite ?E].
    pose proof (take_sign_enc Y HY) as Hs. destruct (take_sign (utf8_encode Y)) as [sg Y'].
    cbn in Hs. subst Y'. rewrite take_digits_enc; [done|].
    exact (scalars_suffix _ _ (take_sign_cp_suffix Y) HY).
  - rewrite !ascii_eqb_high, (proj2 (Z.eqb_neq c 101)), (proj2 (Z.eqb_neq c 69)) by (lia || reflexivity).
    cbn [orb fst snd]. by rewrite ?E.
Qed.

Lemma take_digits_cp_app l :
  l = (take_digits_cp l).1 ++ (take_digits_cp l).2 /\ Forall (fun c => is_digit_cp c = true) (take_digits_cp l).1.
Proof.
  induction l as [|c l [IH1 IH2]]; [done|]. cbn [take_digits_cp].
  destruct (is_digit_cp c) eqn:Hc; [|done]. destruct (take_digits_cp l) as [ds r]. cbn in *.
  split; [by rewrite IH1 at 1 | by constructor].
Qed.

Lemma take_digits_cp_cons c l ds r :
  take_digits_cp (c :: l) = (ds, r) -> ds <> [] -> is_digit_cp c = true /\ exists ds', ds = c :: ds' /\ take_digits_cp l = (ds', r).
Proof.
  cbn [take_digits_cp]. destruct (is_digit_cp c); [|by intros [= <- _]].
  destruct (take_digits_cp l) as [ds' r']. intros [= <- <-] _. eauto.
Qed.

(** Where the standard reading accepts the integer part, the fraction
    and the exponent, the scanner reads the same code points. *)
Lemma scan_int_cp_digits Y ds Y1 :
  take_digits_cp Y = (ds, Y1) -> ds <> [] -> (forall r, ds = 48%Z :: r -> r = []) -> scan_int_cp Y = Some Y1.
Proof.
  intros E Hne Hz. destruct Y as [|c Y']; [by injection E as <- _|].
  destruct (take_digits_cp_cons _ _ _ _ E Hne) as (Hc & ds' & -> & E').
  cbn [scan_int_cp]. rewrite E'. unfold is_digit_cp in Hc. apply andb_prop in Hc as [?%Z.leb_le ?%Z.leb_le].
  destruct (Z.leb_spec 49 c); cbn [andb]; [rewrite (proj2 (Z.leb_le c 57)) by lia; done|].
  assert (c = 48)%Z as -> by lia. rewrite (Hz ds' eq_refl) in E'. cbn [Z.eqb Pos.eqb].
  destruct Y' as [|d Y'']; [by injection E' as <-|]. cbn [take_digits_cp] in E'.
  destruct (is_digit_cp d); [by destruct (take_digits_cp Y'')|]. by injection E' as <-.
Qed.

Lemma scan_frac_cp_frac Y1 fr Y2 :
  frac_cp Y1 = (fr, Y2) -> fr <> Some [] -> scan_frac_cp Y1 = (bool_decide (fr <> None), Y2).
Proof.
  destruct Y1 as [|c Z]; [by intros [= <- <-]|]. cbn [frac_cp].
  destruct (Z.eqb_spec c 46) as [->|Hc].
  - intros [= <- <-] Hne. destruct Z as [|d Z']; [done|].
    destruct (take_digits_cp (d :: Z')) as [ds r] eqn:Ed.
    destruct (take_digits_cp_cons _ _ _ _ Ed ltac:(by intros ->)) as (Hd & ds' & -> & E').
    cbn [scan_frac_cp Z.eqb Pos.eqb andb]. by rewrite Hd, E'.
  - intros [= <- <-] _. cbn [scan_frac_cp]. destruct Z; [done|]. by rewrite (proj2 (Z.eqb_neq c 46) Hc).
Qed.

Lemma scan_exp_cp_exp Y2 ex Y3 :
  exp_cp Y2 = (ex, Y3) -> ex <> Some [] -> scan_exp_cp Y2 = (bool_decide (ex <> None), Y3).
Proof.
  destruct Y2 as [|c Z]; [by intros [= <- <-]|]. cbn [exp_cp scan_exp_cp].
  destruct ((c =? 101) || (c =? 69))%Z; [|by intros [= <- <-]].
  intros [= <- <-] Hne. destruct Z as [|s t]; [done|]. cbn [andb negb]. rewrite bool_decide_false by done.
  assert (Hr : (if ((s =? 45) || (s =? 43)) && negb (bool_decide (t = [])) then t else s :: t)%Z =
               take_sign_cp (s :: t)).
  { cbn [take_sign_cp]. destruct ((s =? 45) || (s =? 43))%Z eqn:Es; [|done].
    destruct t as [|t0 t']; [|done]. exfalso. apply Hne. cbn [take_sign_cp]. by rewrite Es. }
  rewrite Hr. destruct (take_digits_cp (take_sign_cp (s :: t))) as [ds r]. cbn in Hne |- *.
  rewrite bool_decide_false by (intros ->; done). done.
Qed.

Lemma eqb_or2 c a b : ((c =? a) || (c =? b))%Z = true -> c = a \/ c = b.
Proof. intros [?%Z.eqb_eq | ?%Z.eqb_eq]%orb_true_iff; auto. Qed.

(** The pieces the standard reading takes off. *)
Lemma frac_cp_app l fr r :
  frac_cp l = (fr, r) ->
  match fr with
  | Some fs => l = 46%Z :: fs ++ r /\ Forall (fun c => is_digit_cp c = true) fs
  | None => r = l
  end.
Proof.
  destruct l as [|c Z]; [by intros [= <- <-]|]. cbn [frac_cp].
  destruct (Z.eqb_spec c 46) as [->|]; [|by intros [= <- <-]]. intros [= <- <-].
  destruct (take_digits_cp_app Z) as [E Hd]. split; [by rewrite E at 1 | done].
Qed.

Lemma exp_cp_app l ex r :
  exp_cp l = (ex, r) ->
  match ex with
  | Some es => exists e sg, l = e :: sg ++ es ++ r /\ (e = 101 \/ e = 69)%Z /\
                 (sg = [] \/ sg = [45%Z] \/ sg = [43%Z]) /\ Forall (fun c => is_digit_cp c = true) es
  | None => r = l
  end.
Proof.
  destruct l as [|c Z]; [by intros [= <- <-]|]. cbn [exp_cp].
  destruct ((c =? 101) || (c =? 69))%Z eqn:Ec; [|by intros [= <- <-]]. intros [= <- <-].
  destruct (take_digits_cp_app (take_sign_cp Z)) as [E Hd].
  apply eqb_or2 in Ec. exists c. destruct Z as [|s t].
  - exists []. cbn in E |- *. split_and!; [first [done | by rewrite <- E] | done | by left | done].
  - cbn [take_sign_cp] in E, Hd |- *. destruct ((s =? 45) || (s =? 43))%Z eqn:Es.
    + exists [s]. split_and!; [first [done | by rewrite <- E] | done | by (destruct (eqb_or2 _ _ _ Es) as [-> | ->]; auto) | done].
    + exists []. split_and!; [first [done | by rewrite <- E] | done | by left | done].
Qed.

Lemma enc_ascii_cps l : Forall (fun c => (0 <= c < 128)%Z) l -> utf8_encode l = map chr l.
Proof. induction 1 as [|c l Hc _ IH]; [done|]. by rewrite enc_cons_ascii, IH. Qed.

Lemma digit_cp_ascii l : Forall (fun c => is_digit_cp c = true) l -> Forall (fun c => (0 <= c < 128)%Z) l.
Proof.
  intros H. eapply Forall_impl; [exact H|]. intros c Hc. unfold is_digit_cp in Hc. apply andb_prop in Hc as [?%Z.leb_le ?%Z.leb_le]. lia.
Qed.

Lemma is_digit_chr c : is_digit_cp c = true -> is_digit (chr c) = true.
Proof.
  intros Hc. rewrite is_digit_byte, byte_chr; [done|].
  unfold is_digit_cp in Hc. apply andb_prop in Hc as [?%Z.leb_le ?%Z.leb_le]. lia.
Qed.

Lemma digits_chr l : Forall (fun c => is_digit_cp c = true) l -> Forall (fun c => is_digit c = true) (map chr l).
Proof. intros H. apply Forall_map. eapply Forall_impl; [exact H | apply is_digit_chr]. Qed.

Lemma take_app_length {A} (P R : list A) : take (length (P ++ R) - length R) (P ++ R) = P.
Proof. rewrite length_app, Nat.add_sub, take_app_length. done. Qed.

Lemma digits_val_nonneg L : (0 <= digits_val L)%Z.
Proof.
  induction L as [|c L IH] using rev_ind; [done|]. rewrite digits_val_snoc.
  pose proof (digit_val_nonneg c). lia.
Qed.

Lemma frac_piece Y1 fr Y2 :
  frac_cp Y1 = (fr, Y2) -> fr <> Some [] ->
  exists fpart, Y1 = fpart ++ Y2 /\ Forall (fun c => (0 <= c < 128)%Z) fpart /\
    json_frac (map chr fpart) /\ (fpart = [] <-> fr = None).
Proof.
  intros E Hne. pose proof (frac_cp_app _ _ _ E) as Hf. destruct fr as [fs|].
  - destruct Hf as [-> Hd]. exists (46%Z :: fs). split_and!; [done | constructor; [lia | by apply digit_cp_ascii] | | done].
    right. exists (map chr fs). split_and!; [done | by destruct fs | by apply digits_chr].
  - subst Y2. exists []. split_and!; [done..| by left | done].
Qed.

Lemma exp_piece Y2 ex Y3 :
  exp_cp Y2 = (ex, Y3) -> ex <> Some [] ->
  exists epart, Y2 = epart ++ Y3 /\ Forall (fun c => (0 <= c < 128)%Z) epart /\
    json_exp (map chr epart) /\ (epart = [] <-> ex = None).
Proof.
  intros E Hne. pose proof (exp_cp_app _ _ _ E) as Hx. destruct ex as [es|].
  - destruct Hx as (e & sg & -> & He & Hsg & Hd). exists (e :: sg ++ es).
    split_and!; [cbn [app]; by rewrite <- app_assoc | | | done].
    + constructor; [lia|]. apply Forall_app; split; [|by apply digit_cp_ascii].
      destruct Hsg as [-> | [-> | ->]]; repeat constructor; lia.
    + right. exists (chr e), (map chr sg), (map chr es). cbn [map]. rewrite map_app.
      split_and!; [done | by destruct He as [-> | ->]; [left | right] | | by destruct es | by apply digits_chr].
      destruct Hsg as [-> | [-> | ->]]; [by left | right; by left | right; by right].
  - subst Y3. exists []. split_and!; [done..| by left | done].
Qed.

Lemma int_ok_cp ds :
  Forall (fun c => is_digit_cp c = true) ds ->
  match utf8_encode ds with [] => false | d :: ds' => negb (Ascii.eqb d "0"%char) || bool_decide (ds' = []) end = true ->
  ds <> [] /\ (forall r, map chr ds = "0"%char :: r -> r = []).
Proof.
  intros Hd. rewrite enc_ascii_cps by (by apply digit_cp_ascii). destruct ds as [|c ds']; [done|].
  cbn [map]. intros Hok. split; [done|]. intros r [= Hc <-].
  rewrite Hc in Hok. cbn in Hok. by apply bool_decide_eq_true in Hok.
Qed.

(** The standard reading of a number and [_match_number_unicode]
    agree: they read the same code points, and the value [int()] or
    [float()] gives the scanned text is the value of the standard
    reading, when an integer is within the limit of [int()]. *)
Lemma parse_number_sim X v r :
  scalars X -> parse_number (utf8_encode X) = Some (v, r) -> ints_fit v = true ->
  exists R, match_number X = Scanned (py_value v) R /\ r = utf8_encode R /\ scalars R.
Proof.
  intros HX H Hfit. unfold parse_number in H. unfold match_number. rewrite scan_minus_enc in H by done.
  assert (EX : X = (if match X with c :: _ => (c =? 45)%Z | [] => false end then [45%Z] else []) ++
                   match X with c :: r => if (c =? 45)%Z then r else X | [] => X end).
  { destruct X as [|c X']; [done|]. by destruct (Z.eqb_spec c 45) as [->|]. }
  remember (match X with c :: _ => (c =? 45)%Z | [] => false end) as neg eqn:Eneg in H, EX.
  remember (match X with c :: r => if (c =? 45)%Z then r else X | [] => X end) as Y eqn:EY0 in H, EX |- *.
  clear Eneg EY0.
  assert (HY : scalars Y) by (rewrite EX in HX; by apply Forall_app in HX as [_ ?]).
  rewrite take_digits_enc in H by done.
  destruct (take_digits_cp_app Y) as [EY Hds].
  destruct (take_digits_cp Y) as [ds Y1] eqn:Ed. cbn [fst snd] in H, EY, Hds.
  assert (HY1 : scalars Y1) by (rewrite EY in HY; by apply Forall_app in HY as [_ ?]).
  rewrite scan_frac_enc in H by done. destruct (frac_cp Y1) as [fr Y2] eqn:Ef. cbn [fst snd] in H.
  assert (HY2 : scalars Y2).
  { pose proof (frac_cp_app _ _ _ Ef) as Hf. destruct fr as [fs|]; [|by subst].
    destruct Hf as [E _]. rewrite E in HY1. apply Forall_cons in HY1 as [_ HY1]. by apply Forall_app in HY1 as [_ ?]. }
  rewrite scan_exp_enc in H by done. destruct (exp_cp Y2) as [ex Y3] eqn:Ee. cbn [fst snd] in H.
  cbv zeta in H.
  destruct (_ && _ && _) eqn:Hok in H; [|discriminate H].
  apply andb_prop in Hok as [[Hint Hfrac]%andb_prop Hexp].
  destruct (int_ok_cp ds Hds Hint) as [Hne Hz].
  assert (Hz' : forall r, ds = 48%Z :: r -> r = []).
  { intros r' ->. apply map_eq_nil with (f := chr). by apply Hz. }
  assert (Hfrne : fr <> Some []) by (intros ->; discriminate Hfrac).
  assert (Hexne : ex <> Some []) by (intros ->; discriminate Hexp).
  destruct (frac_piece _ _ _ Ef Hfrne) as (fpart & EY1 & Hfa & Hfj & Hfn).
  destruct (exp_piece _ _ _ Ee Hexne) as (epart & EY2 & Hea & Hej & Hen).
  rewrite (scan_int_cp_digits Y ds Y1 Ed Hne Hz'), (scan_frac_cp_frac Y1 fr Y2 Ef Hfrne).
  rewrite (scan_exp_cp_exp Y2 ex Y3 Ee Hexne).
  set (P := (if neg then [45%Z] else []) ++ ds ++ fpart ++ epart).
  assert (EXP : X = P ++ Y3) by (rewrite EX, EY, EY1, EY2; unfold P; by rewrite <- !app_assoc).
  assert (HY3 : scalars Y3) by (rewrite EXP in HX; by apply Forall_app in HX as [_ ?]).
  assert (Htext : cps_text P = String.string_of_list_ascii
            ((if neg then ["-"%char] else []) ++ map chr ds ++ map chr fpart ++ map chr epart)).
  { unfold cps_text. rewrite enc_ascii_cps; [unfold P; rewrite !map_app; by destruct neg|].
    unfold P. repeat apply Forall_app_2; [by destruct neg; repeat constructor | by apply digit_cp_ascii | done | done]. }
  rewrite EXP in H |- *. rewrite utf8_encode_app, take_app_length in H. rewrite take_app_length.
  change (String.string_of_list_ascii (utf8_encode P)) with (cps_text P) in H.
  destruct (bool_decide (fr <> None) || bool_decide (ex <> None)) eqn:Hfe.
  - assert (Hv : v = JFloat (cps_text P) /\ r = utf8_encode Y3).
    { destruct fr, ex; cbn in Hfe, H; try discriminate Hfe; by injection H as <- <-. }
    destruct Hv as [-> ->]. destruct (py_float (cps_text P)) as [f|] eqn:Hpf.
    + exists Y3. cbn [py_value]. by rewrite Hpf.
    + exfalso. unfold py_float in Hpf. rewrite Htext in Hpf.
      apply (parse_float_lit_json neg (map chr ds) (map chr fpart) (map chr epart));
        [by destruct ds | by apply digits_chr | done | done |].
      by destruct (parse_float_lit _).
  - assert (fr = None /\ ex = None) as [-> ->] by (destruct fr, ex; done).
    rewrite (proj2 Hfn eq_refl), (proj2 Hen eq_refl) in Htext. cbn in H. injection H as <- <-.
    rewrite !app_nil_r in Htext. rewrite Htext.
    rewrite enc_ascii_cps in Hfit |- * by (by apply digit_cp_ascii).
    rewrite py_int_of_str_digits; [by exists Y3 | by destruct ds | by apply digits_chr |].
    apply digits_fit; [by apply digits_chr | done |]. cbn in Hfit. unfold int_str_ok in Hfit.
    apply Z.ltb_lt in Hfit. pose proof (digits_val_nonneg (map chr ds)). destruct neg; lia.
Qed.

Lemma scan_int_cp_head l r :
  scan_int_cp l = Some r -> exists c l', l = c :: l' /\ is_digit_cp c = true.
Proof.
  destruct l as [|c l']; [done|]. cbn [scan_int_cp]. unfold is_digit_cp. intros H.
  exists c, l'. split; [done|]. apply andb_true_intro.
  destruct ((49 <=? c) && (c <=? 57))%Z eqn:E.
  - apply andb_prop in E as [?%Z.leb_le ?%Z.leb_le]. split; apply Z.leb_le; lia.
  - destruct (Z.eqb_spec c 48); [|done]. split; apply Z.leb_le; lia.
Qed.

(** A number starts with a digit, or with [-] and a digit. *)
Lemma match_number_head X v R :
  match_number X = Scanned v R ->
  exists c X', X = c :: X' /\ (is_digit_cp c = true \/ c = 45%Z /\ exists d X'', X' = d :: X'' /\ is_digit_cp d = true).
Proof.
  unfold match_number. destruct (scan_int_cp _) eqn:E; [|done]. intros _.
  apply scan_int_cp_head in E as (d & X'' & HX & Hd).
  destruct X as [|c X']; [done|]. exists c, X'. split; [done|].
  destruct (Z.eqb_spec c 45) as [->|]; [right; eauto | left; by injection HX as -> _].
Qed.

Lemma lit_cps :
  lit "null" = [110; 117; 108; 108]%Z /\ lit "true" = [116; 114; 117; 101]%Z /\
  lit "false" = [102; 97; 108; 115; 101]%Z.
Proof. done. Qed.

Lemma constants_cps :
  constants = [([110; 117; 108; 108]%Z, JNull); ([116; 114; 117; 101]%Z, JBool true);
               ([102; 97; 108; 115; 101]%Z, JBool false); ([78; 97; 78]%Z, JFloat "nan");
               ([73; 110; 102; 105; 110; 105; 116; 121]%Z, JFloat "inf");
               ([45; 73; 110; 102; 105; 110; 105; 116; 121]%Z, JFloat "-inf")].
Proof. done. Qed.

(** After a number the standard reading's named constants and the
    scanner's [NaN], [Infinity] and [-Infinity] all fail. *)
Lemma match_constant_number X v R :
  match_number X = Scanned v R ->
  strip_cps (lit "null") X = None /\ strip_cps (lit "true") X = None /\
  strip_cps (lit "false") X = None /\ match_constant constants X = None.
Proof.
  intros (c & X' & -> & Hc)%match_number_head.
  assert (Hd : forall c, is_digit_cp c = true -> c <> 110%Z /\ c <> 116%Z /\ c <> 102%Z /\
                                              c <> 78%Z /\ c <> 73%Z /\ c <> 45%Z).
  { intros x. unfold is_digit_cp. intros [H1%Z.leb_le H2%Z.leb_le]%andb_prop. lia. }
  destruct Hc as [Hc | (-> & d & X'' & -> & Hdig)].
  - destruct (Hd c Hc) as (? & ? & ? & ? & ? & ?). destruct lit_cps as (-> & -> & ->). rewrite constants_cps. cbn [match_constant strip_cps]. rewrite ?Z.eqb_refl.
    repeat (rewrite (proj2 (Z.eqb_neq _ _)) by lia). done.
  - destruct (Hd d Hdig) as (? & ? & ? & ? & ? & ?). destruct lit_cps as (-> & -> & ->). rewrite constants_cps. cbn [match_constant strip_cps]. rewrite ?Z.eqb_refl.
    repeat (rewrite (proj2 (Z.eqb_neq _ _)) by lia). done.
Qed.

(** ** Values, arrays and objects *)

Lemma scalars_skip X : scalars X -> scalars (skip_ws_cp X).
Proof. apply scalars_suffix, skip_ws_cp_suffix. Qed.

(** Encoded text whose first byte is a given ASCII character starts
    with that code point. *)
Lemma enc_head_eqb X c r d :
  scalars X -> utf8_encode X = c :: r -> Ascii.eqb c d = true -> (byte d < 128)%Z ->
  exists X', X = byte d :: X' /\ r = utf8_encode X' /\ scalars X'.
Proof.
  intros HX E ->%Ascii.eqb_eq Hd. destruct (enc_head X d r HX E) as [(_ & EX & Er)|]; [|lia].
  exists (tail X). rewrite EX in HX |- *. apply Forall_cons in HX as [_ HX]. by split_and!.
Qed.

Lemma strip_lit_high p c r :
  p <> [] -> Forall (fun c => (byte c < 128)%Z) p -> (128 <= byte c)%Z -> strip_lit p (c :: r) = None.
Proof.
  intros Hp Ha Hc. destruct Ha as [|a p Ha _]; [done|]. cbn [strip_lit].
  rewrite ascii_eqb_byte, (proj2 (Z.eqb_neq _ _)) by lia. done.
Qed.

Lemma depth_elems (l : list json) d :
  json_depth (JArr l) <= S d -> Forall (fun v => json_depth v <= d) l.
Proof. induction l as [|v l IH]; cbn; intros H; constructor; [lia | apply IH; cbn; lia]. Qed.

Lemma depth_members (f : list (string * json)) d :
  json_depth (JObj f) <= S d -> Forall (fun kv => json_depth kv.2 <= d) f.
Proof. induction f as [|kv f IH]; cbn; intros H; constructor; [lia | apply IH; cbn; lia]. Qed.

Section Step.
Context (n : nat) (IHv : sim_value n) (IHe : sim_elems n) (IHm : sim_members n).

Lemma sim_elems_S : sim_elems (S n).
Proof.
  intros X vs r d m HX H Hfit Hdep Hm. cbn [parse_elems] in H.
  destruct m as [|m]; [lia|]. cbn [array_elems].
  destruct (parse_value n (utf8_encode X)) as [[v r1]|] eqn:E1; [|done].
  destruct (skip_ws r1) as [|c r2] eqn:E2; [done|].
  assert (Hhd : exists vs', vs = v :: vs').
  { destruct (Ascii.eqb c ","%char); [destruct (parse_elems n r2) as [[]|]; [|done]|destruct (Ascii.eqb c "]"%char); [|done]];
      cbn in H; injection H as <- _; eauto. }
  destruct Hhd as [vs' ->]. cbn in Hfit. apply andb_prop in Hfit as [Hf1 Hf2].
  apply Forall_cons in Hdep as [Hd1 Hd2].
  destruct (IHv X v r1 d m HX E1 Hf1 Hd1 ltac:(lia)) as (R1 & Hs & -> & HR1).
  pose proof (proj1 (scan_once_suffix m) d _ _ _ Hs) as [_ HlR1].
  rewrite Hs. cbn [scan_cont]. rewrite skip_ws_enc in E2 by done.
  destruct (Ascii.eqb c ","%char) eqn:Ec.
  - destruct (enc_head_eqb _ _ _ _ (scalars_skip R1 HR1) E2 Ec ltac:(reflexivity)) as (R2 & ER2 & -> & HR2).
    change (byte ","%char) with 44%Z in ER2. rewrite ER2. cbn [Z.eqb Pos.eqb].
    destruct (parse_elems n (utf8_encode R2)) as [[vs'' r3]|] eqn:E3; [|done]. cbn in H. injection H as -> ->.
    pose proof (skip_ws_cp_cons _ _ _ ER2) as [_ Hl2]. pose proof (suffix_length_le _ _ (skip_ws_cp_suffix R2)).
    destruct (IHe R2 vs' r d m HR2 E3 Hf2 Hd2 ltac:(lia)) as (R & -> & -> & HR). by exists R.
  - destruct (Ascii.eqb c "]"%char) eqn:Ec'; [|done]. injection H as <- <-.
    destruct (enc_head_eqb _ _ _ _ (scalars_skip R1 HR1) E2 Ec' ltac:(reflexivity)) as (R2 & ER2 & -> & HR2).
    change (byte "]"%char) with 93%Z in ER2. rewrite ER2. cbn [Z.eqb Pos.eqb]. by exists R2.
Qed.

Lemma sim_members_S : sim_members (S n).
Proof.
  intros X f r d m HX H Hfit Hdep Hm. cbn [parse_members] in H. rewrite skip_ws_enc in H by done.
  destruct m as [|m]; [lia|]. cbn [object_members].
  destruct (utf8_encode (skip_ws_cp X)) as [|c r0] eqn:E0; [done|].
  destruct (Ascii.eqb c "034"%char) eqn:Ec; [|done].
  destruct (enc_head_eqb _ _ _ _ (scalars_skip X HX) E0 Ec ltac:(reflexivity)) as (W1 & EW & -> & HW1).
  change (byte "034"%char) with 34%Z in EW. rewrite EW. cbn [Z.eqb Pos.eqb].
  pose proof (suffix_length_le _ _ (skip_ws_cp_suffix X)). rewrite EW in Hm. cbn [length] in Hm.
  destruct (parse_string (utf8_encode W1)) as [[k r1]|] eqn:Es; [|done].
  destruct (parse_string_sim W1 k r1 HW1 Es) as (s & R1 & Hs & <- & -> & HR1).
  pose proof (scanstring_suffix W1 _ _ Hs) as [_ Hl1].
  rewrite Hs. cbn [scan_cont]. rewrite skip_ws_enc in H by done.
  destruct (utf8_encode (skip_ws_cp R1)) as [|c1 r2] eqn:E1; [done|].
  destruct (Ascii.eqb c1 ":"%char) eqn:Ec1; [|done].
  destruct (enc_head_eqb _ _ _ _ (scalars_skip R1 HR1) E1 Ec1 ltac:(reflexivity)) as (R2 & ER2 & -> & HR2).
  change (byte ":"%char) with 58%Z in ER2. rewrite ER2. cbn [Z.eqb Pos.eqb].
  pose proof (skip_ws_cp_cons _ _ _ ER2) as [_ Hl2].
  pose proof (suffix_length_le _ _ (skip_ws_cp_suffix R2)).
  destruct (parse_value n (utf8_encode R2)) as [[v r3]|] eqn:Ev; [|done].
  set (kv := (String.string_of_list_ascii (utf8_encode s), v)) in H.
  assert (Hhd : exists f', f = kv :: f').
  { destruct (skip_ws r3) as [|c2 r4]; [done|].
    destruct (Ascii.eqb c2 ","%char); [destruct (parse_members n r4) as [[]|]; [|done]|destruct (Ascii.eqb c2 "}"%char); [|done]];
      cbn in H; injection H as <- _; eauto. }
  destruct Hhd as [f' ->]. cbn in Hfit. apply andb_prop in Hfit as [Hf1 Hf2].
  apply Forall_cons in Hdep as [Hd1 Hd2].
  destruct (IHv R2 v r3 d m HR2 Ev Hf1 Hd1 ltac:(lia)) as (R3 & Hv & -> & HR3).
  pose proof (proj1 (scan_once_suffix m) d _ _ _ Hv) as [_ Hl3].
  rewrite Hv. cbn [scan_cont]. rewrite skip_ws_enc in H by done.
  destruct (utf8_encode (skip_ws_cp R3)) as [|c2 r4] eqn:E3; [done|].
  destruct (Ascii.eqb c2 ","%char) eqn:Ec2.
  - destruct (enc_head_eqb _ _ _ _ (scalars_skip R3 HR3) E3 Ec2 ltac:(reflexivity)) as (R4 & ER4 & -> & HR4).
    change (byte ","%char) with 44%Z in ER4. rewrite ER4. cbn [Z.eqb Pos.eqb].
    pose proof (skip_ws_cp_cons _ _ _ ER4) as [_ Hl4].
    pose proof (suffix_length_le _ _ (skip_ws_cp_suffix R4)).
    destruct (parse_members n (utf8_encode R4)) as [[f'' r5]|] eqn:E5; [|done]. cbn in H. injection H as -> ->.
    destruct (IHm R4 f' r d m HR4 E5 Hf2 Hd2 ltac:(lia)) as (R & -> & -> & HR). by exists R.
  - destruct (Ascii.eqb c2 "}"%char) eqn:Ec2'; [|done]. injection H as <- <-.
    destruct (enc_head_eqb _ _ _ _ (scalars_skip R3 HR3) E3 Ec2' ltac:(reflexivity)) as (R4 & ER4 & -> & HR4).
    change (byte "}"%char) with 125%Z in ER4. rewrite ER4. cbn [Z.eqb Pos.eqb]. by exists R4.
Qed.

Lemma lits_ascii :
  Forall (fun c => (byte c < 128)%Z) (String.list_ascii_of_string "null") /\
  Forall (fun c => (byte c < 128)%Z) (String.list_ascii_of_string "true") /\
  Forall (fun c => (byte c < 128)%Z) (String.list_ascii_of_string "false").
Proof. split_and!; repeat constructor. Qed.

Lemma sim_value_S : sim_value (S n).
Proof.
  intros X v r d m HX H Hfit Hdep Hm. cbn [parse_value] in H. rewrite skip_ws_enc in H by done.
  pose proof (scalars_skip X HX) as HW. set (W := skip_ws_cp X) in *. clearbody W.
  destruct m as [|m]; [lia|]. destruct lits_ascii as (Hn & Ht & Hf).
  destruct (utf8_encode W) as [|c r0] eqn:EW; [done|].
  destruct (enc_head W c r0 HW EW) as [(Hc & EW' & Er0)|Hhi].
  2: { exfalso. rewrite !(ascii_eqb_high c), !strip_lit_high in H by (done || lia).
       apply parse_number_head in H as [->|Hd]; [change (byte "-"%char) with 45%Z in Hhi; lia|].
       rewrite is_digit_byte in Hd. unfold is_digit_cp in Hd.
       apply andb_prop in Hd as [_ ?%Z.leb_le]. lia. }
  set (W' := tail W) in *. clearbody W'. subst W r0. assert (HW' : scalars W') by (by apply Forall_cons in HW as [_ ?]).
  cbn [scan_once]. rewrite !(ascii_eqb_byte c) in H.
  change (byte "["%char) with 91%Z in H. change (byte "{"%char) with 123%Z in H.
  change (byte "034"%char) with 34%Z in H. cbn [length] in Hm.
  pose proof (suffix_length_le _ _ (skip_ws_cp_suffix W')).
  destruct (Z.eqb_spec (byte c) 91) as [E91|N91].
  - rewrite E91. cbn [Z.eqb Pos.eqb] in H |- *. rewrite skip_ws_enc in H by done.
    destruct (utf8_encode (skip_ws_cp W')) as [|c' r'] eqn:E2; [done|].
    destruct (Ascii.eqb c' "]"%char) eqn:Ec'.
    + injection H as <- <-. destruct d as [|d]; [cbn in Hdep; lia|].
      destruct (enc_head_eqb _ _ _ _ (scalars_skip W' HW') E2 Ec' ltac:(reflexivity)) as (R & ER & -> & HR).
      change (byte "]"%char) with 93%Z in ER. rewrite ER. cbn [Z.eqb Pos.eqb]. by exists R.
    + destruct (parse_elems n (utf8_encode W')) as [[vs r1]|] eqn:Ep; [|done]. cbn in H. injection H as <- ->.
      destruct d as [|d]; [cbn in Hdep; lia|].
      destruct (IHe W' vs r d m HW' Ep Hfit (depth_elems vs d Hdep) ltac:(lia)) as (R & HR & -> & HsR).
      destruct (skip_ws_cp W') as [|c'' r''] eqn:E3; [done|].
      destruct (Z.eqb_spec c'' 93) as [->|]; [|exists R; by rewrite HR].
      rewrite enc_cons_ascii in E2 by lia. injection E2 as <- _. discriminate Ec'.
  - destruct (Z.eqb_spec (byte c) 123) as [E123|N123].
    + rewrite E123. cbn [Z.eqb Pos.eqb] in H |- *. rewrite skip_ws_enc in H by done.
      destruct (utf8_encode (skip_ws_cp W')) as [|c' r'] eqn:E2; [done|].
      destruct (Ascii.eqb c' "}"%char) eqn:Ec'.
      * injection H as <- <-. destruct d as [|d]; [cbn in Hdep; lia|].
        destruct (enc_head_eqb _ _ _ _ (scalars_skip W' HW') E2 Ec' ltac:(reflexivity)) as (R & ER & -> & HR).
        change (byte "}"%char) with 125%Z in ER. rewrite ER. cbn [Z.eqb Pos.eqb]. by exists R.
      * destruct (parse_members n (utf8_encode W')) as [[f r1]|] eqn:Ep; [|done]. cbn in H. injection H as <- ->.
        destruct d as [|d]; [cbn in Hdep; lia|].
        destruct (IHm W' f r d m HW' Ep Hfit (depth_members f d Hdep) ltac:(lia)) as (R & HR & -> & HsR).
        destruct (skip_ws_cp W') as [|c'' r''] eqn:E3; [done|].
        destruct (Z.eqb_spec c'' 125) as [->|]; [|exists R; by rewrite HR].
        rewrite enc_cons_ascii in E2 by lia. injection E2 as <- _. discriminate Ec'.
    + destruct (Z.eqb_spec (byte c) 34) as [E34|N34].
      * cbn [Z.eqb Pos.eqb] in H |- *.
        destruct (parse_string (utf8_encode W')) as [[bs r1]|] eqn:Es; [|done]. cbn in H. injection H as <- ->.
        destruct (parse_string_sim W' bs r HW' Es) as (s & R & -> & <- & -> & HR). by exists R.
      * cbn [Z.eqb Pos.eqb] in H |- *.
        assert (Ec : c :: utf8_encode W' = utf8_encode (byte c :: W')).
        { pose proof (byte_bound c). rewrite enc_cons_ascii by lia. by rewrite chr_byte. }
        rewrite Ec in H.
        cbn [Z.eqb] in H. rewrite !strip_lit_enc in H by done. fold (lit "null") (lit "true") (lit "false") in H.
        unfold constants. cbn [match_constant].
        destruct (strip_cps (lit "null") _) as [R|] eqn:E1.
        { cbn in H. injection H as <- <-. pose proof (strip_cps_suffix _ _ _ E1) as [HR _].
          exists R. split_and!; [done..|]. by apply (scalars_suffix _ _ HR). }
        destruct (strip_cps (lit "true") _) as [R|] eqn:E2.
        { cbn in H. injection H as <- <-. pose proof (strip_cps_suffix _ _ _ E2) as [HR _].
          exists R. split_and!; [done..|]. by apply (scalars_suffix _ _ HR). }
        destruct (strip_cps (lit "false") _) as [R|] eqn:E3.
        { cbn in H. injection H as <- <-. pose proof (strip_cps_suffix _ _ _ E3) as [HR _].
          exists R. split_and!; [done..|]. by apply (scalars_suffix _ _ HR). }
        destruct (parse_number_sim (byte c :: W') v r HW H Hfit) as (R & HN & -> & HR).
        pose proof (match_constant_number _ _ _ HN) as (_ & _ & _ & Hc').
        unfold constants in Hc'. cbn [match_constant] in Hc'. rewrite E1, E2, E3 in Hc'. rewrite Hc'. by exists R.
Qed.

End Step.

Lemma sim_all n : sim_value n /\ sim_elems n /\ sim_members n.
Proof.
  induction n as [|n (IHv & IHe & IHm)].
  - split_and!; intros ?????? H; discriminate H.
  - split_and!; [apply sim_value_S | apply sim_elems_S | apply sim_members_S]; done.
Qed.

(** ** The encoding Python detects *)

(** A value never starts with NUL, and starts with an ASCII character. *)
Lemma scan_once_zero m d l v R : scan_once m d (0%Z :: l) <> Scanned v R.
Proof. destruct m as [|m]; [done|]. cbn [scan_once]. rewrite constants_cps. by cbn. Qed.

Lemma match_constant_head c l v R :
  match_constant constants (c :: l) = Some (v, R) -> (0 < c < 128)%Z.
Proof.
  rewrite constants_cps. cbn [match_constant strip_cps]. intros H.
  repeat match type of H with context [(?a =? c)%Z] => destruct (Z.eqb_spec a c); [lia|] end.
  discriminate H.
Qed.

Lemma scan_once_head m d c l v R : scan_once m d (c :: l) = Scanned v R -> (0 < c < 128)%Z.
Proof.
  destruct m as [|m]; [done|]. cbn [scan_once].
  destruct (Z.eqb_spec c 34); [lia|]. destruct (Z.eqb_spec c 91); [lia|]. destruct (Z.eqb_spec c 123); [lia|].
  destruct (match_constant constants (c :: l)) as [[v' R']|] eqn:Ec; [intros _; by eapply match_constant_head|].
  intros (c' & X' & [= <- <-] & [Hd | [-> _]])%match_number_head; [|lia].
  unfold is_digit_cp in Hd. apply andb_prop in Hd as [?%Z.leb_le ?%Z.leb_le]. lia.
Qed.

Lemma match_constant_nul c l : match_constant constants (c :: 0%Z :: l) = None.
Proof.
  rewrite constants_cps. cbn [match_constant strip_cps].
  repeat match goal with |- context [(?a =? c)%Z] => destruct (a =? c)%Z end; reflexivity.
Qed.

(** A value followed by NUL as its second character is one character
    long, so the NUL is left over. *)
Lemma scan_once_nul m d c l v R : scan_once m d (c :: 0%Z :: l) = Scanned v R -> R = 0%Z :: l.
Proof.
  destruct m as [|m]; [done|]. cbn [scan_once].
  destruct (Z.eqb_spec c 34); [done|]. destruct (Z.eqb_spec c 91).
  { destruct d as [|d]; [done|]. cbn. destruct m as [|m]; [done|]. cbn [array_elems].
    destruct (scan_once m d (0%Z :: l)) as [v' R'|e'|] eqn:E; [by apply scan_once_zero in E|done|done]. }
  destruct (Z.eqb_spec c 123).
  { destruct d as [|d]; [done|]. cbn. by destruct m. }
  rewrite match_constant_nul. unfold match_number.
  destruct (Z.eqb_spec c 45); [intros H; discriminate H|].
  destruct (scan_int_cp (c :: 0%Z :: l)) as [r1|] eqn:Ei; [|intros H; discriminate H].
  assert (r1 = 0%Z :: l) as ->.
  { revert Ei. cbn [scan_int_cp]. destruct (_ && _)%Z; [by intros [= <-]|].
    destruct (c =? 48)%Z; [by intros [= <-]|done]. }
  replace (scan_frac_cp (0%Z :: l)) with (false, 0%Z :: l) by (by destruct l as [|? []]).
  cbn [scan_exp_cp Z.eqb orb andb]. case_match; intros Hs; [by injection Hs as _ <-|discriminate Hs].
Qed.

(** Text that [loads_text] reads starts with an ASCII character, and
    its second character is not NUL. *)
Lemma loads_text_head X v :
  loads_text X = inr v ->
  X = [] \/ exists x0 X', X = x0 :: X' /\ (0 < x0 < 128)%Z /\ forall x1 X'', X' = x1 :: X'' -> x1 <> 0%Z.
Proof.
  unfold loads_text. intros H. destruct X as [|x0 X']; [by left|right]. exists x0, X'. split; [done|].
  destruct (scan_once _ _ _) as [w R|e|] eqn:Es; [|done|done].
  case_bool_decide as Eb; [|done]. cbn [skip_ws_cp] in Es.
  destruct (is_ws_cp x0) eqn:Hws.
  - split; [unfold is_ws_cp in Hws; revert Hws; zcmp_eq; cbn; (lia || done)|].
    intros x1 X'' -> ->. cbn [skip_ws_cp is_ws_cp Z.eqb orb] in Es. by apply scan_once_zero in Es.
  - split; [by eapply scan_once_head|]. intros x1 X'' -> ->.
    apply scan_once_nul in Es as ->. discriminate Eb.
Qed.

(** Text that starts with an ASCII character other than NUL, and whose
    second byte is not NUL, is read as UTF-8. *)
Lemma detect_encoding_ascii b0 rest :
  (0 < b0 < 128)%Z -> (forall b1 rest', rest = b1 :: rest' -> b1 <> 0%Z) ->
  detect_encoding (b0 :: rest) = Utf8Enc.
Proof.
  intros Hb Hr. destruct rest as [|b1 rest].
  - unfold detect_encoding. rewrite !bool_decide_eq_false_2 by (cbn; intros E; simplify_eq). done.
  - apply detect_encoding_utf8; [lia..|]. by apply (Hr b1 rest).
Qed.

Lemma enc_first_byte_nz X b rest :
  scalars X -> map byte (utf8_encode X) = b :: rest -> (forall x X', X = x :: X' -> x <> 0%Z) -> b <> 0%Z.
Proof.
  intros HX E Hnz. destruct (utf8_encode X) as [|c r] eqn:EX; [done|]. injection E as <- _.
  destruct (enc_head X c r HX EX) as [(_ & EX' & _)|]; [|lia]. by apply (Hnz _ (tail X)).
Qed.

(** ** Agreement *)

(** [json.loads] of a text the standard reading accepts. *)
Lemma loads_read s v :
  utf8_ok (String.list_ascii_of_string s) = true -> json_read s = Some v ->
  ints_fit v = true -> json_depth v <= JSON_DEPTH ->
  json_loads s = inr (py_value v).
Proof.
  intros Hok Hr Hfit Hdep. unfold json_read, json_loads in *. set (l := String.list_ascii_of_string s) in *.
  destruct (utf8_ok_spec l Hok) as [Henc HX]. set (X := utf8_decode l) in *.
  destruct (parse_value (S (length l)) l) as [[v' r]|] eqn:Ep; [|done].
  case_bool_decide as Hr'; [|done]. injection Hr as <-. rewrite <- Henc in Ep.
  pose proof (suffix_length_le _ _ (skip_ws_cp_suffix X)).
  destruct (proj1 (sim_all _) X v' r JSON_DEPTH (S (2 * length X)) HX Ep Hfit Hdep ltac:(lia))
    as (R & Hs & -> & HR).
  assert (Hl : loads_text X = inr (py_value v')).
  { unfold loads_text. rewrite Hs. rewrite skip_ws_enc in Hr' by done.
    apply utf8_encode_nil_inv in Hr'. by rewrite bool_decide_eq_true_2. }
  replace (detect_encoding (map byte l)) with Utf8Enc.
  { cbn [decode_bytes]. by rewrite utf8_decode_pass_ok. }
  rewrite <- Henc. destruct (loads_text_head X _ Hl) as [-> | (x0 & X' & EX & Hx0 & Hx1)]; [done|].
  rewrite EX, enc_cons_ascii by lia. cbn [map]. rewrite byte_chr by lia.
  symmetry. apply detect_encoding_ascii; [done|]. intros b1 rest E.
  rewrite EX in HX. apply Forall_cons in HX as [_ HX']. by apply (enc_first_byte_nz X' b1 rest).
Qed.

(** [json.loads] of the text [json.dumps] prints. *)
Lemma loads_dumps_read v :
  json_wire_ok v = true -> ints_fit (json_norm v) = true -> json_depth (json_norm v) <= JSON_DEPTH ->
  json_loads (json_dumps v) = inr (py_value (json_norm v)).
Proof.
  intros Hw Hi Hd. apply loads_read; [|by apply read_dumps_text | done | done].
  apply utf8_ok_ascii. unfold json_dumps. rewrite String.list_ascii_of_string_of_list_ascii. by apply dumps_ascii.
Qed.

(** For UTF-8 text that the standard reading accepts, whose
    integers are within the limit of [int()] and whose containers nest
    at most 993 deep, [json.loads] returns the value of the standard
    reading, with objects made dicts and floats held by their [repr]. *)
Theorem loads_agrees_read s v :
  utf8_ok (String.list_ascii_of_string s) = true -> json_read s = Some v ->
  ints_fit v = true -> json_depth v <= JSON_DEPTH ->
  json_loads s = inr (py_value v).
Proof. apply loads_read. Qed.

(** [json.loads(json.dumps(v))] gives back [v], as a dict holds it,
    for every value [json.dumps] prints whose integers are within the
    limit of [int()] and whose containers nest at most 993 deep. *)
Theorem loads_dumps v :
  json_wire_ok v = true -> ints_fit (json_norm v) = true -> json_depth (json_norm v) <= JSON_DEPTH ->
  json_loads (json_dumps v) = inr (py_value (json_norm v)).
Proof. apply loads_dumps_read. Qed.

