(* ===== verification/Probe.v ===== *)
(** * Probe: [get_video_duration] and [generate_thumbnail] (render-manim.py, lines 103-122)

    [ffprobe] prints the duration; [int(float(stdout.strip()))] reads it
    and any exception gives 0.  [ffmpeg] writes a scaled frame at one
    second; its exceptions are not caught. *)

From S2P Require Import Prelude Utf8 Effects Wp PyNum.
Local Open Scope py_scope.

Definition ffprobe_cmd (video_path : path) : list string :=
  ["ffprobe"; "-v"; "quiet"; "-show_entries"; "format=duration";
   "-of"; "default=noprint_wrappers=1:nokey=1"; path_str video_path].

(** [subprocess.run(..., capture_output=True, text=True, timeout=10)]
    (lines 106-110). *)
Definition ffprobe_call (video_path : path) : proc_call :=
  ProcCall (ffprobe_cmd video_path) 10 None true.

(** [int(float(s.strip()))]; [None] is the [ValueError] or
    [OverflowError] it raises. *)
Definition duration_of_stdout (out : string) : option Z :=
  match py_float (py_strip out) with
  | Some f => py_int_of_float f
  | None => None
  end.

(** [except Exception] catches every exception of the model but
    [SystemExit], which derives from [BaseException] only. *)
Definition is_Exception (e : exn) : bool :=
  match e with SystemExit _ => false | _ => true end.

(** [get_video_duration(video_path)] (lines 103-113). *)
Definition get_video_duration (video_path : path) : M Z :=
  try_except
    (let* (_, out, _) := subprocess_run (ffprobe_call video_path) in
     match duration_of_stdout out with
     | Some d => ret d
     | None => raise ValueError
     end)
    (fun e => if is_Exception e then Some (ret 0%Z) else None).

Definition ffmpeg_cmd (video_path thumb_path : path) : list string :=
  ["ffmpeg"; "-y"; "-i"; path_str video_path; "-ss"; "1"; "-vframes"; "1";
   "-vf"; "scale=640:-1"; path_str thumb_path].

(** [subprocess.run(..., capture_output=True, timeout=30)] (lines 118-122). *)
Definition ffmpeg_call (video_path thumb_path : path) : proc_call :=
  ProcCall (ffmpeg_cmd video_path thumb_path) 30 None false.

(** [generate_thumbnail(video_path, thumb_path)] (lines 116-122): the
    exit status is ignored; a timeout or a missing [ffmpeg] raises. *)
Definition generate_thumbnail (video_path thumb_path : path) : M unit :=
  let* _ := subprocess_run (ffmpeg_call video_path thumb_path) in
  ret tt.

(** ** Specifications *)

Lemma quiet_get_video_duration p : quiet (get_video_duration p).
Proof.
  unfold get_video_duration. apply quiet_try_except.
  - apply quiet_bind; [auto with quiet|]. intros [[? ?] ?]. case_match; auto with quiet.
  - intros e. destruct (is_Exception e); auto with quiet.
Qed.

Lemma quiet_generate_thumbnail v th : quiet (generate_thumbnail v th).
Proof. unfold generate_thumbnail. apply quiet_bind; auto with quiet. Qed.

#[export] Hint Resolve quiet_get_video_duration quiet_generate_thumbnail : quiet.


Lemma get_video_duration_wp p o w :
  wp o (get_video_duration p) (fun r w' t =>
    let rep := o_proc o (w_trace w) (ffprobe_call p) in
    t = [EProc (ffprobe_call p) rep] /\
    w_fs w' = fs_create_all (w_fs w) (pr_creates rep) /\
    r = Ok (match pr_outcome rep with
            | PExit _ out err =>
                if utf8_ok (String.list_ascii_of_string out) && utf8_ok (String.list_ascii_of_string err)
                then default 0%Z (duration_of_stdout (universal_newlines out)) else 0%Z
            | _ => 0%Z
            end)) w.
Proof.
  unfold get_video_duration. apply wp_try_except, wp_bind, wp_subprocess_run.
  { by intros d [=]. }
  intros _. cbv zeta.
  destruct (pr_outcome (o_proc o (w_trace w) (ffprobe_call p))) as [rc out err| |];
    [rewrite proc_output_text by reflexivity; destruct (utf8_ok _ && utf8_ok _)|..];
    wp_auto; (split; [done | split; [done|]]); try done.
  all: match goal with H : duration_of_stdout _ = _ |- _ => by rewrite H end.
Qed.

(** C22: [get_video_duration] never raises: it is the integer [ffprobe]
    printed, truncated toward zero, and 0 when [ffprobe] timed out, is
    missing, printed bytes that are not UTF-8 (the [UnicodeDecodeError]
    of [text=True] is caught too), or printed something that is not a
    finite float. *)
Theorem get_video_duration_spec p o w :
  wp o (get_video_duration p) (fun r w' t =>
    let rep := o_proc o (w_trace w) (ffprobe_call p) in
    t = [EProc (ffprobe_call p) rep] /\
    w_fs w' = fs_create_all (w_fs w) (pr_creates rep) /\
    r = Ok (match pr_outcome rep with
            | PExit _ out err =>
                if utf8_ok (String.list_ascii_of_string out) && utf8_ok (String.list_ascii_of_string err)
                then default 0%Z (duration_of_stdout (universal_newlines out)) else 0%Z
            | _ => 0%Z
            end)) w.
Proof. apply get_video_duration_wp. Qed.

Lemma generate_thumbnail_wp v th o w :
  wp o (generate_thumbnail v th) (fun r w' t =>
    let rep := o_proc o (w_trace w) (ffmpeg_call v th) in
    t = [EProc (ffmpeg_call v th) rep] /\
    w_fs w' = fs_create_all (w_fs w) (pr_creates rep) /\
    r = match pr_outcome rep with
        | PExit _ _ _ => Ok tt
        | PTimeout => Raise (TimeoutExpired (ffmpeg_cmd v th))
        | PNoProgram => Raise (OSError FileNotFoundError ["ffmpeg"])
        end) w.
Proof.
  unfold generate_thumbnail. apply wp_bind, wp_subprocess_run.
  { by intros d [=]. }
  intros _. cbv zeta.
  destruct (pr_outcome (o_proc o (w_trace w) (ffmpeg_call v th))); wp_auto; done.
Qed.

(** C23: [generate_thumbnail] runs [ffmpeg] once; it returns whatever the
    exit status, and raises when [ffmpeg] times out or is missing. *)
Theorem generate_thumbnail_spec v th o w :
  wp o (generate_thumbnail v th) (fun r w' t =>
    let rep := o_proc o (w_trace w) (ffmpeg_call v th) in
    t = [EProc (ffmpeg_call v th) rep] /\
    w_fs w' = fs_create_all (w_fs w) (pr_creates rep) /\
    r = match pr_outcome rep with
        | PExit _ _ _ => Ok tt
        | PTimeout => Raise (TimeoutExpired (ffmpeg_cmd v th))
        | PNoProgram => Raise (OSError FileNotFoundError ["ffmpeg"])
        end) w.
Proof. apply generate_thumbnail_wp. Qed.


(** ** The parse of [ffprobe]'s output on concrete texts *)

