(* ===== verification/Pipeline.v ===== *)
(** * Pipeline: [main] (render-manim.py, lines 166-239)

    The credential check, the fetch of the pending rows, and for every
    row, in a fresh temporary directory: render, probe, thumbnail, upload
    of the video and of the thumbnail, and the PATCH of the terminal
    status; then the summary.  [process_video] is the body of the [for]
    loop, [run_videos] the loop with its two counters, [main] the
    function after [parse_args] (the parsed namespace is its argument;
    [Cli.main_argv] adds the parsing). *)

From S2P Require Import Prelude Utf8 Effects Wp PyJson Supabase Render PyNum Json Probe.
Local Open Scope py_scope.

(** The values [argparse] produced (lines 161-164). *)
Record args := Args {
  quality : string;
  limit : Z
}.

(** How one iteration of the loop ended: [rendered += 1] or
    [failed += 1]. *)
Inductive job_result := JobRendered | JobFailed.

Section Main.
Context (E : env) (cwd : path).

(** [RENDER_LOGS_DIR] (line 28), relative to the working directory. *)
Definition RENDER_LOGS_DIR : path := cwd // "render-logs".

(** [log_file] of a failed render (line 197). *)
Definition log_path (vid : json) : path := RENDER_LOGS_DIR // (py_str vid +:+ ".log").

Definition public_url (key : string) : string :=
  SUPABASE_URL E +:+ "/storage/v1/object/public/videos/" +:+ key.

Definition status_update (status : string) : json := JObj [("status", JStr status)].

(** The PATCH body of a rendered video (lines 227-232). *)
Definition ready_update (vid : json) (thumb : bool) (duration : Z) : json :=
  JObj [("video_url", JStr (public_url (py_str vid +:+ ".mp4")));
        ("thumbnail_url", if thumb then JStr (public_url (py_str vid +:+ "_thumb.jpg")) else JNull);
        ("duration_seconds", JInt duration);
        ("status", JStr "ready")].

(** Lines 193-200: the render failed. *)
Definition on_render_failed (vid : json) : M job_result :=
  let* _ := print "  ❌ Render failed" in
  let* _ := supabase_update_video E vid (status_update "failed") in
  let* _ := write_text (log_path vid)
              ("Render failed for " +:+ py_str vid +:+ NL) in
  ret JobFailed.

(** Lines 202-235: probe, thumbnail, uploads, PATCH. *)
Definition on_rendered (vid : json) (workdir output : path) : M job_result :=
  let* duration := get_video_duration output in
  let thumb_path := workdir // "thumb.jpg" in
  let* _ := generate_thumbnail output thumb_path in
  let video_storage_path := py_str vid +:+ ".mp4" in
  let* ok := supabase_upload E "videos" video_storage_path output "video/mp4" in
  if negb ok then
    let* _ := print "  ❌ Video upload failed" in
    let* _ := supabase_update_video E vid (status_update "failed") in
    ret JobFailed
  else
    let thumb_storage_path := py_str vid +:+ "_thumb.jpg" in
    let* thumb1 := path_exists thumb_path in
    let* _ := if thumb1
              then supabase_upload E "videos" thumb_storage_path thumb_path "image/jpeg"
              else ret false in
    let* thumb2 := path_exists thumb_path in
    let* _ := supabase_update_video E vid (ready_update vid thumb2 duration) in
    let* _ := print ("  ✅ Rendered (" +:+ pretty duration +:+ "s), uploaded") in
    ret JobRendered.

(** One iteration of the loop (lines 186-235). *)
Definition process_video (quality : string) (video : json) : M job_result :=
  let* vid := getitem video "id" in
  let* _ := print (NL +:+ "--- Rendering " +:+ py_str vid +:+ " ---") in
  with_tempdir (fun workdir =>
    let* script := getitem video "manim_script" in
    let* output := render_script script quality workdir in
    match output with
    | None => on_render_failed vid
    | Some out => on_rendered vid workdir out
    end).

(** The loop (lines 182-235), with the counters [rendered] and
    [failed]. *)
Fixpoint run_videos (quality : string) (videos : list json) (rendered failed : Z) : M (Z * Z) :=
  match videos with
  | [] => ret (rendered, failed)
  | v :: vs =>
      let* r := process_video quality v in
      match r with
      | JobRendered => run_videos quality vs (rendered + 1) failed
      | JobFailed => run_videos quality vs rendered (failed + 1)
      end
  end.

(** [len(v)] and [for x in v] on the decoded reply: a list gives its
    elements, a dict its keys, a string its characters (one per code
    point: the UTF-8 bytes of [s] are cut at the code points
    [utf8_decode] reads); anything else raises [TypeError]. *)
Definition py_iter (v : json) : M (list json) :=
  match v with
  | JArr l => ret l
  | JObj f => ret (map (fun kv => JStr kv.1) (dict_of_pairs f))
  | JStr s => ret (map (fun cp => JStr (String.string_of_list_ascii (utf8_encode_cp cp)))
                       (utf8_decode (String.list_ascii_of_string s)))
  | _ => raise TypeError
  end.

(** The query of the Job Fetcher (line 173). *)
Definition fetch_path (lim : Z) : string :=
  "videos?status=eq.generating&manim_script=not.is.null&limit=" +:+ pretty lim +:+
  "&select=id,content_element_id,manim_script".

(** [main()] (lines 160-239) once [argparse] has produced [a]. *)
Definition main (a : args) : M unit :=
  if String.eqb (SUPABASE_URL E) "" || String.eqb (SUPABASE_KEY E) "" then
    let* _ := eprint "Missing SUPABASE_URL or SUPABASE_SERVICE_KEY" in
    raise (SystemExit 1)
  else
    let* _ := mkdir_exist_ok RENDER_LOGS_DIR in
    let* videos := supabase_request E "GET" (fetch_path (limit a)) None in
    match videos with
    | Some v =>
        if json_truthy v then
          let* items := py_iter v in
          let* _ := print ("Found " +:+ pretty (Z.of_nat (length items)) +:+ " videos to render.") in
          let* (rendered, failed) := run_videos (quality a) items 0 0 in
          let* _ := print (NL +:+ "=== Summary ===") in
          let* _ := print ("Rendered: " +:+ pretty rendered) in
          print ("Failed: " +:+ pretty failed)
        else print "No videos to render."
    | None => print "No videos to render."
    end.

End Main.

(** The exit status of the process: 0 when [main] returns, the code of a
    [SystemExit], 1 for any other uncaught exception (Python prints the
    traceback and exits with status 1). *)
Definition exit_status (r : res unit) : Z :=
  match r with
  | Ok _ => 0
  | Raise (SystemExit c) => c
  | Raise _ => 1
  end.

(** ** The per-job contract *)

#[export] Instance job_result_eq_dec : EqDecision job_result.
Proof. solve_decision. Defined.

Section Contract.
Context (E : env).

(** The request that records the outcome [res] of the job of the row
    [vid]: [{"status": "failed"}], or the four fields of a rendered
    video with status [ready]. *)
Definition terminal (vid : json) (res : job_result) (c : http_call) : Prop :=
  match res with
  | JobFailed => c = patch_call E vid (status_update "failed")
  | JobRendered => exists thumb dur, c = patch_call E vid (ready_update E vid thumb dur)
  end.

(** The job of the fetched row [v] ended with [res] and wrote it with [c]. *)
Definition job_ok (v : json) (res : job_result) (c : http_call) : Prop :=
  exists vid, json_get "id" v = Some vid /\ terminal vid res c.

Definition count_res (res : job_result) (l : list job_result) : Z :=
  Z.of_nat (length (filter (fun r => r = res) l)).

(** The request of the Job Fetcher. *)
Definition fetch_call (lim : Z) : http_call := request_call E "GET" (fetch_path lim) None.

(** What a completed run promises about the fetched rows [items]: each
    row's job sent exactly one terminal PATCH, in the order of the rows,
    and the run ends with the summary of the outcomes. *)
Definition run_post (items : list json) : res unit -> World -> list event -> Prop :=
  fun r _ t => r = Ok tt ->
    exists rs, Forall3 job_ok items rs (patch_calls t) /\
      exists t0, t = t0 ++ [EPrint false (NL +:+ "=== Summary ===");
                            EPrint false ("Rendered: " +:+ pretty (count_res JobRendered rs));
                            EPrint false ("Failed: " +:+ pretty (count_res JobFailed rs))].

(** The last request of [t] is a PATCH. *)
Definition ends_with_patch (t : list event) : Prop :=
  exists pre c, http_calls t = pre ++ [c] /\ h_method c = "PATCH".

End Contract.

(** ** A concrete run

    The servers and tools of a small deployment, used to evaluate the
    model: the fetch returns [rows]; storage answers [post_status] to the
    video and [thumb_status] to the thumbnail (POST and PUT alike); the
    PATCH is answered [patch_status]; [manim] exits with [manim_rc] after
    writing [ExampleScene.mp4]; [ffprobe] prints a duration; [ffmpeg]
    writes the thumbnail, or times out. *)

Definition demo_env : env := Env "https://db.example" "service-key".
Definition demo_cwd : path := ["home"].

(** The path an absolute path string names. *)
Definition path_of_str (s : string) : path := tail (str_split "/"%char s).

Definition demo_http (rows : list json) (post_status thumb_status patch_status : Z)
    (t : list event) (c : http_call) : http_reply :=
  if String.eqb (h_method c) "GET" then HStatus 200 (json_dumps (JArr rows))
  else if String.eqb (h_method c) "PATCH" then HStatus patch_status ""
  else if str_endswith "_thumb.jpg" (h_url c) then HStatus thumb_status ""
  else HStatus post_status "".

Definition demo_proc (manim_rc : Z) (ffmpeg_timeout : bool) (t : list event) (c : proc_call) : proc_reply :=
  match p_argv c with
  | "manim" :: _ =>
      ProcReply (PExit manim_rc "" "")
        (match p_cwd c with
         | Some d => if Z.eqb manim_rc 0
                     then [(d ++ ["media"; "videos"; "scene"; "480p15"; "ExampleScene.mp4"], NFile "mp4")]
                     else []
         | None => []
         end)
  | "ffprobe" :: _ => ProcReply (PExit 0 ("12.533333" +:+ NL) "") []
  | "ffmpeg" :: argv =>
      if ffmpeg_timeout then ProcReply PTimeout []
      else ProcReply (PExit 0 "" "") [(path_of_str (default "" (last argv)), NFile "jpg")]
  | _ => ProcReply PNoProgram []
  end.

Definition demo_oracle (rows : list json) (post_status thumb_status patch_status manim_rc : Z)
    (ffmpeg_timeout : bool) : Oracle :=
  {| o_http := demo_http rows post_status thumb_status patch_status;
     o_proc := demo_proc manim_rc ffmpeg_timeout;
     o_tmpname := fun t n => pretty (length t) +:+ "x" +:+ pretty n |}.

Definition demo_row (id : string) : json :=
  JObj [("id", JStr id); ("content_element_id", JStr "ce"); ("manim_script", JStr "scene")].

Definition demo_world : World :=
  mkWorld (list_to_map [([], NDir); (["tmp"], NDir); (["home"], NDir)]) [].

Definition demo_args : args := Args "l" 20.

Definition demo_rows : list json := [demo_row "a"; demo_row "b"].

(** The deployment whose database answers the fetch with 994 nested
    arrays. *)
Definition demo_deep_oracle : Oracle :=
  let o := demo_oracle demo_rows 200 200 204 0 false in
  {| o_http := fun t c => if String.eqb (h_method c) "GET" then HStatus 200 (brackets 994) else o_http o t c;
     o_proc := o_proc o;
     o_tmpname := o_tmpname o |}.

(** The deployment where [manim] fails with an error output holding the
    byte 0xE9 (an [é] in Latin-1, as a LaTeX log may print it). *)
Definition demo_latin1_oracle : Oracle :=
  let o := demo_oracle demo_rows 200 200 204 0 false in
  {| o_http := o_http o;
     o_proc := fun t c =>
       match p_argv c with
       | "manim" :: _ => ProcReply (PExit 1 "" ("! LaTeX Error: caf" +:+ String "233"%char EmptyString)) []
       | _ => o_proc o t c
       end;
     o_tmpname := o_tmpname o |}.

Section Jobs.
Context (E : env) (cwd : path) (o : Oracle).

Ltac quiet_step :=
  apply wp_quiet_seq; [auto with quiet|]; intros [?|?] ?w ?t ?Hq; [|patch_simpl; try by left].

Lemma on_render_failed_spec vid w :
  wp o (on_render_failed E cwd vid) (fun r w' t =>
    patch_calls t = [patch_call E vid (status_update "failed")] /\
    forall res, r = Ok res -> res = JobFailed) w.
Proof.
  unfold on_render_failed. apply wp_bind, wp_emit. cbv beta match.
  apply wp_bind. eapply wp_mono; [apply supabase_update_video_patch|].
  intros [] w2 t2 (H2%patch_calls_update & _ & _); patch_simpl.
  - quiet_step; [wp_auto; patch_simpl | ]; rewrite H2; split; try done; by intros res [= <-].
  - rewrite H2. split; done.
Qed.

Lemma on_rendered_spec vid wd out w :
  wp o (on_rendered E vid wd out) (fun r w' t =>
    match r with
    | Ok res => exists c, patch_calls t = [c] /\ terminal E vid res c
    | Raise _ => patch_calls t = [] \/ exists res c, patch_calls t = [c] /\ terminal E vid res c
    end) w.
Proof.
  unfold on_rendered. quiet_step. quiet_step.
  apply wp_bind. eapply wp_mono; [apply supabase_upload_no_patch|].
  intros [ok|e] w3 t3 H3; patch_simpl; [|by left].
  destruct ok; cbv beta match zeta.
  - quiet_step. apply wp_bind. eapply wp_mono.
    { case_simple; [apply supabase_upload_no_patch | apply wp_ret; reflexivity]. }
    intros [?|?] w5 t5 H5; patch_simpl; [|by left].
    quiet_step. apply wp_bind. eapply wp_mono; [apply supabase_update_video_patch|].
    intros [] w7 t7 (H7%patch_calls_update & _ & _); patch_simpl; rewrite ?H7;
      [|right; exists JobRendered; eexists; split; [done|]; by do 2 eexists].
    wp_auto. patch_simpl. rewrite H7. eexists; split; [done|]. do 2 eexists. done.
  - apply wp_bind, wp_emit. cbv beta match.
    apply wp_bind. eapply wp_mono; [apply supabase_update_video_patch|].
    intros [] w7 t7 (H7%patch_calls_update & _ & _); patch_simpl; rewrite ?H7;
      [|right; by exists JobFailed, (patch_call E vid (status_update "failed"))].
    wp_auto. patch_simpl. rewrite H7. eexists; split; done.
Qed.

(** One job: a terminal PATCH when it returns; when it raises, no
    PATCH or the terminal PATCH of one outcome. *)
Lemma process_video_wp q v w :
  wp o (process_video E cwd q v) (fun r w' t =>
    match r with
    | Ok res => exists vid c, json_get "id" v = Some vid /\ patch_calls t = [c] /\ terminal E vid res c
    | Raise _ => patch_calls t = [] \/ exists res c, patch_calls t = [c] /\ job_ok E v res c
    end) w.
Proof.
  unfold process_video. apply wp_bind, wp_getitem; [|intros e _; by left].
  intros vid Hvid. apply wp_bind, wp_emit. cbv beta match.
  apply wp_with_tempdir. intros [d|e] w1 t1 H1; [|patch_simpl; by left].
  quiet_step. quiet_step. case_simple.
  - eapply wp_mono; [apply on_rendered_spec|]. intros [res|e] wf tf H2; patch_simpl.
    + destruct H2 as (c & Hc & Ht). exists vid, c. by rewrite Hc.
    + destruct H2 as [H2 | (res & c & H2 & Ht)]; [by left|].
      right. exists res, c. split; [done|]. by exists vid.
  - eapply wp_mono; [apply on_render_failed_spec|].
    intros [res|e] wf tf [H2 Hr]; patch_simpl; rewrite H2.
    + exists vid, (patch_call E vid (status_update "failed")). rewrite (Hr res eq_refl). done.
    + right. exists JobFailed, (patch_call E vid (status_update "failed")). split; [done|].
      by exists vid.
Qed.

Lemma count_res_same r l : count_res r (r :: l) = (count_res r l + 1)%Z.
Proof. unfold count_res. rewrite filter_cons, decide_True by done. simpl. lia. Qed.

Lemma count_res_other r r' l : r' <> r -> count_res r (r' :: l) = count_res r l.
Proof. intros Hne. unfold count_res. by rewrite filter_cons, decide_False. Qed.

(** The loop: one terminal PATCH per row, in the order of the rows, and
    counters equal to the number of [ready] and [failed] outcomes; when a
    job raises, the PATCHes sent are the terminal PATCHes of the first
    rows. *)
Lemma run_videos_wp q vs r0 f0 w :
  wp o (run_videos E cwd q vs r0 f0) (fun r w' t =>
    match r with
    | Ok (rendered, failed) =>
        exists rs, Forall3 (job_ok E) vs rs (patch_calls t) /\
          rendered = (r0 + count_res JobRendered rs)%Z /\
          failed = (f0 + count_res JobFailed rs)%Z
    | Raise _ => exists n rs, Forall3 (job_ok E) (take n vs) rs (patch_calls t)
    end) w.
Proof.
  revert r0 f0 w. induction vs as [|v vs IH]; intros r0 f0 w; simpl.
  - apply wp_ret. exists []. split; [constructor|]. unfold count_res. simpl. split; lia.
  - apply wp_bind. eapply wp_mono; [apply process_video_wp|].
    intros [res|e] w1 t1 H1.
    2:{ destruct H1 as [-> | (res & c & -> & Hj)]; [by exists 0, []; constructor|].
        exists 1, [res]. by repeat constructor. }
    destruct H1 as (vid & c & Hvid & Hc & Ht).
    destruct res; (eapply wp_mono; [apply IH|]); intros [[rd fd]|e] w2 t2 H2;
      rewrite patch_calls_app, Hc; simpl.
    + destruct H2 as (rs & Hrs & -> & ->). exists (JobRendered :: rs).
      split; [constructor; [by exists vid | done]|].
      rewrite count_res_same, count_res_other by done. split; lia.
    + destruct H2 as (n & rs & Hrs). exists (S n), (JobRendered :: rs).
      constructor; [by exists vid | done].
    + destruct H2 as (rs & Hrs & -> & ->). exists (JobFailed :: rs).
      split; [constructor; [by exists vid | done]|].
      rewrite count_res_same, count_res_other by done. split; lia.
    + destruct H2 as (n & rs & Hrs). exists (S n), (JobFailed :: rs).
      constructor; [by exists vid | done].
Qed.

Lemma count_res_total rs :
  (count_res JobRendered rs + count_res JobFailed rs)%Z = Z.of_nat (length rs).
Proof.
  induction rs as [|[] rs IH]; [reflexivity| |];
    rewrite count_res_same, count_res_other by done; simpl length; lia.
Qed.

Lemma patch_calls_last t pre c c' :
  patch_calls t = [c] -> http_calls t = pre ++ [c'] -> h_method c' = "PATCH" -> c' = c.
Proof.
  unfold patch_calls. intros Hp Hh Hm. rewrite Hh, filter_app, filter_cons, decide_True in Hp by done.
  rewrite filter_nil in Hp. apply app_eq_unit in Hp as [[_ [=]] | [_ [=]]]; done.
Qed.

Lemma ends_with_patch_app t1 t2 : ends_with_patch t2 -> ends_with_patch (t1 ++ t2).
Proof.
  intros (pre & c & H & Hc). exists (http_calls t1 ++ pre), c.
  by rewrite http_calls_app, H, app_assoc.
Qed.

Lemma ends_with_patch_quiet t1 t2 :
  ends_with_patch t1 -> http_calls t2 = [] -> ends_with_patch (t1 ++ t2).
Proof. intros (pre & c & H & Hc) H2. exists pre, c. by rewrite http_calls_app, H, H2, app_nil_r. Qed.

Lemma on_render_failed_last vid w :
  wp o (on_render_failed E cwd vid) (fun r _ t => forall res, r = Ok res -> ends_with_patch t) w.
Proof.
  unfold on_render_failed. apply wp_bind, wp_emit. cbv beta match.
  apply wp_bind. eapply wp_mono; [apply supabase_update_video_patch|].
  intros [] w2 t2 (H2 & _ & _); [|by intros ? [=]].
  apply wp_quiet_seq; [auto with quiet|]. intros [?|?] w3 t3 Hq; [|by intros ? [=]].
  wp_auto. rewrite app_nil_r. apply ends_with_patch_app, ends_with_patch_quiet; [|done].
  by exists [], (patch_call E vid (status_update "failed")).
Qed.

Lemma on_rendered_last vid wd out w :
  wp o (on_rendered E vid wd out) (fun r _ t => forall res, r = Ok res -> ends_with_patch t) w.
Proof.
  unfold on_rendered.
  apply wp_quiet_seq; [auto with quiet|]. intros [d|e] w1 t1 _; [|by intros ? [=]].
  apply wp_quiet_seq; [auto with quiet|]. intros [[]|e] w2 t2 _; [|by intros ? [=]].
  apply wp_bind. eapply wp_mono; [apply supabase_upload_no_patch|].
  intros [ok|e] w3 t3 _; [|by intros ? [=]].
  assert (Hend : forall t0 t7 vid' body, http_calls t7 = [patch_call E vid' body] ->
            ends_with_patch (t0 ++ t7 ++ [EPrint false ("  ✅ Rendered (" +:+ pretty d +:+ "s), uploaded")])).
  { intros t0 t7 vid' body H7. rewrite app_assoc. apply ends_with_patch_quiet; [|done].
    apply ends_with_patch_app. by exists [], (patch_call E vid' body). }
  destruct ok; cbn [negb]; cbv beta match zeta.
  - apply wp_quiet_seq; [auto with quiet|]. intros [th1|e] w4 t4 _; [|by intros ? [=]].
    apply wp_bind. eapply wp_mono.
    { case_simple; [apply supabase_upload_no_patch | apply wp_ret; reflexivity]. }
    intros [?|e] w5 t5 _; [|by intros ? [=]].
    apply wp_quiet_seq; [auto with quiet|]. intros [th2|e] w6 t6 _; [|by intros ? [=]].
    apply wp_bind. eapply wp_mono; [apply supabase_update_video_patch|].
    intros [?|e] w7 t7 (H7 & _ & _); [|by intros ? [=]].
    wp_auto. rewrite !app_nil_r, !app_assoc, <- (app_assoc _ t7). by eapply Hend.
  - apply wp_bind, wp_emit. cbv beta match.
    apply wp_bind. eapply wp_mono; [apply supabase_update_video_patch|].
    intros [] w4 t4 (H4 & _ & _); [|by intros ? [=]].
    wp_auto. rewrite !app_nil_r, !app_assoc. apply ends_with_patch_app.
    by exists [], (patch_call E vid (status_update "failed")).
Qed.

Lemma process_video_last q v w :
  wp o (process_video E cwd q v) (fun r _ t => forall res, r = Ok res -> ends_with_patch t) w.
Proof.
  unfold process_video. apply wp_bind, wp_getitem; [|by intros e _ ? [=]].
  intros vid _. apply wp_bind, wp_emit. cbv beta match.
  apply wp_with_tempdir. intros [d|e] w1 t1 _; [|by intros ? [=]].
  apply wp_quiet_seq; [auto with quiet|]. intros [?|e] w2 t2 _; [|by intros ? [=]].
  apply wp_quiet_seq; [auto with quiet|]. intros [?|e] w3 t3 _; [|by intros ? [=]].
  case_simple; (eapply wp_mono; [apply on_rendered_last || apply on_render_failed_last|]);
    intros r4 w4 t4 H4 res Hr; repeat apply ends_with_patch_app; by apply (H4 res).
Qed.

(** C2: every job that ends without an exception sends exactly one
    PATCH, to its own row, as its last request, with the terminal status of its outcome
    ([ready] with the URLs and duration, or [failed]); a job that ends
    with an exception has sent no PATCH or that one terminal PATCH of its
    own row. *)
Theorem process_video_one_patch q v w :
  wp o (process_video E cwd q v) (fun r w' t =>
    match r with
    | Ok res => exists vid c pre, json_get "id" v = Some vid /\ patch_calls t = [c] /\
                  http_calls t = pre ++ [c] /\ terminal E vid res c
    | Raise _ => patch_calls t = [] \/ exists res c, patch_calls t = [c] /\ job_ok E v res c
    end) w.
Proof.
  eapply wp_mono; [apply wp_and; [apply process_video_wp | apply process_video_last]|].
  intros [res|e] w' t [H Hl]; [|done].
  destruct H as (vid & c & Hvid & Hc & Ht), (Hl res eq_refl) as (pre & c' & Hh & Hm).
  assert (c' = c) as -> by (eapply patch_calls_last; eauto). by exists vid, c, pre.
Qed.

(** C3: the loop over the fetched rows sends one terminal PATCH per row,
    in the order of the rows; its counters grow by the number of [ready]
    and of [failed] outcomes, together by the number of rows.  When a
    job raises, the PATCHes sent so far are the terminal PATCHes of the
    first rows, in order. *)
Theorem run_videos_spec q vs r0 f0 w :
  wp o (run_videos E cwd q vs r0 f0) (fun r w' t =>
    match r with
    | Ok (rendered, failed) =>
        exists rs, Forall3 (job_ok E) vs rs (patch_calls t) /\
          rendered = (r0 + count_res JobRendered rs)%Z /\
          failed = (f0 + count_res JobFailed rs)%Z /\
          (rendered + failed = r0 + f0 + Z.of_nat (length vs))%Z
    | Raise _ => exists n rs, Forall3 (job_ok E) (take n vs) rs (patch_calls t)
    end) w.
Proof.
  eapply wp_mono; [apply run_videos_wp|]. intros [[rd fd]|e] w' t H; [|done].
  destruct H as (rs & Hrs & -> & ->). exists rs. repeat split; [done..|].
  rewrite (Forall3_length_lm _ _ _ _ Hrs), <- count_res_total. lia.
Qed.

(** C5: the render-failed branch (lines 193-200), as a function of the
    reply to its PATCH and of the file system: it prints the failure,
    sends the PATCH of status [failed] and no other request (nothing is
    uploaded); a failed connection raises [URLError] and a non-2xx reply
    whose body is not UTF-8 raises the [UnicodeDecodeError] of the
    handler, both before the log is written; otherwise it writes
    [render-logs/<id>.log] with the failure note and ends [failed], or,
    when the log's directory is missing or the log is a directory,
    raises the [OSError] of [write_text] with no file changed. *)
Theorem render_failure_marks_failed vid w :
  let c := patch_call E vid (status_update "failed") in
  let lp := log_path cwd vid in
  wp o (on_render_failed E cwd vid) (fun r w' t =>
    http_calls t = [c] /\
    match o_http o (w_trace w ++ [EPrint false "  ❌ Render failed"]) c with
    | HUnreachable => r = Raise (URLError (h_url c)) /\ w_fs w' = w_fs w
    | HStatus code raw =>
        if is_2xx code || utf8_ok (String.list_ascii_of_string raw) then
          match resolve (w_fs w) lp with
          | Raise e => r = Raise e /\ w_fs w' = w_fs w
          | Ok q =>
              match w_fs w !! q with
              | Some NDir => r = Raise (OSError IsADirectoryError lp) /\ w_fs w' = w_fs w
              | _ =>
                  if fs_is_dir (w_fs w) (removelast q)
                  then r = Ok JobFailed /\
                       w_fs w' = <[q := NFile ("Render failed for " +:+ py_str vid +:+ NL)]> (w_fs w)
                  else r = Raise (walk_error (w_fs w) (removelast q) lp) /\ w_fs w' = w_fs w
              end
          end
        else r = Raise UnicodeDecodeError /\ w_fs w' = w_fs w
    end) w.
Proof.
  cbv zeta. unfold on_render_failed. apply wp_bind, wp_emit. cbv beta match.
  apply wp_bind. eapply wp_mono; [apply supabase_update_video_wp|].
  intros r2 w2 t2 (H2 & Hfs & Hr); cbn [w_trace w_fs] in Hr, Hfs.
  destruct (o_http o _ _) as [code raw|]; subst r2; [destruct (is_2xx code || _)|];
    cbv beta match; unfold write_text; wp_auto;
    rewrite ?http_calls_app, ?H2; (split; [done|]); fold (log_path cwd vid) in *;
    rewrite ?Hfs in *; try done.
  all: repeat match goal with
       | H1 : resolve ?f ?p = _, H2 : resolve ?f ?p = _ |- _ =>
           rewrite H1 in H2; first [injection H2 as <- | discriminate H2]
       end.
  all: first [done | congruence].
Qed.

(** C6: a job is reported rendered only after the storage answered 200
    or 201 to the upload of its video at [videos/<id>.mp4]: when the
    upload fails the job ends [failed], whatever happens to the
    thumbnail. *)
Theorem ready_only_after_video_upload vid wd out w :
  wp o (on_rendered E vid wd out) (fun r _ t =>
    r = Ok JobRendered -> exists c code raw,
      EHttp c (HStatus code raw) ∈ t /\
      h_url c = storage_url E "videos" (py_str vid +:+ ".mp4") /\
      status_in code [200; 201]%Z = true) w.
Proof.
  unfold on_rendered.
  apply wp_quiet_seq; [auto with quiet|]. intros [d|e] w1 t1 _; [|by intros [=]].
  apply wp_quiet_seq; [auto with quiet|]. intros [[]|e] w2 t2 _; [|by intros [=]].
  apply wp_bind. eapply wp_mono; [apply supabase_upload_ok|].
  intros [[]|e] w3 t3 H3; cbv beta match zeta; [| | by intros [=]].
  - destruct (H3 eq_refl) as (c & code & raw & Hin & Hurl & Hs). clear H3.
    cbn [negb].
    apply wp_quiet_seq; [auto with quiet|]. intros [th1|e] w4 t4 _; [|by intros [=]].
    apply wp_bind. eapply wp_mono.
    { case_simple; [apply supabase_upload_no_patch | apply wp_ret; reflexivity]. }
    intros [?|e] w5 t5 _; [|by intros [=]].
    apply wp_quiet_seq; [auto with quiet|]. intros [th2|e] w6 t6 _; [|by intros [=]].
    apply wp_bind. eapply wp_mono; [apply supabase_update_video_patch|].
    intros [?|e] w7 t7 _; [|by intros [=]].
    wp_auto. exists c, code, raw. split; [|done]. set_solver.
  - apply wp_bind, wp_emit. cbv beta match.
    apply wp_bind. eapply wp_mono; [apply supabase_update_video_patch|].
    intros [] w4 t4 _; wp_auto; by intros [=].
Qed.

(** C7: the outcome of a rendered job is decided by the
    upload of its video alone: a job that ends [failed] got no 200 or
    201 from the storage for [videos/<id>.mp4]; so once the video is
    accepted, neither the thumbnail nor the reply to the final PATCH
    (whose status [supabase_update_video] returns and the handler drops,
    line 227) can turn the job into a failure. *)
Theorem failed_only_after_refused_upload vid wd out w :
  wp o (on_rendered E vid wd out) (fun r _ t =>
    r = Ok JobFailed -> forall c code raw, EHttp c (HStatus code raw) ∈ t ->
      h_url c = storage_url E "videos" (py_str vid +:+ ".mp4") ->
      status_in code [200; 201]%Z = false) w.
Proof.
  unfold on_rendered.
  apply wp_quiet_seq; [auto with quiet|]. intros [d|e] w1 t1 Hq1; [|by intros [=]].
  apply wp_quiet_seq; [auto with quiet|]. intros [[]|e] w2 t2 Hq2; [|by intros [=]].
  apply wp_bind. eapply wp_mono; [apply supabase_upload_not_ok|].
  intros [[]|e] w3 t3 H3; cbv beta match zeta; [| | by intros [=]].
  - cbn [negb].
    apply wp_quiet_seq; [auto with quiet|]. intros [th1|e] w4 t4 _; [|by intros [=]].
    apply wp_bind. eapply wp_mono.
    { case_simple; [apply supabase_upload_no_patch | apply wp_ret; reflexivity]. }
    intros [?|e] w5 t5 _; [|by intros [=]].
    apply wp_quiet_seq; [auto with quiet|]. intros [th2|e] w6 t6 _; [|by intros [=]].
    apply wp_bind. eapply wp_mono; [apply supabase_update_video_patch|].
    intros [?|e] w7 t7 _; [|by intros [=]].
    wp_auto; by intros [=].
  - apply wp_bind, wp_emit. cbv beta match.
    apply wp_bind. eapply wp_mono; [apply supabase_update_video_patch|].
    intros r4 w4 t4 (H4 & _ & _). destruct r4; wp_auto.
    rename H0 into Hin. rewrite ?app_nil_r, !elem_of_app in Hin.
    destruct Hin as [Hin|[Hin|[Hin|[Hin|Hin]]]].
    + apply http_calls_elem in Hin. rewrite Hq1 in Hin. set_solver.
    + apply http_calls_elem in Hin. rewrite Hq2 in Hin. set_solver.
    + by apply (H3 eq_refl c code raw).
    + by apply list_elem_of_singleton in Hin.
    + apply http_calls_elem in Hin. rewrite H4, list_elem_of_singleton in Hin. subst c.
      by destruct (patch_url_not_storage E vid (status_update "failed") "videos" (py_str vid +:+ ".mp4")).
Qed.

(** When every run of [manim] ends with an error output that is not
    UTF-8, [render_script] never returns and sends no request. *)
Lemma render_script_undecodable s q d w :
  (forall t c, head (p_argv c) = Some "manim" -> exists rc out err,
     pr_outcome (o_proc o t c) = PExit rc out err /\ utf8_ok (String.list_ascii_of_string err) = false) ->
  wp o (render_script s q d) (fun r _ t => (forall p, r <> Ok p) /\ http_calls t = []) w.
Proof.
  intros H. unfold render_script, write_text_value.
  apply wp_quiet_seq; [destruct s; auto with quiet|].
  intros [[]|e] w1 t1 Hq1; [|split; [by intros ? [=] | done]].
  apply wp_bind, wp_try_except, wp_bind, wp_subprocess_run.
  - intros d0 _ _. cbv beta match. split; [by intros ? [=] | by rewrite ?http_calls_app, Hq1].
  - intros _. cbv zeta.
    destruct (H (w_trace w1) (manim_call q d) eq_refl) as (rc & out & err & -> & Herr).
    rewrite proc_output_text, Herr, andb_false_r by reflexivity. cbv beta match.
    split; [by intros ? [=] | by rewrite ?http_calls_app, Hq1].
Qed.

(** The same for the whole job: it raises, and sends no request. *)
Lemma process_video_undecodable q v w :
  (forall t c, head (p_argv c) = Some "manim" -> exists rc out err,
     pr_outcome (o_proc o t c) = PExit rc out err /\ utf8_ok (String.list_ascii_of_string err) = false) ->
  wp o (process_video E cwd q v) (fun r _ t => (forall p, r <> Ok p) /\ http_calls t = []) w.
Proof.
  intros H. unfold process_video.
  apply wp_quiet_seq; [auto with quiet|]. intros [vid|e] w1 t1 Hq1; [|split; [by intros ? [=] | done]].
  apply wp_quiet_seq; [auto with quiet|]. intros [[]|e] w2 t2 Hq2; [|split; [by intros ? [=] | by rewrite http_calls_app, Hq1]].
  apply wp_with_tempdir. intros [d|e] w3 t3 Hq3; [|split; [by intros ? [=] | by rewrite !http_calls_app, Hq1, Hq2]].
  apply wp_quiet_seq; [auto with quiet|]. intros [script|e] w4 t4 Hq4;
    [|split; [by intros ? [=] | by rewrite !http_calls_app, Hq1, Hq2, Hq3, Hq4]].
  apply wp_bind. eapply wp_mono; [by apply render_script_undecodable|].
  intros [r5|e] w5 t5 [Hr5 Hq5]; [by destruct (Hr5 r5)|].
  split; [by intros ? [=] | by rewrite !http_calls_app, Hq1, Hq2, Hq3, Hq4, Hq5].
Qed.

(** C24: [manim]'s output is captured with [text=True] (line 134)
    and [render_script] catches only [TimeoutExpired] (line 137): when
    [manim] fails with an error output that is not UTF-8, the first job
    of the loop raises [UnicodeDecodeError] out of [subprocess.run],
    and the loop ends there, before any request: no row is uploaded or
    PATCHed (the spec: a render failure marks the job failed and the
    loop continues). *)
Theorem undecodable_render_output_aborts_batch q v vs r0 f0 w :
  (forall t c, head (p_argv c) = Some "manim" -> exists rc out err,
     pr_outcome (o_proc o t c) = PExit rc out err /\ utf8_ok (String.list_ascii_of_string err) = false) ->
  wp o (run_videos E cwd q (v :: vs) r0 f0) (fun r _ t => (forall p, r <> Ok p) /\ http_calls t = []) w.
Proof.
  intros H. cbn [run_videos]. apply wp_bind. eapply wp_mono; [by apply process_video_undecodable|].
  intros [res|e] w1 t1 [Hr Hq]; [by destruct (Hr res)|]. done.
Qed.

(** C25: [generate_thumbnail] is called without a [try] (line 207):
    when [ffmpeg] times out, the job raises [TimeoutExpired] right after
    the probe, before any upload and before its PATCH, so its row keeps
    its status, and since nothing in [main] catches it the batch ends
    (the spec: a thumbnail failure is non-fatal). *)
Theorem thumbnail_timeout_aborts_job vid wd out w :
  (forall t, pr_outcome (o_proc o t (ffmpeg_call out (wd // "thumb.jpg"))) = PTimeout) ->
  wp o (on_rendered E vid wd out) (fun r _ t =>
    r = Raise (TimeoutExpired (ffmpeg_cmd out (wd // "thumb.jpg"))) /\ http_calls t = []) w.
Proof.
  intros Hto. unfold on_rendered. apply wp_bind. eapply wp_mono; [apply get_video_duration_wp|].
  intros r1 w1 t1 (-> & _ & ->). cbv beta match.
  apply wp_bind. eapply wp_mono; [apply generate_thumbnail_wp|].
  intros r2 w2 t2 (-> & _ & ->). rewrite Hto. done.
Qed.

(** C26: the ready PATCH (lines 227-232) sets [thumbnail_url] from
    whether [thumb.jpg] exists in the job directory (line 229), not from
    the answer to its upload (line 221): a job that ends rendered sent
    exactly one PATCH, the ready body whose thumbnail flag is the
    existence of the local file at the end of the job, whatever the
    storage answered to the thumbnail. *)
Theorem ready_patch_thumbnail_local vid wd out w :
  wp o (on_rendered E vid wd out) (fun r w' t =>
    r = Ok JobRendered ->
    exists d, patch_calls t =
      [patch_call E vid (ready_update E vid (if w_fs w' !! (wd // "thumb.jpg") is Some _ then true else false) d)]) w.
Proof.
  unfold on_rendered.
  apply wp_quiet_seq; [auto with quiet|]. intros [d|e] w1 t1 Hq1; [|by intros [=]].
  apply wp_quiet_seq; [auto with quiet|]. intros [[]|e] w2 t2 Hq2; [|by intros [=]].
  apply wp_bind. eapply wp_mono; [apply supabase_upload_fs|].
  intros [[]|e] w3 t3 (Hfs3 & Hp3); cbv beta match zeta; [| | by intros [=]].
  - cbn [negb]. apply wp_bind, wp_path_exists. cbv beta match.
    apply wp_bind. eapply wp_mono.
    { instantiate (1 := fun _ w5 t5 => w_fs w5 = w_fs w3 /\ patch_calls t5 = []).
      case_simple; [apply supabase_upload_fs | by apply wp_ret]. }
    intros [?|e] w5 t5 (Hfs5 & Hp5); [|by intros [=]].
    apply wp_bind, wp_path_exists. cbv beta match.
    apply wp_bind. eapply wp_mono; [apply supabase_update_video_wp|].
    intros [?|e] w7 t7 (H7%patch_calls_update & Hfs7 & _); [|by intros [=]].
    apply wp_bind, wp_emit. cbv beta match. apply wp_ret. intros _. exists d.
    rewrite Hfs5 in Hfs7. cbn [w_fs]. rewrite Hfs7.
    rewrite Hfs5 in H7.
    rewrite !patch_calls_app, (patch_calls_quiet t1 Hq1), (patch_calls_quiet t2 Hq2), Hp3, Hp5, H7. reflexivity.
  - apply wp_bind, wp_emit. cbv beta match.
    apply wp_bind. eapply wp_mono; [apply supabase_update_video_patch|].
    intros [] w4 t4 _; wp_auto; by intros [=].
Qed.

End Jobs.

Section MainProps.
Context (E : env) (cwd : path) (o : Oracle).

(** C1: when the credentials are set and the fetch returns a non-empty list
    of rows, a run of [main] that completes has sent, for every fetched
    row in order, exactly one PATCH to that row's id carrying the terminal
    status of its job ([ready] with URLs and duration, or [failed]), and
    ends by printing the summary whose counters are the numbers of [ready]
    and [failed] outcomes. *)
Theorem main_one_patch_per_job a w code raw items :
  SUPABASE_URL E <> "" -> SUPABASE_KEY E <> "" ->
  o_http o (w_trace w) (fetch_call E (limit a)) = HStatus code raw ->
  status_in code [200; 201]%Z = true -> json_loads raw = inr (JArr items) -> items <> [] ->
  wp o (main E cwd a) (run_post E items) w.
Proof.
  intros Hu Hk Hget Hst Hj Hne. unfold main, run_post.
  rewrite (proj2 (String.eqb_neq _ _) Hu), (proj2 (String.eqb_neq _ _) Hk). simpl.
  apply wp_bind. eapply wp_mono; [apply wp_trace, mkdir_exist_ok_silent|].
  intros [[]|e] w1 t1 [-> Htr]; [|done]. rewrite app_nil_r in Htr.
  apply wp_bind. eapply wp_mono; [apply supabase_request_spec|].
  intros r2 w2 t2 (H2 & _ & Hr). rewrite Htr in Hr. unfold fetch_call in Hget.
  rewrite Hget, Hst, Hj in Hr. subst r2. cbv beta match.
  simpl json_truthy. rewrite bool_decide_false by done. cbv beta match.
  unfold py_iter. apply wp_bind, wp_ret. cbv beta match.
  apply wp_bind, wp_emit. cbv beta match.
  apply wp_bind. eapply wp_mono; [apply run_videos_wp|].
  intros [[rd fd]|e] w3 t3 H3; [|done].
  destruct H3 as (rs & Hrs & -> & ->). wp_auto.
  assert (patch_calls t2 = []) by (unfold patch_calls; rewrite H2; reflexivity).
  exists rs. rewrite !Z.add_0_l. split.
  - patch_simpl. by rewrite app_nil_r.
  - exists (t2 ++ [EPrint false ("Found " +:+ pretty (Z.of_nat (length items)) +:+ " videos to render.")] ++ t3).
    rewrite !app_nil_l, <- !app_assoc. reflexivity.
Qed.

(** C9: when [SUPABASE_URL] or [SUPABASE_SERVICE_KEY] is empty or unset,
    [main] prints the error to stderr, touches no file, sends no request
    and exits with status 1. *)
Theorem main_missing_credentials a w :
  SUPABASE_URL E = "" \/ SUPABASE_KEY E = "" ->
  main E cwd a o w =
    (Raise (SystemExit 1),
     mkWorld (w_fs w) (w_trace w ++ [EPrint true "Missing SUPABASE_URL or SUPABASE_SERVICE_KEY"])).
Proof. intros [H|H]; unfold main; rewrite H; [done | by rewrite orb_true_r]. Qed.

(** C10: when the credentials are set, the working directory exists and the
    fetch answers with an empty (falsy) list, [main] returns normally
    after the single GET of the Job Fetcher: no job runs, nothing is
    uploaded or PATCHed. *)
Theorem main_empty_fetch a w :
  SUPABASE_URL E <> "" -> SUPABASE_KEY E <> "" ->
  fs_is_dir (w_fs w) cwd = true -> fs_is_file (w_fs w) (RENDER_LOGS_DIR cwd) = false ->
  match o_http o (w_trace w) (fetch_call E (limit a)) with
  | HStatus code raw =>
      if status_in code [200; 201]%Z then exists j, json_loads raw = inr j /\ json_truthy j = false
      else is_2xx code || utf8_ok (String.list_ascii_of_string raw) = true
  | HUnreachable => False
  end ->
  wp o (main E cwd a) (fun r w' t => r = Ok tt /\ http_calls t = [fetch_call E (limit a)]) w.
Proof.
  intros Hu Hk Hcwd Hlog Hget. unfold main.
  rewrite (proj2 (String.eqb_neq _ _) Hu), (proj2 (String.eqb_neq _ _) Hk). simpl.
  assert (Hl : RENDER_LOGS_DIR cwd = cwd ++ ["render-logs"]) by reflexivity.
  apply wp_bind, wp_mkdir_exist_ok; [by rewrite Hl, removelast_snoc | done |]. intros fs'.
  cbv beta match. apply wp_bind. eapply wp_mono; [apply supabase_request_spec|].
  intros r2 w2 t2 (H2 & _ & Hr). cbn [w_trace] in Hr. unfold fetch_call in Hget.
  destruct (o_http o (w_trace w) _) as [code raw|]; [|done].
  destruct (status_in code _) eqn:Hs.
  - destruct Hget as (j & Hdec & Hj). rewrite Hdec in Hr. subst r2.
    cbv beta match. rewrite Hj.
    wp_auto. split; [done|]. by rewrite !http_calls_app, H2.
  - rewrite Hget in Hr. subst r2. wp_auto. split; [done|]. by rewrite !http_calls_app, H2.
Qed.

(** C27: [main] decodes the fetched rows with [json.loads] (line 51)
    and catches nothing around the fetch (line 174): a 200 or 201 reply
    that nests more than [JSON_DEPTH] = 993 arrays makes the run end
    with the [RecursionError] of the decoder, exit status 1, after the
    single GET: no job runs (the spec: an empty result is not an error;
    it says nothing of a reply the script cannot decode). *)
Theorem main_deep_reply_aborts a w m code :
  SUPABASE_URL E <> "" -> SUPABASE_KEY E <> "" ->
  fs_is_dir (w_fs w) cwd = true -> fs_is_file (w_fs w) (RENDER_LOGS_DIR cwd) = false ->
  JSON_DEPTH < S m ->
  o_http o (w_trace w) (fetch_call E (limit a)) = HStatus code (brackets (S m)) ->
  status_in code [200; 201]%Z = true ->
  wp o (main E cwd a) (fun r w' t =>
    r = Raise RecursionError /\ exit_status r = 1%Z /\ http_calls t = [fetch_call E (limit a)]) w.
Proof.
  intros Hu Hk Hcwd Hlog Hd Hget Hs. unfold main.
  rewrite (proj2 (String.eqb_neq _ _) Hu), (proj2 (String.eqb_neq _ _) Hk). simpl.
  assert (Hl : RENDER_LOGS_DIR cwd = cwd ++ ["render-logs"]) by reflexivity.
  apply wp_bind, wp_mkdir_exist_ok; [by rewrite Hl, removelast_snoc | done |]. intros fs'.
  cbv beta match. apply wp_bind. eapply wp_mono; [apply supabase_request_spec|].
  intros r2 w2 t2 (H2 & _ & Hr). cbn [w_trace] in Hr. unfold fetch_call in Hget.
  rewrite Hget, Hs, loads_nesting_bound, (proj2 (Nat.leb_gt _ _) Hd) in Hr. subst r2.
  split_and!; [done | done |]. by rewrite !http_calls_app, H2.
Qed.

End MainProps.

(** ** Runs on the concrete deployment *)

Lemma main_one_patch_per_job_witness :
  let o := demo_oracle demo_rows 200 200 204 0 false in
  (SUPABASE_URL demo_env <> "" /\ SUPABASE_KEY demo_env <> "" /\
   o_http o (w_trace demo_world) (fetch_call demo_env (limit demo_args)) =
     HStatus 200 (json_dumps (JArr demo_rows)) /\
   status_in 200 [200; 201]%Z = true /\ json_loads (json_dumps (JArr demo_rows)) = inr (JArr demo_rows) /\
   demo_rows <> []) /\
  wp o (main demo_env demo_cwd demo_args) (run_post demo_env demo_rows) demo_world.
Proof.
  split; [repeat split; (discriminate || reflexivity || (vm_compute; reflexivity))|].
  apply (main_one_patch_per_job demo_env demo_cwd _ demo_args demo_world 200
           (json_dumps (JArr demo_rows)) demo_rows);
    (discriminate || reflexivity || (vm_compute; reflexivity)).
Defined.

Lemma main_empty_fetch_witness :
  let o := demo_oracle [] 200 200 204 0 false in
  (SUPABASE_URL demo_env <> "" /\ SUPABASE_KEY demo_env <> "" /\
   fs_is_dir (w_fs demo_world) demo_cwd = true /\
   fs_is_file (w_fs demo_world) (RENDER_LOGS_DIR demo_cwd) = false) /\
  wp o (main demo_env demo_cwd demo_args)
    (fun r w' t => r = Ok tt /\ http_calls t = [fetch_call demo_env (limit demo_args)]) demo_world.
Proof.
  split; [repeat split; (discriminate || reflexivity)|].
  apply main_empty_fetch; try (discriminate || reflexivity).
  vm_compute. exists (JArr []). split; reflexivity.
Defined.

Lemma main_missing_credentials_witness :
  let E := Env "" "service-key" in
  let o := demo_oracle demo_rows 200 200 204 0 false in
  (SUPABASE_URL E = "" \/ SUPABASE_KEY E = "") /\
  main E demo_cwd demo_args o demo_world =
    (Raise (SystemExit 1),
     mkWorld (w_fs demo_world)
       (w_trace demo_world ++ [EPrint true "Missing SUPABASE_URL or SUPABASE_SERVICE_KEY"])).
Proof.
  split; [by left|]. apply main_missing_credentials. by left.
Defined.

(** On the deployment whose [ffmpeg] times out, the job of row [a]
    raises before any request. *)
Lemma thumbnail_timeout_aborts_job_witness :
  let o := demo_oracle demo_rows 200 200 204 0 true in
  (forall t, pr_outcome (o_proc o t (ffmpeg_call ["tmp"; "j"; "v.mp4"] (["tmp"; "j"] // "thumb.jpg"))) = PTimeout) /\
  wp o (on_rendered demo_env (JStr "a") ["tmp"; "j"] ["tmp"; "j"; "v.mp4"]) (fun r _ t =>
    r = Raise (TimeoutExpired (ffmpeg_cmd ["tmp"; "j"; "v.mp4"] (["tmp"; "j"] // "thumb.jpg"))) /\
    http_calls t = []) demo_world.
Proof.
  cbv zeta.
  assert (H : forall t, pr_outcome (o_proc (demo_oracle demo_rows 200 200 204 0 true) t
                (ffmpeg_call ["tmp"; "j"; "v.mp4"] (["tmp"; "j"] // "thumb.jpg"))) = PTimeout)
    by (intros t; reflexivity).
  split; [exact H | exact (thumbnail_timeout_aborts_job _ _ _ _ _ _ H)].
Defined.

(** On the deployment whose [manim] prints a Latin-1 byte, the loop
    over the two rows raises and sends nothing. *)
Lemma undecodable_render_output_aborts_batch_witness :
  (forall t c, head (p_argv c) = Some "manim" -> exists rc out err,
     pr_outcome (o_proc demo_latin1_oracle t c) = PExit rc out err /\
     utf8_ok (String.list_ascii_of_string err) = false) /\
  wp demo_latin1_oracle (run_videos demo_env demo_cwd "l" demo_rows 0 0)
     (fun r _ t => (forall p, r <> Ok p) /\ http_calls t = []) demo_world.
Proof.
  assert (H : forall t c, head (p_argv c) = Some "manim" -> exists rc out err,
     pr_outcome (o_proc demo_latin1_oracle t c) = PExit rc out err /\
     utf8_ok (String.list_ascii_of_string err) = false).
  { intros t c Hc. cbn [o_proc demo_latin1_oracle].
    destruct (p_argv c) as [|a l]; [discriminate|]. injection Hc as ->.
    eexists _, _, _. split; [reflexivity | vm_compute; reflexivity]. }
  split; [exact H | exact (undecodable_render_output_aborts_batch _ _ _ _ _ _ _ _ _ H)].
Defined.

(** The fetch answered with 994 nested arrays ends the run. *)
Lemma main_deep_reply_aborts_witness :
  (SUPABASE_URL demo_env <> "" /\ SUPABASE_KEY demo_env <> "" /\
   fs_is_dir (w_fs demo_world) demo_cwd = true /\
   fs_is_file (w_fs demo_world) (RENDER_LOGS_DIR demo_cwd) = false /\
   JSON_DEPTH < S 993 /\
   o_http demo_deep_oracle (w_trace demo_world) (fetch_call demo_env (limit demo_args)) = HStatus 200 (brackets (S 993)) /\
   status_in 200 [200; 201]%Z = true) /\
  wp demo_deep_oracle (main demo_env demo_cwd demo_args) (fun r w' t =>
    r = Raise RecursionError /\ exit_status r = 1%Z /\ http_calls t = [fetch_call demo_env (limit demo_args)]) demo_world.
Proof.
  assert (Hu : SUPABASE_URL demo_env <> "") by discriminate.
  assert (Hk : SUPABASE_KEY demo_env <> "") by discriminate.
  assert (Hc : fs_is_dir (w_fs demo_world) demo_cwd = true) by reflexivity.
  assert (Hl : fs_is_file (w_fs demo_world) (RENDER_LOGS_DIR demo_cwd) = false) by reflexivity.
  assert (Hd : JSON_DEPTH < S 993) by (unfold JSON_DEPTH; lia).
  assert (Hg : o_http demo_deep_oracle (w_trace demo_world) (fetch_call demo_env (limit demo_args)) =
               HStatus 200 (brackets (S 993))) by reflexivity.
  assert (Hs : status_in 200 [200; 201]%Z = true) by reflexivity.
  split; [split_and!; assumption|].
  exact (main_deep_reply_aborts _ _ _ _ _ _ _ Hu Hk Hc Hl Hd Hg Hs).
Defined.

