(* ===== verification/Cli.v ===== *)
(** * Cli: the command line of [main] (render-manim.py, lines 160-164, 242-243)

    [main] starts with
    [parser.add_argument("--quality", choices=["l", "m", "h"], default="l")],
    [parser.add_argument("--limit", type=int, default=20)] and
    [parser.parse_args()].  This file models what [argparse] (CPython
    3.11) does with these two options and the automatic [-h/--help]:
    the classification of every argument as an option or a value
    ([_parse_optional], with unique-prefix abbreviations and the
    negative-number rule), the consumption of options and their values
    in order ([consume_optional]), the conversion and the check of the
    values ([_get_values]: [int()] for [--limit], the choices of
    [--quality]), the unrecognized arguments, and the three ways out:
    the namespace, the help text with exit status 0, the usage and an
    error message on stderr with exit status 2. *)

From S2P Require Import Prelude Effects Wp Supabase Render PyNum Pipeline.
Local Open Scope py_scope.

(** The three actions of the parser. *)
Inductive opt := OptHelp | OptQuality | OptLimit.

#[export] Instance opt_eq_dec : EqDecision opt.
Proof. solve_decision. Defined.

(** [parser._option_string_actions], in insertion order. *)
Definition option_string_actions : list (string * opt) :=
  [("-h", OptHelp); ("--help", OptHelp); ("--quality", OptQuality); ("--limit", OptLimit)].

Definition lookup_option (s : string) : option opt :=
  snd <$> List.find (fun p => String.eqb p.1 s) option_string_actions.

(** [_get_action_name]: the option strings joined by [/]. *)
Definition action_name (a : opt) : string :=
  match a with
  | OptHelp => "-h/--help"
  | OptQuality => "--quality"
  | OptLimit => "--limit"
  end.

(** What makes [parse_args] stop with status 2. *)
Inductive arg_error :=
| AmbiguousOption (arg : string) (matches : list string)
| ExpectedOneArgument (a : opt)
| IgnoredExplicitArgument (a : opt) (explicit : string)
| InvalidChoice (value : string)
| InvalidInt (value : string)
| UnrecognizedArguments (extras : list string).

(** How [_parse_known_args] sees one argument: a value ['A'], the
    separator [--] ['-'], or an option ['O']: its action (none for an
    unknown option), the option string and the text after [=]. *)
Inductive arg_kind :=
| KArg
| KDashDash
| KOpt (a : option opt) (option_string : string) (explicit : option string).

(** [s.split('=', 1)] when [s] holds a [=]: the text before the first
    [=] and the text after it. *)
Fixpoint split_eq (s : string) : option (string * string) :=
  match s with
  | EmptyString => None
  | String c r =>
      if Ascii.eqb c "="%char then Some (EmptyString, r)
      else (fun '(a, b) => (String c a, b)) <$> split_eq r
  end.

(** [_negative_number_matcher]: [^-\d+$|^-\d*\.\d+$], where [$] also
    matches before a final newline. *)
Definition is_negative_number (s : string) : bool :=
  match String.list_ascii_of_string s with
  | "-"%char :: r =>
      let r := match List.last r "a"%char with
               | "010"%char => removelast r
               | _ => r
               end in
      let '(ds, rest) := take_digits r in
      match rest with
      | [] => bool_decide (ds <> [])
      | "."%char :: fr => bool_decide (fr <> []) && forallb is_digit fr
      | _ => false
      end
  | _ => false
  end.

(** [_get_option_tuples]: the options an abbreviation may stand for. *)
Definition get_option_tuples (s : string) : list (opt * string * option string) :=
  match s with
  | String "-"%char (String "-"%char _) =>
      let '(prefix, explicit) :=
        match split_eq s with Some (a, b) => (a, Some b) | None => (s, None) end in
      omap (fun '(os, a) => if String.prefix prefix os then Some (a, os, explicit) else None)
        option_string_actions
  | _ =>
      let short := String.substring 0 2 s in
      let short_explicit := String.substring 2 (String.length s - 2) s in
      omap (fun '(os, a) =>
              if String.eqb os short then Some (a, os, Some short_explicit)
              else if String.prefix s os then Some (a, os, None) else None)
        option_string_actions
  end.

(** The option string before a [=], when it is one of the parser's. *)
Definition explicit_exact (s : string) : option (opt * string * string) :=
  match split_eq s with
  | Some (os, e) => (fun a => (a, os, e)) <$> lookup_option os
  | None => None
  end.

(** [_parse_optional]: [None] for a value; an ambiguous abbreviation is
    an error at once. *)
Definition parse_optional (s : string) :
    arg_error + option (option opt * string * option string) :=
  match s with
  | EmptyString => inr None
  | String c _ =>
      if negb (Ascii.eqb c "-"%char) then inr None
      else match lookup_option s with
      | Some a => inr (Some (Some a, s, None))
      | None =>
          if Nat.eqb (String.length s) 1 then inr None
          else match explicit_exact s with
          | Some (a, os, e) => inr (Some (Some a, os, Some e))
          | None =>
              match get_option_tuples s with
              | [(a, os, e)] => inr (Some (Some a, os, e))
              | t1 :: t2 :: ts => inl (AmbiguousOption s (map (fun t => t.1.2) (t1 :: t2 :: ts)))
              | [] =>
                  if is_negative_number s then inr None
                  else if str_has " "%char s then inr None
                  else inr (Some (None, s, None))
              end
          end
      end
  end.

(** The pattern of [_parse_known_args]: after a [--] every argument is a
    value. *)
Fixpoint classify (argv : list string) : arg_error + list (string * arg_kind) :=
  match argv with
  | [] => inr []
  | s :: rest =>
      if String.eqb s "--" then inr ((s, KDashDash) :: map (fun a => (a, KArg)) rest)
      else
        match parse_optional s, classify rest with
        | inl e, _ => inl e
        | inr _, inl e => inl e
        | inr o, inr ks =>
            inr ((s, match o with
                     | Some (a, os, e) => KOpt a os e
                     | None => KArg
                     end) :: ks)
        end
  end.

(** The choices of [--quality]. *)
Definition QUALITY_CHOICES : list string := ["l"; "m"; "h"].

(** [take_action] for [--quality] or [--limit] with the argument [v]:
    [_get_value] converts it, [_check_value] checks the choices, the
    [store] action sets the attribute. *)
Definition take_value (o : opt) (v : string) (a : args) : arg_error + args :=
  match o with
  | OptQuality =>
      if existsb (String.eqb v) QUALITY_CHOICES then inr (Args v (limit a))
      else inl (InvalidChoice v)
  | OptLimit =>
      match py_int_of_str v with
      | Some n => inr (Args (quality a) n)
      | None => inl (InvalidInt v)
      end
  | OptHelp => inr a
  end.

(** The loop of [consume_optional] on [-h] with an explicit argument:
    [-hh...h] is [-h] repeated; any other character is an error that
    names what is left. *)
Fixpoint help_cluster (explicit : string) : arg_error + unit :=
  match explicit with
  | String c rest =>
      if Ascii.eqb c "h"%char then
        match rest with
        | EmptyString => inr tt
        | _ => help_cluster rest
        end
      else inl (IgnoredExplicitArgument OptHelp explicit)
  | EmptyString => inl (IgnoredExplicitArgument OptHelp explicit)
  end.

(** How parsing ends without an error: the help, or a namespace. *)
Inductive parse_outcome := PHelp | PArgs (a : args).

(** The main loop of [_parse_known_args]: options and their values in
    order; values and unknown options that no option takes are the
    extras.  The help action prints and exits at once. *)
Fixpoint consume (items : list (string * arg_kind)) (a : args) (extras : list string) :
    arg_error + (parse_outcome * list string) :=
  match items with
  | [] => inr (PArgs a, extras)
  | (s, KArg) :: rest | (s, KDashDash) :: rest | (s, KOpt None _ _) :: rest =>
      consume rest a (extras ++ [s])
  | (_, KOpt (Some OptHelp) os (Some e)) :: _ =>
      if String.prefix "--" os then inl (IgnoredExplicitArgument OptHelp e)
      else match help_cluster e with
           | inl err => inl err
           | inr _ => inr (PHelp, extras)
           end
  | (_, KOpt (Some OptHelp) _ None) :: _ => inr (PHelp, extras)
  | (_, KOpt (Some o) _ (Some e)) :: rest =>
      match take_value o e a with
      | inl err => inl err
      | inr a' => consume rest a' extras
      end
  | (_, KOpt (Some o) _ None) :: rest =>
      match rest with
      | (v, KArg) :: rest' =>
          match take_value o v a with
          | inl err => inl err
          | inr a' => consume rest' a' extras
          end
      | _ => inl (ExpectedOneArgument o)
      end
  end.

(** The defaults: [quality="l"], [limit=20]. *)
Definition default_args : args := Args "l" 20.

(** [parser.parse_args(argv)]. *)
Definition parse_args (argv : list string) : arg_error + parse_outcome :=
  match classify argv with
  | inl e => inl e
  | inr items =>
      match consume items default_args [] with
      | inl e => inl e
      | inr (PHelp, _) => inr PHelp
      | inr (PArgs a, []) => inr (PArgs a)
      | inr (PArgs _, extras) => inl (UnrecognizedArguments extras)
      end
  end.

(** The messages of [ArgumentError] ([argument <name>: <message>]) and of
    [parser.error]. *)
Definition error_message (e : arg_error) : string :=
  match e with
  | AmbiguousOption s ms => "ambiguous option: " +:+ s +:+ " could match " +:+ str_join ", " ms
  | ExpectedOneArgument a => "argument " +:+ action_name a +:+ ": expected one argument"
  | IgnoredExplicitArgument a x =>
      "argument " +:+ action_name a +:+ ": ignored explicit argument " +:+ py_repr_str x
  | InvalidChoice v =>
      "argument --quality: invalid choice: " +:+ py_repr_str v +:+ " (choose from 'l', 'm', 'h')"
  | InvalidInt v => "argument --limit: invalid int value: " +:+ py_repr_str v
  | UnrecognizedArguments xs => "unrecognized arguments: " +:+ str_join " " xs
  end.

(** [prog]: [os.path.basename(sys.argv[0])]. *)
Definition prog_name (argv0 : string) : string :=
  List.last (str_split "/"%char argv0) "".

(** [parser.format_usage()], without its final newline. *)
Definition usage (prog : string) : string :=
  "usage: " +:+ prog +:+ " [-h] [--quality {l,m,h}] [--limit LIMIT]".

(** [parser.format_help()], without its final newline. *)
Definition help_text (prog : string) : string :=
  usage prog +:+ NL +:+ NL +:+ "Render Manim videos" +:+ NL +:+ NL +:+ "options:" +:+ NL +:+
  "  -h, --help         show this help message and exit" +:+ NL +:+
  "  --quality {l,m,h}" +:+ NL +:+
  "  --limit LIMIT".

(** [main()] (lines 160-239) on the command line [argv0 :: argv]:
    [parse_args] first; [parser.error] prints the usage and the message
    to stderr and exits with status 2; the help is printed to stdout and
    exits with status 0; otherwise the rest of [main] runs with the
    namespace. *)
Definition main_argv (E : env) (cwd : path) (argv0 : string) (argv : list string) : M unit :=
  let prog := prog_name argv0 in
  match parse_args argv with
  | inl err =>
      let* _ := eprint (usage prog) in
      let* _ := eprint (prog +:+ ": error: " +:+ error_message err) in
      raise (SystemExit 2)
  | inr PHelp =>
      let* _ := print (help_text prog) in
      raise (SystemExit 0)
  | inr (PArgs a) => main E cwd a
  end.

(** [python scripts/render-manim.py <args>] (lines 242-243): the module
    reads the environment, then [main()] runs. *)
Definition script (environ : gmap string string) (cwd : path) (argv0 : string)
    (argv : list string) : M unit :=
  main_argv (load_env environ) cwd argv0 argv.

(** The command line of the usage line of the module docstring
    ([python scripts/render-manim.py --quality l --limit 20], line 10)
    for the namespace [a]. *)
Definition cli_args (a : args) : list string :=
  ["--quality"; quality a; "--limit"; pretty (limit a)].

(** ** The store semantics of the two options

    The reference the parser is measured against: a command line is a
    sequence of [--quality q] and [--limit n] settings, and the namespace
    is the defaults updated by each setting in turn (the [store] action:
    the last setting of an option wins). *)
Inductive cli_opt := SetQuality (q : string) | SetLimit (n : Z).

(** The arguments of one setting, as a caller writes them. *)
Definition render_opt (o : cli_opt) : list string :=
  match o with
  | SetQuality q => ["--quality"; q]
  | SetLimit n => ["--limit"; pretty n]
  end.

(** What one setting does to the namespace. *)
Definition apply_opt (a : args) (o : cli_opt) : args :=
  match o with
  | SetQuality q => Args q (limit a)
  | SetLimit n => Args (quality a) n
  end.

(** A setting the reference accepts: a quality among the choices, a
    limit whose text [int()] reads (at most 4300 digits). *)
Definition opt_valid (o : cli_opt) : Prop :=
  match o with SetQuality q => q ∈ QUALITY_CHOICES | SetLimit n => int_str_ok n = true end.

(** How [classify] sees the arguments of one setting. *)
Definition opt_items (o : cli_opt) : list (string * arg_kind) :=
  match o with
  | SetQuality q => [("--quality", KOpt (Some OptQuality) "--quality" None); (q, KArg)]
  | SetLimit n => [("--limit", KOpt (Some OptLimit) "--limit" None); (pretty n, KArg)]
  end.

(** ** The values the parser leaves alone *)

Lemma split_eq_digits s :
  Forall (fun c => is_digit c = true) (String.list_ascii_of_string s) -> split_eq s = None.
Proof.
  induction s as [|c s IH]; simpl; [done|]. intros [Hc Hs]%Forall_cons.
  by rewrite digit_eqb, IH.
Qed.

(** A minus sign and digits, as [str()] prints a negative number, is a
    value: the negative-number rule of [_parse_optional]. *)
Lemma parse_optional_negative d rest :
  is_digit d = true -> Forall (fun c => is_digit c = true) (String.list_ascii_of_string rest) ->
  parse_optional (String "-" (String d rest)) = inr None.
Proof.
  intros Hd Hr.
  assert (Hs : split_eq (String d rest) = None) by (apply split_eq_digits; by constructor).
  assert (Hn : is_negative_number (String "-" (String d rest)) = true).
  { unfold is_negative_number. cbn [String.list_ascii_of_string].
    assert (Hl : is_digit (List.last (d :: String.list_ascii_of_string rest) "a"%char) = true)
      by (apply Forall_last; [by constructor | done]).
    apply is_digit_cases in Hl. rewrite !elem_of_cons, elem_of_nil in Hl.
    repeat (destruct Hl as [E|Hl]; [rewrite E; cbn -[take_digits];
      rewrite take_digits_all by (by constructor); by apply bool_decide_eq_true|]).
    done. }
  assert (He : explicit_exact (String "-" (String d rest)) = None).
  { unfold explicit_exact.
    change (split_eq (String "-" (String d rest)))
      with ((fun '(a, b) => (String "-" a, b)) <$> split_eq (String d rest)).
    by rewrite Hs. }
  apply is_digit_cases in Hd. rewrite !elem_of_cons, elem_of_nil in Hd.
  repeat destruct Hd as [->|Hd]; try done.
  all: cbn -[is_negative_number explicit_exact]; rewrite He, Hn; reflexivity.
Qed.

(** [str(n)] is a value for [_parse_known_args], whatever its sign. *)
Lemma pretty_value (n : Z) :
  String.eqb (pretty n) "--" = false /\ parse_optional (pretty n) = inr None.
Proof.
  destruct (pretty_Z_digits n) as (L & HL & Hd & Hne & _).
  rewrite <- (String.string_of_list_ascii_of_string (pretty n)), HL.
  destruct L as [|d L']; [done|]. apply Forall_cons in Hd as [Hd0 Hd'].
  assert (Hm : Ascii.eqb d "-"%char = false) by (by apply digit_eqb).
  destruct (n <? 0)%Z; cbn [app String.string_of_list_ascii].
  - split; [cbn; by rewrite Hm|].
    apply parse_optional_negative; [done|]. by rewrite String.list_ascii_of_string_of_list_ascii.
  - split; [cbn; by rewrite Hm|]. cbn. by rewrite Hm.
Qed.

Lemma classify_value s rest :
  String.eqb s "--" = false -> parse_optional s = inr None ->
  classify (s :: rest) = match classify rest with
                         | inl e => inl e
                         | inr ks => inr ((s, KArg) :: ks)
                         end.
Proof. intros H1 H2. cbn [classify]. rewrite H1, H2. by destruct (classify rest). Qed.

(** The documented command line round-trips through [argparse]:
    [--quality q --limit n] gives back [quality=q] and [limit=n] for every
    quality among the choices and every integer [n] of at most 4300
    digits, negative ones included ([str(n)] for [n < 0] is taken as a
    value by the negative-number rule, and [int()] reads back what
    [str()] printed, up to CPython's limit on digits). *)
Theorem parse_args_roundtrip a :
  quality a ∈ QUALITY_CHOICES -> int_str_ok (limit a) = true -> parse_args (cli_args a) = inr (PArgs a).
Proof.
  destruct a as [q n]. cbn [quality limit]. intros Hq Hn.
  pose proof (py_int_of_str_pretty n Hn) as Hi. destruct (pretty_value n) as [H1 H2].
  unfold parse_args, cli_args; cbn [quality limit].
  remember (pretty n) as p eqn:Hp.
  unfold QUALITY_CHOICES in Hq. rewrite !elem_of_cons, elem_of_nil in Hq.
  repeat destruct Hq as [->|Hq]; try done.
  all: cbn [classify]; rewrite H1, H2; cbn; rewrite Hi; reflexivity.
Qed.

(** C16: an option may be spelled by any prefix of its long name that
    keeps it apart from the others ([allow_abbrev]): with [--q], [--qual]
    or [--quality] the whole command line parses the same, and so for
    [--limit] and [--help]. *)
Theorem parse_args_abbrev os p rest :
  os ∈ ["--help"; "--quality"; "--limit"] -> String.prefix p os = true ->
  3 <= String.length p -> parse_args (p :: rest) = parse_args (os :: rest).
Proof.
  intros Hos Hpre Hlen. apply String.prefix_correct in Hpre.
  assert (Hle : String.length p <= String.length os)
    by (rewrite <- Hpre, substring_length; lia).
  assert (Hp : p = String.substring 0 (String.length p) os) by done.
  rewrite !elem_of_cons, elem_of_nil in Hos.
  destruct Hos as [->|[->|[->|[]]]]; cbn in Hle;
    (assert (Hk : String.length p = 3 \/ String.length p = 4 \/ String.length p = 5 \/
                  String.length p = 6 \/ String.length p = 7 \/ String.length p = 8 \/
                  String.length p = 9) by lia);
    repeat destruct Hk as [Hk|Hk]; try lia; rewrite Hk in Hp; subst p;
    unfold parse_args; cbn [classify]; destruct (classify rest); reflexivity.
Qed.

(** ** The namespace has the types the parser declares *)

Lemma take_value_quality o v a a' :
  take_value o v a = inr a' -> quality a ∈ QUALITY_CHOICES -> quality a' ∈ QUALITY_CHOICES.
Proof.
  unfold take_value. intros H Hq. destruct o; [by simplify_eq | |by case_match; simplify_eq].
  destruct (existsb (String.eqb v) QUALITY_CHOICES) eqn:He; [|done]. simplify_eq. cbn [quality].
  apply existsb_exists in He as (x & Hx & Hv%String.eqb_eq). subst x. by apply list_elem_of_In.
Qed.

(** Every namespace [consume] ends with has a quality among the choices
    when it starts with one. *)
Lemma consume_quality items : forall a ex a' ex',
  quality a ∈ QUALITY_CHOICES -> consume items a ex = inr (PArgs a', ex') ->
  quality a' ∈ QUALITY_CHOICES.
Proof.
  induction items as [items IH] using (well_founded_induction (well_founded_ltof _ (@length _))).
  intros a ex a' ex' Hq H. destruct items as [|[s k] rest]; cbn in H; [by simplify_eq|].
  assert (IH1 : forall a ex, quality a ∈ QUALITY_CHOICES -> consume rest a ex = inr (PArgs a', ex') ->
                  quality a' ∈ QUALITY_CHOICES)
    by (intros; eapply (IH rest); [unfold ltof; simpl; lia | done..]).
  destruct k as [| |[o|] os [e|]]; eauto; destruct o; repeat case_match; simplify_eq;
    eauto using take_value_quality.
  all: eapply (IH l); [unfold ltof; simpl; lia | by eapply take_value_quality | done].
Qed.

(** ** Settings, one at a time *)

Lemma classify_opt o rest :
  opt_valid o ->
  classify (render_opt o ++ rest) = match classify rest with
                                    | inl e => inl e
                                    | inr ks => inr (opt_items o ++ ks)
                                    end.
Proof.
  destruct o as [q|n]; cbn [opt_valid render_opt app]; intros Hv.
  - unfold QUALITY_CHOICES in Hv. rewrite !elem_of_cons, elem_of_nil in Hv.
    repeat destruct Hv as [->|Hv]; try done; cbn; by destruct (classify rest).
  - destruct (pretty_value n) as [H1 H2]. cbn [classify]. rewrite H1, H2. cbn.
    by destruct (classify rest).
Qed.

Lemma classify_opts os :
  Forall opt_valid os -> classify (flat_map render_opt os) = inr (flat_map opt_items os).
Proof.
  induction 1 as [|o os Ho _ IH]; [done|]. cbn [flat_map]. by rewrite classify_opt, IH.
Qed.

Lemma take_value_opt o a :
  opt_valid o ->
  take_value (match o with SetQuality _ => OptQuality | SetLimit _ => OptLimit end)
    (match o with SetQuality q => q | SetLimit n => pretty n end) a = inr (apply_opt a o).
Proof.
  destruct o as [q|n]; cbn [opt_valid]; intros Hv; cbn [take_value].
  - unfold QUALITY_CHOICES in Hv. rewrite !elem_of_cons, elem_of_nil in Hv.
    by repeat destruct Hv as [->|Hv].
  - by rewrite (py_int_of_str_pretty n Hv).
Qed.

Lemma consume_opts os a ex :
  Forall opt_valid os ->
  consume (flat_map opt_items os) a ex = inr (PArgs (foldl apply_opt a os), ex).
Proof.
  intros H. revert a. induction H as [|o os Ho _ IH]; intros a; [done|].
  pose proof (take_value_opt o a Ho) as Ht.
  destruct o; cbn [flat_map opt_items app consume]; cbn [foldl]; rewrite Ht; apply IH.
Qed.

(** C15: [parse_args] runs before the credential check: with
    [SUPABASE_URL] unset, the exit status is 2 for a command line
    [argparse] rejects, 0 for [--help], and 1 (the missing credentials)
    only for a command line it accepts. *)
Theorem main_argv_exit_order E cwd argv0 argv o w :
  SUPABASE_URL E = "" ->
  exit_status (fst (main_argv E cwd argv0 argv o w)) =
    match parse_args argv with
    | inl _ => 2%Z
    | inr PHelp => 0%Z
    | inr (PArgs _) => 1%Z
    end.
Proof. intros Hu. unfold main_argv. destruct (parse_args argv) as [e|[|a]]; [done | done |]. by unfold main; rewrite Hu. Qed.

(** C14: every namespace [parse_args] returns has its quality among the
    choices [l], [m], [h], so the quality [main] hands to [render_script]
    is a key of [QUALITY_FLAGS] and the fallback [-ql] of
    [QUALITY_FLAGS.get] (line 130) is never taken from the command
    line. *)
Theorem parse_args_quality argv a :
  parse_args argv = inr (PArgs a) ->
  quality a ∈ QUALITY_CHOICES /\ quality a ∈ map fst QUALITY_FLAGS.
Proof.
  unfold parse_args. intros H. repeat case_match; simplify_eq.
  assert (Hq : quality a ∈ QUALITY_CHOICES) by (eapply consume_quality; [|eassumption]; by left).
  split; [done|]. unfold QUALITY_CHOICES in Hq. rewrite !elem_of_cons, elem_of_nil in Hq.
  repeat destruct Hq as [->|Hq]; [by left | by right; left | by right; right; left | done].
Qed.

(** C13: [parse_args] implements the store semantics: a command line
    made of [--quality q] (with [q] among the choices) and [--limit n]
    settings, in any number and order, parses to the defaults updated by
    each setting in turn, so the last setting of an option wins. *)
Theorem parse_args_store_last os :
  Forall opt_valid os ->
  parse_args (flat_map render_opt os) = inr (PArgs (foldl apply_opt default_args os)).
Proof. intros H. unfold parse_args. by rewrite classify_opts, consume_opts. Qed.

Lemma parse_args_abbrev_witness :
  ("--quality" ∈ ["--help"; "--quality"; "--limit"] /\ String.prefix "--qu" "--quality" = true /\
   3 <= String.length "--qu") /\
  parse_args ["--qu"; "h"] = parse_args ["--quality"; "h"].
Proof.
  split; [split; [set_solver | split; [reflexivity | cbn; lia]]|].
  apply parse_args_abbrev; [set_solver | reflexivity | cbn; lia].
Defined.

Lemma main_argv_exit_order_witness :
  let E := Env "" "service-key" in
  let o := demo_oracle demo_rows 200 200 204 0 false in
  SUPABASE_URL E = "" /\
  exit_status (fst (main_argv E demo_cwd "scripts/render-manim.py" ["--quality"; "x"] o demo_world)) =
    match parse_args ["--quality"; "x"] with
    | inl _ => 2%Z
    | inr PHelp => 0%Z
    | inr (PArgs _) => 1%Z
    end.
Proof. split; [reflexivity | apply main_argv_exit_order; reflexivity]. Defined.

Lemma parse_args_quality_witness :
  parse_args ["--qual"; "h"] = inr (PArgs (Args "h" 20)) /\
  (quality (Args "h" 20) ∈ QUALITY_CHOICES /\ quality (Args "h" 20) ∈ map fst QUALITY_FLAGS).
Proof. split; [reflexivity|]. apply (parse_args_quality ["--qual"; "h"]). reflexivity. Defined.

Lemma parse_args_store_last_witness :
  Forall opt_valid [SetLimit 5; SetQuality "h"; SetLimit (-3)] /\
  parse_args (flat_map render_opt [SetLimit 5; SetQuality "h"; SetLimit (-3)]) =
    inr (PArgs (foldl apply_opt default_args [SetLimit 5; SetQuality "h"; SetLimit (-3)])).
Proof.
  assert (H : Forall opt_valid [SetLimit 5; SetQuality "h"; SetLimit (-3)])
    by (repeat constructor; cbn; first [vm_compute; reflexivity | by right; right; left]).
  split; [exact H | apply (parse_args_store_last _ H)].
Defined.
