(* ===== verification/Jobs.v ===== *)
(** * Jobs: the job state machine of the spec and its refinement

    The spec (sections 3 and 4.5) describes every row of [videos] as a
    small state machine: [generating -> ready] or [generating -> failed],
    with no other transition and nothing after a terminal status.  This
    file states that machine over the whole table ([db_step]), gives the
    PATCH requests of the script their meaning on the table
    ([db_apply_patch], the PostgREST semantics of
    [PATCH /rest/v1/videos?id=eq.<id>], the body read from its bytes with
    [Json.json_read]), and proves that the PATCHes the database accepts,
    whether the loop completes or raises, are a run of the machine on the
    fetched rows and no other, and that a completed loop whose PATCHes
    were all accepted leaves every fetched row in the terminal status of
    its outcome. *)

From S2P Require Import Prelude Utf8 Effects Wp Supabase PyNum Json Pipeline.
Local Open Scope py_scope.

(** The [status] column (spec, section 3). *)
Inductive job_status := Generating | Ready | Failed.

#[export] Instance job_status_eq_dec : EqDecision job_status.
Proof. solve_decision. Defined.

(** The transitions of one row (spec, section 4.5). *)
Inductive job_step : job_status -> job_status -> Prop :=
| step_ready : job_step Generating Ready
| step_failed : job_step Generating Failed.

(** The [status] column of the table, by the text of the row id. *)
Abbreviation table := (gmap string job_status).

(** One row of the table takes one transition. *)
Inductive db_step : table -> table -> Prop :=
| db_step_intro (db : table) id s s' :
    db !! id = Some s -> job_step s s' -> db_step db (<[id := s']> db).

Definition status_of_text (s : string) : option job_status :=
  if String.eqb s "generating" then Some Generating
  else if String.eqb s "ready" then Some Ready
  else if String.eqb s "failed" then Some Failed
  else None.

(** [s] without the prefix [pre], when [s] starts with it. *)
Definition strip_prefix (pre s : string) : option string :=
  if String.prefix pre s
  then Some (String.substring (String.length pre) (String.length s - String.length pre) s)
  else None.

Section Server.
Context (E : env).

(** The row a PATCH URL of the script filters on: the text after
    [id=eq.]. *)
Definition row_of_url (url : string) : option string :=
  strip_prefix (SUPABASE_URL E +:+ "/rest/v1/videos?id=eq.") url.

(** The status a PATCH sets, if any: the server reads the bytes of the
    body as JSON ([Json.json_read]); a body it cannot read changes
    nothing. *)
Definition body_status (c : http_call) : option job_status :=
  match wire_body c ≫= json_read with
  | Some body =>
      match json_get "status" body with
      | Some (JStr s) => status_of_text s
      | _ => None
      end
  | None => None
  end.

(** What a PATCH does to the [status] column: the filtered row, if it
    exists, takes the status of the body; a filter that matches no row
    changes nothing. *)
Definition db_apply_patch (db : table) (c : http_call) : table :=
  match row_of_url (h_url c), body_status c with
  | Some id, Some st => if decide (is_Some (db !! id)) then <[id := st]> db else db
  | _, _ => db
  end.

Definition db_after (db : table) (cs : list http_call) : table :=
  foldl db_apply_patch db cs.

End Server.

(** The status a job's outcome writes. *)
Definition status_of_result (res : job_result) : job_status :=
  match res with JobRendered => Ready | JobFailed => Failed end.

(** The key of a fetched row: the text of its id, as the f-string of
    the PATCH URL prints it (line 85). *)
Definition row_key (v : json) : option string := py_str <$> json_get "id" v.

(** The PATCH requests of a trace the database accepted (a 2xx reply):
    only those change the table; a refused one changes nothing. *)
Definition accepted_patches (t : list event) : list http_call :=
  omap (fun e => match e with
                 | EHttp c (HStatus code _) =>
                     if String.eqb (h_method c) "PATCH" && is_2xx code then Some c else None
                 | _ => None
                 end) t.

(** The table after the trace [t]. *)
Definition db_of_trace (E : env) (db : table) (t : list event) : table :=
  db_after E db (accepted_patches t).

(** The rows of the loop: each has an id whose text is a row of the
    table, still [generating] (the fetch filters on
    [status=eq.generating]). *)
Definition fetched_generating (db : table) (vs : list json) : Prop :=
  Forall (fun v => exists k, row_key v = Some k /\ utf8_ok (String.list_ascii_of_string k) = true /\
                             db !! k = Some Generating) vs.

(** What the loop over [vs], started with the counters [r0] and [f0],
    promises the table [db]: the accepted PATCHes of the trace are a
    run of the machine, and a row not fetched is unchanged.  When every
    PATCH was accepted: if the loop completes, there are outcomes [rs],
    one per row, such that every fetched row holds the status of its
    outcome and the loop's counters [rendered] and [failed] count those
    same outcomes; if it raises, the rows of a prefix hold the status of
    their outcomes and every later row is unchanged. *)
Definition refines_post (E : env) (db : table) (vs : list json) (r0 f0 : Z) :
    res (Z * Z) -> World -> list event -> Prop :=
  fun r _ t =>
    rtc db_step db (db_of_trace E db t) /\
    (forall k, k ∉ omap row_key vs -> db_of_trace E db t !! k = db !! k) /\
    (accepted_patches t = patch_calls t ->
     match r with
     | Ok (rendered, failed) =>
         exists rs, Forall2 (fun v res => exists k, row_key v = Some k /\
                      db_of_trace E db t !! k = Some (status_of_result res)) vs rs /\
                    rendered = (r0 + count_res JobRendered rs)%Z /\
                    failed = (f0 + count_res JobFailed rs)%Z
     | Raise _ =>
         exists n rs, Forall2 (fun v res => exists k, row_key v = Some k /\
                        db_of_trace E db t !! k = Some (status_of_result res)) (take n vs) rs /\
                      forall k, k ∈ omap row_key (drop n vs) -> db_of_trace E db t !! k = db !! k
     end).

(** The table of the concrete run of [Pipeline]: its two rows
    [generating]. *)
Definition demo_table : table := <["a" := Generating]> (<["b" := Generating]> ∅).

(** ** The meaning of the script's PATCH requests *)

Lemma prefix_app_l (a b : string) : String.prefix a (a +:+ b) = true.
Proof.
  induction a as [|c a IH]; str_simpl; [by destruct b|]. cbn.
  destruct (ascii_dec c c); [apply IH | done].
Qed.

Lemma strip_prefix_app pre x : strip_prefix pre (pre +:+ x) = Some x.
Proof.
  unfold strip_prefix. rewrite prefix_app_l, string_length_app, Nat.add_sub'.
  by rewrite string_substring_app_r.
Qed.

Lemma row_of_url_patch E vid body :
  row_of_url E (h_url (patch_call E vid body)) = Some (py_str vid).
Proof.
  unfold row_of_url, patch_call, video_row_path. cbn [h_url].
  assert (Hu : SUPABASE_URL E +:+ "/rest/v1/" +:+ ("videos?id=eq." +:+ py_str vid) =
               (SUPABASE_URL E +:+ "/rest/v1/videos?id=eq.") +:+ py_str vid)
    by (rewrite string_app_assoc; reflexivity).
  rewrite Hu. apply strip_prefix_app.
Qed.

Lemma utf8_ok_str_app a b :
  utf8_ok (String.list_ascii_of_string a) = true -> utf8_ok (String.list_ascii_of_string b) = true ->
  utf8_ok (String.list_ascii_of_string (a +:+ b)) = true.
Proof. rewrite list_ascii_app. apply utf8_ok_app. Qed.

(** The server reads the status the script wrote: the body of a terminal
    PATCH, as bytes, reads as an object whose [status] is that of the
    outcome (the URLs in a [ready] body are text made of the project URL
    and the row id). *)
Lemma terminal_body_status E vid res c :
  utf8_ok (String.list_ascii_of_string (SUPABASE_URL E)) = true ->
  utf8_ok (String.list_ascii_of_string (py_str vid)) = true ->
  terminal E vid res c -> body_status c = Some (status_of_result res).
Proof.
  intros Hu Hv Ht. destruct res; cbn in Ht; [destruct Ht as (thumb & dur & ->) | subst c];
    unfold body_status, wire_body, patch_call; cbn [h_data mbind option_bind]; [|reflexivity].
  assert (Hurl : forall key, utf8_ok (String.list_ascii_of_string key) = true ->
            utf8_ok (String.list_ascii_of_string (public_url E key)) = true).
  { intros key Hk. unfold public_url. by repeat apply utf8_ok_str_app. }
  rewrite read_dumps_text; [reflexivity|].
  unfold ready_update. cbn [json_wire_ok forallb fst snd].
  rewrite !andb_true_iff. split_and!; try reflexivity.
  - apply Hurl, utf8_ok_str_app; [done | reflexivity].
  - destruct thumb; [|reflexivity]. apply Hurl, utf8_ok_str_app; [done | reflexivity].
Qed.

(** The PATCH of a job's outcome sets the row of the job to the status
    of the outcome. *)
Lemma terminal_apply E vid res c (db : table) :
  utf8_ok (String.list_ascii_of_string (SUPABASE_URL E)) = true ->
  utf8_ok (String.list_ascii_of_string (py_str vid)) = true ->
  terminal E vid res c -> is_Some (db !! py_str vid) ->
  db_apply_patch E db c = <[py_str vid := status_of_result res]> db.
Proof.
  intros Hu Hv Ht Hs. unfold db_apply_patch. rewrite (terminal_body_status E vid res c Hu Hv Ht).
  destruct res; cbn in Ht; [destruct Ht as (thumb & dur & ->) | subst c];
    rewrite row_of_url_patch; cbn; by rewrite decide_True.
Qed.

(** ** The table along the loop *)

Lemma omap_sublist {A B} (f : A -> option B) (l1 l2 : list A) :
  l1 `sublist_of` l2 -> omap f l1 `sublist_of` omap f l2.
Proof.
  induction 1 as [|x l1 l2 _ IH|x l1 l2 _ IH]; simpl.
  - apply sublist_nil_l.
  - destruct (f x); [by apply sublist_skip|done].
  - destruct (f x); [by apply sublist_cons|done].
Qed.

Lemma omap_cons_Some {A B} (f : A -> option B) x y l :
  f x = Some y -> omap f (x :: l) = y :: omap f l.
Proof. intros H. cbn. by rewrite H. Qed.

(** Picking some of the third components of a [Forall3] picks the rows
    and outcomes they belong to. *)
Lemma Forall3_sublist_r {A B C} (P : A -> B -> C -> Prop) xs ys zs zs' :
  Forall3 P xs ys zs -> zs' `sublist_of` zs ->
  exists xs' ys', xs' `sublist_of` xs /\ Forall3 P xs' ys' zs'.
Proof.
  intros H. revert zs'. induction H as [|x y z xs ys zs Hp _ IH]; intros zs' Hs.
  - apply sublist_nil_r in Hs. subst. exists [], []. split; constructor.
  - apply sublist_cons_r in Hs as [Hs | (zs'' & -> & Hs)];
      destruct (IH _ Hs) as (xs' & ys' & Hx & Hf).
    + exists xs', ys'. split; [by constructor|done].
    + exists (x :: xs'), (y :: ys'). split; by constructor.
Qed.

Lemma accepted_patches_sublist t : accepted_patches t `sublist_of` patch_calls t.
Proof.
  unfold patch_calls. induction t as [|[c [code raw|]|c r|b s] t IH]; simpl;
    [constructor| | | |]; try done.
  - rewrite filter_cons. destruct (String.eqb_spec (h_method c) "PATCH"); simpl.
    + rewrite decide_True by done. destruct (is_2xx code); by constructor.
    + by rewrite decide_False.
  - rewrite filter_cons. case_decide; [by apply sublist_cons | done].
Qed.

Lemma job_ok_apply E v res c (db : table) :
  utf8_ok (String.list_ascii_of_string (SUPABASE_URL E)) = true ->
  job_ok E v res c -> exists k, row_key v = Some k /\
    (utf8_ok (String.list_ascii_of_string k) = true -> is_Some (db !! k) ->
     db_apply_patch E db c = <[k := status_of_result res]> db).
Proof.
  intros Hu (vid & Hid & Ht). exists (py_str vid). unfold row_key. rewrite Hid.
  split; [done|]. intros Hv. by apply terminal_apply.
Qed.

(** The core of the refinement: the terminal PATCHes of rows with
    distinct ids, all [generating], are a run of the machine that sets
    each row to the status of its outcome and leaves every other row as
    it was. *)
Lemma db_after_jobs E vs rs cs (db : table) :
  utf8_ok (String.list_ascii_of_string (SUPABASE_URL E)) = true ->
  Forall3 (job_ok E) vs rs cs -> NoDup (omap row_key vs) -> fetched_generating db vs ->
  rtc db_step db (db_after E db cs) /\
  (forall k, k ∉ omap row_key vs -> db_after E db cs !! k = db !! k) /\
  Forall2 (fun v r => exists k, row_key v = Some k /\
             db_after E db cs !! k = Some (status_of_result r)) vs rs.
Proof.
  intros Hu H. revert db. induction H as [|v r c vs rs cs Hj _ IH]; intros db Hnd Hg.
  { split_and!; [constructor|done|constructor]. }
  inversion Hg as [|? ? (k & Hk & Hk8 & Hdb) Hg']; subst.
  destruct (job_ok_apply E v r c db Hu Hj) as (k' & Hk' & Happ). rewrite Hk in Hk'.
  injection Hk' as <-. rewrite (omap_cons_Some _ _ _ _ Hk) in Hnd |- *. apply NoDup_cons in Hnd as [Hnin Hnd].
  unfold db_after. cbn [foldl]. rewrite Happ by (done || by rewrite Hdb).
  assert (Hg2 : fetched_generating (<[k := status_of_result r]> db) vs).
  { apply Forall_forall. intros v' Hv'.
    destruct (proj1 (Forall_forall _ _) Hg' v' Hv') as (k2 & Hk2 & Hk28 & Hdb2). exists k2.
    split_and!; [done|done|].
    rewrite lookup_insert_ne; [done|]. intros <-. apply Hnin. apply list_elem_of_omap; eauto. }
  destruct (IH _ Hnd Hg2) as (Hrtc & Hfr & Hfin). fold (db_after E). split_and!.
  - eapply rtc_l; [|exact Hrtc]. constructor 1 with Generating; [done|]. destruct r; constructor.
  - intros k2 Hk2. apply not_elem_of_cons in Hk2 as [Hne Hk2].
    rewrite Hfr by done. by rewrite lookup_insert_ne.
  - constructor; [|done]. exists k. split; [done|]. rewrite Hfr by done. apply lookup_insert_eq.
Qed.

Lemma fetched_generating_sublist (db : table) vs1 vs :
  vs1 `sublist_of` vs -> fetched_generating db vs -> fetched_generating db vs1.
Proof.
  unfold fetched_generating. rewrite !Forall_forall. intros Hs H v Hv.
  apply H. by eapply elem_of_sublist.
Qed.

(** Whatever PATCHes the database accepted out of the terminal PATCHes
    of some of the rows, the table took a run of the machine and only
    the fetched rows moved. *)
Lemma trace_refines E vs vs1 rs t (db : table) :
  utf8_ok (String.list_ascii_of_string (SUPABASE_URL E)) = true ->
  vs1 `sublist_of` vs -> Forall3 (job_ok E) vs1 rs (patch_calls t) ->
  NoDup (omap row_key vs) -> fetched_generating db vs ->
  rtc db_step db (db_of_trace E db t) /\
  (forall k, k ∉ omap row_key vs -> db_of_trace E db t !! k = db !! k).
Proof.
  intros Hu Hs1 Hf Hnd Hg.
  destruct (Forall3_sublist_r _ _ _ _ _ Hf (accepted_patches_sublist t)) as (vs2 & rs2 & Hs2 & Hf2).
  assert (Hs : vs2 `sublist_of` vs) by (by trans vs1).
  destruct (db_after_jobs E vs2 rs2 _ db Hu Hf2) as (Hrtc & Hfr & _).
  - eapply sublist_NoDup; [exact Hnd|]. by apply omap_sublist.
  - by eapply fetched_generating_sublist.
  - split; [done|]. intros k Hk. apply Hfr. intros Hin. apply Hk.
    eapply elem_of_sublist; [exact Hin|]. by apply omap_sublist.
Qed.

Section Refinement.
Context (E : env) (cwd : path) (o : Oracle).

(** The loop over fetched rows and the machine of the spec. *)
Lemma run_videos_refines_wp q vs r0 f0 w (db : table) :
  utf8_ok (String.list_ascii_of_string (SUPABASE_URL E)) = true ->
  NoDup (omap row_key vs) -> fetched_generating db vs ->
  wp o (run_videos E cwd q vs r0 f0) (refines_post E db vs r0 f0) w.
Proof.
  intros Hu Hnd Hg. eapply wp_mono; [apply run_videos_wp|]. intros [[rd fd]|e] w' t H.
  - destruct H as (rs & Hf & Hr & Hfd).
    destruct (trace_refines E vs vs rs t db Hu) as [Hrtc Hfr]; [done..|].
    split_and!; [done|done|]. intros Hall. exists rs. split_and!; [|done|done].
    unfold db_of_trace. rewrite Hall. by apply db_after_jobs.
  - destruct H as (n & rs & Hf).
    destruct (trace_refines E vs (take n vs) rs t db Hu) as [Hrtc Hfr];
      [apply sublist_take|done..|]. split_and!; [done|done|]. intros Hall. exists n, rs.
    assert (Hnd' : NoDup (omap row_key (take n vs)))
      by (eapply sublist_NoDup; [exact Hnd | apply omap_sublist, sublist_take]).
    assert (Hg' : fetched_generating db (take n vs))
      by (eapply fetched_generating_sublist; [apply sublist_take | exact Hg]).
    unfold db_of_trace. rewrite Hall.
    destruct (db_after_jobs E (take n vs) rs _ db Hu Hf Hnd' Hg') as (_ & Hfr' & Hst).
    split; [exact Hst|]. intros k Hk. apply Hfr'. intros Hin.
    rewrite <- (take_drop n vs), omap_app, NoDup_app in Hnd.
    destruct Hnd as (_ & Hdis & _). by apply (Hdis k Hin).
Qed.

(** C4: the job loop refines the state machine of the spec.  Started on
    fetched rows with distinct ids, all [generating] in the table, and
    with the project URL and the ids well-formed text (as every Python
    [str] is), the PATCHes the database accepts, whether the loop
    completes or raises, take the table by a run of
    [generating -> ready | failed] steps and change no row that was not
    fetched.  When every PATCH was accepted and the loop completes, every
    fetched row holds the terminal status of its job's outcome, and the
    counters the loop returns ([rendered], [failed]) are the numbers of
    rows it set [ready] and [failed]; when the loop raises, a prefix of
    the rows holds terminal statuses and every later row still waits. *)
Theorem run_videos_refines q vs r0 f0 w (db : table) :
  utf8_ok (String.list_ascii_of_string (SUPABASE_URL E)) = true ->
  NoDup (omap row_key vs) -> fetched_generating db vs ->
  wp o (run_videos E cwd q vs r0 f0) (refines_post E db vs r0 f0) w.
Proof. apply run_videos_refines_wp. Qed.

End Refinement.


Lemma run_videos_refines_witness :
  (utf8_ok (String.list_ascii_of_string (SUPABASE_URL demo_env)) = true /\
   NoDup (omap row_key demo_rows) /\ fetched_generating demo_table demo_rows) /\
  wp (demo_oracle demo_rows 200 200 204 0 false)
     (run_videos demo_env demo_cwd "l" demo_rows 0 0)
     (refines_post demo_env demo_table demo_rows 0 0) demo_world.
Proof.
  assert (Hnd : NoDup (omap row_key demo_rows)) by (apply (bool_decide_unpack _); vm_compute; exact I).
  assert (Hg : fetched_generating demo_table demo_rows)
    by (repeat constructor; eexists; split_and!; reflexivity).
  assert (Hu : utf8_ok (String.list_ascii_of_string (SUPABASE_URL demo_env)) = true) by reflexivity.
  split; [split_and!; [exact Hu | exact Hnd | exact Hg]|].
  apply (run_videos_refines demo_env demo_cwd _ "l" demo_rows 0 0 demo_world demo_table Hu Hnd Hg).
Defined.
