(* ===== verification/Invariant.v ===== *)
(** * Invariant: invariants of the world, and the file system stays a tree

    An invariant of the world is kept by a computation when, from a world
    where it holds and under any oracle of a given class, every outcome
    ends in a world where it holds ([keeps]).  Only a few operations
    change the world: [emit] (and so [print]), [urlopen],
    [subprocess.run], [write_text], [mkdir], [rmtree] and [mkdtemp].  The
    class [WorldInv] asks an invariant to be kept by exactly those (by
    [emit] of a printed line); every
    other operation and every combinator of the monad keeps any
    invariant, so each component of the script, and [main], keeps every
    instance.  [Effects.fs_wf] is one instance, for every oracle: the
    root is a directory and the parent of every other entry is a
    directory.  [Queue] gives another. *)

From S2P Require Import Prelude Effects Wp Supabase Render PyNum Probe Pipeline Cli.
Local Open Scope py_scope.

(** [m] keeps [P] under every oracle [OK] allows. *)
Definition keeps {A} (OK : Oracle -> Prop) (P : World -> Prop) (m : M A) : Prop :=
  forall o w, OK o -> P w -> wp o (m) (fun _ w' _ => P w') w.

(** What an invariant asks of the operations that change the world;
    of the process runs, only of those in [Procs]. *)
Class WorldInv (OK : Oracle -> Prop) (Procs : proc_call -> Prop) (P : World -> Prop) : Prop := {
  inv_print err s : keeps OK P (emit (EPrint err s));
  inv_urlopen c : keeps OK P (urlopen c);
  inv_subprocess_run c : Procs c -> keeps OK P (subprocess_run c);
  inv_write_text p s : keeps OK P (write_text p s);
  inv_mkdir_exist_ok p : keeps OK P (mkdir_exist_ok p);
  inv_rmtree d : d <> [] -> keeps OK P (rmtree d);
  inv_mkdtemp o w : OK o -> P w ->
    wp o mkdtemp (fun r w' _ => P w' /\ forall d, r = Ok d -> d <> []) w
}.

(** The file system is a tree, under any oracle. *)
Definition keeps_wf {A} (m : M A) : Prop := keeps (fun _ => True) (fun w => fs_wf (w_fs w)) m.

(** [fs_wf] as a test that runs. *)
Definition fs_wfb (fs : fsys) : bool :=
  bool_decide (fs !! [] = Some NDir) &&
  forallb (fun q => bool_decide (q = []) || fs_is_dir fs (removelast q)) (fs_paths fs).

(** The runs of [manim] among the events [t] all have the working
    directory [d]. *)
Definition manim_in (d : path) (t : list event) : Prop :=
  forall c rep, EProc c rep ∈ t -> head (p_argv c) = Some "manim" -> p_cwd c = Some d.

(** A process call that keeps it: not [manim], or [manim] in [d]. *)
Definition manim_call_in (d : path) (c : proc_call) : Prop :=
  head (p_argv c) = Some "manim" -> p_cwd c = Some d.

(** The events after the trace [t0] run [manim] only in [d]. *)
Definition manim_in_after (d : path) (t0 : list event) (w : World) : Prop :=
  exists t, w_trace w = t0 ++ t /\ manim_in d t.

(** The runs of [manim] among the events [t] of a job that went from
    [w] to [w'] are scoped: each ran in a directory directly under
    [TEMPDIR] that did not exist in [w] and of which nothing is left in
    [w']. *)
Definition manim_scoped (w w' : World) (t : list event) : Prop :=
  forall c rep, EProc c rep ∈ t -> head (p_argv c) = Some "manim" ->
    exists d, p_cwd c = Some d /\ removelast d = TEMPDIR /\ w_fs w !! d = None /\
      forall p, is_prefix d p = true -> w_fs w' !! p = None.

(** ** Paths and their ancestors *)

Lemma removelast_snoc_eq (p : path) : p <> [] -> exists x, p = removelast p ++ [x].
Proof. intros Hp. exists (List.last p ""). by apply app_removelast_last. Qed.

Lemma removelast_ne (p : path) : p <> [] -> removelast p <> p.
Proof.
  intros Hp Heq. destruct (removelast_snoc_eq p Hp) as [x Hx].
  rewrite Heq in Hx. apply (f_equal length) in Hx. rewrite length_app in Hx. simpl in Hx. lia.
Qed.

Lemma ancestors_spec p q : q ∈ ancestors p <-> exists r, r <> [] /\ p = q ++ r.
Proof.
  revert q. induction p as [|a p IH]; intros q; simpl.
  - split; [by intros ?%elem_of_nil|]. intros (r & Hr & Hq).
    by destruct q, r.
  - rewrite elem_of_cons, list_elem_of_In, in_map_iff. split.
    + intros [-> | (q' & <- & Hq'%list_elem_of_In%IH)]; [by exists (a :: p)|].
      destruct Hq' as (r & Hr & ->). by exists r.
    + intros (r & Hr & Heq). destruct q as [|b q]; [by left|]. right.
      injection Heq as -> ->. exists q. split; [done|]. apply list_elem_of_In, IH. eauto.
Qed.

Lemma ancestors_removelast p q :
  q ∈ ancestors p -> q <> [] -> removelast q ∈ ancestors p.
Proof.
  rewrite !ancestors_spec. intros (r & Hr & ->) Hq.
  destruct (removelast_snoc_eq q Hq) as [x Hx]. exists ([x] ++ r). split; [done|].
  rewrite app_assoc, <- Hx. done.
Qed.

Lemma ancestors_parent p : p <> [] -> removelast p ∈ ancestors p.
Proof.
  intros Hp. apply ancestors_spec. destruct (removelast_snoc_eq p Hp) as [x Hx].
  by exists [x].
Qed.

Lemma ancestors_not_self p : p ∉ ancestors p.
Proof.
  rewrite ancestors_spec. intros (r & Hr & Heq).
  apply Hr, (app_inv_head p). by rewrite app_nil_r.
Qed.

Lemma ancestors_root p : p <> [] -> [] ∈ ancestors p.
Proof. intros Hp. apply ancestors_spec. by exists p. Qed.

Lemma lookup_ancestors_dirs (fs : fsys) l q :
  foldr (fun q m => <[q := NDir]> m) fs l !! q =
    if bool_decide (q ∈ l) then Some NDir else fs !! q.
Proof.
  induction l as [|x l IH]; simpl; [done|].
  rewrite lookup_insert, IH. destruct (decide (x = q)) as [->|Hne].
  - rewrite bool_decide_true; [done | set_solver].
  - do 2 case_bool_decide; set_solver.
Qed.

Lemma fs_is_dir_lookup (fs : fsys) p : fs_is_dir fs p = true -> fs !! p = Some NDir.
Proof. unfold fs_is_dir. by destruct (fs !! p) as [[]|]. Qed.

Lemma fs_paths_elem (fs : fsys) q n : fs !! q = Some n -> q ∈ fs_paths fs.
Proof.
  intros Hq. unfold fs_paths. apply list_elem_of_fmap. exists (q, n).
  split; [done|]. by apply elem_of_map_to_list.
Qed.

Lemma fs_wfb_spec (fs : fsys) : fs_wfb fs = true <-> fs_wf fs.
Proof.
  unfold fs_wfb, fs_wf. rewrite andb_true_iff, bool_decide_eq_true, forallb_forall.
  apply and_iff_compat_l. split.
  - intros H q n Hq Hq0. apply fs_is_dir_lookup.
    specialize (H q (proj1 (list_elem_of_In _ _) (fs_paths_elem fs q n Hq))).
    apply orb_true_iff in H as [H%bool_decide_eq_true|H]; done.
  - intros H q Hin%list_elem_of_In. apply orb_true_iff.
    destruct (decide (q = [])) as [->|Hq0]; [left; by apply bool_decide_eq_true|right].
    destruct (fs_paths_lookup fs q Hin) as [n Hq]. unfold fs_is_dir. by rewrite (H q n Hq Hq0).
Qed.

(** ** The operations that change the file system *)

Lemma fs_wf_insert (fs : fsys) p n :
  fs_wf fs -> p <> [] -> fs !! removelast p = Some NDir ->
  (fs !! p = Some NDir -> n = NDir) -> fs_wf (<[p := n]> fs).
Proof.
  intros [Hroot Hwf] Hp Hpar Hdir. split; [by rewrite lookup_insert_ne|].
  intros q m Hq Hq0. rewrite lookup_insert in Hq |- *.
  destruct (decide (p = q)) as [<-|Hne].
  - rewrite decide_False; [done|]. intros Heq. by apply (removelast_ne p).
  - destruct (decide (p = removelast q)) as [->|Hne2]; [|eauto].
    rewrite (Hdir (Hwf q m Hq Hq0)). done.
Qed.

Lemma is_prefix_removelast d q : is_prefix d (removelast q) = true -> is_prefix d q = true.
Proof.
  rewrite !is_prefix_app. intros [r Hr]. destruct (decide (q = [])) as [->|Hq].
  - exists []. simpl in Hr. by destruct d.
  - destruct (removelast_snoc_eq q Hq) as [x Hx]. exists (r ++ [x]).
    by rewrite Hx, Hr, app_assoc.
Qed.

Lemma fs_wf_rmtree (fs : fsys) d : fs_wf fs -> d <> [] -> fs_wf (fs_rmtree fs d).
Proof.
  intros [Hroot Hwf] Hd. unfold fs_rmtree. split.
  - apply map_lookup_filter_Some. split; [done|]. by destruct d.
  - intros q m [Hq Hp]%map_lookup_filter_Some Hq0. apply map_lookup_filter_Some.
    split; [eauto|]. simpl in *. destruct (is_prefix d (removelast q)) eqn:E; [|done].
    apply is_prefix_removelast in E. congruence.
Qed.

Lemma fs_wf_create (fs : fsys) pn : fs_wf fs -> fs_wf (fs_create fs pn).
Proof.
  destruct pn as [p n]. intros Hwf. unfold fs_create.
  destruct (fs_can_create fs p n) eqn:Hc; [|done].
  apply andb_prop in Hc as [[Hp _]%andb_prop Hm].
  apply negb_true_iff, bool_decide_eq_false in Hp.
  set (F := foldr (fun q m => <[q := NDir]> m) fs (ancestors p)).
  assert (HF : fs_wf F).
  { destruct Hwf as [Hroot Hwf]. unfold F. split.
    - rewrite lookup_ancestors_dirs, bool_decide_true; [done | by apply ancestors_root].
    - intros q m Hq Hq0. rewrite lookup_ancestors_dirs in Hq |- *. case_bool_decide as Hin.
      + rewrite bool_decide_true; [done | by apply ancestors_removelast].
      + case_bool_decide; eauto. }
  apply fs_wf_insert; [done | done | |].
  - unfold F. rewrite lookup_ancestors_dirs, bool_decide_true; [done | by apply ancestors_parent].
  - unfold F. rewrite lookup_ancestors_dirs, bool_decide_false by apply ancestors_not_self.
    intros Hd. rewrite Hd in Hm. by destruct n.
Qed.

Lemma fs_wf_create_all (fs : fsys) l : fs_wf fs -> fs_wf (fs_create_all fs l).
Proof.
  unfold fs_create_all. revert fs. induction l as [|pn l IH]; intros fs Hwf; simpl; [done|].
  apply IH, fs_wf_create, Hwf.
Qed.

(** ** Every computation of the script keeps every invariant *)

Create HintDb inv discriminated.

Section Keeps.
Context {OK : Oracle -> Prop} {P : World -> Prop}.

Lemma keeps_ret {A} (a : A) : keeps OK P (ret a).
Proof. intros o w _ Hw. by apply wp_ret. Qed.

Lemma keeps_raise {A} e : keeps OK P (@raise A e).
Proof. intros o w _ Hw. by apply wp_raise. Qed.

Lemma keeps_bind {A B} (m : M A) (k : A -> M B) :
  keeps OK P m -> (forall a, keeps OK P (k a)) -> keeps OK P (bind m k).
Proof.
  intros Hm Hk o w Ho Hw. apply wp_bind. eapply wp_mono; [by apply Hm|].
  intros [a|e] w1 t1 H1; [by apply Hk | done].
Qed.

Lemma keeps_try_except {A} (m : M A) h :
  keeps OK P m -> (forall e, match h e with Some k => keeps OK P k | None => True end) ->
  keeps OK P (try_except m h).
Proof.
  intros Hm Hh o w Ho Hw. apply wp_try_except. eapply wp_mono; [by apply Hm|].
  intros [a|e] w1 t1 H1; [done|]. specialize (Hh e). destruct (h e); [by apply Hh | done].
Qed.

Lemma keeps_try_finally {A} (m : M A) fin :
  keeps OK P m -> keeps OK P fin -> keeps OK P (try_finally m fin).
Proof.
  intros Hm Hf o w Ho Hw. apply wp_try_finally. eapply wp_mono; [by apply Hm|].
  intros r w1 t1 H1. eapply wp_mono; [by apply Hf|]. by intros [] w2 t2.
Qed.

(** The operations that only read the world keep it as it is. *)
Ltac read_prim := intros ?o ?w ?Ho ?Hw; wp_auto; try done.

Lemma keeps_bytes_decode b : keeps OK P (bytes_decode b).
Proof. read_prim. Qed.

Lemma keeps_path_exists p : keeps OK P (path_exists p).
Proof. read_prim. Qed.

Lemma keeps_read_bytes p : keeps OK P (read_bytes p).
Proof. unfold read_bytes. read_prim. Qed.

Lemma keeps_iterdir p : keeps OK P (iterdir p).
Proof. unfold iterdir. read_prim. Qed.

Lemma keeps_glob_star p s : keeps OK P (glob_star p s).
Proof. unfold glob_star. read_prim. Qed.

Lemma keeps_rglob_star p s : keeps OK P (rglob_star p s).
Proof. unfold rglob_star. read_prim. Qed.

Lemma keeps_getitem v k : keeps OK P (getitem v k).
Proof. intros o w _ Hw. by apply wp_getitem. Qed.

Context {Procs : proc_call -> Prop} `{!WorldInv OK Procs P}.

Lemma keeps_print s : keeps OK P (print s).
Proof. apply inv_print. Qed.

Lemma keeps_eprint s : keeps OK P (eprint s).
Proof. apply inv_print. Qed.

Lemma keeps_with_tempdir {A} (body : path -> M A) :
  (forall d, keeps OK P (body d)) -> keeps OK P (with_tempdir body).
Proof.
  intros Hb o w Ho Hw. unfold with_tempdir. apply wp_bind.
  eapply wp_mono; [by apply inv_mkdtemp|]. intros [d|e] w1 t1 [H1 Hd]; [|done].
  apply wp_try_finally. eapply wp_mono; [by apply Hb|]. intros r w2 t2 H2.
  eapply wp_mono; [apply inv_rmtree; [by apply Hd | done | done]|]. by intros [] w3 t3.
Qed.

End Keeps.

#[export] Hint Resolve keeps_ret keeps_raise keeps_print keeps_eprint inv_urlopen keeps_bytes_decode
  keeps_path_exists keeps_read_bytes keeps_iterdir keeps_glob_star keeps_rglob_star keeps_getitem
  inv_subprocess_run inv_write_text inv_mkdir_exist_ok : inv.

(** [inv_auto]: through the combinators and the case analyses of the
    program text, down to the operations of the database [inv]. *)
Ltac inv_auto :=
  repeat first [ lazymatch goal with |- keeps _ _ _ => fail | |- forall _, _ => intros end
               | solve [eauto with inv]
               | lazymatch goal with
                 | |- keeps _ _ (bind _ _) => apply keeps_bind
                 | |- keeps _ _ (try_except _ _) => apply keeps_try_except
                 | |- keeps _ _ (try_finally _ _) => apply keeps_try_finally
                 | |- keeps _ _ (with_tempdir _) => apply keeps_with_tempdir
                 end
               | exact I
               | match goal with H : _ = _ |- _ => discriminate H end
               | match goal with H : Some _ = Some _ |- _ => injection H as <- end
               | progress cbv beta zeta
               | case_match ].

(** ** The components *)

Section Components.
Context {OK : Oracle -> Prop} {Procs : proc_call -> Prop} {P : World -> Prop} `{!WorldInv OK Procs P}.

Lemma keeps_supabase_request E m p b : keeps OK P (supabase_request E m p b).
Proof. unfold supabase_request. inv_auto. Qed.

Lemma keeps_supabase_upload E b k f ct : keeps OK P (supabase_upload E b k f ct).
Proof. unfold supabase_upload. inv_auto. Qed.

Lemma keeps_supabase_update_video E vid body : keeps OK P (supabase_update_video E vid body).
Proof. unfold supabase_update_video. inv_auto. Qed.

Lemma keeps_first_some {A B} (f : A -> M (option B)) l :
  (forall x, keeps OK P (f x)) -> keeps OK P (first_some f l).
Proof. intros Hf. induction l; simpl; inv_auto. Qed.

Lemma keeps_find_output d : keeps OK P (find_output d).
Proof. unfold find_output. inv_auto. apply keeps_first_some. inv_auto. Qed.

Lemma keeps_render_script s q d : Procs (manim_call q d) -> keeps OK P (render_script s q d).
Proof. intros Hm. unfold render_script, write_text_value. inv_auto. apply keeps_find_output. Qed.

Lemma keeps_get_video_duration p : Procs (ffprobe_call p) -> keeps OK P (get_video_duration p).
Proof. intros Hp. unfold get_video_duration. inv_auto. Qed.

Lemma keeps_generate_thumbnail v th : Procs (ffmpeg_call v th) -> keeps OK P (generate_thumbnail v th).
Proof. intros Hp. unfold generate_thumbnail. inv_auto. Qed.

Lemma keeps_on_render_failed E cwd vid : keeps OK P (on_render_failed E cwd vid).
Proof. unfold on_render_failed. inv_auto; apply keeps_supabase_update_video. Qed.

Lemma keeps_on_rendered E vid wd out :
  Procs (ffprobe_call out) -> Procs (ffmpeg_call out (wd // "thumb.jpg")) ->
  keeps OK P (on_rendered E vid wd out).
Proof.
  intros Hp Hf. unfold on_rendered. inv_auto;
    first [apply keeps_supabase_upload | apply keeps_supabase_update_video
          | by apply keeps_get_video_duration | by apply keeps_generate_thumbnail].
Qed.

(** The body of the [with] block of a job, in its directory [d]. *)
Lemma keeps_job_body E cwd q v vid d :
  Procs (manim_call q d) -> (forall p, Procs (ffprobe_call p)) -> (forall a b, Procs (ffmpeg_call a b)) ->
  keeps OK P (let* script := getitem v "manim_script" in
              let* output := render_script script q d in
              match output with
              | None => on_render_failed E cwd vid
              | Some out => on_rendered E vid d out
              end).
Proof.
  intros Hm Hp Hf. inv_auto; first [by apply keeps_render_script | apply keeps_on_render_failed | by apply keeps_on_rendered].
Qed.

Section AllProcs.
Hypothesis HProcs : forall c, Procs c.

Lemma keeps_process_video E cwd q v : keeps OK P (process_video E cwd q v).
Proof.
  unfold process_video. inv_auto;
    first [by apply keeps_render_script | apply keeps_on_render_failed | by apply keeps_on_rendered].
Qed.

Lemma keeps_run_videos E cwd q vs r f : keeps OK P (run_videos E cwd q vs r f).
Proof.
  revert r f. induction vs as [|v vs IH]; intros r f; simpl; inv_auto.
  apply keeps_process_video.
Qed.

(** ** The run *)

Lemma main_keeps E cwd a : keeps OK P (main E cwd a).
Proof. unfold main, py_iter. inv_auto; first [apply keeps_supabase_request | apply keeps_run_videos]. Qed.

Lemma script_keeps environ cwd argv0 argv : keeps OK P (script environ cwd argv0 argv).
Proof.
  unfold script, main_argv. destruct (parse_args argv) as [e|[|a]]; [inv_auto | inv_auto | apply main_keeps].
Qed.

End AllProcs.
End Components.

(** ** The file system is a tree *)

Lemma keeps_wf_subprocess_run c : keeps_wf (subprocess_run c).
Proof.
  intros o w _ Hw. apply wp_subprocess_run; [done|]. intros _.
  cbv zeta. apply fs_wf_create_all, Hw.
Qed.

Lemma fs_wf_not_dir_ne_root (fs : fsys) p : fs_wf fs -> fs !! p <> Some NDir -> p <> [].
Proof. intros [Hr _] Hp ->. contradiction. Qed.

(** A new entry in an existing directory, where no directory was. *)
Lemma fs_wf_insert_new (fs : fsys) p n :
  fs_wf fs -> fs !! p <> Some NDir -> fs_is_dir fs (removelast p) = true ->
  fs_wf (<[p := n]> fs).
Proof.
  intros Hw Hp Hpar. apply fs_wf_insert; [done | by eapply fs_wf_not_dir_ne_root | | done].
  by apply fs_is_dir_lookup.
Qed.

Ltac wf_prim := intros ?o ?w _ ?Hw; wp_auto; try done.

Lemma keeps_wf_write_text p s : keeps_wf (write_text p s).
Proof. unfold write_text. wf_prim; apply fs_wf_insert_new; congruence. Qed.

Lemma keeps_wf_mkdir_exist_ok p : keeps_wf (mkdir_exist_ok p).
Proof. unfold mkdir_exist_ok. wf_prim. apply fs_wf_insert_new; congruence. Qed.

Lemma keeps_wf_rmtree d : d <> [] -> keeps_wf (rmtree d).
Proof. intros Hd. unfold rmtree. wf_prim. by apply fs_wf_rmtree. Qed.

Lemma mkdtemp_go_wf fuel seq o w :
  fs_wf (w_fs w) ->
  wp o (mkdtemp_go fuel seq) (fun r w' _ => fs_wf (w_fs w') /\ forall d, r = Ok d -> d <> []) w.
Proof.
  revert seq w. induction fuel as [|fuel IH]; intros seq w Hw; simpl.
  - apply wp_raise. split; [done | by intros ? [=]].
  - wp_auto; [by apply IH | | done].
    split; [apply fs_wf_insert_new; [done | congruence | exact Heqb] | by intros ? [= <-]].
Qed.

Lemma fs_wf_inv : WorldInv (fun _ => True) (fun _ => True) (fun w => fs_wf (w_fs w)).
Proof.
  split.
  - intros err s o w _ Hw. by apply wp_emit.
  - intros c. wf_prim.
  - intros c _. apply keeps_wf_subprocess_run.
  - apply keeps_wf_write_text.
  - apply keeps_wf_mkdir_exist_ok.
  - apply keeps_wf_rmtree.
  - intros o w _ Hw. by apply mkdtemp_go_wf.
Qed.

#[export] Existing Instance fs_wf_inv.

(** The file system stays a tree through a whole run of the
    script: from a well-formed file system, every outcome of the run
    (whatever the command line, the servers and the tools; a parser
    error, the help, a normal end or an uncaught exception) leaves the
    root a directory and the parent of every entry a directory. *)
Theorem script_keeps_fs_tree environ cwd argv0 argv o w :
  fs_wf (w_fs w) -> wp o (script environ cwd argv0 argv) (fun _ w' _ => fs_wf (w_fs w')) w.
Proof. intros Hw. by apply (script_keeps (OK := fun _ => True) (Procs := fun _ => True) (fun _ => I)). Qed.

(** ** The directory of a job *)

(** [tempfile.mkdtemp] leaves the trace as it is and returns a
    non-root path. *)
Lemma mkdtemp_go_keeps fuel seq o w :
  wp o (mkdtemp_go fuel seq) (fun r w' _ => w_trace w' = w_trace w /\ forall d, r = Ok d -> d <> []) w.
Proof.
  revert seq w. induction fuel as [|fuel IH]; intros seq w; simpl.
  - apply wp_raise. split; [done | by intros ? [=]].
  - wp_auto; [eapply wp_mono; [apply IH|]; by intros r w' t [-> ?] | | done].
    split; [done | by intros ? [= <-]].
Qed.

Lemma manim_in_app d t1 t2 : manim_in d t1 -> manim_in d t2 -> manim_in d (t1 ++ t2).
Proof. intros H1 H2 c rep Hin. rewrite elem_of_app in Hin. destruct Hin as [Hin|Hin]; [exact (H1 c rep Hin) | exact (H2 c rep Hin)]. Qed.

Lemma manim_in_after_snoc d t0 w fs e :
  manim_in_after d t0 w -> manim_in d [e] -> manim_in_after d t0 (mkWorld fs (w_trace w ++ [e])).
Proof.
  intros (t & Ht & Hm) He. exists (t ++ [e]). cbn [w_trace]. rewrite Ht, app_assoc.
  split; [done | by apply manim_in_app].
Qed.

Lemma manim_in_other d e : (forall c rep, e <> EProc c rep) -> manim_in d [e].
Proof. intros He c rep Hin%list_elem_of_singleton. by destruct (He c rep (eq_sym Hin)). Qed.

(** Running [manim] only in [d] after [t0] is an invariant of every
    computation whose process runs are [manim] in [d] or other tools. *)
Lemma job_inv d t0 : WorldInv (fun _ => True) (manim_call_in d) (manim_in_after d t0).
Proof.
  split.
  - intros err s o w _ Hw. apply wp_emit. apply manim_in_after_snoc; [done|]. by apply manim_in_other.
  - intros c o w _ Hw. apply wp_urlopen. apply manim_in_after_snoc; [done|]. by apply manim_in_other.
  - intros c Hc o w _ Hw. apply wp_subprocess_run; [done|]. intros _. cbv zeta.
    apply manim_in_after_snoc; [done|]. intros c' rep [= -> _]%list_elem_of_singleton. exact Hc.
  - intros p s o w _ Hw. unfold write_text. wp_auto; done.
  - intros p o w _ Hw. unfold mkdir_exist_ok. wp_auto; done.
  - intros d' _ o w _ Hw. unfold rmtree. wp_auto; done.
  - intros o w _ Hw. eapply wp_mono; [apply mkdtemp_go_keeps|].
    intros r w' t [Ht Hd]. split; [|done]. destruct Hw as (t1 & H1 & H2). exists t1. by rewrite Ht.
Qed.

(** C8: the job directory (lines 189-191, spec sections 3 and 5):
    every run of [manim] of a job has as working directory a
    directory of [/tmp] that did not exist when the job started, and
    that directory, with everything below it, no longer exists when the
    job ends, whatever its outcome (a normal end, a failed render, or
    an exception); so a job never sees the files of an earlier job, and
    leaves none behind. *)
Theorem process_video_scoped_workdir E cwd q v o w :
  wp o (process_video E cwd q v) (fun r w' t => manim_scoped w w' t) w.
Proof.
  unfold manim_scoped, process_video. apply wp_bind, wp_getitem;
    [intros vid _ | intros e _; intros ? ? ?%not_elem_of_nil; done].
  cbv beta match. apply wp_bind, wp_emit. cbv beta match.
  unfold with_tempdir. apply wp_bind, wp_mkdtemp.
  2:{ intros e w' _. cbv beta match. intros c rep Hin.
      cbn [app] in Hin. apply list_elem_of_singleton in Hin. discriminate. }
  intros d Hfresh Htmp. cbv beta match. apply wp_try_finally.
  set (w0 := mkWorld (<[d := NDir]> (w_fs w)) (w_trace w ++ [EPrint false (NL +:+ "--- Rendering " +:+ py_str vid +:+ " ---")])).
  eapply wp_mono.
  { apply wp_trace.
    apply (@keeps_job_body (fun _ => True) (manim_call_in d) (manim_in_after d (w_trace w0))
             (job_inv d (w_trace w0)) E cwd q v vid d); [by intros _ | by intros p [=] | by intros a b [=] | done |].
    exists []. split; [by rewrite app_nil_r | by intros ? ? ?%not_elem_of_nil]. }
  intros r w2 t2 [(tb & Hb & Hm) Ht2]. rewrite Ht2 in Hb. apply app_inv_head in Hb as <-.
  apply wp_rmtree. cbv beta match. destruct r; cbn [w_fs];
    intros c rep Hin Hc; exists d; (split_and!; [| done | done | by intros p Hp; apply fs_rmtree_lookup]);
    rewrite !app_nil_r, !app_nil_l, elem_of_app, list_elem_of_singleton in Hin;
    (destruct Hin as [[=] | Hin]; by apply (Hm c rep)).
Qed.

