(* ===== verification/Queue.v ===== *)
(** * Queue: the server's queue of jobs, and repeated runs that drain it

    The spec runs the script against a table [videos] whose rows wait in
    status [generating] (section 3); each run fetches at most [--limit]
    of them (the Job Fetcher, [Pipeline.fetch_path]: status
    [generating], [manim_script] not null) and ends every fetched job
    with a terminal PATCH.  This file models the server's side of one
    run, from PostgREST's documented behaviour (not code of the
    repository): the table as a [store], the rows a fetch returns
    ([queue], [fetch_rows]) as the JSON text [json.dumps] would print,
    and a server ([server_oracle]) that answers a GET of the table by
    evaluating its query string ([parse_param], [run_query]), so the
    filter the script writes is checked against the queue, and accepts
    every PATCH.  It shows
    that a run of [main] that completes removes the first [--limit]
    waiting rows from the queue and changes nothing else, and, by
    induction on the runs, that repeated completing runs empty the queue
    after [ceil(length queue / limit)] runs: the liveness of the job
    queue.  The invariant that every PATCH was accepted is an instance
    of [Invariant.WorldInv], so the whole of [main] keeps it. *)

From S2P Require Import Prelude Utf8 Effects Wp Supabase PyNum PyJson Json JsonAgree Pipeline Jobs Invariant.
Local Open Scope py_scope.

(** The table [videos]: the order in which the server returns rows, the
    [status] column, and the two other columns the fetch selects
    ([content_element_id], and [manim_script], [None] for NULL). *)
Record store := Store {
  st_order : list string;
  st_status : table;
  st_element : string -> string;
  st_script : string -> option string
}.

(** The rows the fetch filter selects, in the server's order. *)
Definition queue (st : store) : list string :=
  filter (fun k => st_status st !! k = Some Generating /\ is_Some (st_script st k)) (st_order st).

(** A row as [select=id,content_element_id,manim_script] returns it. *)
Definition row_json (st : store) (k : string) : json :=
  JObj [("id", JStr k); ("content_element_id", JStr (st_element st k));
        ("manim_script", match st_script st k with Some s => JStr s | None => JNull end)].

(** The reply to the fetch with [limit=n]: the first [n] rows of the
    queue. *)
Definition fetch_rows (st : store) (n : nat) : list json := map (row_json st) (take n (queue st)).

(** ** The query of a GET, as PostgREST reads it

    The query string of [GET /rest/v1/videos?<query>] is a list of
    parameters separated by [&]: [status=eq.<s>] keeps the rows of
    status [s], [manim_script=not.is.null] the rows with a script,
    [limit=<digits>] the first rows, and [select=<c>,<c>,...] names the
    columns of each row returned, in that order.  Any other parameter,
    or a column the store does not hold, gets [400 Bad Request]. *)

(** [l.split(c)] on a list of characters. *)
Fixpoint split_at (c : ascii) (l : list ascii) : list (list ascii) :=
  match l with
  | [] => [[]]
  | x :: r =>
      if Ascii.eqb x c then [] :: split_at c r
      else match split_at c r with
           | p :: ps => (x :: p) :: ps
           | [] => [[x]]
           end
  end.

(** The rest of [l] after the prefix [p], if [l] starts with it. *)
Fixpoint list_strip_prefix (p l : list ascii) : option (list ascii) :=
  match p, l with
  | [], _ => Some l
  | x :: p', y :: l' => if Ascii.eqb x y then list_strip_prefix p' l' else None
  | _, _ => None
  end.

Inductive qparam :=
| QStatus (s : job_status)
| QScriptNotNull
| QLimit (n : nat)
| QSelect (cols : list string).

(** A non-negative decimal number. *)
Definition digits_nat (l : list ascii) : option nat :=
  if bool_decide (l <> []) && forallb is_digit l then Some (Z.to_nat (digits_val l)) else None.

Definition parse_param (p : list ascii) : option qparam :=
  match list_strip_prefix (String.list_ascii_of_string "status=eq.") p with
  | Some v => QStatus <$> status_of_text (String.string_of_list_ascii v)
  | None =>
  if bool_decide (p = String.list_ascii_of_string "manim_script=not.is.null") then Some QScriptNotNull else
  match list_strip_prefix (String.list_ascii_of_string "limit=") p with
  | Some v => QLimit <$> digits_nat v
  | None =>
  match list_strip_prefix (String.list_ascii_of_string "select=") p with
  | Some v => Some (QSelect (map String.string_of_list_ascii (split_at ","%char v)))
  | None => None
  end end end.

(** The value of column [col] of row [k]. *)
Definition column (st : store) (k col : string) : option json :=
  if String.eqb col "id" then Some (JStr k)
  else if String.eqb col "content_element_id" then Some (JStr (st_element st k))
  else if String.eqb col "manim_script" then
    Some (match st_script st k with Some s => JStr s | None => JNull end)
  else None.

(** Whether row [k] passes the filters of the query. *)
Definition row_matches (st : store) (ps : list qparam) (k : string) : bool :=
  forallb (fun p => match p with
                    | QStatus s => bool_decide (st_status st !! k = Some s)
                    | QScriptNotNull => bool_decide (is_Some (st_script st k))
                    | _ => true
                    end) ps.

(** The rows the query returns, in the table's order. *)
Definition run_query (st : store) (ps : list qparam) : option (list json) :=
  let ks := filter (fun k => row_matches st ps k = true) (st_order st) in
  let ks := match head (omap (fun p => match p with QLimit n => Some n | _ => None end) ps) with
            | Some n => take n ks
            | None => ks
            end in
  let cols := default ["id"; "content_element_id"; "manim_script"]
                (head (omap (fun p => match p with QSelect cs => Some cs | _ => None end) ps)) in
  mapM (fun k => JObj <$> mapM (fun c => pair c <$> column st k c) cols) ks.

(** The server during one run, on the table [st] as the run starts (the
    fetch is the first request of a run): it answers a GET of the table
    [videos] with the rows its query selects, every PATCH with
    [204 No Content], and leaves the storage requests and the tools to
    [tools]. *)
Definition server_oracle (E : env) (st : store) (tools : Oracle) : Oracle := {|
  o_http := fun t c =>
    if String.eqb (h_method c) "GET" then
      match list_strip_prefix (String.list_ascii_of_string (SUPABASE_URL E +:+ "/rest/v1/videos?"))
                         (String.list_ascii_of_string (h_url c)) with
      | Some q =>
          match mapM parse_param (split_at "&"%char q) ≫= run_query st with
          | Some rows => HStatus 200 (json_dumps (JArr rows))
          | None => HStatus 400 "{}"
          end
      | None => o_http tools t c
      end
    else if String.eqb (h_method c) "PATCH" then HStatus 204 ""
    else o_http tools t c;
  o_proc := o_proc tools;
  o_tmpname := o_tmpname tools |}.

Definition with_status (st : store) (db : table) : store :=
  Store (st_order st) db (st_element st) (st_script st).

(** The row ids are distinct, and the texts of the rows are
    well-formed UTF-8 (as every Python [str] is). *)
Definition store_ok (st : store) : Prop :=
  NoDup (st_order st) /\
  Forall (fun k => utf8_ok (String.list_ascii_of_string k) && utf8_ok (String.list_ascii_of_string (st_element st k)) &&
                   match st_script st k with Some s => utf8_ok (String.list_ascii_of_string s) | None => true end = true)
         (st_order st).

(** Oracles that accept every PATCH, and the worlds whose every PATCH
    was accepted. *)
Definition patch_2xx (o : Oracle) : Prop :=
  forall t c, h_method c = "PATCH" -> exists code raw, o_http o t c = HStatus code raw /\ is_2xx code = true.

Definition patches_accepted (w : World) : Prop := accepted_patches (w_trace w) = patch_calls (w_trace w).

(** One completed run of the script with [--limit n], a fresh process
    over any file system and any storage and tools, that takes the table
    from [st] to [st']. *)
Definition completed_run (E : env) (cwd : path) (a : args) (n : nat) (st st' : store) : Prop :=
  exists tools fs w', main E cwd a (server_oracle E st tools) (mkWorld fs []) = (Ok tt, w') /\
                      st' = with_status st (db_of_trace E (st_status st) (w_trace w')).

(** The deployment of [Pipeline] with a table of three rows: [a] and
    [b] wait with a script, [c] has no script. *)
Definition demo_store : store :=
  Store ["a"; "b"; "c"] (<["c" := Generating]> demo_table) (fun _ => "ce")
        (fun k => if String.eqb k "c" then None else Some "scene").

Definition demo_tools : Oracle := demo_oracle [] 200 200 204 0 false.

(** The table after a completed run with [--limit 1] from the machine of
    [Pipeline]. *)
Definition demo_run (st : store) : store :=
  with_status st (db_of_trace demo_env (st_status st)
    (w_trace (snd (main demo_env demo_cwd (Args "l" 1) (server_oracle demo_env st demo_tools)
                        (mkWorld (w_fs demo_world) []))))).

(** ** Every PATCH accepted is an invariant *)

Lemma accepted_patches_app t1 t2 : accepted_patches (t1 ++ t2) = accepted_patches t1 ++ accepted_patches t2.
Proof. apply omap_app. Qed.

Lemma patches_accepted_snoc w e :
  patches_accepted w -> accepted_patches [e] = patch_calls [e] ->
  patches_accepted (mkWorld (w_fs w) (w_trace w ++ [e])).
Proof. unfold patches_accepted. cbn [w_trace]. intros H1 H2. by rewrite accepted_patches_app, patch_calls_app, H1, H2. Qed.

Lemma patch_inv : WorldInv patch_2xx (fun _ => True) patches_accepted.
Proof.
  split.
  - intros err s o w _ Hw. apply wp_emit. by apply patches_accepted_snoc.
  - intros c o w Ho Hw. apply wp_urlopen. cbv zeta.
    assert (Hacc : patches_accepted (mkWorld (w_fs w) (w_trace w ++ [EHttp c (o_http o (w_trace w) c)]))).
    { apply patches_accepted_snoc; [done|]. unfold accepted_patches, patch_calls, http_calls. cbn.
      destruct (String.eqb_spec (h_method c) "PATCH") as [Hp|Hp].
      - destruct (Ho (w_trace w) c Hp) as (code & raw & -> & H2). cbn. rewrite Hp, H2. cbn.
        by rewrite decide_True.
      - rewrite decide_False by done. destruct (o_http o (w_trace w) c); [|done].
        done. }
    by destruct (o_http o (w_trace w) c).
  - intros c _ o w _ Hw. apply wp_subprocess_run.
    + by destruct (p_cwd c).
    + intros _. cbv zeta. apply (patches_accepted_snoc (mkWorld (fs_create_all (w_fs w) (pr_creates (o_proc o (w_trace w) c))) (w_trace w))); [done|]. done.
  - intros p s o w _ Hw. unfold write_text. wp_auto; done.
  - intros p o w _ Hw. unfold mkdir_exist_ok. wp_auto; done.
  - intros d _ o w _ Hw. unfold rmtree. wp_auto; done.
  - intros o w _ Hw. eapply wp_mono; [apply mkdtemp_go_keeps|]. intros r w' t [Ht Hd]. split; [unfold patches_accepted; by rewrite Ht | done].
Qed.

#[export] Existing Instance patch_inv.

(** ** The rows of a fetch *)

Lemma row_json_props st k :
  json_norm (row_json st k) = row_json st k /\ py_value (row_json st k) = row_json st k /\
  ints_fit (row_json st k) = true /\ json_depth (row_json st k) = 1 /\ row_key (row_json st k) = Some k.
Proof. unfold row_json. by destruct (st_script st k). Qed.

Lemma omap_row_key st ks : omap row_key (map (row_json st) ks) = ks.
Proof.
  induction ks as [|k ks IH]; [done|]. destruct (row_json_props st k) as (_ & _ & _ & _ & Hk).
  cbn -[row_key row_json]. by rewrite Hk, IH.
Qed.

Lemma queue_elem st k : k ∈ queue st -> st_status st !! k = Some Generating /\ is_Some (st_script st k) /\ k ∈ st_order st.
Proof. unfold queue. by intros [[? ?] ?]%list_elem_of_filter. Qed.

Lemma fetch_elem st n k : k ∈ take n (queue st) -> k ∈ queue st.
Proof. apply subseteq_take. Qed.

Lemma row_json_wire st k :
  store_ok st -> k ∈ st_order st -> json_wire_ok (row_json st k) = true.
Proof.
  intros [_ Hok] Hk. eapply Forall_forall in Hok; [|exact Hk].
  apply andb_prop in Hok as [[H1 H2]%andb_prop H3]. unfold row_json. cbn.
  rewrite H1, H2. destruct (st_script st k); cbn [json_wire_ok]; [rewrite H3|]; reflexivity.
Qed.

(** The reply to the fetch reads back as its rows. *)
Lemma loads_fetch st n :
  store_ok st -> json_loads (json_dumps (JArr (fetch_rows st n))) = inr (JArr (fetch_rows st n)).
Proof.
  intros Hst. assert (Hn : json_norm (JArr (fetch_rows st n)) = JArr (fetch_rows st n) /\
                           py_value (JArr (fetch_rows st n)) = JArr (fetch_rows st n)).
  { unfold fetch_rows. cbn [json_norm py_value]. rewrite !map_map.
    split; f_equal; apply map_ext; intros k; apply row_json_props. }
  destruct Hn as [E1 E2]. rewrite loads_dumps_read; [by rewrite E1, E2 | | rewrite E1 | rewrite E1].
  - cbn [json_wire_ok]. apply forallb_forall. intros v Hv%list_elem_of_In.
    unfold fetch_rows in Hv. apply list_elem_of_In, in_map_iff in Hv as (k & <- & Hk%list_elem_of_In).
    apply row_json_wire; [done|]. apply (queue_elem st k), (fetch_elem st n k), Hk.
  - cbn [ints_fit]. apply forallb_forall. intros v Hv%list_elem_of_In.
    unfold fetch_rows in Hv. apply list_elem_of_In, in_map_iff in Hv as (k & <- & _). apply row_json_props.
  - unfold fetch_rows. assert (Hd : json_depth (JArr (map (row_json st) (take n (queue st)))) <= 2).
    { induction (take n (queue st)) as [|k ks IH]; cbn [map json_depth foldr] in *; [lia|].
      rewrite (proj1 (proj2 (proj2 (proj2 (row_json_props st k))))). lia. }
    unfold JSON_DEPTH. lia.
Qed.

(** The fetched rows are distinct rows of the table, all waiting. *)
Lemma fetch_rows_generating st n :
  store_ok st -> NoDup (omap row_key (fetch_rows st n)) /\ fetched_generating (st_status st) (fetch_rows st n).
Proof.
  intros [Hnd Hok]. unfold fetch_rows. rewrite omap_row_key. split.
  - eapply sublist_NoDup; [|apply sublist_take]. unfold queue. by apply NoDup_filter.
  - apply Forall_forall. intros v Hv. apply list_elem_of_In, in_map_iff in Hv as (k & <- & Hk%list_elem_of_In).
    destruct (queue_elem st k (fetch_elem st n k Hk)) as (Hg & _ & Ho).
    exists k. split_and!; [apply row_json_props | | done].
    eapply Forall_forall in Hok; [|exact Ho]. by apply andb_prop in Hok as [[? _]%andb_prop _].
Qed.

(** ** The queue after a run *)

(** The rows of a filtered list after the first [n] of them stop
    satisfying the filter, the others unchanged. *)
Lemma filter_after (P P' : string -> Prop) `{!forall k, Decision (P k)} `{!forall k, Decision (P' k)} L n :
  NoDup L -> (forall k, k ∈ take n (filter P L) -> ~ P' k) ->
  (forall k, k ∈ L -> k ∉ take n (filter P L) -> (P' k <-> P k)) ->
  filter P' L = drop n (filter P L).
Proof.
  revert n. induction L as [|k L IH]; intros n Hnd H1 H2; [by destruct n|]. apply NoDup_cons in Hnd as [Hk Hnd].
  rewrite !filter_cons. rewrite filter_cons in H1, H2. destruct (decide (P k)) as [Hp|Hp].
  - destruct n as [|n].
    + assert (HP' : P' k) by (apply (H2 k); [set_solver | apply not_elem_of_nil | exact Hp]).
      rewrite decide_True by exact HP'. cbn [drop]. f_equal. apply (IH 0); [done | intros k' Hk'; by apply not_elem_of_nil in Hk' |].
      intros k' Hk' _. apply H2; [set_solver | apply not_elem_of_nil].
    + cbn [take drop] in H1, H2 |- *. rewrite decide_False by (apply H1; set_solver).
      apply IH; [done | intros k' Hk'; apply H1; set_solver |].
      intros k' Hk' Hn. apply H2; [set_solver|]. intros [-> | ?]%elem_of_cons; [done | by apply Hn].
  - assert (Hn : k ∉ take n (filter P L)) by (intros ?%subseteq_take%list_elem_of_filter; tauto).
    rewrite decide_False; [apply IH; [done | done |]|].
    + intros k' Hk' Hn'. apply H2; [set_solver | done].
    + rewrite (H2 k); [done | set_solver | done].
Qed.

Lemma with_status_id st : with_status st (st_status st) = st.
Proof. by destruct st. Qed.

Lemma take_nil_drop {A} n (l : list A) : take n l = [] -> drop n l = l.
Proof. destruct n, l; done. Qed.

(** A fetched row ends in a terminal status. *)
Lemma terminal_not_generating (db' : table) rows rs :
  Forall2 (fun v res => exists k, row_key v = Some k /\ db' !! k = Some (status_of_result res)) rows rs ->
  forall k, k ∈ omap row_key rows -> db' !! k <> Some Generating.
Proof.
  induction 1 as [|v res rows rs (k' & Hk' & Hs) _ IH]; intros k Hk; [by apply elem_of_nil in Hk|].
  cbn -[row_key] in Hk. rewrite Hk' in Hk. apply elem_of_cons in Hk as [-> | Hk]; [|by apply IH].
  rewrite Hs. by destruct res.
Qed.

(** The queue after the first [n] rows were given terminal statuses. *)
Lemma queue_after st (db' : table) n :
  NoDup (st_order st) ->
  (forall k, k ∈ take n (queue st) -> db' !! k <> Some Generating) ->
  (forall k, k ∉ take n (queue st) -> db' !! k = st_status st !! k) ->
  queue (with_status st db') = drop n (queue st).
Proof.
  intros Hnd H1 H2. unfold queue. cbn [with_status st_order st_status st_script].
  apply filter_after; [done | intros k Hk [? _]; by apply (H1 k) |].
  intros k _ Hk. by rewrite H2.
Qed.

Lemma no_patch_accepted t : patch_calls t = [] -> accepted_patches t = [].
Proof. intros H. pose proof (accepted_patches_sublist t) as Hs. rewrite H in Hs. by apply sublist_nil_r in Hs. Qed.

Lemma accepted_print b s : accepted_patches [EPrint b s] = [].
Proof. done. Qed.

Lemma patch_print b s : patch_calls [EPrint b s] = [].
Proof. done. Qed.

(** ** The server's reading of the fetch *)

Lemma split_at_app c l1 l2 : c ∉ l1 -> split_at c (l1 ++ c :: l2) = l1 :: split_at c l2.
Proof.
  induction l1 as [|x l1 IH]; intros Hc; cbn; [by rewrite Ascii.eqb_refl|].
  rewrite IH by set_solver. destruct (Ascii.eqb_spec x c); [set_solver | done].
Qed.

Lemma split_at_none c l : c ∉ l -> split_at c l = [l].
Proof.
  induction l as [|x l IH]; intros Hc; cbn; [done|].
  rewrite IH by set_solver. destruct (Ascii.eqb_spec x c); [set_solver | done].
Qed.

Lemma list_strip_prefix_app p l : list_strip_prefix p (p ++ l) = Some l.
Proof. induction p as [|x p IH]; cbn; [done|]. by rewrite Ascii.eqb_refl. Qed.

Lemma mapM_Some_map {A B} (f : A -> option B) g l :
  (forall x, f x = Some (g x)) -> mapM f l = Some (map g l).
Proof. intros H. induction l as [|x l IH]; [done|]. cbn. by rewrite H, IH. Qed.

(** The text of a limit [n] is the decimal number [n], without [&]. *)
Lemma pretty_nat_digits n :
  ("&"%char ∉ String.list_ascii_of_string (pretty (Z.of_nat n))) /\
  digits_nat (String.list_ascii_of_string (pretty (Z.of_nat n))) = Some n.
Proof.
  destruct (pretty_Z_digits (Z.of_nat n)) as (L & HL & Hd & Hne & Hv).
  rewrite (proj2 (Z.ltb_ge _ _)) in HL by lia. rewrite HL. cbn [app]. split.
  - intros Hin. eapply Forall_forall in Hd; [|exact Hin]. discriminate.
  - unfold digits_nat. rewrite bool_decide_true by done.
    assert (forallb is_digit L = true) as ->.
    { apply forallb_forall. intros x Hx%list_elem_of_In. by eapply Forall_forall in Hd. }
    cbn. f_equal. rewrite Hv. lia.
Qed.

Lemma parse_fetch_query n L :
  digits_nat L = Some n ->
  mapM parse_param [String.list_ascii_of_string "status=eq.generating";
                    String.list_ascii_of_string "manim_script=not.is.null";
                    String.list_ascii_of_string "limit=" ++ L;
                    String.list_ascii_of_string "select=id,content_element_id,manim_script"] =
  Some [QStatus Generating; QScriptNotNull; QLimit n; QSelect ["id"; "content_element_id"; "manim_script"]].
Proof. intros H. cbn -[digits_nat]. by rewrite H. Qed.

(** The fetch's filters select the queue. *)
Lemma run_query_fetch st n :
  run_query st [QStatus Generating; QScriptNotNull; QLimit n; QSelect ["id"; "content_element_id"; "manim_script"]] =
  Some (fetch_rows st n).
Proof.
  unfold run_query, fetch_rows, queue. cbn [omap head default].
  erewrite list_filter_iff.
  - apply mapM_Some_map. intros k. unfold row_json, column. cbn. by destruct (st_script st k).
  - intros k. unfold row_matches. cbn. rewrite !andb_true_r, andb_true_iff, !bool_decide_eq_true. done.
Qed.

(** ** One run against the server *)

Section Run.
Context (E : env) (cwd : path) (a : args) (n : nat) (st : store) (tools : Oracle).
Hypothesis Hu : SUPABASE_URL E <> "".
Hypothesis Hk : SUPABASE_KEY E <> "".
Hypothesis Hurl : utf8_ok (String.list_ascii_of_string (SUPABASE_URL E)) = true.
Hypothesis Hn : limit a = Z.of_nat n.
Hypothesis Hst : store_ok st.

Lemma server_fetch t :
  o_http (server_oracle E st tools) t (request_call E "GET" (fetch_path (limit a)) None) =
  HStatus 200 (json_dumps (JArr (fetch_rows st n))).
Proof.
  unfold server_oracle, request_call. cbn [o_http h_method h_url]. rewrite String.eqb_refl, Hn.
  destruct (pretty_nat_digits n) as [Hamp Hdig].
  set (L := String.list_ascii_of_string (pretty (Z.of_nat n))) in *.
  assert (Hq : String.list_ascii_of_string (SUPABASE_URL E +:+ "/rest/v1/" +:+ fetch_path (Z.of_nat n)) =
    String.list_ascii_of_string (SUPABASE_URL E +:+ "/rest/v1/videos?") ++
    (String.list_ascii_of_string "status=eq.generating" ++ "&"%char ::
     (String.list_ascii_of_string "manim_script=not.is.null" ++ "&"%char ::
      ((String.list_ascii_of_string "limit=" ++ L) ++ "&"%char ::
       String.list_ascii_of_string "select=id,content_element_id,manim_script")))).
  { unfold fetch_path. rewrite !list_ascii_app, <- app_assoc. reflexivity. }
  rewrite Hq, list_strip_prefix_app.
  rewrite !split_at_app, split_at_none;
    [| apply (bool_decide_unpack _); reflexivity
     | apply not_elem_of_app; split; [apply (bool_decide_unpack _); reflexivity | exact Hamp]
     | apply (bool_decide_unpack _); reflexivity
     | apply (bool_decide_unpack _); reflexivity].
  rewrite (parse_fetch_query n L Hdig). cbn [mbind option_bind]. by rewrite run_query_fetch.
Qed.

Lemma server_patch_2xx : patch_2xx (server_oracle E st tools).
Proof. intros t c Hc. unfold server_oracle. cbn [o_http]. rewrite Hc. cbn. by exists 204%Z, "". Qed.

Lemma main_run_queue_wp w :
  wp (server_oracle E st tools) (main E cwd a)
     (fun r _ t => accepted_patches t = patch_calls t -> r = Ok tt ->
        queue (with_status st (db_of_trace E (st_status st) t)) = drop n (queue st)) w.
Proof.
  unfold main. rewrite (proj2 (String.eqb_neq _ _) Hu), (proj2 (String.eqb_neq _ _) Hk). simpl.
  apply wp_bind. eapply wp_mono; [apply wp_trace, mkdir_exist_ok_silent|].
  intros [[]|e] w1 t1 [-> Htr]; [|done]. rewrite app_nil_r in Htr.
  apply wp_bind. eapply wp_mono; [apply supabase_request_spec|].
  intros r2 w2 t2 (H2 & _ & Hr). rewrite Htr, server_fetch in Hr. cbn [status_in existsb Z.eqb Pos.eqb orb] in Hr.
  rewrite loads_fetch in Hr by done. subst r2. cbv beta match.
  assert (Hp2 : patch_calls t2 = []) by (unfold patch_calls; rewrite H2; reflexivity).
  pose proof (no_patch_accepted t2 Hp2) as Ha2.
  destruct (fetch_rows st n) as [|v vs] eqn:Erows.
  - assert (json_truthy (JArr []) = false) as -> by reflexivity.
    apply wp_emit. intros _ _. unfold db_of_trace.
    rewrite app_nil_l, accepted_patches_app, Ha2, accepted_print. cbn [app db_after foldl].
    rewrite with_status_id. symmetry. apply take_nil_drop. unfold fetch_rows in Erows. by apply map_eq_nil in Erows.
  - assert (json_truthy (JArr (v :: vs)) = true) as -> by reflexivity.
    unfold py_iter. apply wp_bind, wp_ret. apply wp_bind, wp_emit. apply wp_bind.
    destruct (fetch_rows_generating st n Hst) as [Hnd Hg]. rewrite Erows in Hnd, Hg.
    eapply wp_mono; [by apply (run_videos_refines_wp E cwd _ (quality a) (v :: vs) 0 0 _ (st_status st))|].
    intros [[rd fd]|e] w3 t3 H3; [|done]. destruct H3 as (_ & Hunf & Hdone).
    wp_auto. match goal with H : accepted_patches _ = patch_calls _ |- _ => rename H into Hacc end.
    unfold db_of_trace in *.
    rewrite !app_nil_l, !accepted_patches_app, !patch_calls_app, Ha2, Hp2 in Hacc.
    rewrite !app_nil_l, !accepted_patches_app, Ha2.
    rewrite !patch_print, ?app_nil_l, ?app_nil_r in Hacc. rewrite !accepted_print, ?app_nil_l, ?app_nil_r.
    destruct (Hdone Hacc) as (rs & Hrs & _).
    pose proof (omap_row_key st (take n (queue st))) as Hkeys. unfold fetch_rows in Erows. rewrite Erows in Hkeys.
    apply queue_after; [apply Hst | |].
    + intros k Hin. apply (terminal_not_generating _ _ _ Hrs). by rewrite Hkeys.
    + intros k Hin. apply Hunf. by rewrite Hkeys.
Qed.

End Run.

(** ** Runs of the script *)

Lemma wp_run {A} o (m : M A) Q w r w' :
  wp o m Q w -> m o w = (r, w') -> exists t, w_trace w' = w_trace w ++ t /\ Q r w' t.
Proof. unfold wp. intros H E. by rewrite E in H. Qed.

Lemma store_ok_with_status st db : store_ok (with_status st db) <-> store_ok st.
Proof. done. Qed.

(** A completed run takes the first [n] rows off the queue. *)
Lemma completed_run_step E cwd a n st st' :
  SUPABASE_URL E <> "" -> SUPABASE_KEY E <> "" ->
  utf8_ok (String.list_ascii_of_string (SUPABASE_URL E)) = true ->
  limit a = Z.of_nat n -> store_ok st ->
  completed_run E cwd a n st st' -> queue st' = drop n (queue st) /\ store_ok st'.
Proof.
  intros Hu Hk Hurl Hn Hst (tools & fs & w' & Hrun & ->). split; [|done].
  pose proof (wp_and _ _ _ _ _
    (main_keeps (OK := patch_2xx) (Procs := fun _ => True) (P := patches_accepted) (fun _ => I) E cwd a (server_oracle E st tools)
       (mkWorld fs []) (server_patch_2xx E st tools) eq_refl)
    (main_run_queue_wp E cwd a n st tools Hu Hk Hurl Hn Hst (mkWorld fs []))) as H.
  destruct (wp_run _ _ _ _ _ _ H Hrun) as (t & Ht & Hacc & Hq). cbn in Ht. subst t.
  by apply Hq.
Qed.

Lemma completed_runs_queue E cwd a n k st st' :
  SUPABASE_URL E <> "" -> SUPABASE_KEY E <> "" ->
  utf8_ok (String.list_ascii_of_string (SUPABASE_URL E)) = true ->
  limit a = Z.of_nat n -> store_ok st ->
  nsteps (completed_run E cwd a n) k st st' -> queue st' = drop (k * n) (queue st).
Proof.
  intros Hu Hk Hurl Hn Hst Hs. induction Hs as [st|k st1 st2 st3 H12 _ IH]; [done|].
  destruct (completed_run_step E cwd a n st1 st2 Hu Hk Hurl Hn Hst H12) as [Hq Hst2].
  rewrite (IH Hst2), Hq, drop_drop. f_equal; lia.
Qed.

(** ** The claims *)

(** C11: One completed run of [main] with [--limit n] against the
    server removes exactly the first [n] rows of the queue of waiting
    jobs (status [generating] with a script), and leaves every other
    waiting row waiting: the table the run's PATCH requests leave
    behind has the queue [drop n (queue st)]. *)
Theorem main_run_queue E cwd a n st tools fs w' :
  SUPABASE_URL E <> "" -> SUPABASE_KEY E <> "" ->
  utf8_ok (String.list_ascii_of_string (SUPABASE_URL E)) = true ->
  limit a = Z.of_nat n -> store_ok st ->
  main E cwd a (server_oracle E st tools) (mkWorld fs []) = (Ok tt, w') ->
  queue (with_status st (db_of_trace E (st_status st) (w_trace w'))) = drop n (queue st).
Proof.
  intros Hu Hk Hurl Hn Hst Hrun.
  apply (completed_run_step E cwd a n st _ Hu Hk Hurl Hn Hst). by exists tools, fs, w'.
Qed.

(** C12: Liveness of the job queue: [k] completed runs with
    [--limit n], where [k * n] is at least the length of the queue,
    leave no job waiting; every row that waits with a script is
    eventually fetched and given a terminal status. *)
Theorem queue_drains E cwd a n k st st' :
  SUPABASE_URL E <> "" -> SUPABASE_KEY E <> "" ->
  utf8_ok (String.list_ascii_of_string (SUPABASE_URL E)) = true ->
  limit a = Z.of_nat n -> store_ok st -> length (queue st) <= k * n ->
  nsteps (completed_run E cwd a n) k st st' -> queue st' = [].
Proof.
  intros Hu Hk Hurl Hn Hst Hlen Hs.
  rewrite (completed_runs_queue E cwd a n k st st' Hu Hk Hurl Hn Hst Hs). by apply drop_ge.
Qed.

Lemma demo_store_ok : store_ok demo_store.
Proof.
  split; [apply (bool_decide_unpack _); vm_compute; reflexivity|].
  repeat (constructor; [vm_compute; reflexivity|]). constructor.
Qed.

Lemma demo_completed_run st :
  main demo_env demo_cwd (Args "l" 1) (server_oracle demo_env st demo_tools) (mkWorld (w_fs demo_world) []) =
  (Ok tt, snd (main demo_env demo_cwd (Args "l" 1) (server_oracle demo_env st demo_tools) (mkWorld (w_fs demo_world) []))) ->
  completed_run demo_env demo_cwd (Args "l" 1) 1 st (demo_run st).
Proof. intros H. eexists _, _, _. split; [exact H | reflexivity]. Qed.

(** The run from the machine of [Pipeline] fetches [a], the first of
    the two waiting rows, and leaves [b] waiting. *)
Lemma main_run_queue_witness : queue (demo_run demo_store) = ["b"].
Proof.
  transitivity (drop 1 (queue demo_store)); [|vm_compute; reflexivity].
  apply (main_run_queue demo_env demo_cwd (Args "l" 1) 1 demo_store demo_tools (w_fs demo_world));
    [discriminate | discriminate | vm_compute; reflexivity | reflexivity | apply demo_store_ok |].
  vm_compute; reflexivity.
Defined.

(** Two completed runs with [--limit 1] empty the queue of two rows. *)
Lemma queue_drains_witness : queue (demo_run (demo_run demo_store)) = [].
Proof.
  apply (queue_drains demo_env demo_cwd (Args "l" 1) 1 2 demo_store);
    [discriminate | discriminate | vm_compute; reflexivity | reflexivity | apply demo_store_ok
    | apply Nat.leb_le; vm_compute; reflexivity |].
  eapply nsteps_l; [apply demo_completed_run; vm_compute; reflexivity|].
  eapply nsteps_l; [apply demo_completed_run; vm_compute; reflexivity|].
  apply nsteps_O.
Defined.
